(** * Topology validation and range admission of the OpenLayers drawing tool

    Shallow embedding of the drawing-tool script of the repository
    (the file holding [startDrawing], [checkTopology] and [confirmRange]).
    The script exists in two variants that are kept side by side:

    - the first variant (lines 1-713), with the gap, adjacency, dangling-end
      and polygon-group checks, modelled in module [V1];
    - the annotated variant (lines 715-1772), with the per-vertex range
      admission and the domain and span rules of [confirmRange], modelled in
      module [V2].

    JavaScript numbers are IEEE-754 binary64 values, modelled by Rocq's
    primitive floats.  Exceptions are modelled by [result]; the two
    accumulators of [checkTopology] ([errors] and [errorFeatureIndices]) by
    an explicit state that survives a thrown exception, as a mutated array
    and Set do.  Turf.js and the OpenLayers projection are third-party code:
    their functions are fields of [turf.lib] and Section variables. *)

From Stdlib Require Import List String Bool Arith Lia ZArith Floats Sorted.
Import ListNotations.

Set Warnings "-inexact-float".

(* ================================================================== *)
(** ** JavaScript numbers *)
(* ================================================================== *)

Module Num.

Definition number : Set := float.

(** [a < b], [a > b], [a <= b], [a >= b] of JavaScript: every comparison
    with NaN is false. *)
Definition lt (a b : number) : bool := PrimFloat.ltb a b.
Definition gt (a b : number) : bool := PrimFloat.ltb b a.
Definition le (a b : number) : bool := PrimFloat.leb a b.
Definition ge (a b : number) : bool := PrimFloat.leb b a.

Definition isNaN (a : number) : bool := PrimFloat.is_nan a.

Definition Math_abs (a : number) : number := PrimFloat.abs a.

(** [Math.min(a, b)]: NaN if either is NaN, and [-0] below [+0]. *)
Definition Math_min (a b : number) : number :=
  if isNaN a || isNaN b then PrimFloat.nan
  else if lt a b then a
  else if lt b a then b
  else if PrimFloat.get_sign a then a else b.

(** [Math.max(a, b)]: NaN if either is NaN, and [+0] above [-0]. *)
Definition Math_max (a b : number) : number :=
  if isNaN a || isNaN b then PrimFloat.nan
  else if gt a b then a
  else if gt b a then b
  else if PrimFloat.get_sign a then b else a.

Definition Infinity : number := PrimFloat.infinity.

End Num.
Import Num.

(** The operands of a subtraction that are neither NaN nor infinite. *)
Definition SFfinite (x : SpecFloat.spec_float) : Prop :=
  match x with
  | SpecFloat.S754_zero _ | SpecFloat.S754_finite _ _ _ => True
  | _ => False
  end.

(* ================================================================== *)
(** ** Exceptions and the accumulator state *)
(* ================================================================== *)

(** A JavaScript call either returns a value or throws an error, of which
    the script reads only [error.message]. *)
Inductive result (A : Type) : Type :=
| Ok (a : A)
| Throw (message : string).
Arguments Ok {A} a.
Arguments Throw {A} message.

Definition is_Ok {A} (r : result A) : bool :=
  match r with Ok _ => true | Throw _ => false end.

(** [undefined[0]], [undefined.length], iterating [undefined]. *)
Definition TypeError : string := "TypeError: Cannot read properties of undefined".

(** Reading an identifier that nothing binds. *)
Definition ReferenceError : string := "ReferenceError: ol is not defined".

(* ================================================================== *)
(** ** OpenLayers data *)
(* ================================================================== *)

(** A coordinate [[x, y]]. *)
Definition coord : Set := (number * number)%type.

Module ol.

(** [ol/geom]: the three geometry classes the drawing tool creates
    ([startDrawing('Point' | 'LineString' | 'Polygon')]). *)
Inductive Geometry : Set :=
| Point (coordinates : coord)
| LineString (coordinates : list coord)
| Polygon (coordinates : list (list coord)).

(** [ol/Feature]: an object with an identity and a geometry. *)
Record Feature : Set := { ol_uid : nat; getGeometry : Geometry }.

(** [ol/source/Vector]: the features of the source, in the order of the
    array that [getFeatures()] returns. *)
Definition VectorSource : Set := list Feature.

Definition getFeatures (source : VectorSource) : list Feature := source.

Definition clear {A : Type} (source : list A) : list A := [].

(** [source.removeFeature(feature)] removes the feature object: features
    are compared by identity. *)
Definition removeFeature (f : Feature) (source : VectorSource) : VectorSource :=
  filter (fun g => negb (Nat.eqb (ol_uid g) (ol_uid f))) source.

(** A range extent [[minX, minY, maxX, maxY]]. *)
Record Extent : Set := { minX : number; minY : number; maxX : number; maxY : number }.

End ol.

(* ================================================================== *)
(** ** GeoJSON features and the Turf.js interface *)
(* ================================================================== *)

Module turf.

(** GeoJSON geometries.  [Point] may wrap [undefined] coordinates
    ([turf.point(coords1[0])] on an empty line); [MultiPolygon] only
    comes back from [intersect] and [union]. *)
Inductive Geometry : Set :=
| Point (coordinates : option coord)
| LineString (coordinates : list coord)
| Polygon (coordinates : list (list coord))
| MultiPolygon (coordinates : list (list (list coord))).

(** The library: which inputs the helper constructors reject, and the
    measurement and predicate functions, each of which may throw.
    Distances and lengths are in metres ([{units: 'meters'}]), areas in
    square metres. *)
Record lib : Type := {
  point_throws : option coord -> option string;
  lineString_throws : list coord -> option string;
  polygon_throws : list (list coord) -> option string;
  booleanValid : Geometry -> result bool;
  area : Geometry -> result number;
  length : Geometry -> result number;
  distance : Geometry -> Geometry -> result number;
  booleanOverlap : Geometry -> Geometry -> result bool;
  booleanCrosses : Geometry -> Geometry -> result bool;
  booleanIntersects : Geometry -> Geometry -> result bool;
  booleanContains : Geometry -> Geometry -> result bool;
  intersect : Geometry -> Geometry -> result (option Geometry);
  union : Geometry -> Geometry -> result (option Geometry);
  distanceToLine : Geometry -> Geometry -> result number;
  (** [turf.lineIntersect(a, b).features.length] *)
  lineIntersect : Geometry -> Geometry -> result nat
}.

(** [turf.point], [turf.lineString], [turf.polygon]: wrap the coordinates
    in a GeoJSON object, or throw. *)
Definition point (T : lib) (c : option coord) : result Geometry :=
  match point_throws T c with
  | Some e => Throw e
  | None => Ok (Point c)
  end.

Definition lineString (T : lib) (cs : list coord) : result Geometry :=
  match lineString_throws T cs with
  | Some e => Throw e
  | None => Ok (LineString cs)
  end.

Definition polygon (T : lib) (rings : list (list coord)) : result Geometry :=
  match polygon_throws T rings with
  | Some e => Throw e
  | None => Ok (Polygon rings)
  end.

End turf.

(** [geometry.constructor.name], stored as [properties.type]. *)
Inductive TypeName : Set := TPoint | TLineString | TPolygon | TMultiPolygon.

Definition TypeName_eqb (a b : TypeName) : bool :=
  match a, b with
  | TPoint, TPoint | TLineString, TLineString
  | TPolygon, TPolygon | TMultiPolygon, TMultiPolygon => true
  | _, _ => false
  end.

(** An element of [turfFeatures]: the GeoJSON geometry with
    [properties: { index: index + 1, type, originalIndex: index }].  The
    conversion builds the GeoJSON geometry of the same class as the
    OpenLayers one, so [properties.type] is read off the geometry. *)
Record TurfFeature : Set := {
  geometry : turf.Geometry;
  index : nat;
  originalIndex : nat
}.

Definition type (f : TurfFeature) : TypeName :=
  match geometry f with
  | turf.Point _ => TPoint
  | turf.LineString _ => TLineString
  | turf.Polygon _ => TPolygon
  | turf.MultiPolygon _ => TMultiPolygon
  end.

(* ================================================================== *)
(** ** Entries of the [errors] array *)
(* ================================================================== *)

(** One constructor per template literal pushed onto [errors]; the numbers
    are the values the template formats ([toFixed] only rounds them for
    display). *)
Inductive Message : Set :=
| PolygonSelfIntersects (i : nat)                  (* 面i: 多边形自相交 *)
| PolygonTooFewPoints (i : nat)                    (* 面i: 坐标点数不足 *)
| PolygonNotClosed (i : nat)                       (* 面i: 多边形未闭合 *)
| PolygonAreaTooSmall (i : nat)                    (* 面i: 面积过小 *)
| PolygonInvalid (i : nat) (message : string)      (* 面i: 多边形无效 - message *)
| LineTooFewPoints (i : nat)                       (* 线i: 线段至少需要2个点 *)
| LineTooShort (i : nat)                           (* 线i: 线段长度过短 *)
| LineDuplicatePoint (i : nat)                     (* 线i: 存在重复坐标点 *)
| PointsTooClose (i j : nat) (d : number)          (* 点i与点j距离过近（d米） *)
| Overlap (t1 : TypeName) (i : nat) (t2 : TypeName) (j : nat) (* t1 i 与 t2 j 存在重叠 *)
| LinesCross (i j : nat)                           (* 线i与线j存在交叉 *)
| LineCrossesPolygon (line poly : nat)             (* 线i与面j存在交叉 *)
| PolygonsIntersect (i j : nat) (a : number)       (* 面i与面j相交，相交面积约a平方米 *)
| PolygonsIntersectUnknownArea (i j : nat)         (* 面i与面j存在相交，但计算相交面积时出错 *)
| PolygonContains (outer inner : nat) (percent : number) (* 面i包含面j（包含p%的面积） *)
| PolygonsAdjacent (i j : nat)                     (* 面i与面j相邻 *)
| GapBetweenPolygons (i j : nat) (gapArea : number) (* 面i与面j之间存在缝隙，面积约g平方米 *)
| LineInsidePolygon (line poly : nat)              (* 线i完全在面j内 *)
| LineMeetsBoundary (line poly : nat) (n : nat)    (* 线i与面j边界有n个交点 *)
| DanglingEndpoint (i j : nat) (minDistance : number) (* 线i与线j存在潜在悬挂点（距离d米） *)
| SingleEndpointConnection (i j : nat)             (* 线i与线j只有一个端点连接，可能存在悬挂 *)
| SharedBoundaryPoints (i j : nat) (n : nat).      (* 面i与面j共享n个边界点 *)


(** The positions (counted from 1) an entry names, in the order it names
    them. *)
Definition involved (m : Message) : list nat :=
  match m with
  | PolygonSelfIntersects i | PolygonTooFewPoints i | PolygonNotClosed i
  | PolygonAreaTooSmall i | PolygonInvalid i _
  | LineTooFewPoints i | LineTooShort i | LineDuplicatePoint i => [i]
  | PointsTooClose i j _ | Overlap _ i _ j | LinesCross i j | LineCrossesPolygon i j
  | PolygonsIntersect i j _ | PolygonsIntersectUnknownArea i j | PolygonContains i j _
  | PolygonsAdjacent i j | GapBetweenPolygons i j _ | LineInsidePolygon i j
  | LineMeetsBoundary i j _ | DanglingEndpoint i j _ | SingleEndpointConnection i j
  | SharedBoundaryPoints i j _ => [i; j]
  end.

(** The self-check violations of the specification: those of one polygon
    or one line.  Every other entry concerns a pair. *)
Definition isSelfCheck (m : Message) : bool :=
  match m with
  | PolygonSelfIntersects _ | PolygonTooFewPoints _ | PolygonNotClosed _
  | PolygonAreaTooSmall _ | PolygonInvalid _ _
  | LineTooFewPoints _ | LineTooShort _ | LineDuplicatePoint _ => true
  | _ => false
  end.

(** The entries the script pushes without highlighting anything
    (`不是错误`: not errors). *)
Definition isNote (m : Message) : bool :=
  match m with
  | PolygonsAdjacent _ _ | LineInsidePolygon _ _ | SharedBoundaryPoints _ _ _ => true
  | _ => false
  end.

(** The positions an entry marks for highlighting: [hasError = true] marks
    the feature of the callback, which a coincidence names first; the
    pair loops mark both features of the pair; a note marks none. *)
Definition flagged (m : Message) : list nat :=
  match m with
  | PointsTooClose i _ _ => [i]
  | _ => if isNote m then [] else involved m
  end.

(** Entries saying that the points at positions [i] and [j] coincide, in
    either order; that lines [i] and [j] may dangle; that a gap lies
    between polygons [i] and [j]. *)
Definition isCoincidence (i j : nat) (m : Message) : bool :=
  match m with
  | PointsTooClose a b _ => ((a =? i) && (b =? j)) || ((a =? j) && (b =? i))
  | _ => false
  end.

Definition isDangling (i j : nat) (m : Message) : bool :=
  match m with
  | DanglingEndpoint a b _ => (a =? i) && (b =? j)
  | _ => false
  end.

Definition isGap (i j : nat) (m : Message) : bool :=
  match m with
  | GapBetweenPolygons a b _ => (a =? i) && (b =? j)
  | _ => false
  end.

Definition isNotClosed (m : Message) : bool :=
  match m with
  | PolygonNotClosed _ => true
  | _ => false
  end.

Definition count (p : Message -> bool) (l : list Message) : nat :=
  List.length (filter p l).

(** What the entries of one callback, of one pair and of the polygon group
    look like. *)
Definition featureEntry (f : TurfFeature) (m : Message) : Prop :=
  (isSelfCheck m = true /\ involved m = [index f])
  \/ (exists j d, m = PointsTooClose (index f) j d).

Definition pairEntry (f1 f2 : TurfFeature) (m : Message) : Prop :=
  isSelfCheck m = false
  /\ (forall i j d, m <> PointsTooClose i j d)
  /\ (forall i j n, m <> SharedBoundaryPoints i j n)
  /\ (involved m = [index f1; index f2] \/ involved m = [index f2; index f1]).

Definition groupEntry (m : Message) : Prop :=
  exists i j n, m = SharedBoundaryPoints i j n.

(** The order of the violation sequence as the specification words it:
    first the self-check violations by ascending position, then the
    pairwise violations, each naming a pair [(i, j)] with [i < j], in scan
    order. *)
Definition pairBefore (p q : nat * nat) : Prop :=
  fst p < fst q \/ (fst p = fst q /\ snd p <= snd q).

Definition pairOf (m : Message) : nat * nat :=
  match involved m with
  | [i; j] => (i, j)
  | _ => (0, 0)
  end.

Definition claimedOrder (l : list Message) : Prop :=
  exists selfChecks pairwise,
    l = selfChecks ++ pairwise
    /\ Forall (fun m => isSelfCheck m = true) selfChecks
    /\ StronglySorted Nat.le (map (fun m => hd 0 (involved m)) selfChecks)
    /\ Forall (fun m => isSelfCheck m = false /\ fst (pairOf m) < snd (pairOf m)) pairwise
    /\ StronglySorted pairBefore (map pairOf pairwise).

(* ================================================================== *)
(** ** The accumulators of [checkTopology] and the monad threading them *)
(* ================================================================== *)

(** [let errors = []] and [let errorFeatureIndices = new Set()]: an array
    and an insertion-ordered Set of feature positions. *)
Record State : Set := {
  errors : list Message;
  errorFeatureIndices : list nat
}.

Definition initial : State := {| errors := []; errorFeatureIndices := [] |}.

Definition Set_has (s : list nat) (x : nat) : bool := existsb (Nat.eqb x) s.

(** [Set.prototype.add]: appends unless already present. *)
Definition Set_add (s : list nat) (x : nat) : list nat :=
  if Set_has s x then s else s ++ [x].

(** A statement of [checkTopology]: it updates the accumulators and returns
    or throws; the accumulators keep what was written before a throw. *)
Definition M (A : Type) : Type := State -> result A * State.

Definition ret {A} (a : A) : M A := fun s => (Ok a, s).

Definition bind {A B} (m : M A) (f : A -> M B) : M B :=
  fun s =>
    match m s with
    | (Ok a, s') => f a s'
    | (Throw e, s') => (Throw e, s')
    end.

Declare Scope js_scope.
Delimit Scope js_scope with js.
Notation "x <- m ;; k" := (bind m (fun x => k))
  (at level 61, m at next level, right associativity) : js_scope.
Notation "m ;; k" := (bind m (fun _ => k))
  (at level 61, right associativity) : js_scope.
Open Scope js_scope.

(** A call into a library. *)
Definition call {A} (r : result A) : M A := fun s => (r, s).

Definition throw {A} (e : string) : M A := fun s => (Throw e, s).

(** [try { m } catch (error) { handler(error.message) }] *)
Definition try_catch {A} (m : M A) (handler : string -> M A) : M A :=
  fun s =>
    match m s with
    | (Ok a, s') => (Ok a, s')
    | (Throw e, s') => handler e s'
    end.

(** [errors.push(msg)] *)
Definition push (msg : Message) : M unit :=
  fun s => (Ok tt, {| errors := errors s ++ [msg];
                      errorFeatureIndices := errorFeatureIndices s |}).

(** [errorFeatureIndices.add(i)] *)
Definition add (i : nat) : M unit :=
  fun s => (Ok tt, {| errors := errors s;
                      errorFeatureIndices := Set_add (errorFeatureIndices s) i |}).

Definition when (b : bool) (m : M unit) : M unit := if b then m else ret tt.

(** [array.forEach((x, i) => body)], the callback index counting from [i]. *)
Fixpoint forEach {A} (body : A -> nat -> M unit) (array : list A) (i : nat) : M unit :=
  match array with
  | [] => ret tt
  | x :: rest => body x i ;; forEach body rest (S i)
  end.

(** [array.map((x, i) => body)] *)
Fixpoint map_ {A B} (body : A -> nat -> M B) (array : list A) (i : nat) : M (list B) :=
  match array with
  | [] => ret []
  | x :: rest => y <- body x i ;; ys <- map_ body rest (S i) ;; ret (y :: ys)
  end.

(** [for (let i = 0; i < a.length; i++) for (let j = i + 1; j < a.length; j++)
    body(a[i], a[j])] *)
Fixpoint forPairs {A} (body : A -> A -> M unit) (a : list A) : M unit :=
  match a with
  | [] => ret tt
  | x :: rest => forEach (fun y _ => body x y) rest 0 ;; forPairs body rest
  end.

(** [if (cond) { errors.push(msg); hasError = true; }]: returns whether
    [hasError] was set. *)
Definition check (cond : bool) (msg : Message) : M bool :=
  if cond then push msg ;; ret true else ret false.

(** [errors.push(msg); errorFeatureIndices.add(feature1.properties.originalIndex);
    errorFeatureIndices.add(feature2.properties.originalIndex);] *)
Definition report (msg : Message) (feature1 feature2 : TurfFeature) : M unit :=
  push msg ;; add (originalIndex feature1) ;; add (originalIndex feature2).

(** What a statement writes when started on empty accumulators, and how it
    ends; [extend s d] is [s] after the pushes and adds recorded in [d]. *)
Definition written {A} (m : M A) : State := snd (m initial).

Definition outcome {A} (m : M A) : result A := fst (m initial).

Definition extend (s d : State) : State :=
  {| errors := errors s ++ errors d;
     errorFeatureIndices := fold_left Set_add (errorFeatureIndices d) (errorFeatureIndices s) |}.

(** A statement that only pushes and adds: started on any accumulators it
    ends as on empty ones, and appends what it writes there. *)
Definition local {A} (m : M A) : Prop :=
  forall s, m s = (outcome m, extend s (written m)).

(** Properties of accumulators that hold of empty ones and are kept by
    appending; every entry satisfying [Q] is one. *)
Definition extensible (P : State -> Prop) : Prop :=
  P initial /\ forall s d, P s -> P d -> P (extend s d).

Definition entriesAll (Q : Message -> Prop) (s : State) : Prop := Forall Q (errors s).

(** A statement that writes nothing. *)
Definition pure {A} (m : M A) : Prop := forall s, m s = (outcome m, s).

(** The iterations of the loops: the elements of an array with their
    callback indices, the pairs [(a[i], a[j])], [i < j], in scan order, and
    what a run of iterations writes in all. *)
Definition indexed {A} (array : list A) (i : nat) : list (A * nat) :=
  combine array (seq i (List.length array)).

Fixpoint pairs {A} (a : list A) : list (A * A) :=
  match a with
  | [] => []
  | x :: rest => map (pair x) rest ++ pairs rest
  end.

Definition gather (ds : list State) : State := fold_right extend initial ds.

(** Accumulators that a local statement wrote. *)
Definition normal (d : State) : Prop := extend initial d = d.

(** Accumulators in which every entry that is not a note comes with the
    two highlights of [report]. *)
Definition flagsPair (feature1 feature2 : TurfFeature) (s : State) : Prop :=
  forall m, In m (errors s) -> isNote m = false ->
    In (originalIndex feature1) (errorFeatureIndices s)
    /\ In (originalIndex feature2) (errorFeatureIndices s).

(* ================================================================== *)
(** ** Checks of one feature (both variants, lines 247-338 and 1201-1291) *)
(* ================================================================== *)

Section SelfChecks.

Variable T : turf.lib.

(** [coords[0]] and [coords[coords.length - 1]], [undefined] on [[]]. *)
Definition firstPoint (coords : list coord) : option coord := hd_error coords.

Definition lastPoint (coords : list coord) : option coord :=
  match coords with
  | [] => None
  | c :: rest => Some (last rest c)
  end.

(** [Math.abs(a[0] - b[0]) > 0.000001 || Math.abs(a[1] - b[1]) > 0.000001] *)
Definition apart (a b : coord) : bool :=
  gt (Math_abs (fst a - fst b)%float) 0.000001%float
  || gt (Math_abs (snd a - snd b)%float) 0.000001%float.

(** [Math.abs(a[0] - b[0]) < 0.000001 && Math.abs(a[1] - b[1]) < 0.000001] *)
Definition samePoint (a b : coord) : bool :=
  lt (Math_abs (fst a - fst b)%float) 0.000001%float
  && lt (Math_abs (snd a - snd b)%float) 0.000001%float.

(** The [try] block of the polygon checks; [rings] is
    [feature.geometry.coordinates]. *)
Definition polygonChecks (feature : TurfFeature) (rings : list (list coord)) : M bool :=
  let featureIndex := index feature in
  valid <- call (turf.booleanValid T (geometry feature)) ;;
  h1 <- check (negb valid) (PolygonSelfIntersects featureIndex) ;;
  match rings with
  | [] => throw TypeError                       (* coords is undefined *)
  | coords :: _ =>
      h2 <- check (List.length coords <? 3) (PolygonTooFewPoints featureIndex) ;;
      match firstPoint coords, lastPoint coords with
      | Some first, Some last =>
          h3 <- check (apart first last) (PolygonNotClosed featureIndex) ;;
          area <- call (turf.area T (geometry feature)) ;;
          h4 <- check (lt area 0.0001%float) (PolygonAreaTooSmall featureIndex) ;;
          ret (h1 || h2 || h3 || h4)
      | _, _ => throw TypeError                 (* firstPoint is undefined *)
      end
  end.

(** [for (i = 0; i < coords.length - 1; i++) for (j = i + 1; j < coords.length; j++)
    if (samePoint) { push; hasError = true; break; }] *)
Fixpoint duplicatePoints (featureIndex : nat) (coords : list coord) : M bool :=
  match coords with
  | [] => ret false
  | c :: rest =>
      h <- check (existsb (samePoint c) rest) (LineDuplicatePoint featureIndex) ;;
      h' <- duplicatePoints featureIndex rest ;;
      ret (h || h')
  end.

Definition lineChecks (feature : TurfFeature) (coords : list coord) : M bool :=
  let featureIndex := index feature in
  h1 <- check (List.length coords <? 2) (LineTooFewPoints featureIndex) ;;
  length <- call (turf.length T (geometry feature)) ;;
  h2 <- check (lt length 0.1%float) (LineTooShort featureIndex) ;;
  h3 <- duplicatePoints featureIndex coords ;;
  ret (h1 || h2 || h3).

(** The inner [turfFeatures.forEach((otherFeature, otherIndex) => ...)] of a
    point, from callback index [otherIndex] on. *)
Fixpoint pointChecks (feature : TurfFeature) (index_ : nat)
    (others : list TurfFeature) (otherIndex : nat) : M bool :=
  match others with
  | [] => ret false
  | otherFeature :: rest =>
      h <- (if negb (index_ =? otherIndex) && TypeName_eqb (type otherFeature) TPoint
            then
              distance <- call (turf.distance T (geometry feature) (geometry otherFeature)) ;;
              check (lt distance 0.1%float)
                    (PointsTooClose (index feature) (index otherFeature) distance)
            else ret false) ;;
      h' <- pointChecks feature index_ rest (S otherIndex) ;;
      ret (h || h')
  end.

(** The entries of a point: one for every other point of the array that the
    library puts closer than 0.1 m. *)
Definition tooClose (feature otherFeature : TurfFeature) : list Message :=
  match turf.distance T (geometry feature) (geometry otherFeature) with
  | Ok d =>
      if lt d 0.1%float
      then [PointsTooClose (index feature) (index otherFeature) d]
      else []
  | Throw _ => []
  end.

Definition pointEntries (feature : TurfFeature) (index_ : nat)
    (others : list TurfFeature) (otherIndex : nat) : list Message :=
  flat_map (fun ok =>
              if negb (index_ =? snd ok) && TypeName_eqb (type (fst ok)) TPoint
              then tooClose feature (fst ok)
              else [])
           (indexed others otherIndex).

(** The three blocks guarded by [featureType]; the value is [hasError]. *)
Definition typeChecks (turfFeatures : list TurfFeature)
    (feature : TurfFeature) (index_ : nat) : M bool :=
  match geometry feature with
  | turf.Polygon rings =>
      try_catch (polygonChecks feature rings)
        (fun message => push (PolygonInvalid (index feature) message) ;; ret true)
  | turf.LineString coords => lineChecks feature coords
  | turf.Point _ => pointChecks feature index_ turfFeatures 0
  | turf.MultiPolygon _ => ret false
  end.

(** The callback of [turfFeatures.forEach((feature, index) => ...)]. *)
Definition selfCheck (turfFeatures : list TurfFeature)
    (feature : TurfFeature) (index_ : nat) : M unit :=
  hasError <- typeChecks turfFeatures feature index_ ;;
  when hasError (add (originalIndex feature)).

End SelfChecks.

(* ================================================================== *)
(** ** The module-level state of the script *)
(* ================================================================== *)

(** The form of the range dialog: four text fields. *)
Record RangeForm : Set := {
  form_minX : string; form_minY : string; form_maxX : string; form_maxY : string
}.

Definition emptyForm : RangeForm :=
  {| form_minX := ""; form_minY := ""; form_maxX := ""; form_maxY := "" |}.

(** [drawSource], [highlightSource], [rangeExtent], the source of
    [rangeLayer] (annotated variant only) and the data of the Vue
    application.  A feature of the highlight and range layers is
    represented by the geometry it carries. *)
Record World : Set := {
  drawSource : ol.VectorSource;
  highlightSource : list ol.Geometry;
  rangeExtent : option ol.Extent;
  rangeLayer : list ol.Geometry;
  dialogVisible : bool;
  rangeForm : RangeForm
}.

Definition set_drawSource (w : World) (source : ol.VectorSource) : World :=
  {| drawSource := source; highlightSource := highlightSource w;
     rangeExtent := rangeExtent w; rangeLayer := rangeLayer w;
     dialogVisible := dialogVisible w; rangeForm := rangeForm w |}.

Definition set_highlightSource (w : World) (source : list ol.Geometry) : World :=
  {| drawSource := drawSource w; highlightSource := source;
     rangeExtent := rangeExtent w; rangeLayer := rangeLayer w;
     dialogVisible := dialogVisible w; rangeForm := rangeForm w |}.

(* ================================================================== *)
(** ** What the tool shows, and converting the drawn features *)
(* ================================================================== *)

(** The message box closing [checkTopology]. *)
Inductive Notification : Set :=
| NothingToCheck                           (* app.$message.warning('没有可检查的要素') *)
| TopologyErrors (errors : list Message)   (* app.$alert(`发现 n 个拓扑错误 ...`) *)
| NoTopologyErrors.                        (* app.$message.success(...) *)

Section Conversion.

Variable T : turf.lib.
Variable toLonLat : coord -> coord.

(** The callback of [features.map((feature, index) => ...)]. *)
Definition toTurf (feature : ol.Feature) (index_ : nat) : M TurfFeature :=
  turfGeometry <-
    match ol.getGeometry feature with
    | ol.Point coordinates =>
        call (turf.point T (Some (toLonLat coordinates)))
    | ol.LineString coordinates =>
        call (turf.lineString T (map toLonLat coordinates))
    | ol.Polygon rings =>
        match rings with
        | [] => throw TypeError                 (* getCoordinates()[0] is undefined *)
        | ring :: _ => call (turf.polygon T [map toLonLat ring])
        end
    end ;;
  ret {| geometry := turfGeometry; index := index_ + 1; originalIndex := index_ |}.

(** [errorFeatureIndices.forEach(index => { if (features[index])
    highlightSource.addFeature(new Feature({geometry: clone})) })]: a
    highlight feature is represented by the geometry it carries. *)
Definition highlights (features : list ol.Feature) (indices : list nat) : list ol.Geometry :=
  flat_map (fun i => match nth_error features i with
                     | Some originalFeature => [ol.getGeometry originalFeature]
                     | None => []
                     end) indices.

Definition notification (errors_ : list Message) : Notification :=
  if 0 <? List.length errors_ then TopologyErrors errors_ else NoTopologyErrors.

End Conversion.

(** What [confirmRange] shows through [this.$message] and [this.$notify]. *)
Inductive RangeMessage : Set :=
| NotANumber                (* 请输入有效的数字 *)
| LongitudeOutOfDomain      (* 经度范围必须在 -180 到 180 之间 *)
| LatitudeOutOfDomain       (* 纬度范围必须在 -90 到 90 之间 *)
| MinNotBelowMax            (* 最小值必须小于最大值 *)
| RangeTooSmall             (* 范围过小，请设置更大的绘制区域 *)
| RangeInstalled (extent : ol.Extent).   (* 绘制范围已设置为 ... *)

Definition isError (m : RangeMessage) : bool :=
  match m with
  | RangeInstalled _ => false
  | _ => true
  end.

(** The error notification of the [drawend] handler: its text names the
    allowed extent, the extent of the sketch and the share of the sketch
    that the intersection of the two covers. *)
Inductive DrawNotification : Set :=
| DrawingOutOfRange (allowed drawn intersection : ol.Extent).   (* 绘制超出范围 *)

(** The entries a notification lists. *)
Definition reported (n : Notification) : list Message :=
  match n with
  | TopologyErrors errors_ => errors_
  | _ => []
  end.

(** The [turfFeatures] array of a drawing source, unless the conversion
    throws. *)
Definition turfFeatures (T : turf.lib) (toLonLat : coord -> coord)
    (features : list ol.Feature) : result (list TurfFeature) :=
  outcome (map_ (toTurf T toLonLat) features 0).

(** Converted features carry their positions: [index] counts from 1 and
    [originalIndex] from 0. *)
Definition wellIndexed (tfs : list TurfFeature) : Prop :=
  forall p f, nth_error tfs p = Some f -> index f = p + 1 /\ originalIndex f = p.

(** The entries pushed by the callback of one feature. *)
Definition featureEntries (T : turf.lib) (tfs : list TurfFeature)
    (fk : TurfFeature * nat) : list Message :=
  errors (written (selfCheck T tfs (fst fk) (snd fk))).

(* ================================================================== *)
(** ** First variant (lines 1-713) *)
(* ================================================================== *)

Module V1.

Section CheckTopology.

Variable T : turf.lib.
Variable toLonLat : coord -> coord.

(** Lines 348-359. *)
Definition overlapCheck (feature1 feature2 : TurfFeature) : M unit :=
  try_catch
    (overlap <- call (turf.booleanOverlap T (geometry feature1) (geometry feature2)) ;;
     when overlap
       (report (Overlap (type feature1) (index feature1) (type feature2) (index feature2))
               feature1 feature2))
    (fun _ => ret tt).

(** Lines 361-392. *)
Definition crossCheck (feature1 feature2 : TurfFeature) : M unit :=
  match type feature1, type feature2 with
  | TLineString, TLineString =>
      try_catch
        (crosses <- call (turf.booleanCrosses T (geometry feature1) (geometry feature2)) ;;
         when crosses (report (LinesCross (index feature1) (index feature2)) feature1 feature2))
        (fun _ => ret tt)
  | TLineString, TPolygon =>
      try_catch
        (crosses <- call (turf.booleanCrosses T (geometry feature1) (geometry feature2)) ;;
         when crosses
           (report (LineCrossesPolygon (index feature1) (index feature2)) feature1 feature2))
        (fun _ => ret tt)
  | TPolygon, TLineString =>
      try_catch
        (crosses <- call (turf.booleanCrosses T (geometry feature2) (geometry feature1)) ;;
         when crosses
           (report (LineCrossesPolygon (index feature2) (index feature1)) feature1 feature2))
        (fun _ => ret tt)
  | _, _ => ret tt
  end.

(** Lines 397-415: the call of [booleanIntersects] is the condition of an
    [if] standing outside the [try]. *)
Definition intersectionCheck (feature1 feature2 : TurfFeature) : M unit :=
  intersects <- call (turf.booleanIntersects T (geometry feature1) (geometry feature2)) ;;
  when intersects
    (try_catch
       (intersection <- call (turf.intersect T (geometry feature1) (geometry feature2)) ;;
        match intersection with
        | Some region =>
            intersectionArea <- call (turf.area T region) ;;
            when (gt intersectionArea 0.0001%float)
              (report (PolygonsIntersect (index feature1) (index feature2) intersectionArea)
                      feature1 feature2)
        | None => ret tt
        end)
       (fun _ =>
          report (PolygonsIntersectUnknownArea (index feature1) (index feature2))
                 feature1 feature2)).

(** Lines 417-435. *)
Definition containmentCheck (feature1 feature2 : TurfFeature) : M unit :=
  try_catch
    (contains12 <- call (turf.booleanContains T (geometry feature1) (geometry feature2)) ;;
     when contains12
       (area1 <- call (turf.area T (geometry feature1)) ;;
        area2 <- call (turf.area T (geometry feature2)) ;;
        report (PolygonContains (index feature1) (index feature2) (area2 / area1 * 100)%float)
               feature1 feature2) ;;
     contains21 <- call (turf.booleanContains T (geometry feature2) (geometry feature1)) ;;
     when contains21
       (area1 <- call (turf.area T (geometry feature1)) ;;
        area2 <- call (turf.area T (geometry feature2)) ;;
        report (PolygonContains (index feature2) (index feature1) (area1 / area2 * 100)%float)
               feature1 feature2))
    (fun _ => ret tt).

(** Lines 437-446: adjacency is pushed onto [errors] but not highlighted. *)
Definition adjacencyCheck (feature1 feature2 : TurfFeature) : M unit :=
  try_catch
    (sharedDistance <- call (turf.distanceToLine T (geometry feature1) (geometry feature2)) ;;
     when (lt sharedDistance 0.1%float)
       (push (PolygonsAdjacent (index feature1) (index feature2))))
    (fun _ => ret tt).

(** Lines 448-465. *)
Definition gapCheck (feature1 feature2 : TurfFeature) : M unit :=
  try_catch
    (union <- call (turf.union T (geometry feature1) (geometry feature2)) ;;
     match union with
     | Some region =>
         unionArea <- call (turf.area T region) ;;
         area1 <- call (turf.area T (geometry feature1)) ;;
         area2 <- call (turf.area T (geometry feature2)) ;;
         let gapArea := (unionArea - area1 - area2)%float in
         when (gt gapArea 0.0001%float)
           (report (GapBetweenPolygons (index feature1) (index feature2) gapArea)
                   feature1 feature2)
     | None => ret tt
     end)
    (fun _ => ret tt).

(** Lines 469-491 and 494-516, for the line and the polygon of the pair. *)
Definition linePolygonChecks (line poly feature1 feature2 : TurfFeature) : M unit :=
  try_catch
    (inside <- call (turf.booleanContains T (geometry poly) (geometry line)) ;;
     when inside (push (LineInsidePolygon (index line) (index poly))))
    (fun _ => ret tt) ;;
  try_catch
    (n <- call (turf.lineIntersect T (geometry line) (geometry poly)) ;;
     when (0 <? n)
       (report (LineMeetsBoundary (index line) (index poly) n) feature1 feature2))
    (fun _ => ret tt).

(** [turf.distance(turf.point(ep1), turf.point(ep2), { units: 'meters' })] *)
Definition pointDistance (ep1 ep2 : option coord) : M number :=
  p1 <- call (turf.point T ep1) ;;
  p2 <- call (turf.point T ep2) ;;
  call (turf.distance T p1 p2).

(** Lines 529-537: the entries pushed onto [connectionPoints]. *)
Fixpoint connectionPoints (pairs : list (option coord * option coord))
  : M (list (option coord * number)) :=
  match pairs with
  | [] => ret []
  | (ep1, ep2) :: rest =>
      distance <- pointDistance ep1 ep2 ;;
      found <- connectionPoints rest ;;
      ret (if lt distance 0.1%float then (ep1, distance) :: found else found)
  end.

(** Lines 541-547. *)
Fixpoint minEndpointDistance (pairs : list (option coord * option coord))
    (minDistance : number) : M number :=
  match pairs with
  | [] => ret minDistance
  | (ep1, ep2) :: rest =>
      distance <- pointDistance ep1 ep2 ;;
      minEndpointDistance rest (Math_min minDistance distance)
  end.

Definition lineCoordinates (feature : TurfFeature) : list coord :=
  match geometry feature with
  | turf.LineString coords => coords
  | _ => []
  end.

(** [for (let ep1 of endpoints1) for (let ep2 of endpoints2)] *)
Definition endpointPairs (feature1 feature2 : TurfFeature)
  : list (option coord * option coord) :=
  let coords1 := lineCoordinates feature1 in
  let coords2 := lineCoordinates feature2 in
  list_prod [firstPoint coords1; lastPoint coords1] [firstPoint coords2; lastPoint coords2].

(** Lines 518-560; no [try] surrounds the distance computations. *)
Definition danglingCheck (feature1 feature2 : TurfFeature) : M unit :=
  let pairs := endpointPairs feature1 feature2 in
  connections <- connectionPoints pairs ;;
  if List.length connections =? 0 then
    minDistance <- minEndpointDistance pairs Infinity ;;
    when (lt minDistance 1.0%float)
      (report (DanglingEndpoint (index feature1) (index feature2) minDistance)
              feature1 feature2)
  else
    when (List.length connections =? 1)
      (report (SingleEndpointConnection (index feature1) (index feature2))
              feature1 feature2).

(** Lines 395-560: the four blocks guarded by the types of the pair. *)
Definition typedChecks (feature1 feature2 : TurfFeature) : M unit :=
  match type feature1, type feature2 with
  | TPolygon, TPolygon =>
      intersectionCheck feature1 feature2 ;;
      containmentCheck feature1 feature2 ;;
      adjacencyCheck feature1 feature2 ;;
      gapCheck feature1 feature2
  | TLineString, TPolygon => linePolygonChecks feature1 feature2 feature1 feature2
  | TPolygon, TLineString => linePolygonChecks feature2 feature1 feature1 feature2
  | TLineString, TLineString => danglingCheck feature1 feature2
  | _, _ => ret tt
  end.

(** The body of the pair loops, lines 343-560. *)
Definition pairCheck (feature1 feature2 : TurfFeature) : M unit :=
  overlapCheck feature1 feature2 ;;
  crossCheck feature1 feature2 ;;
  typedChecks feature1 feature2.

(** [poly.geometry.coordinates[0]] *)
Definition ring (poly : TurfFeature) : option (list coord) :=
  match geometry poly with
  | turf.Polygon (coords :: _) => Some coords
  | _ => None
  end.

(** Lines 581-588: the number of entries pushed onto [sharedCoords]. *)
Fixpoint sharedWith (coord1 : coord) (coords2 : list coord) (n : nat) : M nat :=
  match coords2 with
  | [] => ret n
  | coord2 :: rest =>
      distance <- pointDistance (Some coord1) (Some coord2) ;;
      sharedWith coord1 rest (if lt distance 0.1%float then S n else n)
  end.

Fixpoint sharedCoords (coords1 : list coord) (coords2 : option (list coord)) (n : nat)
  : M nat :=
  match coords1 with
  | [] => ret n
  | coord1 :: rest =>
      match coords2 with
      | None => throw TypeError                 (* iterating undefined *)
      | Some cs => n' <- sharedWith coord1 cs n ;; sharedCoords rest coords2 n'
      end
  end.

(** Lines 576-595. *)
Definition boundaryCheck (poly1 poly2 : TurfFeature) : M unit :=
  try_catch
    (match ring poly1 with
     | None => throw TypeError
     | Some coords1 =>
         n <- sharedCoords coords1 (ring poly2) 0 ;;
         when (2 <=? n) (push (SharedBoundaryPoints (index poly1) (index poly2) n))
     end)
    (fun _ => ret tt).

(** Lines 564-601. *)
Definition polygonGroupCheck (turfFeatures : list TurfFeature) : M unit :=
  let polygonFeatures :=
    filter (fun f => TypeName_eqb (type f) TPolygon) turfFeatures in
  when (2 <? List.length polygonFeatures)
    (try_catch (forPairs boundaryCheck polygonFeatures) (fun _ => ret tt)).

(** Lines 246-601: the three passes over [turfFeatures]. *)
Definition validate (turfFeatures : list TurfFeature) : M unit :=
  forEach (selfCheck T turfFeatures) turfFeatures 0 ;;
  forPairs pairCheck turfFeatures ;;
  polygonGroupCheck turfFeatures.

(** The four endpoint distances of two lines as the library returns them,
    how many of them fall below the coincidence threshold of 0.1 m, and
    their minimum as [Math.min] folds it from [Infinity]. *)
Definition endpointDistances (feature1 feature2 : TurfFeature) : list (result number) :=
  map (fun ep => outcome (pointDistance (fst ep) (snd ep)))
      (endpointPairs feature1 feature2).

Definition coinciding (ds : list (result number)) : nat :=
  List.length (filter (fun r => match r with
                                | Ok d => lt d 0.1%float
                                | Throw _ => false
                                end) ds).

Definition minimumDistance (ds : list (result number)) : number :=
  fold_left (fun m r => match r with
                        | Ok d => Math_min m d
                        | Throw _ => m
                        end) ds Infinity.

(** [area(union(A, B)) - area(A) - area(B)], when the union exists and the
    three areas are returned. *)
Definition gapArea (feature1 feature2 : TurfFeature) : option number :=
  match turf.union T (geometry feature1) (geometry feature2) with
  | Ok (Some region) =>
      match turf.area T region,
            turf.area T (geometry feature1),
            turf.area T (geometry feature2) with
      | Ok unionArea, Ok area1, Ok area2 => Some (unionArea - area1 - area2)%float
      | _, _, _ => None
      end
  | _ => None
  end.

(** The entries pushed by the pair loops for one pair, and by the polygon
    group check. *)
Definition pairEntries (ff : TurfFeature * TurfFeature) : list Message :=
  errors (written (pairCheck (fst ff) (snd ff))).

Definition groupEntries (turfFeatures : list TurfFeature) : list Message :=
  errors (written (polygonGroupCheck turfFeatures)).

(** [checkTopology()], lines 211-626: what it shows (or the exception that
    escapes it) and the state it leaves. *)
Definition checkTopology (w : World) : result Notification * World :=
  let features := ol.getFeatures (drawSource w) in
  if List.length features =? 0 then (Ok NothingToCheck, w)
  else
    let w := set_highlightSource w (ol.clear (highlightSource w)) in
    match (turfFeatures <- map_ (toTurf T toLonLat) features 0 ;;
           validate turfFeatures) initial with
    | (Throw e, _) => (Throw e, w)
    | (Ok _, s) =>
        (Ok (notification (errors s)),
         set_highlightSource w
           (highlightSource w ++ highlights features (errorFeatureIndices s)))
    end.

End CheckTopology.

Section ConfirmRange.

(** [parseFloat], and the outcome of the Element UI validation of the form
    against [rules] (every field required). *)
Variable parseFloat : string -> number.
Variable formValid : RangeForm -> bool.

(** [confirmRange()], lines 657-685: the message shown, if any, and the
    state left. *)
Definition confirmRange (w : World) : option RangeMessage * World :=
  if formValid (rangeForm w) then
    let minX := parseFloat (form_minX (rangeForm w)) in
    let minY := parseFloat (form_minY (rangeForm w)) in
    let maxX := parseFloat (form_maxX (rangeForm w)) in
    let maxY := parseFloat (form_maxY (rangeForm w)) in
    if ge minX maxX || ge minY maxY then (Some MinNotBelowMax, w)
    else
      let extent := {| ol.minX := minX; ol.minY := minY;
                       ol.maxX := maxX; ol.maxY := maxY |} in
      (Some (RangeInstalled extent),
       {| drawSource := drawSource w; highlightSource := highlightSource w;
          rangeExtent := Some extent; rangeLayer := rangeLayer w;
          dialogVisible := false; rangeForm := emptyForm |})
  else (None, w).

End ConfirmRange.

End V1.

(* ================================================================== *)
(** ** Annotated variant (lines 715-1772) *)
(* ================================================================== *)

Module V2.

Section CheckTopology.

Variable T : turf.lib.
Variable toLonLat : coord -> coord.

(** Lines 1301-1312. *)
Definition overlapCheck (feature1 feature2 : TurfFeature) : M unit :=
  try_catch
    (overlap <- call (turf.booleanOverlap T (geometry feature1) (geometry feature2)) ;;
     when overlap
       (report (Overlap (type feature1) (index feature1) (type feature2) (index feature2))
               feature1 feature2))
    (fun _ => ret tt).

(** Lines 1314-1325. *)
Definition crossCheck (feature1 feature2 : TurfFeature) : M unit :=
  match type feature1, type feature2 with
  | TLineString, TLineString =>
      try_catch
        (crosses <- call (turf.booleanCrosses T (geometry feature1) (geometry feature2)) ;;
         when crosses (report (LinesCross (index feature1) (index feature2)) feature1 feature2))
        (fun _ => ret tt)
  | _, _ => ret tt
  end.

(** Lines 1329-1346: as in the first variant, [booleanIntersects] is called
    outside the [try]. *)
Definition intersectionCheck (feature1 feature2 : TurfFeature) : M unit :=
  intersects <- call (turf.booleanIntersects T (geometry feature1) (geometry feature2)) ;;
  when intersects
    (try_catch
       (intersection <- call (turf.intersect T (geometry feature1) (geometry feature2)) ;;
        match intersection with
        | Some region =>
            intersectionArea <- call (turf.area T region) ;;
            when (gt intersectionArea 0.0001%float)
              (report (PolygonsIntersect (index feature1) (index feature2) intersectionArea)
                      feature1 feature2)
        | None => ret tt
        end)
       (fun _ =>
          report (PolygonsIntersectUnknownArea (index feature1) (index feature2))
                 feature1 feature2)).

(** Lines 1348-1359. *)
Definition containmentCheck (feature1 feature2 : TurfFeature) : M unit :=
  try_catch
    (contains12 <- call (turf.booleanContains T (geometry feature1) (geometry feature2)) ;;
     when contains12
       (area1 <- call (turf.area T (geometry feature1)) ;;
        area2 <- call (turf.area T (geometry feature2)) ;;
        report (PolygonContains (index feature1) (index feature2) (area2 / area1 * 100)%float)
               feature1 feature2))
    (fun _ => ret tt).

(** Lines 1327-1360: the block of two polygons. *)
Definition typedChecks (feature1 feature2 : TurfFeature) : M unit :=
  match type feature1, type feature2 with
  | TPolygon, TPolygon =>
      intersectionCheck feature1 feature2 ;;
      containmentCheck feature1 feature2
  | _, _ => ret tt
  end.

(** The body of the pair loops, lines 1296-1360. *)
Definition pairCheck (feature1 feature2 : TurfFeature) : M unit :=
  overlapCheck feature1 feature2 ;;
  crossCheck feature1 feature2 ;;
  typedChecks feature1 feature2.

(** Lines 1200-1362: the two passes over [turfFeatures]. *)
Definition validate (turfFeatures : list TurfFeature) : M unit :=
  forEach (selfCheck T turfFeatures) turfFeatures 0 ;;
  forPairs pairCheck turfFeatures.

(** [checkTopology()], lines 1158-1387. *)
Definition checkTopology (w : World) : result Notification * World :=
  let features := ol.getFeatures (drawSource w) in
  if List.length features =? 0 then (Ok NothingToCheck, w)
  else
    let w := set_highlightSource w (ol.clear (highlightSource w)) in
    match (turfFeatures <- map_ (toTurf T toLonLat) features 0 ;;
           validate turfFeatures) initial with
    | (Throw e, _) => (Throw e, w)
    | (Ok _, s) =>
        (Ok (notification (errors s)),
         set_highlightSource w
           (highlightSource w ++ highlights features (errorFeatureIndices s)))
    end.

End CheckTopology.

Section Admission.

Variable toLonLat : coord -> coord.

(** The test repeated at lines 1052, 1061 and 1073, negated:
    [!(lonLat[0] < rangeExtent[0] || lonLat[0] > rangeExtent[2] ||
       lonLat[1] < rangeExtent[1] || lonLat[1] > rangeExtent[3])]. *)
Definition inside (rangeExtent_ : ol.Extent) (lonLat : coord) : bool :=
  negb (lt (fst lonLat) (ol.minX rangeExtent_) || gt (fst lonLat) (ol.maxX rangeExtent_)
        || lt (snd lonLat) (ol.minY rangeExtent_) || gt (snd lonLat) (ol.maxY rangeExtent_)).

(** Lines 1044-1081: the value of [isWithinRange] after the dispatch on
    [geometry.getType()]; each loop stops at the first vertex outside. *)
Definition isWithinRange (rangeExtent_ : ol.Extent) (geometry_ : ol.Geometry) : bool :=
  match geometry_ with
  | ol.Point coords => inside rangeExtent_ (toLonLat coords)
  | ol.LineString coords =>
      forallb (fun coord_ => inside rangeExtent_ (toLonLat coord_)) coords
  | ol.Polygon rings =>
      forallb (fun ring => forallb (fun coord_ => inside rangeExtent_ (toLonLat coord_)) ring)
              rings
  end.

Section Handler.

(** [geometry.getExtent()], of OpenLayers. *)
Variable getExtent : ol.Geometry -> ol.Extent.

(** Lines 1085-1094: the extent of the sketch in longitude and latitude. *)
Definition drawingExtentLonLat (geometry_ : ol.Geometry) : ol.Extent :=
  let extent := getExtent geometry_ in
  let minCorner := toLonLat (ol.minX extent, ol.minY extent) in
  let maxCorner := toLonLat (ol.maxX extent, ol.maxY extent) in
  {| ol.minX := Math_min (fst minCorner) (fst maxCorner);
     ol.minY := Math_min (snd minCorner) (snd maxCorner);
     ol.maxX := Math_max (fst minCorner) (fst maxCorner);
     ol.maxY := Math_max (snd minCorner) (snd maxCorner) |}.

(** [ol.extent.getIntersection(extent1, extent2)], line 1097.  The script
    imports the classes of OpenLayers one by one ([ol/extent.js] under the
    name [olExtent], and in the first variant only): no import and no
    declaration binds [ol], so that reading it throws before the call. *)
Definition ol_extent_getIntersection (extent1 extent2 : ol.Extent) : result ol.Extent :=
  Throw ReferenceError.

(** The [drawend] handler, lines 1038-1127: how it ends, with the
    notification shown, if any, and the state it leaves.  The rejecting
    branch (lines 1083-1125) computes the extent of the sketch, then the
    intersection; the notification and [drawSource.removeFeature(feature)]
    come after it. *)
Definition drawend (w : World) (feature : ol.Feature)
  : result (option DrawNotification) * World :=
  match rangeExtent w with
  | Some rangeExtent_ =>
      let geometry_ := ol.getGeometry feature in
      if isWithinRange rangeExtent_ geometry_ then (Ok None, w)
      else
        let drawn := drawingExtentLonLat geometry_ in
        match ol_extent_getIntersection rangeExtent_ drawn with
        | Throw e => (Throw e, w)
        | Ok intersection =>
            (Ok (Some (DrawingOutOfRange rangeExtent_ drawn intersection)),
             set_drawSource w (ol.removeFeature feature (drawSource w)))
        end
  | None => (Ok None, w)
  end.

End Handler.

End Admission.

Section ConfirmRange.

(** [parseFloat], [fromLonLat], and the outcome of the Element UI validation
    of the form against [rules]. *)
Variable parseFloat : string -> number.
Variable fromLonLat : coord -> coord.
Variable formValid : RangeForm -> bool.

(** Lines 1586-1595. *)
Definition longitudeOutOfDomain (minX maxX : number) : bool :=
  lt minX (-180)%float || gt minX 180%float || lt maxX (-180)%float || gt maxX 180%float.

Definition latitudeOutOfDomain (minY maxY : number) : bool :=
  lt minY (-90)%float || gt minY 90%float || lt maxY (-90)%float || gt maxY 90%float.

(** Lines 1614-1627: the rectangle shown on the range layer. *)
Definition rangeFeature (minX minY maxX maxY : number) : ol.Geometry :=
  let minCoord := fromLonLat (minX, minY) in
  let maxCoord := fromLonLat (maxX, maxY) in
  ol.Polygon [[ (fst minCoord, snd minCoord);
                (fst maxCoord, snd minCoord);
                (fst maxCoord, snd maxCoord);
                (fst minCoord, snd maxCoord);
                (fst minCoord, snd minCoord) ]].

(** [confirmRange()], lines 1572-1678: the message shown, if any, and the
    state left (the animation of the view onto the range is not part of
    the state). *)
Definition confirmRange (w : World) : option RangeMessage * World :=
  if formValid (rangeForm w) then
    let minX := parseFloat (form_minX (rangeForm w)) in
    let minY := parseFloat (form_minY (rangeForm w)) in
    let maxX := parseFloat (form_maxX (rangeForm w)) in
    let maxY := parseFloat (form_maxY (rangeForm w)) in
    if isNaN minX || isNaN minY || isNaN maxX || isNaN maxY then (Some NotANumber, w)
    else if longitudeOutOfDomain minX maxX then (Some LongitudeOutOfDomain, w)
    else if latitudeOutOfDomain minY maxY then (Some LatitudeOutOfDomain, w)
    else if ge minX maxX || ge minY maxY then (Some MinNotBelowMax, w)
    else
      let xRange := (maxX - minX)%float in
      let yRange := (maxY - minY)%float in
      if lt xRange 0.001%float || lt yRange 0.001%float then (Some RangeTooSmall, w)
      else
        let extent := {| ol.minX := minX; ol.minY := minY;
                         ol.maxX := maxX; ol.maxY := maxY |} in
        (Some (RangeInstalled extent),
         {| drawSource := drawSource w; highlightSource := highlightSource w;
            rangeExtent := Some extent;
            rangeLayer := ol.clear (rangeLayer w) ++ [rangeFeature minX minY maxX maxY];
            dialogVisible := false; rangeForm := emptyForm |})
  else (None, w).

End ConfirmRange.

End V2.

(* ================================================================== *)
(** ** The range constraint as the specification words it *)
(* ================================================================== *)

Module RangeConstraint.

(** Ordering: the minimum is strictly less than the maximum on both axes. *)
Definition ordering (minX minY maxX maxY : number) : bool :=
  lt minX maxX && lt minY maxY.

(** WGS84 domain: longitudes in [[-180, 180]], latitudes in [[-90, 90]]. *)
Definition domain (minX minY maxX maxY : number) : bool :=
  le (-180)%float minX && le minX 180%float
  && le (-180)%float maxX && le maxX 180%float
  && le (-90)%float minY && le minY 90%float
  && le (-90)%float maxY && le maxY 90%float.

(** Minimum span: both spans are at least 0.001 degree. *)
Definition span (minX minY maxX maxY : number) : bool :=
  ge (maxX - minX)%float 0.001%float && ge (maxY - minY)%float 0.001%float.

Definition rules (minX minY maxX maxY : number) : bool :=
  ordering minX minY maxX maxY && domain minX minY maxX maxY && span minX minY maxX maxY.

(** The four scalars of the form, after [parseFloat]. *)
Definition scalars (parseFloat : string -> number) (form : RangeForm)
  : number * number * number * number :=
  (parseFloat (form_minX form), parseFloat (form_minY form),
   parseFloat (form_maxX form), parseFloat (form_maxY form)).

Definition rulesOf (parseFloat : string -> number) (form : RangeForm) : bool :=
  let '(minX, minY, maxX, maxY) := scalars parseFloat form in
  rules minX minY maxX maxY.


(** The coordinates of a geometry: the single one of a point, every vertex
    of a line or of a polygon. *)
Definition vertices (g : ol.Geometry) : list coord :=
  match g with
  | ol.Point c => [c]
  | ol.LineString cs => cs
  | ol.Polygon rings => List.concat rings
  end.





End RangeConstraint.

(* ================================================================== *)
(** ** Sample inputs *)
(* ================================================================== *)

Module Sample.

(** [parseFloat] on the decimal strings used below, NaN elsewhere. *)
Definition parseFloat (s : string) : number :=
  if String.eqb s "0" then 0%float
  else if String.eqb s "10" then 10%float
  else if String.eqb s "200" then 200%float
  else if String.eqb s "300" then 300%float
  else PrimFloat.nan.

Definition form (a b c d : string) : RangeForm :=
  {| form_minX := a; form_minY := b; form_maxX := c; form_maxY := d |}.

(** The state of the script when it has loaded. *)
Definition loaded : World :=
  {| drawSource := []; highlightSource := []; rangeExtent := None;
     rangeLayer := []; dialogVisible := false; rangeForm := emptyForm |}.

Definition withForm (w : World) (f : RangeForm) : World :=
  {| drawSource := drawSource w; highlightSource := highlightSource w;
     rangeExtent := rangeExtent w; rangeLayer := rangeLayer w;
     dialogVisible := true; rangeForm := f |}.

Definition withExtent (w : World) (e : ol.Extent) : World :=
  {| drawSource := drawSource w; highlightSource := highlightSource w;
     rangeExtent := Some e; rangeLayer := rangeLayer w;
     dialogVisible := dialogVisible w; rangeForm := rangeForm w |}.

(** The extent of [set(0, 0, 10, 10)]. *)
Definition extent_0_0_10_10 : ol.Extent :=
  {| ol.minX := 0%float; ol.minY := 0%float; ol.maxX := 10%float; ol.maxY := 10%float |}.

(** Geographic coordinates used as they are. *)
Definition geographic (c : coord) : coord := c.

(** A stand-in for [getExtent]: the bounding box of the vertices. *)
Definition getExtent (g : ol.Geometry) : ol.Extent :=
  fold_left (fun (e : ol.Extent) (c : coord) =>
               {| ol.minX := Math_min (ol.minX e) (fst c);
                  ol.minY := Math_min (ol.minY e) (snd c);
                  ol.maxX := Math_max (ol.maxX e) (fst c);
                  ol.maxY := Math_max (ol.maxY e) (snd c) |})
            (RangeConstraint.vertices g)
            {| ol.minX := Infinity; ol.minY := Infinity;
               ol.maxX := (- Infinity)%float; ol.maxY := (- Infinity)%float |}.

(** A stand-in for Turf.js on which the checks can be run: the helper
    constructors reject what those of [@turf/helpers] reject, measurements
    are flat-earth estimates (111195 m to the degree), and no overlap,
    crossing, intersection or containment is ever detected. *)
Definition metresPerDegree : number := 111195%float.

Definition sameNumbers (a b : coord) : bool :=
  PrimFloat.eqb (fst a) (fst b) && PrimFloat.eqb (snd a) (snd b).

Definition flatDistance (a b : coord) : number :=
  let dx := (fst a - fst b)%float in
  let dy := (snd a - snd b)%float in
  (metresPerDegree * PrimFloat.sqrt (dx * dx + dy * dy))%float.

Fixpoint flatLength (cs : list coord) : number :=
  match cs with
  | a :: (b :: _) as rest => (flatDistance a b + flatLength rest)%float
  | _ => 0%float
  end.

Fixpoint shoelace (cs : list coord) : number :=
  match cs with
  | a :: (b :: _) as rest => (fst a * snd b - fst b * snd a + shoelace rest)%float
  | _ => 0%float
  end.

Definition flatArea (ring : list coord) : number :=
  (PrimFloat.abs (shoelace ring) / 2 * metresPerDegree * metresPerDegree)%float.

Definition ringRejected (ring : list coord) : option string :=
  if List.length ring <? 4
  then Some "Each LinearRing of a Polygon must have 4 or more Positions."%string
  else match firstPoint ring, lastPoint ring with
       | Some a, Some b =>
           if sameNumbers a b then None
           else Some "First and last Position are not equivalent."%string
       | _, _ => None
       end.

Definition turf : turf.lib :=
  {| turf.point_throws := fun c =>
       match c with
       | None => Some "coordinates is required"%string
       | Some (x, y) =>
           if isNaN x || isNaN y then Some "coordinates must contain numbers"%string else None
       end;
     turf.lineString_throws := fun cs =>
       if List.length cs <? 2
       then Some "coordinates must be an array of two or more positions"%string
       else None;
     turf.polygon_throws := fun rings =>
       fold_right (fun ring acc => match ringRejected ring with
                                   | Some e => Some e
                                   | None => acc
                                   end) None rings;
     turf.booleanValid := fun _ => Ok true;
     turf.area := fun g =>
       match g with
       | turf.Polygon (ring :: _) => Ok (flatArea ring)
       | _ => Ok 0%float
       end;
     turf.length := fun g =>
       match g with
       | turf.LineString cs => Ok (flatLength cs)
       | _ => Ok 0%float
       end;
     turf.distance := fun a b =>
       match a, b with
       | turf.Point (Some p), turf.Point (Some q) => Ok (flatDistance p q)
       | _, _ => Throw "coord must be GeoJSON Point or an Array of numbers"%string
       end;
     turf.booleanOverlap := fun _ _ => Ok false;
     turf.booleanCrosses := fun _ _ => Ok false;
     turf.booleanIntersects := fun _ _ => Ok false;
     turf.booleanContains := fun _ _ => Ok false;
     turf.intersect := fun _ _ => Ok None;
     turf.union := fun _ _ => Ok None;
     turf.distanceToLine := fun _ _ => Throw "turf.distanceToLine is not a function"%string;
     turf.lineIntersect := fun _ _ => Ok 0 |}.

(** The same library with a [booleanIntersects] that fails. *)
Definition turf_intersects_fails : turf.lib :=
  {| turf.point_throws := turf.point_throws turf;
     turf.lineString_throws := turf.lineString_throws turf;
     turf.polygon_throws := turf.polygon_throws turf;
     turf.booleanValid := turf.booleanValid turf;
     turf.area := turf.area turf;
     turf.length := turf.length turf;
     turf.distance := turf.distance turf;
     turf.booleanOverlap := turf.booleanOverlap turf;
     turf.booleanCrosses := turf.booleanCrosses turf;
     turf.booleanIntersects := fun _ _ => Throw "booleanIntersects failed"%string;
     turf.booleanContains := turf.booleanContains turf;
     turf.intersect := turf.intersect turf;
     turf.union := turf.union turf;
     turf.distanceToLine := turf.distanceToLine turf;
     turf.lineIntersect := turf.lineIntersect turf |}.

(** The same library with a [union] that returns a region, and areas chosen
    by the caller: [unionArea] for a region, [polygonArea] for a polygon. *)
Definition turf_with_areas (unionArea polygonArea : number) : turf.lib :=
  {| turf.point_throws := turf.point_throws turf;
     turf.lineString_throws := turf.lineString_throws turf;
     turf.polygon_throws := turf.polygon_throws turf;
     turf.booleanValid := turf.booleanValid turf;
     turf.area := fun g =>
       match g with
       | turf.MultiPolygon _ => Ok unionArea
       | _ => Ok polygonArea
       end;
     turf.length := turf.length turf;
     turf.distance := turf.distance turf;
     turf.booleanOverlap := turf.booleanOverlap turf;
     turf.booleanCrosses := turf.booleanCrosses turf;
     turf.booleanIntersects := turf.booleanIntersects turf;
     turf.booleanContains := turf.booleanContains turf;
     turf.intersect := turf.intersect turf;
     turf.union := fun a b =>
       match a, b with
       | turf.Polygon ra, turf.Polygon rb => Ok (Some (turf.MultiPolygon [ra; rb]))
       | _, _ => Ok None
       end;
     turf.distanceToLine := turf.distanceToLine turf;
     turf.lineIntersect := turf.lineIntersect turf |}.

(** Drawn features, numbered as they are drawn. *)
Definition drawn (geometries : list ol.Geometry) : World :=
  set_drawSource loaded
    (map (fun gi => {| ol.ol_uid := snd gi; ol.getGeometry := fst gi |})
         (combine geometries (seq 1 (List.length geometries)))).

(** The ring [(0,0), (0,1), (1,0)], not closed. *)
Definition unclosedRing : list coord :=
  [(0, 0); (0, 1); (1, 0)]%float.

(** The duplicate points of the specification, and the second one moved
    10 m to the north. *)
Definition point_a : ol.Geometry := ol.Point (10.0, 20.0)%float.
Definition point_b : ol.Geometry := ol.Point (10.0000001, 20.0000001)%float.
Definition point_b_moved : ol.Geometry := ol.Point (10.0000001, 20.00009)%float.

(** Two unit squares side by side, and two lines whose nearest endpoints
    are half a metre apart. *)
Definition square_1 : ol.Geometry :=
  ol.Polygon [[(0, 0); (0, 1); (1, 1); (1, 0); (0, 0)]%float].
Definition square_2 : ol.Geometry :=
  ol.Polygon [[(1, 0); (1, 1); (2, 1); (2, 0); (1, 0)]%float].
Definition line_1 : ol.Geometry := ol.LineString [(5, 5); (5, 6)]%float.
Definition line_2 : ol.Geometry := ol.LineString [(5.0000045, 5); (6, 5)]%float.

(** A polygon of some square centimetres. *)
Definition speck : ol.Geometry :=
  ol.Polygon [[(0, 0); (0, 0.0000001); (0.0000001, 0); (0, 0)]%float].

End Sample.

(* ================================================================== *)
(** ** More properties of the accumulators *)
(* ================================================================== *)

(** Accumulators in which every highlight is one of the two features of
    the pair and comes with an entry that is not a note. *)
Definition flaggedBy (feature1 feature2 : TurfFeature) (s : State) : Prop :=
  forall i, In i (errorFeatureIndices s) ->
    (i = originalIndex feature1 \/ i = originalIndex feature2)
    /\ exists m, In m (errors s) /\ isNote m = false.

(** Accumulators without highlights. *)
Definition noHighlight (s : State) : Prop := errorFeatureIndices s = [].

(* ================================================================== *)
(** ** The toolbar, the range dialog and the Draw interaction *)
(* ================================================================== *)

(** [s.includes(sub)] *)
Fixpoint includes (s sub : string) : bool :=
  String.prefix sub s
  || match s with
     | EmptyString => false
     | String _ rest => includes rest sub
     end.

(** The keys of [rangeForm], the values [validateNumber(field)] is called
    with. *)
Inductive Field : Set := Field_minX | Field_minY | Field_maxX | Field_maxY.

Definition fieldName (field : Field) : string :=
  match field with
  | Field_minX => "minX"
  | Field_minY => "minY"
  | Field_maxX => "maxX"
  | Field_maxY => "maxY"
  end.

(** [this.rangeForm[field]] and [this.rangeForm[field] = value]. *)
Definition getField (form : RangeForm) (field : Field) : string :=
  match field with
  | Field_minX => form_minX form
  | Field_minY => form_minY form
  | Field_maxX => form_maxX form
  | Field_maxY => form_maxY form
  end.

Definition setField (form : RangeForm) (field : Field) (value : string) : RangeForm :=
  match field with
  | Field_minX =>
      {| form_minX := value; form_minY := form_minY form;
         form_maxX := form_maxX form; form_maxY := form_maxY form |}
  | Field_minY =>
      {| form_minX := form_minX form; form_minY := value;
         form_maxX := form_maxX form; form_maxY := form_maxY form |}
  | Field_maxX =>
      {| form_minX := form_minX form; form_minY := form_minY form;
         form_maxX := value; form_maxY := form_maxY form |}
  | Field_maxY =>
      {| form_minX := form_minX form; form_minY := form_minY form;
         form_maxX := form_maxX form; form_maxY := value |}
  end.

Definition set_rangeForm (w : World) (form : RangeForm) : World :=
  {| drawSource := drawSource w; highlightSource := highlightSource w;
     rangeExtent := rangeExtent w; rangeLayer := rangeLayer w;
     dialogVisible := dialogVisible w; rangeForm := form |}.

Definition set_dialogVisible (w : World) (visible : bool) : World :=
  {| drawSource := drawSource w; highlightSource := highlightSource w;
     rangeExtent := rangeExtent w; rangeLayer := rangeLayer w;
     dialogVisible := visible; rangeForm := rangeForm w |}.

(** [new Draw({source: drawSource, type: type})]: an object with its own
    identity. *)
Record Draw : Set := { draw_uid : nat; draw_type : TypeName }.

(** [map.addInteraction] and [map.removeInteraction] on the Draw
    interactions of the map: the collection is extended at its end, and
    the first occurrence of the object is removed. *)
Definition addInteraction (interaction : Draw) (interactions : list Draw) : list Draw :=
  interactions ++ [interaction].

Fixpoint removeInteraction (interaction : Draw) (interactions : list Draw) : list Draw :=
  match interactions with
  | [] => []
  | x :: rest =>
      if draw_uid x =? draw_uid interaction then rest
      else x :: removeInteraction interaction rest
  end.

(** The module-level state with the variables of the drawing functions:
    [drawInteraction], [drawingMode], the Draw interactions of [map], and
    the number of Draw objects created so far. *)
Record Tool : Set := {
  world : World;
  drawInteraction : option Draw;
  drawingMode : option TypeName;
  interactions : list Draw;
  created : nat
}.

Definition set_world (t : Tool) (w : World) : Tool :=
  {| world := w; drawInteraction := drawInteraction t; drawingMode := drawingMode t;
     interactions := interactions t; created := created t |}.

(** [if (drawInteraction) { map.removeInteraction(drawInteraction); }] *)
Definition withoutDrawInteraction (t : Tool) : list Draw :=
  match drawInteraction t with
  | Some interaction => removeInteraction interaction (interactions t)
  | None => interactions t
  end.

(** What a handler shows or does to the view. *)
Inductive Shown : Set :=
| Checked (n : Notification)              (* the message box of checkTopology *)
| Escaped (message : string)              (* an exception leaving the handler *)
| RangeNotSet                             (* 未设置绘制范围 *)
| NoRangeToZoom                           (* 未设置范围 *)
| RangeMessageShown (m : RangeMessage)    (* this.$message / this.$notify of the dialog *)
| FitRangeLayer (features : list ol.Geometry)
                            (* view.fit(rangeLayer.getSource().getExtent(), ...) *)
| FitExtent (projectedExtent : ol.Extent).   (* view.fit(projectedExtent, ...) *)

(** What the user does: a click on a button of the toolbar, typing into
    the fields of the dialog, its two buttons, and sketching with a Draw
    interaction that is on the map.  The interaction and its [drawend]
    handler belong to OpenLayers: a sketch may leave any features in the
    drawing source. *)
Inductive Action : Set :=
| Click (toolId : string)
| Fill (form : RangeForm)
| Confirm
| Close
| Sketch (source : ol.VectorSource).

(** [clearAllDrawings()], lines 201-209 and 1136-1144. *)
Definition clearAllDrawings (t : Tool) : Tool :=
  let w := set_highlightSource (set_drawSource (world t) (ol.clear (drawSource (world t))))
                               (ol.clear (highlightSource (world t))) in
  match drawInteraction t with
  | Some interaction =>
      {| world := w; drawInteraction := None; drawingMode := None;
         interactions := removeInteraction interaction (interactions t);
         created := created t |}
  | None =>
      {| world := w; drawInteraction := None; drawingMode := None;
         interactions := interactions t; created := created t |}
  end.

(** [setDrawingRange()], lines 628-631 and 1394-1396. *)
Definition setDrawingRange (t : Tool) : Tool :=
  set_world t (set_dialogVisible (world t) true).

(** [handleClose()], lines 654-656 and 1533-1535. *)
Definition handleClose (t : Tool) : Tool :=
  set_world t (set_dialogVisible (world t) false).

(** The sketch of a user: without a Draw interaction on the map nothing
    can be drawn. *)
Definition sketch (source : ol.VectorSource) (t : Tool) : Tool :=
  match interactions t with
  | [] => t
  | _ :: _ => set_world t (set_drawSource (world t) source)
  end.

Definition shownCheck (r : result Notification) : Shown :=
  match r with
  | Ok n => Checked n
  | Throw message => Escaped message
  end.

Module V1Tool.

Section Toolbar.

Variable T : turf.lib.
Variable toLonLat : coord -> coord.
Variable parseFloat : string -> number.
Variable formValid : RangeForm -> bool.

(** [startDrawing(type)], lines 171-199.  (This variant assigns
    [highlightSource] and [highlightLayer] without declaring them; they
    are taken as declared, as in the annotated variant.) *)
Definition startDrawing (type_ : TypeName) (t : Tool) : Tool :=
  let interaction := {| draw_uid := created t; draw_type := type_ |} in
  {| world := world t;
     drawInteraction := Some interaction;
     drawingMode := Some type_;
     interactions := addInteraction interaction (withoutDrawInteraction t);
     created := S (created t) |}.

Definition checkTopology (t : Tool) : option Shown * Tool :=
  (Some (shownCheck (fst (V1.checkTopology T toLonLat (world t)))),
   set_world t (snd (V1.checkTopology T toLonLat (world t)))).

(** [handleToolClick(toolId)], lines 89-110. *)
Definition handleToolClick (toolId : string) (t : Tool) : option Shown * Tool :=
  if String.eqb toolId "point" then (None, startDrawing TPoint t)
  else if String.eqb toolId "line" then (None, startDrawing TLineString t)
  else if String.eqb toolId "polygon" then (None, startDrawing TPolygon t)
  else if String.eqb toolId "clear" then (None, clearAllDrawings t)
  else if String.eqb toolId "topology" then checkTopology t
  else if String.eqb toolId "range" then (None, setDrawingRange t)
  else (None, t).

Definition confirmRange (t : Tool) : option Shown * Tool :=
  (option_map RangeMessageShown (fst (V1.confirmRange parseFloat formValid (world t))),
   set_world t (snd (V1.confirmRange parseFloat formValid (world t)))).

Definition step (a : Action) (t : Tool) : option Shown * Tool :=
  match a with
  | Click toolId => handleToolClick toolId t
  | Fill form => (None, set_world t (set_rangeForm (world t) form))
  | Confirm => confirmRange t
  | Close => (None, handleClose t)
  | Sketch source => (None, sketch source t)
  end.

Definition run (actions : list Action) (t : Tool) : Tool :=
  fold_left (fun t a => snd (step a t)) actions t.

End Toolbar.

End V1Tool.

Module V2Tool.

Section Toolbar.

Variable T : turf.lib.
Variable toLonLat : coord -> coord.
Variable fromLonLat : coord -> coord.
Variable parseFloat : string -> number.
Variable formValid : RangeForm -> bool.

(** [startDrawing(type)], lines 1007-1131: without a range the function
    warns and returns after the interaction was taken off the map. *)
Definition startDrawing (type_ : TypeName) (t : Tool) : option Shown * Tool :=
  match rangeExtent (world t) with
  | None =>
      (Some RangeNotSet,
       {| world := world t; drawInteraction := drawInteraction t;
          drawingMode := drawingMode t;
          interactions := withoutDrawInteraction t; created := created t |})
  | Some _ =>
      let interaction := {| draw_uid := created t; draw_type := type_ |} in
      (None,
       {| world := world t;
          drawInteraction := Some interaction;
          drawingMode := Some type_;
          interactions := addInteraction interaction (withoutDrawInteraction t);
          created := S (created t) |})
  end.

Definition checkTopology (t : Tool) : option Shown * Tool :=
  (Some (shownCheck (fst (V2.checkTopology T toLonLat (world t)))),
   set_world t (snd (V2.checkTopology T toLonLat (world t)))).

(** [zoomToRange()], lines 1402-1433. *)
Definition zoomToRange (t : Tool) : Shown :=
  if 0 <? List.length (rangeLayer (world t)) then FitRangeLayer (rangeLayer (world t))
  else
    match rangeExtent (world t) with
    | Some rangeExtent_ =>
        let minCoord := fromLonLat (ol.minX rangeExtent_, ol.minY rangeExtent_) in
        let maxCoord := fromLonLat (ol.maxX rangeExtent_, ol.maxY rangeExtent_) in
        FitExtent {| ol.minX := Math_min (fst minCoord) (fst maxCoord);
                     ol.minY := Math_min (snd minCoord) (snd maxCoord);
                     ol.maxX := Math_max (fst minCoord) (fst maxCoord);
                     ol.maxY := Math_max (snd minCoord) (snd maxCoord) |}
    | None => NoRangeToZoom
    end.

(** [handleToolClick(toolId)], lines 879-903. *)
Definition handleToolClick (toolId : string) (t : Tool) : option Shown * Tool :=
  if String.eqb toolId "point" then startDrawing TPoint t
  else if String.eqb toolId "line" then startDrawing TLineString t
  else if String.eqb toolId "polygon" then startDrawing TPolygon t
  else if String.eqb toolId "clear" then (None, clearAllDrawings t)
  else if String.eqb toolId "topology" then checkTopology t
  else if String.eqb toolId "range" then (None, setDrawingRange t)
  else if String.eqb toolId "zoom" then (Some (zoomToRange t), t)
  else (None, t).

(** [validateNumber(field)], lines 1541-1567. *)
Definition validateNumber (field : Field) (w : World) : option RangeMessage * World :=
  let value := getField (rangeForm w) field in
  if String.eqb value EmptyString then (None, w)
  else
    let numValue := parseFloat value in
    let emptied := set_rangeForm w (setField (rangeForm w) field EmptyString) in
    if isNaN numValue then (Some NotANumber, emptied)
    else if includes (fieldName field) "X" then
      if lt numValue (-180)%float || gt numValue 180%float
      then (Some LongitudeOutOfDomain, emptied)
      else (None, w)
    else if includes (fieldName field) "Y" then
      if lt numValue (-90)%float || gt numValue 90%float
      then (Some LatitudeOutOfDomain, emptied)
      else (None, w)
    else (None, w).

Definition confirmRange (t : Tool) : option Shown * Tool :=
  (option_map RangeMessageShown
     (fst (V2.confirmRange parseFloat fromLonLat formValid (world t))),
   set_world t (snd (V2.confirmRange parseFloat fromLonLat formValid (world t)))).

Definition step (a : Action) (t : Tool) : option Shown * Tool :=
  match a with
  | Click toolId => handleToolClick toolId t
  | Fill form => (None, set_world t (set_rangeForm (world t) form))
  | Confirm => confirmRange t
  | Close => (None, handleClose t)
  | Sketch source => (None, sketch source t)
  end.

Definition run (actions : list Action) (t : Tool) : Tool :=
  fold_left (fun t a => snd (step a t)) actions t.

End Toolbar.

End V2Tool.

(** The script when it has loaded: nothing drawn, no range, no Draw
    interaction. *)
Definition loadedTool : Tool :=
  {| world := Sample.loaded; drawInteraction := None; drawingMode := None;
     interactions := []; created := 0 |}.

(** At most one Draw interaction is on the map: the one [drawInteraction]
    holds, created for [drawingMode]. *)
Definition singleInteraction (t : Tool) : Prop :=
  interactions t = []
  \/ exists interaction,
       drawInteraction t = Some interaction
       /\ drawingMode t = Some (draw_type interaction)
       /\ interactions t = [interaction].

(** Annotated variant.  Without a range nothing is drawn, no Draw
    interaction exists and the range layer is empty; an installed range
    satisfies the rules and the range layer shows its rectangle, alone. *)
Definition rangeShown (fromLonLat : coord -> coord) (t : Tool) : Prop :=
  match rangeExtent (world t) with
  | None =>
      rangeLayer (world t) = [] /\ interactions t = []
      /\ drawInteraction t = None /\ drawSource (world t) = []
  | Some extent =>
      RangeConstraint.rules (ol.minX extent) (ol.minY extent)
                            (ol.maxX extent) (ol.maxY extent) = true
      /\ rangeLayer (world t)
         = [V2.rangeFeature fromLonLat (ol.minX extent) (ol.minY extent)
                            (ol.maxX extent) (ol.maxY extent)]
  end.

(** The domain of a field of the form: longitudes for [minX] and [maxX],
    latitudes for [minY] and [maxY]. *)
Definition inFieldDomain (field : Field) (value : number) : bool :=
  match field with
  | Field_minX | Field_maxX => le (-180)%float value && le value 180%float
  | Field_minY | Field_maxY => le (-90)%float value && le value 90%float
  end.

(* ================================================================== *)
(** ** More sample inputs *)
(* ================================================================== *)

Module Demo.

(** [Sample.turf] with a [booleanValid] or a [length] that fails, or with
    a [distanceToLine] that returns 0. *)
Definition turf_with (validFails lengthFails adjacent : bool) : turf.lib :=
  {| turf.point_throws := turf.point_throws Sample.turf;
     turf.lineString_throws := turf.lineString_throws Sample.turf;
     turf.polygon_throws := turf.polygon_throws Sample.turf;
     turf.booleanValid := fun g =>
       if validFails then Throw "booleanValid failed"%string
       else turf.booleanValid Sample.turf g;
     turf.area := turf.area Sample.turf;
     turf.length := fun g =>
       if lengthFails then Throw "length failed"%string
       else turf.length Sample.turf g;
     turf.distance := turf.distance Sample.turf;
     turf.booleanOverlap := turf.booleanOverlap Sample.turf;
     turf.booleanCrosses := turf.booleanCrosses Sample.turf;
     turf.booleanIntersects := turf.booleanIntersects Sample.turf;
     turf.booleanContains := turf.booleanContains Sample.turf;
     turf.intersect := turf.intersect Sample.turf;
     turf.union := turf.union Sample.turf;
     turf.distanceToLine := fun a b =>
       if adjacent then Ok 0%float else turf.distanceToLine Sample.turf a b;
     turf.lineIntersect := turf.lineIntersect Sample.turf |}.

(** A line that returns to its first vertex. *)
Definition loop : ol.Geometry := ol.LineString [(5, 5); (5, 6); (5, 5)]%float.

(** Opening the dialog, entering the bounds (0, 0, 10, 10), confirming,
    choosing the polygon tool and sketching one square. *)
Definition session : list Action :=
  [ Click "range"; Fill (Sample.form "0" "0" "10" "10"); Confirm; Click "polygon";
    Sketch [ {| ol.ol_uid := 1; ol.getGeometry := Sample.square_1 |} ] ]%string.

End Demo.

(* ================================================================== *)
(** * Properties *)
(* ================================================================== *)

(* ------------------------------------------------------------------ *)
(** ** Comparisons of numbers *)
(* ------------------------------------------------------------------ *)

Section NumberFacts.

Import SpecFloat.

Lemma SFcompare_swap (x y : spec_float) :
  SFcompare x y = option_map CompOpp (SFcompare y x).
Proof.
  destruct x as [sx|sx| |sx mx ex], y as [sy|sy| |sy my ey]; simpl;
    try reflexivity;
    try (destruct sx; reflexivity);
    try (destruct sy; reflexivity);
    try (destruct sx, sy; reflexivity).
  f_equal.
  destruct sx, sy; try reflexivity;
    rewrite (Z.compare_antisym ey ex);
    destruct (ey ?= ex)%Z; simpl; try reflexivity;
    rewrite (Pos.compare_cont_antisym my mx Eq); simpl;
    try rewrite CompOpp_involutive; reflexivity.
Qed.

Lemma isNaN_false_Prim2SF (a : number) :
  isNaN a = false -> Prim2SF a <> S754_nan.
Proof.
  unfold isNaN, PrimFloat.is_nan. rewrite FloatAxioms.eqb_spec.
  intros H E. rewrite E in H. discriminate H.
Qed.

Lemma SFcompare_defined (x y : spec_float) :
  x <> S754_nan -> y <> S754_nan -> exists c, SFcompare x y = Some c.
Proof.
  intros Hx Hy.
  destruct x, y; simpl; try congruence; eauto.
Qed.

(** On numbers other than NaN, [a < b] is the negation of [a >= b]. *)
Lemma lt_not_ge (a b : number) :
  isNaN a = false -> isNaN b = false -> lt a b = negb (ge a b).
Proof.
  intros Ha Hb. unfold lt, ge.
  rewrite FloatAxioms.ltb_spec, FloatAxioms.leb_spec.
  unfold SFltb, SFleb.
  apply isNaN_false_Prim2SF in Ha. apply isNaN_false_Prim2SF in Hb.
  destruct (SFcompare_defined _ _ Hb Ha) as [c Hc].
  rewrite (SFcompare_swap (Prim2SF a) (Prim2SF b)), Hc.
  destruct c; reflexivity.
Qed.

(** On numbers other than NaN, [a > b] is the negation of [a <= b]. *)
Lemma gt_not_le (a b : number) :
  isNaN a = false -> isNaN b = false -> gt a b = negb (le a b).
Proof.
  intros Ha Hb. unfold gt, le. apply lt_not_ge; assumption.
Qed.

(** A comparison that holds has no NaN operand. *)
Lemma le_true_numbers (a b : number) :
  le a b = true -> isNaN a = false /\ isNaN b = false.
Proof.
  unfold le, isNaN, PrimFloat.is_nan.
  rewrite FloatAxioms.leb_spec, !FloatAxioms.eqb_spec.
  unfold SFleb, SFeqb.
  destruct (Prim2SF a) as [sa|sa| |sa ma ea], (Prim2SF b) as [sb|sb| |sb mb eb];
    simpl; try discriminate; intros _;
    try rewrite Z.compare_refl; try rewrite Pos.compare_cont_refl;
    repeat match goal with s : bool |- _ => destruct s end; simpl;
    try rewrite Z.compare_refl; try rewrite Pos.compare_cont_refl; auto.
Qed.

(** Rounding never produces NaN: the mantissa stays non-negative through
    the shifts. *)
Lemma shr_1_nonneg (mrs : shr_record) :
  (0 <= shr_m mrs)%Z -> (0 <= shr_m (shr_1 mrs))%Z.
Proof.
  destruct mrs as [m r s]; simpl.
  destruct m as [|p|p]; simpl; intros H; try lia; destruct p; simpl; lia.
Qed.

Lemma iter_shr_1_nonneg (p : positive) (mrs : shr_record) :
  (0 <= shr_m mrs)%Z -> (0 <= shr_m (iter_pos shr_1 p mrs))%Z.
Proof.
  revert mrs.
  induction p as [p IH|p IH|]; simpl; intros mrs H.
  - apply IH, IH, shr_1_nonneg, H.
  - apply IH, IH, H.
  - apply shr_1_nonneg, H.
Qed.

Lemma shr_fexp_nonneg (prec emax m e : Z) (l : location) :
  (0 <= m)%Z -> (0 <= shr_m (fst (shr_fexp prec emax m e l)))%Z.
Proof.
  intros H. unfold shr_fexp, shr.
  assert (H0 : (0 <= shr_m (shr_record_of_loc m l))%Z)
    by (destruct l as [|[ | | ]]; exact H).
  destruct (fexp prec emax (Zdigits2 m + e) - e)%Z; simpl; auto.
  apply iter_shr_1_nonneg, H0.
Qed.

Lemma round_nearest_even_nonneg (m : Z) (l : location) :
  (0 <= m)%Z -> (0 <= round_nearest_even m l)%Z.
Proof.
  intros H. destruct l as [|[ | | ]]; simpl; try lia.
  destruct (Z.even m); lia.
Qed.

Lemma binary_round_aux_not_nan (prec emax : Z) (sx : bool) (mx ex : Z) (l : location) :
  (0 <= mx)%Z -> binary_round_aux prec emax sx mx ex l <> S754_nan.
Proof.
  intros H. unfold binary_round_aux.
  pose proof (shr_fexp_nonneg prec emax mx ex l H) as H1.
  destruct (shr_fexp prec emax mx ex l) as [mrs' e']. simpl in H1.
  pose proof (round_nearest_even_nonneg _ (loc_of_shr_record mrs') H1) as H2.
  pose proof (shr_fexp_nonneg prec emax _ e' loc_Exact H2) as H3.
  destruct (shr_fexp prec emax _ e' loc_Exact) as [mrs'' e'']. simpl in H3.
  destruct (shr_m mrs''); try discriminate; try lia.
  destruct (e'' <=? emax - prec)%Z; discriminate.
Qed.

Lemma binary_normalize_not_nan (prec emax m e : Z) (szero : bool) :
  binary_normalize prec emax m e szero <> S754_nan.
Proof.
  unfold binary_normalize, binary_round.
  destruct m as [|p|p]; try discriminate;
    destruct (shl_align _ _ _) as [mz ez];
    apply binary_round_aux_not_nan; lia.
Qed.

Lemma SFsub_not_nan (prec emax : Z) (x y : spec_float) :
  SFfinite x -> SFfinite y -> SFsub prec emax x y <> S754_nan.
Proof.
  destruct x as [sx|sx| |sx mx ex], y as [sy|sy| |sy my ey]; simpl;
    try contradiction; intros _ _; try discriminate.
  - destruct sx, sy; discriminate.
  - apply binary_normalize_not_nan.
Qed.

Lemma SFcompare_refl (x : spec_float) :
  x <> S754_nan -> SFcompare x x = Some Eq.
Proof.
  destruct x as [s|s| |s m e]; simpl; try congruence; intros _.
  - destruct s; reflexivity.
  - destruct s; rewrite Z.compare_refl, Pos.compare_cont_refl; reflexivity.
Qed.

Lemma Prim2SF_isNaN_false (a : number) :
  Prim2SF a <> S754_nan -> isNaN a = false.
Proof.
  intros H. unfold isNaN, PrimFloat.is_nan.
  rewrite FloatAxioms.eqb_spec. unfold SFeqb.
  rewrite (SFcompare_refl _ H). reflexivity.
Qed.

(** A number between two finite bounds is finite. *)
Lemma between_finite (lo hi a : number) :
  SFfinite (Prim2SF lo) -> SFfinite (Prim2SF hi) ->
  le lo a = true -> le a hi = true -> SFfinite (Prim2SF a).
Proof.
  unfold le. rewrite !FloatAxioms.leb_spec. unfold SFleb.
  intros Hlo Hhi H1 H2.
  destruct (Prim2SF a) as [s|s| |s m e]; simpl; auto.
  - destruct (Prim2SF lo) as [s1|s1| |s1 m1 e1], (Prim2SF hi) as [s2|s2| |s2 m2 e2];
      simpl in *; try contradiction; destruct s; discriminate.
  - destruct (Prim2SF lo); simpl in *; try contradiction; discriminate.
Qed.

(** The difference of two finite numbers is a number. *)
Lemma sub_finite_number (a b : number) :
  SFfinite (Prim2SF a) -> SFfinite (Prim2SF b) -> isNaN (a - b)%float = false.
Proof.
  intros Ha Hb. apply Prim2SF_isNaN_false.
  rewrite FloatAxioms.sub_spec. apply SFsub_not_nan; assumption.
Qed.

(** The order of numbers: [<=] is transitive, and [Math.min] picks the
    least. *)
Ltac sf_order :=
  simpl; try discriminate; try reflexivity;
  repeat match goal with
         | |- context [(?a ?= ?b)%Z] => destruct (Z.compare_spec a b)
         end;
  subst; try lia; simpl; try discriminate; try reflexivity;
  change (Pos.compare_cont Eq) with Pos.compare;
  repeat match goal with
         | |- context [(?a ?= ?b)%positive] => destruct (Pos.compare_spec a b)
         end;
  subst; simpl; try discriminate; try reflexivity; intros; lia.

Lemma SFleb_trans (x y z : spec_float) :
  SFleb x y = true -> SFleb y z = true -> SFleb x z = true.
Proof.
  unfold SFleb.
  destruct x as [[]|[]| |[] mx ex], y as [[]|[]| |[] my ey], z as [[]|[]| |[] mz ez];
    sf_order.
Qed.

Lemma SFleb_ltb_trans (x y z : spec_float) :
  SFleb x y = true -> SFltb y z = true -> SFltb x z = true.
Proof.
  unfold SFleb, SFltb.
  destruct x as [[]|[]| |[] mx ex], y as [[]|[]| |[] my ey], z as [[]|[]| |[] mz ez];
    sf_order.
Qed.

Lemma SFleb_antisym (x y : spec_float) :
  SFleb x y = true -> SFleb y x = true ->
  x = y \/ (exists s s', x = S754_zero s /\ y = S754_zero s').
Proof.
  unfold SFleb.
  destruct x as [[]|[]| |[] mx ex], y as [[]|[]| |[] my ey];
    simpl; try discriminate; eauto;
    destruct (Z.compare_spec ex ey), (Z.compare_spec ey ex); subst; try lia;
    simpl; try discriminate;
    change (Pos.compare_cont Eq) with Pos.compare;
    destruct (Pos.compare_spec mx my), (Pos.compare_spec my mx); subst; simpl;
    try discriminate; auto; lia.
Qed.

Lemma le_trans (a b c : number) :
  le a b = true -> le b c = true -> le a c = true.
Proof.
  unfold le. rewrite !FloatAxioms.leb_spec. apply SFleb_trans.
Qed.

Lemma le_lt_trans (a b c : number) :
  le a b = true -> lt b c = true -> lt a c = true.
Proof.
  unfold le, lt. rewrite FloatAxioms.leb_spec, !FloatAxioms.ltb_spec.
  apply SFleb_ltb_trans.
Qed.

Lemma lt_le (a b : number) : lt a b = true -> le a b = true.
Proof.
  unfold le, lt. rewrite FloatAxioms.leb_spec, FloatAxioms.ltb_spec.
  unfold SFltb, SFleb. destruct (SFcompare _ _) as [[| |]|]; congruence.
Qed.

Lemma le_refl (a : number) : isNaN a = false -> le a a = true.
Proof.
  intros H. unfold le. rewrite FloatAxioms.leb_spec. unfold SFleb.
  rewrite (SFcompare_refl _ (isNaN_false_Prim2SF a H)). reflexivity.
Qed.

Lemma not_lt_le (a b : number) :
  isNaN a = false -> isNaN b = false -> lt a b = false -> le b a = true.
Proof.
  intros Ha Hb H. rewrite (lt_not_ge a b Ha Hb) in H.
  apply negb_false_iff in H. exact H.
Qed.

(** Two numbers at least 0.1 that are each at most the other are the same
    number. *)
Lemma le_antisym (a b : number) :
  le a b = true -> le b a = true -> lt b 0.1%float = false -> a = b.
Proof.
  unfold le, lt. rewrite !FloatAxioms.leb_spec, FloatAxioms.ltb_spec.
  intros H1 H2 H3.
  destruct (SFleb_antisym _ _ H1 H2) as [E|(s & s' & _ & E)].
  - rewrite <- (FloatAxioms.SF2Prim_Prim2SF a), <- (FloatAxioms.SF2Prim_Prim2SF b), E.
    reflexivity.
  - rewrite E in H3. destruct s'; vm_compute in H3; discriminate.
Qed.

Lemma Math_min_Infinity (d : number) : isNaN d = false -> Math_min Infinity d = d.
Proof.
  intros H. unfold Math_min. rewrite H.
  replace (isNaN Infinity) with false by reflexivity. simpl.
  assert (E : lt Infinity d = false).
  { unfold lt, Infinity. rewrite FloatAxioms.ltb_spec.
    replace (Prim2SF infinity) with (S754_infinity false) by reflexivity.
    destruct (Prim2SF d) as [|[]| |]; reflexivity. }
  rewrite E. destruct (lt d Infinity); reflexivity.
Qed.

(** [Math.min] of two numbers is one of them and at most both. *)
Lemma Math_min_least (a b : number) :
  isNaN a = false -> isNaN b = false ->
  (Math_min a b = a \/ Math_min a b = b)
  /\ le (Math_min a b) a = true /\ le (Math_min a b) b = true.
Proof.
  intros Ha Hb. unfold Math_min. rewrite Ha, Hb. simpl.
  destruct (lt a b) eqn:E1.
  - repeat split; auto using le_refl, lt_le.
  - destruct (lt b a) eqn:E2.
    + repeat split; auto using le_refl, lt_le.
    + pose proof (not_lt_le a b Ha Hb E1). pose proof (not_lt_le b a Hb Ha E2).
      destruct (get_sign a); repeat split; auto using le_refl.
Qed.

Lemma Math_min_number (a b : number) :
  isNaN a = false -> isNaN b = false -> isNaN (Math_min a b) = false.
Proof.
  intros Ha Hb. destruct (Math_min_least a b Ha Hb) as [[E|E] _]; rewrite E; assumption.
Qed.

(** [Math.min] folded over numbers from a number: the result is the start
    or one of the numbers, and at most each of them. *)
Lemma fold_Math_min_least (ds : list number) (acc : number) :
  isNaN acc = false -> (forall d, In d ds -> isNaN d = false) ->
  let r := fold_left Math_min ds acc in
  (r = acc \/ In r ds) /\ le r acc = true /\ (forall d, In d ds -> le r d = true).
Proof.
  revert acc. induction ds as [|d ds IH]; simpl; intros acc Ha Hd.
  - repeat split; auto using le_refl; intros d [].
  - assert (Hn : isNaN d = false) by (apply Hd; auto).
    destruct (Math_min_least acc d Ha Hn) as (E & L1 & L2).
    destruct (IH (Math_min acc d) (Math_min_number acc d Ha Hn)
                 (fun x Hx => Hd x (or_intror Hx))) as (I & L & F).
    repeat split.
    + destruct I as [I|I]; [|auto]. rewrite I. destruct E as [E|E]; rewrite E; auto.
    + exact (le_trans _ _ _ L L1).
    + intros x [<-|Hx]; [exact (le_trans _ _ _ L L2)|apply F, Hx].
Qed.

End NumberFacts.

(* ------------------------------------------------------------------ *)
(** ** The accumulators are only appended to *)
(* ------------------------------------------------------------------ *)

Section Accumulators.

Lemma Set_has_In (s : list nat) (x : nat) : Set_has s x = true <-> In x s.
Proof.
  unfold Set_has. rewrite existsb_exists. split.
  - intros (y & Hy & E). apply Nat.eqb_eq in E. subst. exact Hy.
  - intros H. exists x. split; [exact H|apply Nat.eqb_refl].
Qed.

Lemma Set_add_In (s : list nat) (x y : nat) :
  In y (Set_add s x) <-> In y s \/ y = x.
Proof.
  unfold Set_add. destruct (Set_has s x) eqn:E.
  - apply Set_has_In in E. split; [auto|]. intros [H| ->]; assumption.
  - rewrite in_app_iff. simpl. intuition.
Qed.

Lemma addAll_In (d s : list nat) (y : nat) :
  In y (fold_left Set_add d s) <-> In y s \/ In y d.
Proof.
  revert s. induction d as [|x d IH]; intros s; simpl.
  - intuition.
  - rewrite IH, Set_add_In. intuition.
Qed.

Lemma Set_add_present (s : list nat) (x : nat) : In x s -> Set_add s x = s.
Proof. intros H. unfold Set_add. apply Set_has_In in H. rewrite H. reflexivity. Qed.

Lemma Set_add_absent (s : list nat) (x : nat) : Set_has s x = false -> Set_add s x = s ++ [x].
Proof. intros H. unfold Set_add. rewrite H. reflexivity. Qed.

Lemma addAll_Set_add (s d : list nat) (x : nat) :
  fold_left Set_add (Set_add d x) s = Set_add (fold_left Set_add d s) x.
Proof.
  destruct (Set_has d x) eqn:E.
  - apply Set_has_In in E. rewrite (Set_add_present d x E).
    symmetry. apply Set_add_present, addAll_In. right. exact E.
  - rewrite (Set_add_absent d x E), fold_left_app. reflexivity.
Qed.

Lemma addAll_assoc (l d s : list nat) :
  fold_left Set_add (fold_left Set_add l d) s
  = fold_left Set_add l (fold_left Set_add d s).
Proof.
  revert d. induction l as [|x l IH]; intros d; simpl; [reflexivity|].
  rewrite IH, addAll_Set_add. reflexivity.
Qed.

Lemma extend_assoc (s d1 d2 : State) :
  extend (extend s d1) d2 = extend s (extend d1 d2).
Proof.
  unfold extend; simpl. rewrite app_assoc, addAll_assoc. reflexivity.
Qed.

Lemma extend_initial (s : State) : extend s initial = s.
Proof. destruct s; unfold extend; simpl. rewrite app_nil_r. reflexivity. Qed.

Lemma run_eta {A} (m : M A) : m initial = (outcome m, written m).
Proof. unfold outcome, written. destruct (m initial); reflexivity. Qed.

Lemma local_ret {A} (a : A) : local (ret a).
Proof. intros s. unfold ret, outcome, written; simpl. rewrite extend_initial. reflexivity. Qed.

Lemma local_throw {A} (e : string) : local (@throw A e).
Proof. intros s. unfold throw, outcome, written; simpl. rewrite extend_initial. reflexivity. Qed.

Lemma local_call {A} (r : result A) : local (call r).
Proof. intros s. unfold call, outcome, written; simpl. rewrite extend_initial. reflexivity. Qed.

Lemma local_push (msg : Message) : local (push msg).
Proof. intros s. reflexivity. Qed.

Lemma local_add (i : nat) : local (add i).
Proof.
  intros s. unfold add, outcome, written, extend; simpl.
  rewrite app_nil_r. reflexivity.
Qed.

(** How a sequence ends and what it writes. *)
Lemma outcome_bind {A B} (m : M A) (f : A -> M B) :
  local m -> (forall a, local (f a)) ->
  outcome (bind m f)
  = match outcome m with Ok a => outcome (f a) | Throw e => Throw e end.
Proof.
  intros Hm Hf. unfold outcome at 1, bind. rewrite run_eta.
  destruct (outcome m) as [a|e]; [|reflexivity].
  rewrite (Hf a). reflexivity.
Qed.

Lemma written_bind {A B} (m : M A) (f : A -> M B) :
  local m -> (forall a, local (f a)) ->
  written (bind m f)
  = match outcome m with
    | Ok a => extend (written m) (written (f a))
    | Throw _ => written m
    end.
Proof.
  intros Hm Hf. unfold written at 1, bind. rewrite run_eta.
  destruct (outcome m) as [a|e]; [|reflexivity].
  rewrite (Hf a). reflexivity.
Qed.

Lemma outcome_bind_throw {A B} (m : M A) (f : A -> M B) (e : string) :
  outcome m = Throw e -> outcome (bind m f) = Throw e.
Proof.
  intros H. unfold outcome at 1, bind. rewrite run_eta, H. reflexivity.
Qed.

Lemma outcome_bind_ok {A B} (m : M A) (f : A -> M B) (a : A) :
  outcome m = Ok a -> local (f a) -> outcome (bind m f) = outcome (f a).
Proof.
  intros H L. unfold outcome at 1, bind. rewrite run_eta, H, (L (written m)).
  reflexivity.
Qed.

Lemma written_bind_ok {A B} (m : M A) (f : A -> M B) (a : A) :
  outcome m = Ok a -> local (f a) ->
  written (bind m f) = extend (written m) (written (f a)).
Proof.
  intros H L. unfold written at 1, bind. rewrite run_eta, H, (L (written m)).
  reflexivity.
Qed.

Lemma written_bind_throw {A B} (m : M A) (f : A -> M B) (e : string) :
  outcome m = Throw e -> written (bind m f) = written m.
Proof.
  intros H. unfold written at 1, bind. rewrite run_eta, H. reflexivity.
Qed.

Lemma local_bind {A B} (m : M A) (f : A -> M B) :
  local m -> (forall a, local (f a)) -> local (bind m f).
Proof.
  intros Hm Hf s.
  rewrite (outcome_bind m f Hm Hf), (written_bind m f Hm Hf).
  unfold bind. rewrite (Hm s).
  destruct (outcome m) as [a|e]; [|reflexivity].
  rewrite (Hf a), extend_assoc. reflexivity.
Qed.

Lemma outcome_try_catch {A} (m : M A) (h : string -> M A) :
  local m -> (forall e, local (h e)) ->
  outcome (try_catch m h)
  = match outcome m with Ok a => Ok a | Throw e => outcome (h e) end.
Proof.
  intros Hm Hh. unfold outcome at 1, try_catch. rewrite run_eta.
  destruct (outcome m) as [a|e]; [reflexivity|].
  rewrite (Hh e). reflexivity.
Qed.

Lemma written_try_catch {A} (m : M A) (h : string -> M A) :
  local m -> (forall e, local (h e)) ->
  written (try_catch m h)
  = match outcome m with
    | Ok _ => written m
    | Throw e => extend (written m) (written (h e))
    end.
Proof.
  intros Hm Hh. unfold written at 1, try_catch. rewrite run_eta.
  destruct (outcome m) as [a|e]; [reflexivity|].
  rewrite (Hh e). reflexivity.
Qed.

Lemma local_try_catch {A} (m : M A) (h : string -> M A) :
  local m -> (forall e, local (h e)) -> local (try_catch m h).
Proof.
  intros Hm Hh s.
  rewrite (outcome_try_catch m h Hm Hh), (written_try_catch m h Hm Hh).
  unfold try_catch. rewrite (Hm s).
  destruct (outcome m) as [a|e]; [reflexivity|].
  rewrite (Hh e), extend_assoc. reflexivity.
Qed.

Lemma local_when (b : bool) (m : M unit) : local m -> local (when b m).
Proof. intros H. destruct b; [exact H|apply local_ret]. Qed.

Lemma local_check (cond : bool) (msg : Message) : local (check cond msg).
Proof.
  unfold check. destruct cond; [|apply local_ret].
  apply local_bind; [apply local_push|intros; apply local_ret].
Qed.

Lemma outcome_check (cond : bool) (msg : Message) : outcome (check cond msg) = Ok cond.
Proof. destruct cond; reflexivity. Qed.

Lemma errors_check (cond : bool) (msg : Message) :
  errors (written (check cond msg)) = if cond then [msg] else [].
Proof. destruct cond; reflexivity. Qed.

Lemma indices_check (cond : bool) (msg : Message) :
  errorFeatureIndices (written (check cond msg)) = [].
Proof. destruct cond; reflexivity. Qed.

Lemma outcome_call {A} (r : result A) : outcome (call r) = r.
Proof. reflexivity. Qed.

Lemma written_call {A} (r : result A) : written (call r) = initial.
Proof. reflexivity. Qed.

Lemma outcome_ret {A} (a : A) : outcome (ret a) = Ok a.
Proof. reflexivity. Qed.

Lemma written_ret {A} (a : A) : written (ret a) = initial.
Proof. reflexivity. Qed.

Lemma extend_initial_errors (d : State) : errors (extend initial d) = errors d.
Proof. reflexivity. Qed.

Lemma local_report (msg : Message) (f1 f2 : TurfFeature) : local (report msg f1 f2).
Proof.
  unfold report.
  apply local_bind; [apply local_push|intros _].
  apply local_bind; [apply local_add|intros _; apply local_add].
Qed.

Lemma local_forEach {A} (body : A -> nat -> M unit) (array : list A) (i : nat) :
  (forall x k, local (body x k)) -> local (forEach body array i).
Proof.
  intros H. revert i. induction array as [|x rest IH]; intros i; simpl.
  - apply local_ret.
  - apply local_bind; [apply H|intros _; apply IH].
Qed.

Lemma local_forPairs {A} (body : A -> A -> M unit) (a : list A) :
  (forall x y, local (body x y)) -> local (forPairs body a).
Proof.
  intros H. induction a as [|x rest IH]; simpl.
  - apply local_ret.
  - apply local_bind; [apply local_forEach; intros; apply H|intros _; exact IH].
Qed.

Lemma gather_cons (d : State) (ds : list State) :
  gather (d :: ds) = extend d (gather ds).
Proof. reflexivity. Qed.

Lemma errors_extend (s d : State) : errors (extend s d) = errors s ++ errors d.
Proof. reflexivity. Qed.

Lemma errors_gather (ds : list State) :
  errors (gather ds) = flat_map errors ds.
Proof.
  induction ds as [|d ds IH]; [reflexivity|].
  rewrite gather_cons, errors_extend, IH. reflexivity.
Qed.

Lemma indices_extend (s d : State) (y : nat) :
  In y (errorFeatureIndices (extend s d))
  <-> In y (errorFeatureIndices s) \/ In y (errorFeatureIndices d).
Proof. unfold extend; simpl. apply addAll_In. Qed.

Lemma indices_gather (ds : list State) (y : nat) :
  In y (errorFeatureIndices (gather ds))
  <-> exists d, In d ds /\ In y (errorFeatureIndices d).
Proof.
  induction ds as [|d ds IH].
  - simpl. split; [intros []|intros (d & [] & _)].
  - rewrite gather_cons, indices_extend, IH. split.
    + intros [H|(d' & H1 & H2)]; [exists d; simpl; auto|exists d'; simpl; auto].
    + intros (d' & [<-|H1] & H2); [left; exact H2|right; exists d'; auto].
Qed.

Lemma written_normal {A} (m : M A) : local m -> normal (written m).
Proof.
  intros H. unfold normal. pose proof (H initial) as E.
  rewrite run_eta in E. congruence.
Qed.

Lemma gather_normal (ds : list State) : Forall normal ds -> normal (gather ds).
Proof.
  intros H. destruct H as [|d ds Hd _].
  - reflexivity.
  - unfold normal. rewrite gather_cons, <- extend_assoc, Hd. reflexivity.
Qed.

Lemma gather_app (l1 l2 : list State) :
  Forall normal l2 -> extend (gather l1) (gather l2) = gather (l1 ++ l2).
Proof.
  intros H. induction l1 as [|d l1 IH].
  - apply (gather_normal l2 H).
  - simpl app. rewrite !gather_cons, extend_assoc, IH. reflexivity.
Qed.

(** A loop that runs to its end ran every iteration to its end, and wrote
    what the iterations write, in order. *)
Lemma forEach_completes {A} (body : A -> nat -> M unit) (array : list A) (i : nat) :
  (forall x k, local (body x k)) ->
  outcome (forEach body array i) = Ok tt ->
  Forall (fun xk => outcome (body (fst xk) (snd xk)) = Ok tt) (indexed array i)
  /\ written (forEach body array i)
     = gather (map (fun xk => written (body (fst xk) (snd xk))) (indexed array i)).
Proof.
  intros H. revert i. unfold indexed.
  induction array as [|x rest IH]; intros i; simpl.
  - intros _. split; [constructor|reflexivity].
  - assert (Hr : forall (u : unit), local (forEach body rest (S i)))
      by (intros _; apply local_forEach, H).
    rewrite (outcome_bind _ _ (H x i) Hr), (written_bind _ _ (H x i) Hr).
    destruct (outcome (body x i)) as [[]|e] eqn:E; [|discriminate].
    intros Ho. destruct (IH (S i) Ho) as [F W].
    split; [constructor; [exact E|exact F]|]. rewrite W. reflexivity.
Qed.

Lemma indexed_const_map {A B} (g : A -> B) (l : list A) (i : nat) :
  map (fun xk : A * nat => g (fst xk)) (indexed l i) = map g l.
Proof.
  unfold indexed. revert i. induction l as [|y r IH]; intros i; simpl; [reflexivity|].
  f_equal. apply IH.
Qed.

Lemma Forall_indexed_const {A} (P : A -> Prop) (l : list A) (i : nat) :
  Forall (fun xk : A * nat => P (fst xk)) (indexed l i) -> Forall P l.
Proof.
  unfold indexed. revert i. induction l as [|y r IH]; intros i; simpl; intros H.
  - constructor.
  - inversion H; subst. constructor; [assumption|]. eapply IH; eassumption.
Qed.

Lemma forPairs_completes {A} (body : A -> A -> M unit) (a : list A) :
  (forall x y, local (body x y)) ->
  outcome (forPairs body a) = Ok tt ->
  Forall (fun xy => outcome (body (fst xy) (snd xy)) = Ok tt) (pairs a)
  /\ written (forPairs body a)
     = gather (map (fun xy => written (body (fst xy) (snd xy))) (pairs a)).
Proof.
  intros H. induction a as [|x rest IH]; simpl.
  - intros _. split; [constructor|reflexivity].
  - assert (Hi : local (forEach (fun y (_ : nat) => body x y) rest 0))
      by (apply local_forEach; intros; apply H).
    assert (Hr : forall (u : unit), local (forPairs body rest))
      by (intros _; apply local_forPairs, H).
    rewrite (outcome_bind _ _ Hi Hr), (written_bind _ _ Hi Hr).
    destruct (outcome (forEach _ rest 0)) as [[]|e] eqn:E; [|discriminate].
    intros Ho. destruct (IH Ho) as [F W].
    destruct (forEach_completes (fun y (_ : nat) => body x y) rest 0
                (fun y k => H x y) E) as [F1 W1].
    split.
    + apply Forall_app. split; [|exact F].
      apply (Forall_indexed_const (fun y => outcome (body x y) = Ok tt)) in F1.
      apply Forall_map. exact F1.
    + rewrite W1, W, map_app.
      rewrite (indexed_const_map (fun y => written (body x y)) rest 0).
      rewrite map_map. simpl.
      apply gather_app.
      apply Forall_map, Forall_forall. intros xy _. apply written_normal, H.
Qed.

(** What a statement built from the combinators writes satisfies every
    extensible property that its pushes and adds satisfy. *)
Lemma entriesAll_extensible (Q : Message -> Prop) : extensible (entriesAll Q).
Proof.
  split; [constructor|].
  intros s d Hs Hd. unfold entriesAll in *. rewrite errors_extend.
  apply Forall_app. split; assumption.
Qed.

Lemma writes_ret {A} (P : State -> Prop) (a : A) : extensible P -> P (written (ret a)).
Proof. intros [H _]. exact H. Qed.

Lemma writes_throw {A} (P : State -> Prop) (e : string) :
  extensible P -> P (written (@throw A e)).
Proof. intros [H _]. exact H. Qed.

Lemma writes_call {A} (P : State -> Prop) (r : result A) :
  extensible P -> P (written (call r)).
Proof. intros [H _]. exact H. Qed.

Lemma writes_bind {A B} (P : State -> Prop) (m : M A) (f : A -> M B) :
  extensible P -> local m -> (forall a, local (f a)) ->
  P (written m) -> (forall a, P (written (f a))) -> P (written (bind m f)).
Proof.
  intros [_ Hext] Lm Lf Hm Hf. rewrite (written_bind m f Lm Lf).
  destruct (outcome m); [apply Hext; [exact Hm|apply Hf]|exact Hm].
Qed.

Lemma writes_try_catch {A} (P : State -> Prop) (m : M A) (h : string -> M A) :
  extensible P -> local m -> (forall e, local (h e)) ->
  P (written m) -> (forall e, P (written (h e))) -> P (written (try_catch m h)).
Proof.
  intros [_ Hext] Lm Lh Hm Hh. rewrite (written_try_catch m h Lm Lh).
  destruct (outcome m); [exact Hm|apply Hext; [exact Hm|apply Hh]].
Qed.

Lemma writes_when (P : State -> Prop) (b : bool) (m : M unit) :
  extensible P -> P (written m) -> P (written (when b m)).
Proof. intros [H _] Hm. destruct b; [exact Hm|exact H]. Qed.

Lemma writes_forEach {A} (P : State -> Prop) (body : A -> nat -> M unit)
    (array : list A) (i : nat) :
  extensible P -> (forall x k, local (body x k)) ->
  (forall x k, P (written (body x k))) -> P (written (forEach body array i)).
Proof.
  intros E L H. revert i. induction array as [|x rest IH]; intros i; simpl.
  - apply writes_ret, E.
  - apply writes_bind; auto. intros _. apply local_forEach, L.
Qed.

Lemma writes_forPairs {A} (P : State -> Prop) (body : A -> A -> M unit) (a : list A) :
  extensible P -> (forall x y, local (body x y)) ->
  (forall x y, P (written (body x y))) -> P (written (forPairs body a)).
Proof.
  intros E L H. induction a as [|x rest IH]; simpl.
  - apply writes_ret, E.
  - apply writes_bind; auto.
    + apply local_forEach. intros. apply L.
    + intros _. apply local_forPairs, L.
    + apply writes_forEach; auto.
Qed.

Lemma entries_push (Q : Message -> Prop) (msg : Message) :
  Q msg -> entriesAll Q (written (push msg)).
Proof. intros H. constructor; [exact H|constructor]. Qed.

Lemma entries_add (Q : Message -> Prop) (i : nat) : entriesAll Q (written (add i)).
Proof. constructor. Qed.

Lemma entries_check (Q : Message -> Prop) (cond : bool) (msg : Message) :
  Q msg -> entriesAll Q (written (check cond msg)).
Proof.
  intros H. destruct cond; [|constructor]. constructor; [exact H|constructor].
Qed.

Lemma entries_report (Q : Message -> Prop) (msg : Message) (f1 f2 : TurfFeature) :
  Q msg -> entriesAll Q (written (report msg f1 f2)).
Proof. intros H. constructor; [exact H|constructor]. Qed.

(** Statements that write nothing. *)
Lemma pure_local {A} (m : M A) : pure m -> local m.
Proof.
  intros H s. rewrite (H s). unfold written. rewrite (H initial). simpl.
  rewrite extend_initial. reflexivity.
Qed.

Lemma pure_written {A} (m : M A) : pure m -> written m = initial.
Proof. intros H. unfold written. rewrite (H initial). reflexivity. Qed.

Lemma pure_ret {A} (a : A) : pure (ret a).
Proof. intros s. reflexivity. Qed.

Lemma pure_throw {A} (e : string) : pure (@throw A e).
Proof. intros s. reflexivity. Qed.

Lemma pure_call {A} (r : result A) : pure (call r).
Proof. intros s. reflexivity. Qed.

Lemma pure_bind {A B} (m : M A) (f : A -> M B) :
  pure m -> (forall a, pure (f a)) -> pure (bind m f).
Proof.
  intros Hm Hf s. unfold outcome, bind. rewrite (Hm s), (Hm initial).
  destruct (outcome m) as [a|e]; [|reflexivity].
  rewrite (Hf a s), (Hf a initial). reflexivity.
Qed.

Lemma writes_pure {A} (P : State -> Prop) (m : M A) :
  extensible P -> pure m -> P (written m).
Proof. intros [H _] Hm. rewrite (pure_written m Hm). exact H. Qed.

End Accumulators.

(** Proves that a statement built from the combinators is [local]; the
    lemmas on the recursive checks are collected in [js_local]. *)
Create HintDb js_local.
Create HintDb js_entries.

Ltac local_step :=
  first
    [ apply local_ret | apply local_throw | apply local_call | apply local_push
    | apply local_add | apply local_check | apply local_report
    | solve [auto 2 with js_local nocore]
    | apply local_bind; [|intro] | apply local_try_catch; [|intro]
    | apply local_when
    | apply local_forEach; intros | apply local_forPairs; intros
    | assumption ].

Ltac solve_local :=
  repeat first
    [ local_step
    | match goal with
      | |- local (match ?x with _ => _ end) => destruct x
      | |- local (if ?b then _ else _) => destruct b
      | |- local (let _ := _ in _) => cbv zeta
      end ].

Ltac locality := intros; solve_local.

(** Unfolds one [bind] of a run from empty accumulators. *)
Ltac bind_step :=
  rewrite outcome_bind, written_bind by locality;
  rewrite ?outcome_check, ?outcome_call, ?outcome_ret;
  cbv beta iota.

(** Reduces "every entry written satisfies [Q]" to [Q] of the entries. *)
Ltac entries_step :=
  first
    [ apply writes_ret; apply entriesAll_extensible
    | apply writes_throw; apply entriesAll_extensible
    | apply writes_call; apply entriesAll_extensible
    | apply entries_add
    | apply entries_push
    | apply entries_check
    | apply entries_report
    | solve [auto 2 with js_entries nocore]
    | apply writes_when; [apply entriesAll_extensible|]
    | apply writes_bind; [apply entriesAll_extensible| | intro | | intro]
    | apply writes_try_catch; [apply entriesAll_extensible| | intro | | intro] ].

Ltac solve_entries leaf :=
  repeat first
    [ entries_step
    | match goal with
      | |- local _ => solve [solve_local]
      | |- entriesAll _ (written (match ?x with _ => _ end)) => destruct x
      | |- entriesAll _ (written (if ?b then _ else _)) => destruct b
      | |- entriesAll _ (written (let _ := _ in _)) => cbv zeta
      end ];
  leaf.

(* ------------------------------------------------------------------ *)
(** ** Positions in the loops *)
(* ------------------------------------------------------------------ *)

Section Positions.

Context {A : Type}.

Lemma indexed_In (l : list A) (i : nat) (x : A) (p : nat) :
  In (x, p) (indexed l i) <-> i <= p /\ nth_error l (p - i) = Some x.
Proof.
  unfold indexed. revert i. induction l as [|y l IH]; intros i; simpl.
  - split; [intros []|]. intros [_ H]. destruct (p - i); discriminate.
  - rewrite IH. split.
    + intros [E|[Hle Hn]].
      * inversion E; subst. rewrite Nat.sub_diag. split; [lia|reflexivity].
      * split; [lia|]. replace (p - i) with (S (p - S i)) by lia. exact Hn.
    + intros [Hle Hn]. destruct (p - i) as [|k] eqn:E.
      * left. inversion Hn; subst. f_equal. lia.
      * right. split; [lia|]. replace (p - S i) with k by lia. exact Hn.
Qed.

Lemma indexed_functional (l : list A) (i : nat) (x y : A) (p : nat) :
  In (x, p) (indexed l i) -> In (y, p) (indexed l i) -> x = y.
Proof. rewrite !indexed_In. intros [_ H1] [_ H2]. congruence. Qed.

Lemma indexed_NoDup (l : list A) (i : nat) : NoDup (indexed l i).
Proof.
  unfold indexed. revert i. induction l as [|y l IH]; intros i; simpl.
  - constructor.
  - constructor; [|apply IH].
    intros H. apply (indexed_In l (S i) y i) in H. lia.
Qed.

Lemma pairs_In (l : list A) (x y : A) :
  In (x, y) (pairs l)
  <-> exists p q, p < q /\ nth_error l p = Some x /\ nth_error l q = Some y.
Proof.
  induction l as [|z l IH]; simpl.
  - split; [intros []|]. intros (p & q & _ & H & _). destruct p; discriminate.
  - rewrite in_app_iff, in_map_iff, IH. split.
    + intros [(y' & E & Hy)|(p & q & Hpq & Hp & Hq)].
      * inversion E; subst. destruct (In_nth_error _ _ Hy) as [q Hq].
        exists 0, (S q). repeat split; [lia|exact Hq].
      * exists (S p), (S q). repeat split; [lia|exact Hp|exact Hq].
    + intros (p & q & Hpq & Hp & Hq).
      destruct q as [|q]; [lia|]. simpl in Hq.
      destruct p as [|p]; simpl in Hp.
      * inversion Hp; subst. left. exists y. split; [reflexivity|].
        eapply nth_error_In, Hq.
      * right. exists p, q. repeat split; [lia|exact Hp|exact Hq].
Qed.

Lemma pairs_NoDup (l : list A) : NoDup l -> NoDup (pairs l).
Proof.
  induction l as [|z l IH]; simpl; intros H; [constructor|].
  inversion H as [|? ? Hz Hl]; subst.
  assert (N1 : NoDup (map (pair z) l)).
  { clear - Hl. induction Hl as [|a m Ha Hm IHm]; simpl; constructor; [|exact IHm].
    intros H. apply in_map_iff in H as (b & E & Hb). inversion E; subst. contradiction. }
  assert (N2 : forall xy, In xy (map (pair z) l) -> ~ In xy (pairs l)).
  { intros [x y] H1 H2. apply in_map_iff in H1 as (y' & E & _). inversion E; subst.
    apply pairs_In in H2 as (p & q & _ & Hp & _).
    apply Hz. eapply nth_error_In, Hp. }
  clear - N1 N2 IH Hl. specialize (IH Hl).
  induction (map (pair z) l) as [|a m IHm]; simpl; [exact IH|].
  inversion N1; subst. constructor.
  - rewrite in_app_iff. intros [H|H]; [contradiction|].
    apply (N2 a); [left; reflexivity|exact H].
  - apply IHm; [assumption|]. intros xy Hxy. apply N2. right. exact Hxy.
Qed.

End Positions.

Section WellIndexed.

Variable tfs : list TurfFeature.
Hypothesis W : wellIndexed tfs.

Lemma wellIndexed_In (f : TurfFeature) (p : nat) :
  In (f, p) (indexed tfs 0) -> index f = p + 1 /\ originalIndex f = p.
Proof.
  rewrite indexed_In, Nat.sub_0_r. intros [_ H]. exact (W p f H).
Qed.

Lemma wellIndexed_injective (f g : TurfFeature) :
  In f tfs -> In g tfs -> index f = index g -> f = g.
Proof.
  intros Hf Hg E.
  destruct (In_nth_error _ _ Hf) as [p Hp]. destruct (In_nth_error _ _ Hg) as [q Hq].
  destruct (W p f Hp) as [Ep _]. destruct (W q g Hq) as [Eq _].
  assert (p = q) by lia. subst. congruence.
Qed.

Lemma wellIndexed_NoDup : NoDup tfs.
Proof.
  apply NoDup_nth_error. intros p q Hp E.
  apply nth_error_Some in Hp.
  destruct (nth_error tfs p) as [f|] eqn:Ef; [|congruence].
  symmetry in E.
  destruct (W p f Ef) as [E1 _]. destruct (W q f E) as [E2 _]. lia.
Qed.

Lemma wellIndexed_pairs (f1 f2 : TurfFeature) :
  In (f1, f2) (pairs tfs) ->
  exists p q, p < q /\ In (f1, p) (indexed tfs 0) /\ In (f2, q) (indexed tfs 0)
              /\ index f1 = p + 1 /\ index f2 = q + 1
              /\ originalIndex f1 = p /\ originalIndex f2 = q.
Proof.
  intros H. apply pairs_In in H as (p & q & Hpq & Hp & Hq).
  exists p, q. rewrite !indexed_In, !Nat.sub_0_r.
  destruct (W p f1 Hp), (W q f2 Hq). repeat split; auto; lia.
Qed.

End WellIndexed.

(* ------------------------------------------------------------------ *)
(** ** Counting entries *)
(* ------------------------------------------------------------------ *)

Section Counting.

Variable P : Message -> bool.

Lemma count_app (l1 l2 : list Message) : count P (l1 ++ l2) = count P l1 + count P l2.
Proof. unfold count. rewrite filter_app, length_app. reflexivity. Qed.

Lemma count_none (l : list Message) :
  (forall m, In m l -> P m = false) -> count P l = 0.
Proof.
  unfold count. induction l as [|m l IH]; simpl; intros H; [reflexivity|].
  rewrite (H m (or_introl eq_refl)). apply IH. intros m' Hm'. apply H. right. exact Hm'.
Qed.

Lemma count_positive_In (l : list Message) :
  0 < count P l -> exists m, In m l /\ P m = true.
Proof.
  unfold count. induction l as [|m l IH]; simpl; [lia|].
  destruct (P m) eqn:E.
  - intros _. exists m. auto.
  - intros H. destruct (IH H) as (m' & H1 & H2). exists m'. auto.
Qed.

Lemma count_flat_map_none {X : Type} (g : X -> list Message) (l : list X) :
  (forall y, In y l -> count P (g y) = 0) -> count P (flat_map g l) = 0.
Proof.
  induction l as [|y l IH]; simpl; intros H; [reflexivity|].
  rewrite count_app, (H y (or_introl eq_refl)), IH; [reflexivity|].
  intros y' Hy'. apply H. right. exact Hy'.
Qed.

(** Among iterations that are all different, when only one, or only two,
    write entries that count, the count is theirs. *)
Lemma count_flat_map_single {X : Type} (g : X -> list Message) (l : list X) (x : X) :
  NoDup l -> In x l ->
  (forall y, In y l -> y <> x -> count P (g y) = 0) ->
  count P (flat_map g l) = count P (g x).
Proof.
  induction l as [|y l IH]; simpl; intros N Hin H; [contradiction|].
  inversion N as [|? ? Hy Hl]; subst. rewrite count_app.
  destruct Hin as [->|Hin].
  - rewrite count_flat_map_none; [lia|].
    intros y Hy'. apply H; [right; exact Hy'|]. intros ->. contradiction.
  - rewrite (H y (or_introl eq_refl)) by (intros ->; contradiction).
    apply IH; auto.
Qed.

Lemma count_flat_map_two {X : Type} (g : X -> list Message) (l : list X) (x1 x2 : X) :
  NoDup l -> In x1 l -> In x2 l -> x1 <> x2 ->
  (forall y, In y l -> y <> x1 -> y <> x2 -> count P (g y) = 0) ->
  count P (flat_map g l) = count P (g x1) + count P (g x2).
Proof.
  induction l as [|y l IH]; simpl; intros N H1 H2 Hne H; [contradiction|].
  inversion N as [|? ? Hy Hl]; subst. rewrite count_app.
  destruct H1 as [->|H1]; destruct H2 as [E2|H2]; try congruence.
  - rewrite (count_flat_map_single g l x2 Hl H2); [reflexivity|].
    intros y Hy' Hyx. apply H; auto. intros ->. contradiction.
  - subst y. rewrite (count_flat_map_single g l x1 Hl H1); [lia|].
    intros y Hy' Hyx. apply H; auto. intros ->. contradiction.
  - rewrite (H y (or_introl eq_refl)) by (intros ->; contradiction).
    apply IH; auto.
Qed.

End Counting.

(* ------------------------------------------------------------------ *)
(** ** Every check only pushes and adds *)
(* ------------------------------------------------------------------ *)

Section ChecksAreLocal.

Variable T : turf.lib.

Lemma local_polygonChecks (feature : TurfFeature) (rings : list (list coord)) :
  local (polygonChecks T feature rings).
Proof. unfold polygonChecks. solve_local. Qed.

Lemma local_duplicatePoints (i : nat) (coords : list coord) :
  local (duplicatePoints i coords).
Proof. induction coords; simpl; solve_local. Qed.
#[local] Hint Resolve local_duplicatePoints : js_local.

Lemma local_lineChecks (feature : TurfFeature) (coords : list coord) :
  local (lineChecks T feature coords).
Proof. unfold lineChecks. solve_local. Qed.

Lemma local_pointChecks (feature : TurfFeature) (i : nat)
    (others : list TurfFeature) (k : nat) :
  local (pointChecks T feature i others k).
Proof. revert k. induction others; intros k; simpl; solve_local. Qed.
#[local] Hint Resolve local_pointChecks : js_local.

Lemma local_typeChecks (turfFeatures : list TurfFeature) (feature : TurfFeature) (i : nat) :
  local (typeChecks T turfFeatures feature i).
Proof.
  unfold typeChecks. destruct (geometry feature).
  - apply local_pointChecks.
  - apply local_lineChecks.
  - apply local_try_catch; [apply local_polygonChecks|intro; solve_local].
  - apply local_ret.
Qed.

Lemma local_selfCheck (turfFeatures : list TurfFeature) (feature : TurfFeature) (i : nat) :
  local (selfCheck T turfFeatures feature i).
Proof.
  unfold selfCheck.
  apply local_bind; [apply local_typeChecks|intro; solve_local].
Qed.

Lemma V1_local_overlapCheck (f1 f2 : TurfFeature) : local (V1.overlapCheck T f1 f2).
Proof. unfold V1.overlapCheck. solve_local. Qed.

Lemma V1_local_crossCheck (f1 f2 : TurfFeature) : local (V1.crossCheck T f1 f2).
Proof. unfold V1.crossCheck. solve_local. Qed.

Lemma V1_local_intersectionCheck (f1 f2 : TurfFeature) :
  local (V1.intersectionCheck T f1 f2).
Proof. unfold V1.intersectionCheck. solve_local. Qed.

Lemma V1_local_containmentCheck (f1 f2 : TurfFeature) :
  local (V1.containmentCheck T f1 f2).
Proof. unfold V1.containmentCheck. solve_local. Qed.

Lemma V1_local_adjacencyCheck (f1 f2 : TurfFeature) : local (V1.adjacencyCheck T f1 f2).
Proof. unfold V1.adjacencyCheck. solve_local. Qed.

Lemma V1_local_gapCheck (f1 f2 : TurfFeature) : local (V1.gapCheck T f1 f2).
Proof. unfold V1.gapCheck. solve_local. Qed.

Lemma V1_local_linePolygonChecks (line poly f1 f2 : TurfFeature) :
  local (V1.linePolygonChecks T line poly f1 f2).
Proof. unfold V1.linePolygonChecks. solve_local. Qed.

Lemma V1_local_pointDistance (ep1 ep2 : option coord) : local (V1.pointDistance T ep1 ep2).
Proof. unfold V1.pointDistance. solve_local. Qed.

Lemma V1_local_connectionPoints (ps : list (option coord * option coord)) :
  local (V1.connectionPoints T ps).
Proof.
  induction ps as [|[ep1 ep2] ps IH]; simpl; [apply local_ret|].
  apply local_bind; [apply V1_local_pointDistance|intro].
  apply local_bind; [exact IH|intro; apply local_ret].
Qed.
#[local] Hint Resolve V1_local_connectionPoints : js_local.

Lemma V1_local_minEndpointDistance (ps : list (option coord * option coord)) (m : number) :
  local (V1.minEndpointDistance T ps m).
Proof.
  revert m. induction ps as [|[ep1 ep2] ps IH]; intros m; simpl; [apply local_ret|].
  apply local_bind; [apply V1_local_pointDistance|intro; apply IH].
Qed.
#[local] Hint Resolve V1_local_minEndpointDistance : js_local.

Lemma V1_local_danglingCheck (f1 f2 : TurfFeature) : local (V1.danglingCheck T f1 f2).
Proof.
  unfold V1.danglingCheck. cbv zeta.
  apply local_bind; [apply V1_local_connectionPoints|intro].
  destruct (_ =? 0).
  - apply local_bind; [apply V1_local_minEndpointDistance|intro; solve_local].
  - solve_local.
Qed.

Lemma V1_local_typedChecks (f1 f2 : TurfFeature) : local (V1.typedChecks T f1 f2).
Proof.
  unfold V1.typedChecks.
  destruct (type f1), (type f2); try apply local_ret.
  - apply V1_local_danglingCheck.
  - apply V1_local_linePolygonChecks.
  - apply V1_local_linePolygonChecks.
  - apply local_bind; [apply V1_local_intersectionCheck|intro].
    apply local_bind; [apply V1_local_containmentCheck|intro].
    apply local_bind; [apply V1_local_adjacencyCheck|intro].
    apply V1_local_gapCheck.
Qed.

Lemma V1_local_pairCheck (f1 f2 : TurfFeature) : local (V1.pairCheck T f1 f2).
Proof.
  unfold V1.pairCheck.
  apply local_bind; [apply V1_local_overlapCheck|intro].
  apply local_bind; [apply V1_local_crossCheck|intro].
  apply V1_local_typedChecks.
Qed.

Lemma V1_local_sharedWith (c : coord) (cs : list coord) (n : nat) :
  local (V1.sharedWith T c cs n).
Proof.
  revert n. induction cs as [|c2 cs IH]; intros n; simpl; [apply local_ret|].
  apply local_bind; [apply V1_local_pointDistance|intro; apply IH].
Qed.
#[local] Hint Resolve V1_local_sharedWith : js_local.

Lemma V1_local_sharedCoords (cs1 : list coord) (cs2 : option (list coord)) (n : nat) :
  local (V1.sharedCoords T cs1 cs2 n).
Proof.
  revert n. induction cs1 as [|c cs1 IH]; intros n; simpl; [apply local_ret|].
  destruct cs2; [|apply local_throw].
  apply local_bind; [apply V1_local_sharedWith|intro; apply IH].
Qed.
#[local] Hint Resolve V1_local_sharedCoords : js_local.

Lemma V1_local_boundaryCheck (p1 p2 : TurfFeature) : local (V1.boundaryCheck T p1 p2).
Proof.
  unfold V1.boundaryCheck.
  apply local_try_catch; [|intro; apply local_ret].
  destruct (V1.ring p1); [|apply local_throw].
  apply local_bind; [apply V1_local_sharedCoords|intro; solve_local].
Qed.

Lemma V1_local_polygonGroupCheck (tfs : list TurfFeature) :
  local (V1.polygonGroupCheck T tfs).
Proof.
  unfold V1.polygonGroupCheck. cbv zeta.
  apply local_when, local_try_catch; [|intro; apply local_ret].
  apply local_forPairs. intros. apply V1_local_boundaryCheck.
Qed.

Lemma V1_local_validate (tfs : list TurfFeature) : local (V1.validate T tfs).
Proof.
  unfold V1.validate.
  apply local_bind; [apply local_forEach; intros; apply local_selfCheck|intro].
  apply local_bind; [apply local_forPairs; intros; apply V1_local_pairCheck|intro].
  apply V1_local_polygonGroupCheck.
Qed.

End ChecksAreLocal.

#[global] Hint Resolve local_duplicatePoints local_pointChecks V1_local_connectionPoints V1_local_minEndpointDistance V1_local_sharedWith V1_local_sharedCoords : js_local.

(* ------------------------------------------------------------------ *)
(** ** What the entries of each pass look like *)
(* ------------------------------------------------------------------ *)

Section Entries.

Variable T : turf.lib.

Lemma V1_pure_pointDistance (ep1 ep2 : option coord) : pure (V1.pointDistance T ep1 ep2).
Proof.
  unfold V1.pointDistance.
  apply pure_bind; [apply pure_call|intro].
  apply pure_bind; [apply pure_call|intro; apply pure_call].
Qed.

Lemma V1_pure_connectionPoints (ps : list (option coord * option coord)) :
  pure (V1.connectionPoints T ps).
Proof.
  induction ps as [|[ep1 ep2] ps IH]; simpl; [apply pure_ret|].
  apply pure_bind; [apply V1_pure_pointDistance|intro].
  apply pure_bind; [exact IH|intro; apply pure_ret].
Qed.

Lemma V1_pure_minEndpointDistance (ps : list (option coord * option coord)) (m : number) :
  pure (V1.minEndpointDistance T ps m).
Proof.
  revert m. induction ps as [|[ep1 ep2] ps IH]; intros m; simpl; [apply pure_ret|].
  apply pure_bind; [apply V1_pure_pointDistance|intro; apply IH].
Qed.

Lemma V1_pure_sharedWith (c : coord) (cs : list coord) (n : nat) :
  pure (V1.sharedWith T c cs n).
Proof.
  revert n. induction cs as [|c2 cs IH]; intros n; simpl; [apply pure_ret|].
  apply pure_bind; [apply V1_pure_pointDistance|intro; apply IH].
Qed.

Lemma V1_pure_sharedCoords (cs1 : list coord) (cs2 : option (list coord)) (n : nat) :
  pure (V1.sharedCoords T cs1 cs2 n).
Proof.
  revert n. induction cs1 as [|c cs1 IH]; intros n; simpl; [apply pure_ret|].
  destruct cs2; [|apply pure_throw].
  apply pure_bind; [apply V1_pure_sharedWith|intro; apply IH].
Qed.

(** The entries of a point whose checks run to their end, and its
    [hasError] flag. *)
Lemma pointChecks_completes (f : TurfFeature) (i : nat) (others : list TurfFeature)
    (k : nat) (h : bool) :
  outcome (pointChecks T f i others k) = Ok h ->
  errors (written (pointChecks T f i others k)) = pointEntries T f i others k
  /\ (h = false -> pointEntries T f i others k = [])
  /\ errorFeatureIndices (written (pointChecks T f i others k)) = [].
Proof.
  unfold pointEntries, indexed.
  revert k h. induction others as [|o rest IH]; intros k h; simpl.
  - intros _. repeat split.
  - set (m1 := if negb (i =? k) && TypeName_eqb (type o) TPoint
               then distance <- call (turf.distance T (geometry f) (geometry o)) ;;
                    check (lt distance 0.1%float)
                          (PointsTooClose (index f) (index o) distance)
               else ret false).
    assert (L1 : local m1) by (unfold m1; solve_local).
    assert (L2 : forall h1 : bool,
               local (h' <- pointChecks T f i rest (S k) ;; ret (h1 || h')))
      by (intro; solve_local).
    assert (R1 : match outcome m1 with
                 | Ok h1 =>
                     errors (written m1)
                     = (if negb (i =? k) && TypeName_eqb (type o) TPoint
                        then tooClose T f o else [])
                     /\ (h1 = false -> errors (written m1) = [])
                     /\ errorFeatureIndices (written m1) = []
                 | Throw _ => True
                 end).
    { unfold m1, tooClose. destruct (negb (i =? k) && TypeName_eqb (type o) TPoint).
      - unfold outcome, written, bind, call, check.
        destruct (turf.distance T (geometry f) (geometry o)) as [d|e]; simpl; [|exact I].
        destruct (lt d 0.1%float); simpl; repeat split; congruence.
      - simpl. repeat split. }
    rewrite (outcome_bind _ _ L1 L2), (written_bind _ _ L1 L2).
    destruct (outcome m1) as [h1|e]; [|discriminate].
    destruct R1 as (E1 & F1 & I1).
    rewrite (outcome_bind _ _ (local_pointChecks T f i rest (S k))
               (fun h' => local_ret (h1 || h'))).
    rewrite (written_bind _ _ (local_pointChecks T f i rest (S k))
               (fun h' => local_ret (h1 || h'))).
    destruct (outcome (pointChecks T f i rest (S k))) as [h2|e] eqn:E2; [|discriminate].
    destruct (IH (S k) h2 E2) as (E3 & F3 & I3).
    intros Hh. inversion Hh; subst h.
    rewrite !errors_extend. simpl. rewrite app_nil_r, E1, E3.
    split; [reflexivity|]. split.
    + intros Hf. apply orb_false_iff in Hf as [-> ->].
      rewrite <- E1, (F1 eq_refl), (F3 eq_refl). reflexivity.
    + unfold extend; simpl. rewrite I3, I1. reflexivity.
Qed.

(** The flag [hasError] of a feature is set whenever one of its checks
    pushed an entry, and the checks themselves add nothing. *)
Lemma duplicatePoints_flag (i : nat) (coords : list coord) :
  exists h, outcome (duplicatePoints i coords) = Ok h
            /\ (h = false -> errors (written (duplicatePoints i coords)) = [])
            /\ errorFeatureIndices (written (duplicatePoints i coords)) = [].
Proof.
  induction coords as [|c rest IH]; simpl.
  - exists false. repeat split.
  - destruct IH as (h2 & E2 & F2 & I2).
    set (h1 := existsb (samePoint c) rest).
    assert (L2 : forall h1 : bool, local (h' <- duplicatePoints i rest ;; ret (h1 || h')))
      by (intro; solve_local).
    rewrite (outcome_bind _ _ (local_check _ _) L2), (written_bind _ _ (local_check _ _) L2).
    rewrite outcome_check.
    rewrite (outcome_bind _ _ (local_duplicatePoints i rest) (fun h' => local_ret (h1 || h'))).
    rewrite (written_bind _ _ (local_duplicatePoints i rest) (fun h' => local_ret (h1 || h'))).
    rewrite E2. exists (h1 || h2). split; [reflexivity|]. split.
    + intros Hf. apply orb_false_iff in Hf as [H1 H2].
      rewrite !errors_extend, errors_check, H1, (F2 H2). reflexivity.
    + unfold extend; simpl. rewrite I2, indices_check. reflexivity.
Qed.

Lemma lineChecks_flag (f : TurfFeature) (coords : list coord) (h : bool) :
  outcome (lineChecks T f coords) = Ok h ->
  (h = false -> errors (written (lineChecks T f coords)) = [])
  /\ errorFeatureIndices (written (lineChecks T f coords)) = [].
Proof.
  destruct (duplicatePoints_flag (index f) coords) as (h3 & E3 & F3 & I3).
  unfold lineChecks. cbv zeta.
  bind_step. bind_step.
  destruct (turf.length T (geometry f)) as [len|e]; [|discriminate].
  bind_step. bind_step. rewrite E3. cbv beta iota.
  rewrite outcome_ret, written_ret.
  intros Hh. inversion Hh; subst h. split.
  - intros Hf. apply orb_false_iff in Hf as [Hf H3]. apply orb_false_iff in Hf as [H1 H2].
    rewrite !errors_extend, !errors_check, H1, H2, (F3 H3). reflexivity.
  - unfold extend; simpl. rewrite I3, !indices_check. reflexivity.
Qed.

Lemma polygonChecks_flag (f : TurfFeature) (rings : list (list coord)) :
  let m := try_catch (polygonChecks T f rings)
                     (fun message => push (PolygonInvalid (index f) message) ;; ret true) in
  exists h, outcome m = Ok h
            /\ (h = false -> errors (written m) = [])
            /\ errorFeatureIndices (written m) = [].
Proof.
  unfold polygonChecks, outcome, written, try_catch, bind, call, check, push, ret, throw,
    firstPoint, lastPoint.
  destruct (turf.booleanValid T (geometry f)) as [[|]|e]; simpl;
    try (eexists; repeat split; discriminate);
    (destruct rings as [|coords rings]; simpl;
     [eexists; repeat split; discriminate|]);
    destruct (List.length coords <? 3); simpl;
    (destruct coords as [|c coords]; simpl;
     [eexists; repeat split; discriminate|]);
    destruct (apart c (last coords c)); simpl;
    (destruct (turf.area T (geometry f)) as [a|e]; simpl;
     [|eexists; repeat split; discriminate]);
    destruct (lt a 0.0001%float); simpl;
    eexists; repeat split; discriminate.
Qed.

(** The entries of the callback of a feature name that feature first. *)
Lemma duplicatePoints_entries (f : TurfFeature) (coords : list coord) :
  entriesAll (featureEntry f) (written (duplicatePoints (index f) coords)).
Proof.
  induction coords as [|c rest IH]; simpl.
  - constructor.
  - apply writes_bind; [apply entriesAll_extensible|solve_local|intro|..].
    + apply local_bind; [apply local_duplicatePoints|intro; apply local_ret].
    + apply entries_check. left. split; reflexivity.
    + intro. apply writes_bind;
        [apply entriesAll_extensible|apply local_duplicatePoints|intro; apply local_ret
        |exact IH|intro; constructor].
Qed.
#[local] Hint Resolve duplicatePoints_entries : js_entries.

Lemma pointChecks_entries (f : TurfFeature) (i : nat) (others : list TurfFeature) (k : nat) :
  entriesAll (featureEntry f) (written (pointChecks T f i others k)).
Proof.
  revert k. induction others as [|o rest IH]; intros k; simpl.
  - constructor.
  - apply writes_bind; [apply entriesAll_extensible|solve_local|intro|..].
    + apply local_bind; [apply local_pointChecks|intro; apply local_ret].
    + destruct (_ && _); [|constructor].
      apply writes_bind; [apply entriesAll_extensible|solve_local|intro; solve_local|..].
      * constructor.
      * intro d. apply entries_check. right. eauto.
    + intro. apply writes_bind;
        [apply entriesAll_extensible|apply local_pointChecks|intro; apply local_ret
        |apply IH|intro; constructor].
Qed.

Lemma selfCheck_entries (tfs : list TurfFeature) (f : TurfFeature) (k : nat) :
  entriesAll (featureEntry f) (written (selfCheck T tfs f k)).
Proof.
  unfold selfCheck.
  apply writes_bind;
    [apply entriesAll_extensible|apply local_typeChecks|intro; solve_local| |intro].
  - unfold typeChecks. destruct (geometry f).
    + apply pointChecks_entries.
    + unfold lineChecks.
      solve_entries ltac:(try (left; split; reflexivity)).
    + apply writes_try_catch;
        [apply entriesAll_extensible|apply local_polygonChecks|intro; solve_local|..].
      * unfold polygonChecks.
        solve_entries ltac:(try (left; split; reflexivity)).
      * intro e. solve_entries ltac:(try (left; split; reflexivity)).
    + constructor.
  - destruct a; constructor.
Qed.

(** A feature with an entry is highlighted, and its callback highlights no
    other feature. *)
Lemma typeChecks_flag (tfs : list TurfFeature) (f : TurfFeature) (k : nat) (h : bool) :
  outcome (typeChecks T tfs f k) = Ok h ->
  (h = false -> errors (written (typeChecks T tfs f k)) = [])
  /\ errorFeatureIndices (written (typeChecks T tfs f k)) = [].
Proof.
  unfold typeChecks. destruct (geometry f) as [c|coords|rings|regions].
  - intros H. destruct (pointChecks_completes f k tfs 0 h H) as (E & F & I).
    split; [|exact I]. intros Hf. rewrite E. exact (F Hf).
  - apply lineChecks_flag.
  - destruct (polygonChecks_flag f rings) as (h' & E & F & I).
    cbv zeta in E, F, I. rewrite E. intros Hh. inversion Hh; subst. split; assumption.
  - intros Hh. inversion Hh; subst. split; reflexivity.
Qed.

Lemma selfCheck_highlights (tfs : list TurfFeature) (f : TurfFeature) (k : nat) :
  outcome (selfCheck T tfs f k) = Ok tt ->
  (featureEntries T tfs (f, k) <> [] ->
   In (originalIndex f) (errorFeatureIndices (written (selfCheck T tfs f k))))
  /\ (forall i, In i (errorFeatureIndices (written (selfCheck T tfs f k))) ->
                 i = originalIndex f).
Proof.
  unfold featureEntries, selfCheck. simpl fst. simpl snd.
  rewrite outcome_bind, written_bind by (try apply local_typeChecks; locality).
  destruct (outcome (typeChecks T tfs f k)) as [h|e] eqn:E; [|discriminate].
  destruct (typeChecks_flag tfs f k h E) as [F I]. intros _.
  destruct h; simpl.
  - unfold extend; simpl. rewrite I. simpl. split; [auto|]. intros i [<-|[]]. reflexivity.
  - rewrite (F eq_refl). split; [intros H; contradiction H; reflexivity|].
    unfold extend; simpl. rewrite I. intros i [].
Qed.

Lemma selfCheck_point_entries (tfs : list TurfFeature) (f : TurfFeature) (k : nat) :
  type f = TPoint ->
  outcome (selfCheck T tfs f k) = Ok tt ->
  featureEntries T tfs (f, k) = pointEntries T f k tfs 0.
Proof.
  unfold featureEntries, selfCheck, type. simpl fst. simpl snd. intros Ht.
  rewrite outcome_bind, written_bind by (try apply local_typeChecks; locality).
  unfold typeChecks.
  destruct (geometry f) as [c|coords|rings|regions]; try discriminate.
  destruct (outcome (pointChecks T f k tfs 0)) as [h|e] eqn:E; [|discriminate].
  intros _. destruct (pointChecks_completes f k tfs 0 h E) as (E1 & _ & _).
  rewrite errors_extend, E1. destruct h; simpl; apply app_nil_r.
Qed.


Lemma V1_pointDistance_entries (Q : Message -> Prop) (ep1 ep2 : option coord) :
  entriesAll Q (written (V1.pointDistance T ep1 ep2)).
Proof. apply writes_pure; [apply entriesAll_extensible|apply V1_pure_pointDistance]. Qed.

Lemma V1_connectionPoints_entries (Q : Message -> Prop)
    (ps : list (option coord * option coord)) :
  entriesAll Q (written (V1.connectionPoints T ps)).
Proof. apply writes_pure; [apply entriesAll_extensible|apply V1_pure_connectionPoints]. Qed.

Lemma V1_minEndpointDistance_entries (Q : Message -> Prop)
    (ps : list (option coord * option coord)) (m : number) :
  entriesAll Q (written (V1.minEndpointDistance T ps m)).
Proof. apply writes_pure; [apply entriesAll_extensible|apply V1_pure_minEndpointDistance]. Qed.

Lemma V1_sharedCoords_entries (Q : Message -> Prop)
    (cs1 : list coord) (cs2 : option (list coord)) (n : nat) :
  entriesAll Q (written (V1.sharedCoords T cs1 cs2 n)).
Proof. apply writes_pure; [apply entriesAll_extensible|apply V1_pure_sharedCoords]. Qed.

#[local] Hint Resolve V1_pointDistance_entries V1_connectionPoints_entries
  V1_minEndpointDistance_entries V1_sharedCoords_entries : js_entries.

(** The entries of a pair check name the two features of the pair and are
    no self-check, point or shared-boundary entries. *)
Lemma V1_pairCheck_entries (f1 f2 : TurfFeature) :
  entriesAll (pairEntry f1 f2) (written (V1.pairCheck T f1 f2)).
Proof.
  unfold V1.pairCheck, V1.overlapCheck, V1.crossCheck, V1.typedChecks,
    V1.intersectionCheck, V1.containmentCheck, V1.adjacencyCheck, V1.gapCheck,
    V1.linePolygonChecks, V1.danglingCheck.
  solve_entries
    ltac:(try (unfold pairEntry; simpl; repeat split; try (intros; discriminate);
               first [left; reflexivity|right; reflexivity])).
Qed.

Lemma V1_boundaryCheck_entries (p1 p2 : TurfFeature) :
  entriesAll groupEntry (written (V1.boundaryCheck T p1 p2)).
Proof.
  unfold V1.boundaryCheck.
  solve_entries ltac:(try (unfold groupEntry; eauto)).
Qed.

Lemma V1_polygonGroupCheck_entries (tfs : list TurfFeature) :
  entriesAll groupEntry (written (V1.polygonGroupCheck T tfs)).
Proof.
  unfold V1.polygonGroupCheck. cbv zeta.
  apply writes_when; [apply entriesAll_extensible|].
  apply writes_try_catch; [apply entriesAll_extensible| |intro; apply local_ret| |intro; constructor].
  - apply local_forPairs. intros. apply V1_local_boundaryCheck.
  - apply writes_forPairs; [apply entriesAll_extensible| |].
    + intros. apply V1_local_boundaryCheck.
    + intros. apply V1_boundaryCheck_entries.
Qed.

End Entries.

(* ------------------------------------------------------------------ *)
(** ** The shape of a completed validation *)
(* ------------------------------------------------------------------ *)

Section Completion.

Variable T : turf.lib.
Variable toLonLat : coord -> coord.

Lemma pure_toTurf (feature : ol.Feature) (i : nat) : pure (toTurf T toLonLat feature i).
Proof.
  intros s. unfold toTurf, outcome, bind, call, throw, ret.
  destruct (ol.getGeometry feature) as [c|cs|[|ring rings]]; simpl.
  - destruct (turf.point T _); reflexivity.
  - destruct (turf.lineString T _); reflexivity.
  - reflexivity.
  - destruct (turf.polygon T _); reflexivity.
Qed.

Lemma pure_map_toTurf (features : list ol.Feature) (i : nat) :
  pure (map_ (toTurf T toLonLat) features i).
Proof.
  revert i. induction features as [|f fs IH]; intros i s; simpl; [reflexivity|].
  unfold outcome, bind. rewrite (pure_toTurf f i s), (pure_toTurf f i initial).
  destruct (outcome (toTurf T toLonLat f i)) as [y|e]; [|reflexivity].
  rewrite (IH (S i) s), (IH (S i) initial).
  destruct (outcome (map_ (toTurf T toLonLat) fs (S i))); reflexivity.
Qed.

(** The converted features carry their positions: [index] counts from 1,
    [originalIndex] from 0. *)
Lemma toTurf_positions (feature : ol.Feature) (i : nat) (f : TurfFeature) :
  outcome (toTurf T toLonLat feature i) = Ok f ->
  index f = i + 1 /\ originalIndex f = i.
Proof.
  unfold toTurf, outcome, bind, call, throw, ret.
  destruct (ol.getGeometry feature) as [c|cs|[|ring rings]]; simpl;
    try discriminate;
    match goal with |- context [match ?r with Ok _ => _ | Throw _ => _ end] =>
      destruct r end; simpl; try discriminate;
    intros E; inversion E; subst; simpl; auto.
Qed.

Lemma map_toTurf_positions (features : list ol.Feature) (i : nat) (tfs : list TurfFeature) :
  outcome (map_ (toTurf T toLonLat) features i) = Ok tfs ->
  map index tfs = seq (i + 1) (List.length features)
  /\ map originalIndex tfs = seq i (List.length features).
Proof.
  revert i tfs. induction features as [|f fs IH]; intros i tfs; simpl.
  - unfold outcome, ret; simpl. intros E; inversion E; subst. split; reflexivity.
  - unfold outcome, bind. rewrite (pure_toTurf f i initial).
    destruct (outcome (toTurf T toLonLat f i)) as [y|e] eqn:Ey; [|discriminate].
    rewrite (pure_map_toTurf fs (S i) initial).
    destruct (outcome (map_ (toTurf T toLonLat) fs (S i))) as [ys|e] eqn:Eys;
      [|discriminate].
    unfold ret; simpl. intros E; inversion E; subst.
    destruct (toTurf_positions f i y Ey) as [E1 E2].
    destruct (IH (S i) ys Eys) as [I1 I2].
    simpl. rewrite E1, E2, I1, I2. split; reflexivity.
Qed.

Lemma seq_nth_error (start len p : nat) :
  p < len -> nth_error (seq start len) p = Some (start + p).
Proof.
  revert start p. induction len as [|len IH]; intros start p H; [lia|].
  destruct p; simpl; [f_equal; lia|]. rewrite IH by lia. f_equal. lia.
Qed.

Lemma turfFeatures_wellIndexed (features : list ol.Feature) (tfs : list TurfFeature) :
  turfFeatures T toLonLat features = Ok tfs ->
  wellIndexed tfs /\ List.length tfs = List.length features.
Proof.
  unfold turfFeatures. intros H.
  destruct (map_toTurf_positions features 0 tfs H) as [E1 E2].
  assert (L : List.length tfs = List.length features).
  { rewrite <- (length_map index tfs), E1, length_seq. reflexivity. }
  split; [|exact L].
  intros p f Hp.
  assert (Hlt : p < List.length features).
  { rewrite <- L. apply nth_error_Some. congruence. }
  pose proof (map_nth_error index p tfs Hp) as H1.
  pose proof (map_nth_error originalIndex p tfs Hp) as H2.
  rewrite E1, seq_nth_error in H1 by exact Hlt.
  rewrite E2, seq_nth_error in H2 by exact Hlt.
  inversion H1. inversion H2. split; lia.
Qed.

Lemma set_highlightSource_twice (w : World) (h1 h2 : list ol.Geometry) :
  set_highlightSource (set_highlightSource w h1) h2 = set_highlightSource w h2.
Proof. reflexivity. Qed.

(** [checkTopology] on a collection that is not empty, by cases on how the
    conversion and the validation end. *)
Lemma V1_checkTopology_run (w : World) :
  drawSource w <> [] ->
  V1.checkTopology T toLonLat w
  = match turfFeatures T toLonLat (drawSource w) with
    | Throw e => (Throw e, set_highlightSource w [])
    | Ok tfs =>
        match outcome (V1.validate T tfs) with
        | Throw e => (Throw e, set_highlightSource w [])
        | Ok _ =>
            (Ok (notification (errors (written (V1.validate T tfs)))),
             set_highlightSource w
               (highlights (drawSource w)
                  (errorFeatureIndices (written (V1.validate T tfs)))))
        end
    end.
Proof.
  unfold V1.checkTopology, turfFeatures, ol.getFeatures, ol.clear.
  destruct (drawSource w) as [|f fs] eqn:E; [congruence|intros _].
  cbn [List.length Nat.eqb].
  assert (R : (turfFeatures0 <- map_ (toTurf T toLonLat) (f :: fs) 0 ;;
               V1.validate T turfFeatures0) initial
              = match outcome (map_ (toTurf T toLonLat) (f :: fs) 0) with
                | Ok tfs => (outcome (V1.validate T tfs), written (V1.validate T tfs))
                | Throw e => (Throw e, initial)
                end).
  { unfold bind at 1. rewrite (pure_map_toTurf (f :: fs) 0 initial).
    destruct (outcome (map_ (toTurf T toLonLat) (f :: fs) 0)); [|reflexivity].
    apply run_eta. }
  rewrite R.
  destruct (outcome (map_ (toTurf T toLonLat) (f :: fs) 0)) as [tfs|e]; [|reflexivity].
  destruct (outcome (V1.validate T tfs)); reflexivity.
Qed.

(** A run of [checkTopology] that completes converted every feature and ran
    the validation to its end; it shows what the validation pushed and
    highlights what it added. *)
Lemma V1_checkTopology_completes (w : World) (n : Notification) :
  drawSource w <> [] ->
  fst (V1.checkTopology T toLonLat w) = Ok n ->
  exists tfs,
    turfFeatures T toLonLat (drawSource w) = Ok tfs
    /\ outcome (V1.validate T tfs) = Ok tt
    /\ n = notification (errors (written (V1.validate T tfs)))
    /\ highlightSource (snd (V1.checkTopology T toLonLat w))
       = highlights (drawSource w) (errorFeatureIndices (written (V1.validate T tfs))).
Proof.
  intros Hne. rewrite (V1_checkTopology_run w Hne).
  destruct (turfFeatures T toLonLat (drawSource w)) as [tfs|e]; [|discriminate].
  destruct (outcome (V1.validate T tfs)) as [[]|e] eqn:Ev; [|discriminate].
  simpl. intros H. inversion H; subst.
  exists tfs. repeat split. exact Ev.
Qed.

Lemma reported_notification (l : list Message) : reported (notification l) = l.
Proof. destruct l; reflexivity. Qed.

(** The three passes of a validation that completes. *)
Lemma V1_validate_completes (tfs : list TurfFeature) :
  outcome (V1.validate T tfs) = Ok tt ->
  Forall (fun fk => outcome (selfCheck T tfs (fst fk) (snd fk)) = Ok tt) (indexed tfs 0)
  /\ Forall (fun ff => outcome (V1.pairCheck T (fst ff) (snd ff)) = Ok tt) (pairs tfs)
  /\ written (V1.validate T tfs)
     = extend (gather (map (fun fk => written (selfCheck T tfs (fst fk) (snd fk)))
                          (indexed tfs 0)))
         (extend (gather (map (fun ff => written (V1.pairCheck T (fst ff) (snd ff)))
                              (pairs tfs)))
                 (written (V1.polygonGroupCheck T tfs))).
Proof.
  unfold V1.validate.
  assert (L1 : local (forEach (selfCheck T tfs) tfs 0))
    by (apply local_forEach; intros; apply local_selfCheck).
  assert (L2 : local (forPairs (V1.pairCheck T) tfs))
    by (apply local_forPairs; intros; apply V1_local_pairCheck).
  assert (L3 : forall u : unit, local (V1.polygonGroupCheck T tfs))
    by (intros _; apply V1_local_polygonGroupCheck).
  assert (L23 : forall u : unit,
             local (forPairs (V1.pairCheck T) tfs ;; V1.polygonGroupCheck T tfs))
    by (intros _; apply local_bind; assumption).
  rewrite (outcome_bind _ _ L1 L23), (written_bind _ _ L1 L23).
  destruct (outcome (forEach (selfCheck T tfs) tfs 0)) as [[]|e] eqn:E1; [|discriminate].
  rewrite (outcome_bind _ _ L2 L3), (written_bind _ _ L2 L3).
  destruct (outcome (forPairs (V1.pairCheck T) tfs)) as [[]|e] eqn:E2; [|discriminate].
  intros _.
  destruct (forEach_completes _ tfs 0 (local_selfCheck T tfs) E1) as [F1 W1].
  destruct (forPairs_completes _ tfs (V1_local_pairCheck T) E2) as [F2 W2].
  rewrite W1, W2. repeat split; assumption.
Qed.

Lemma V1_validate_entries (tfs : list TurfFeature) :
  outcome (V1.validate T tfs) = Ok tt ->
  errors (written (V1.validate T tfs))
  = flat_map (featureEntries T tfs) (indexed tfs 0)
    ++ flat_map (V1.pairEntries T) (pairs tfs)
    ++ V1.groupEntries T tfs.
Proof.
  intros H. destruct (V1_validate_completes tfs H) as (_ & _ & W).
  rewrite W, !errors_extend, !errors_gather, !flat_map_concat_map, !map_map.
  reflexivity.
Qed.

(** The same for the annotated variant. *)
Lemma V2_checkTopology_run (w : World) :
  drawSource w <> [] ->
  V2.checkTopology T toLonLat w
  = match turfFeatures T toLonLat (drawSource w) with
    | Throw e => (Throw e, set_highlightSource w [])
    | Ok tfs =>
        match outcome (V2.validate T tfs) with
        | Throw e => (Throw e, set_highlightSource w [])
        | Ok _ =>
            (Ok (notification (errors (written (V2.validate T tfs)))),
             set_highlightSource w
               (highlights (drawSource w)
                  (errorFeatureIndices (written (V2.validate T tfs)))))
        end
    end.
Proof.
  unfold V2.checkTopology, turfFeatures, ol.getFeatures, ol.clear.
  destruct (drawSource w) as [|f fs] eqn:E; [congruence|intros _].
  cbn [List.length Nat.eqb].
  assert (R : (turfFeatures0 <- map_ (toTurf T toLonLat) (f :: fs) 0 ;;
               V2.validate T turfFeatures0) initial
              = match outcome (map_ (toTurf T toLonLat) (f :: fs) 0) with
                | Ok tfs => (outcome (V2.validate T tfs), written (V2.validate T tfs))
                | Throw e => (Throw e, initial)
                end).
  { unfold bind at 1. rewrite (pure_map_toTurf (f :: fs) 0 initial).
    destruct (outcome (map_ (toTurf T toLonLat) (f :: fs) 0)); [|reflexivity].
    apply run_eta. }
  rewrite R.
  destruct (outcome (map_ (toTurf T toLonLat) (f :: fs) 0)) as [tfs|e]; [|reflexivity].
  destruct (outcome (V2.validate T tfs)); reflexivity.
Qed.

(** A guarded check always returns. *)
Lemma guarded_returns (m : M unit) :
  local m -> outcome (try_catch m (fun _ => ret tt)) = Ok tt.
Proof.
  intros H. rewrite (outcome_try_catch m _ H (fun _ => local_ret tt)).
  destruct (outcome m) as [[]|e]; reflexivity.
Qed.

Lemma V1_overlapCheck_returns (f1 f2 : TurfFeature) :
  outcome (V1.overlapCheck T f1 f2) = Ok tt.
Proof. unfold V1.overlapCheck. apply guarded_returns. solve_local. Qed.

Lemma V1_crossCheck_returns (f1 f2 : TurfFeature) :
  outcome (V1.crossCheck T f1 f2) = Ok tt.
Proof.
  unfold V1.crossCheck.
  destruct (type f1), (type f2); try reflexivity; apply guarded_returns; solve_local.
Qed.

(** For two polygons, a failure of [booleanIntersects] is the outcome of
    the whole pair check. *)
Lemma V1_pairCheck_intersects_throws (f1 f2 : TurfFeature) (e : string) :
  type f1 = TPolygon -> type f2 = TPolygon ->
  turf.booleanIntersects T (geometry f1) (geometry f2) = Throw e ->
  outcome (V1.pairCheck T f1 f2) = Throw e.
Proof.
  intros H1 H2 H. unfold V1.pairCheck.
  rewrite (outcome_bind_ok _ _ tt (V1_overlapCheck_returns f1 f2));
    [|apply local_bind; [apply V1_local_crossCheck|intro; apply V1_local_typedChecks]].
  rewrite (outcome_bind_ok _ _ tt (V1_crossCheck_returns f1 f2));
    [|apply V1_local_typedChecks].
  unfold V1.typedChecks. rewrite H1, H2.
  apply outcome_bind_throw.
  unfold V1.intersectionCheck. apply outcome_bind_throw.
  unfold outcome, call. simpl. exact H.
Qed.

Lemma turfFeatures_nil : turfFeatures T toLonLat [] = Ok [].
Proof. reflexivity. Qed.

(** A conversion that throws is the outcome of [checkTopology]. *)
Lemma turfFeatures_polygon_rejected (feature : ol.Feature) (rest : list ol.Feature)
    (ring : list coord) (rings : list (list coord)) (e : string) :
  ol.getGeometry feature = ol.Polygon (ring :: rings) ->
  turf.polygon_throws T [map toLonLat ring] = Some e ->
  turfFeatures T toLonLat (feature :: rest) = Throw e.
Proof.
  intros Hg Hp. unfold turfFeatures. simpl map_.
  apply outcome_bind_throw. unfold toTurf. apply outcome_bind_throw.
  rewrite Hg. unfold outcome, call, turf.polygon. simpl. rewrite Hp. reflexivity.
Qed.

End Completion.

(* ------------------------------------------------------------------ *)
(** ** Coinciding points *)
(* ------------------------------------------------------------------ *)

Section CoincidingPoints.

Variable T : turf.lib.
Variable tfs : list TurfFeature.
Hypothesis W : wellIndexed tfs.

Lemma tooClose_count (f o : TurfFeature) (i j : nat) :
  count (isCoincidence i j) (tooClose T f o)
  = match turf.distance T (geometry f) (geometry o) with
    | Ok d =>
        if lt d 0.1%float
        then (if isCoincidence i j (PointsTooClose (index f) (index o) 0%float)
              then 1 else 0)
        else 0
    | Throw _ => 0
    end.
Proof.
  unfold tooClose. destruct (turf.distance T (geometry f) (geometry o)) as [d|e];
    [|reflexivity].
  destruct (lt d 0.1%float); [|reflexivity].
  unfold count. simpl. destruct (_ || _); reflexivity.
Qed.

(** Among the entries of the point at position [p], those naming the point
    at position [q] come from the one comparison with it. *)
Lemma pointEntries_count (f o : TurfFeature) (p q : nat) (i j : nat) :
  In (f, p) (indexed tfs 0) -> In (o, q) (indexed tfs 0) -> p <> q ->
  type o = TPoint ->
  (forall o' r, In (o', r) (indexed tfs 0) -> r <> q ->
                isCoincidence i j (PointsTooClose (index f) (index o') 0%float) = false) ->
  count (isCoincidence i j) (pointEntries T f p tfs 0)
  = count (isCoincidence i j) (tooClose T f o).
Proof.
  intros Hf Ho Hpq Ht Hothers. unfold pointEntries.
  rewrite (count_flat_map_single (isCoincidence i j) _ (indexed tfs 0) (o, q)
             (indexed_NoDup tfs 0) Ho).
  - simpl. rewrite Ht. simpl.
    destruct (p =? q) eqn:E; [apply Nat.eqb_eq in E; contradiction|reflexivity].
  - intros [o' r] Hin Hne. simpl.
    destruct (negb (p =? r) && TypeName_eqb (type o') TPoint); [|reflexivity].
    rewrite tooClose_count.
    assert (Hr : r <> q).
    { intros ->. apply Hne. f_equal. exact (indexed_functional tfs 0 o' o q Hin Ho). }
    rewrite (Hothers o' r Hin Hr).
    destruct (turf.distance T (geometry f) (geometry o')) as [d|e]; [|reflexivity].
    destruct (lt d 0.1%float); reflexivity.
Qed.

Lemma featureEntry_no_coincidence (o : TurfFeature) (i j : nat) (m : Message) :
  featureEntry o m -> index o <> i -> index o <> j -> isCoincidence i j m = false.
Proof.
  intros [[Hs _]|(b & d & ->)] Hi Hj.
  - destruct m; simpl in *; try reflexivity; discriminate.
  - simpl. apply Nat.eqb_neq in Hi, Hj. rewrite Hi, Hj. reflexivity.
Qed.

Lemma pairEntry_no_coincidence (g1 g2 : TurfFeature) (i j : nat) (m : Message) :
  pairEntry g1 g2 m -> isCoincidence i j m = false.
Proof.
  intros (_ & H & _). destruct m; try reflexivity. exfalso. eapply H. reflexivity.
Qed.

Lemma groupEntry_no_coincidence (i j : nat) (m : Message) :
  groupEntry m -> isCoincidence i j m = false.
Proof. intros (a & b & n & ->). reflexivity. Qed.

(** Each ordering of a pair of points is compared once: the entries naming
    the pair are one for each ordering that the library puts below
    0.1 m. *)
Lemma V1_coincidence_count (f1 f2 : TurfFeature) (d12 d21 : number) :
  outcome (V1.validate T tfs) = Ok tt ->
  In (f1, f2) (pairs tfs) ->
  type f1 = TPoint -> type f2 = TPoint ->
  turf.distance T (geometry f1) (geometry f2) = Ok d12 ->
  turf.distance T (geometry f2) (geometry f1) = Ok d21 ->
  count (isCoincidence (index f1) (index f2)) (errors (written (V1.validate T tfs)))
  = (if lt d12 0.1%float then 1 else 0) + (if lt d21 0.1%float then 1 else 0).
Proof.
  intros Hv Hin Ht1 Ht2 Hd12 Hd21.
  destruct (wellIndexed_pairs tfs W f1 f2 Hin)
    as (p & q & Hpq & Hp & Hq & Ei1 & Ei2 & _ & _).
  destruct (V1_validate_completes T tfs Hv) as (Fself & _ & _).
  rewrite Forall_forall in Fself.
  rewrite (V1_validate_entries T tfs Hv), !count_app.
  rewrite (count_flat_map_none _ (V1.pairEntries T)).
  2:{ intros [g1 g2] _. apply count_none. intros m Hm.
      pose proof (V1_pairCheck_entries T g1 g2) as Q. unfold entriesAll in Q.
      rewrite Forall_forall in Q. eapply pairEntry_no_coincidence, Q, Hm. }
  rewrite (count_none _ (V1.groupEntries T tfs)).
  2:{ intros m Hm. pose proof (V1_polygonGroupCheck_entries T tfs) as Q.
      unfold entriesAll in Q. rewrite Forall_forall in Q.
      eapply groupEntry_no_coincidence, Q, Hm. }
  rewrite (count_flat_map_two _ (featureEntries T tfs) (indexed tfs 0) (f1, p) (f2, q)
             (indexed_NoDup tfs 0) Hp Hq).
  - rewrite (selfCheck_point_entries T tfs f1 p Ht1 (Fself (f1, p) Hp)).
    rewrite (selfCheck_point_entries T tfs f2 q Ht2 (Fself (f2, q) Hq)).
    rewrite (pointEntries_count f1 f2 p q _ _ Hp Hq); [|lia|exact Ht2|].
    + rewrite (pointEntries_count f2 f1 q p _ _ Hq Hp); [|lia|exact Ht1|].
      * rewrite !tooClose_count, Hd12, Hd21. simpl.
        rewrite !Nat.eqb_refl. simpl. rewrite orb_true_r. lia.
      * intros o' r Hin' Hr. destruct (wellIndexed_In tfs W o' r Hin') as [Eo _].
        simpl. rewrite Ei1, Ei2, Eo.
        replace (q + 1 =? p + 1) with false by (symmetry; apply Nat.eqb_neq; lia).
        replace (r + 1 =? p + 1) with false by (symmetry; apply Nat.eqb_neq; lia).
        simpl. rewrite andb_false_r. reflexivity.
    + intros o' r Hin' Hr. destruct (wellIndexed_In tfs W o' r Hin') as [Eo _].
      simpl. rewrite Ei1, Ei2, Eo.
      replace (p + 1 =? q + 1) with false by (symmetry; apply Nat.eqb_neq; lia).
      replace (r + 1 =? q + 1) with false by (symmetry; apply Nat.eqb_neq; lia).
      simpl. rewrite andb_false_r. reflexivity.
  - intros E. inversion E. lia.
  - intros [o r] Hin' H1 H2. apply count_none. intros m Hm.
    pose proof (selfCheck_entries T tfs o r) as Q. unfold entriesAll in Q.
    rewrite Forall_forall in Q.
    destruct (wellIndexed_In tfs W o r Hin') as [Eo _].
    apply (featureEntry_no_coincidence o _ _ m (Q m Hm)).
    + rewrite Eo, Ei1. intros E. assert (r = p) by lia. subst r.
      apply H1. f_equal. exact (indexed_functional tfs 0 o f1 p Hin' Hp).
    + rewrite Eo, Ei2. intros E. assert (r = q) by lia. subst r.
      apply H2. f_equal. exact (indexed_functional tfs 0 o f2 q Hin' Hq).
Qed.

End CoincidingPoints.

(* ------------------------------------------------------------------ *)
(** ** Entries of one pair among all entries *)
(* ------------------------------------------------------------------ *)

Section PairLocated.

Variable T : turf.lib.
Variable tfs : list TurfFeature.
Hypothesis W : wellIndexed tfs.

Lemma pairs_In_members (f1 f2 : TurfFeature) :
  In (f1, f2) (pairs tfs) -> In f1 tfs /\ In f2 tfs /\ index f1 < index f2.
Proof.
  intros H. apply pairs_In in H as (p & q & Hpq & Hp & Hq).
  destruct (W p f1 Hp) as [E1 _]. destruct (W q f2 Hq) as [E2 _].
  repeat split; [eapply nth_error_In, Hp|eapply nth_error_In, Hq|lia].
Qed.

(** An entry naming positions [i] then [j] that was pushed for a pair was
    pushed for the pair at these positions. *)
Lemma pairEntry_located (f1 f2 g1 g2 : TurfFeature) (m : Message) :
  In (f1, f2) (pairs tfs) -> In (g1, g2) (pairs tfs) ->
  pairEntry g1 g2 m -> involved m = [index f1; index f2] ->
  (g1, g2) = (f1, f2).
Proof.
  intros Hf Hg (_ & _ & _ & Hinv) Em.
  destruct (pairs_In_members f1 f2 Hf) as (Hf1 & Hf2 & Hlt).
  destruct (pairs_In_members g1 g2 Hg) as (Hg1 & Hg2 & Hlt').
  rewrite Em in Hinv. destruct Hinv as [E|E]; inversion E as [[E1 E2]].
  - f_equal; apply (wellIndexed_injective tfs W); auto.
  - lia.
Qed.

Lemma V1_entries_of_pair (f1 f2 : TurfFeature) (m : Message) :
  outcome (V1.validate T tfs) = Ok tt ->
  In (f1, f2) (pairs tfs) ->
  In m (V1.pairEntries T (f1, f2)) -> In m (errors (written (V1.validate T tfs))).
Proof.
  intros Hv Hin Hm. rewrite (V1_validate_entries T tfs Hv).
  apply in_or_app. right. apply in_or_app. left.
  apply in_flat_map. exists (f1, f2). split; assumption.
Qed.

(** Entries that can only come from the pair check of one pair are counted
    there. *)
Lemma V1_count_located (P : Message -> bool) (f1 f2 : TurfFeature) :
  (forall m, P m = true ->
             isSelfCheck m = false
             /\ (forall i j d, m <> PointsTooClose i j d)
             /\ (forall i j n, m <> SharedBoundaryPoints i j n)
             /\ involved m = [index f1; index f2]) ->
  outcome (V1.validate T tfs) = Ok tt ->
  In (f1, f2) (pairs tfs) ->
  count P (errors (written (V1.validate T tfs))) = count P (V1.pairEntries T (f1, f2)).
Proof.
  intros HP Hv Hin.
  assert (Hnot : forall m, (P m = true -> False) -> P m = false)
    by (intros m H; destruct (P m); [contradiction H; reflexivity|reflexivity]).
  rewrite (V1_validate_entries T tfs Hv), !count_app.
  rewrite (count_flat_map_none P (featureEntries T tfs)).
  2:{ intros [o r] _. apply count_none. intros m Hm. apply Hnot. intros HPm.
      destruct (HP m HPm) as (Hs & Hp & _).
      pose proof (selfCheck_entries T tfs o r) as Q. unfold entriesAll in Q.
      rewrite Forall_forall in Q.
      destruct (Q m Hm) as [[Hs' _]|(b & d & ->)]; [congruence|].
      eapply Hp. reflexivity. }
  rewrite (count_none P (V1.groupEntries T tfs)).
  2:{ intros m Hm. apply Hnot. intros HPm. destruct (HP m HPm) as (_ & _ & Hg & _).
      pose proof (V1_polygonGroupCheck_entries T tfs) as Q. unfold entriesAll in Q.
      rewrite Forall_forall in Q. destruct (Q m Hm) as (a & b & n & ->).
      eapply Hg. reflexivity. }
  rewrite (count_flat_map_single P (V1.pairEntries T) (pairs tfs) (f1, f2)
             (pairs_NoDup tfs (wellIndexed_NoDup tfs W)) Hin).
  - lia.
  - intros [g1 g2] Hg Hne. apply count_none. intros m Hm. apply Hnot. intros HPm.
    destruct (HP m HPm) as (_ & _ & _ & Hinv).
    pose proof (V1_pairCheck_entries T g1 g2) as Q. unfold entriesAll in Q.
    rewrite Forall_forall in Q.
    apply Hne. exact (pairEntry_located f1 f2 g1 g2 m Hin Hg (Q m Hm) Hinv).
Qed.

(** The same for one entry: it is reported when, and only when, the check
    of its pair pushed it. *)
Lemma V1_entry_located (f1 f2 : TurfFeature) (m : Message) :
  isSelfCheck m = false ->
  (forall i j d, m <> PointsTooClose i j d) ->
  (forall i j n, m <> SharedBoundaryPoints i j n) ->
  involved m = [index f1; index f2] ->
  outcome (V1.validate T tfs) = Ok tt ->
  In (f1, f2) (pairs tfs) ->
  (In m (errors (written (V1.validate T tfs))) <-> In m (V1.pairEntries T (f1, f2))).
Proof.
  intros Hs Hp Hg Hinv Hv Hin. split; [|apply V1_entries_of_pair; assumption].
  rewrite (V1_validate_entries T tfs Hv), !in_app_iff, !in_flat_map.
  intros [([o r] & _ & Hm)|[([g1 g2] & Hgin & Hm)|Hm]].
  - pose proof (selfCheck_entries T tfs o r) as Q. unfold entriesAll in Q.
    rewrite Forall_forall in Q.
    destruct (Q m Hm) as [[Hs' _]|(b & d & ->)]; [congruence|].
    exfalso. eapply Hp. reflexivity.
  - pose proof (V1_pairCheck_entries T g1 g2) as Q. unfold entriesAll in Q.
    rewrite Forall_forall in Q.
    rewrite <- (pairEntry_located f1 f2 g1 g2 m Hin Hgin (Q m Hm) Hinv). exact Hm.
  - pose proof (V1_polygonGroupCheck_entries T tfs) as Q. unfold entriesAll in Q.
    rewrite Forall_forall in Q. destruct (Q m Hm) as (a & b & n & ->).
    exfalso. eapply Hg. reflexivity.
Qed.

End PairLocated.

(* ------------------------------------------------------------------ *)
(** ** Lines: crossing and dangling ends *)
(* ------------------------------------------------------------------ *)

Section Lines.

Variable T : turf.lib.

Lemma V1_pairCheck_run (f1 f2 : TurfFeature) :
  outcome (V1.pairCheck T f1 f2) = outcome (V1.typedChecks T f1 f2)
  /\ V1.pairEntries T (f1, f2)
     = errors (written (V1.overlapCheck T f1 f2))
       ++ errors (written (V1.crossCheck T f1 f2))
       ++ errors (written (V1.typedChecks T f1 f2)).
Proof.
  unfold V1.pairEntries, V1.pairCheck. simpl fst. simpl snd.
  assert (L : local (V1.crossCheck T f1 f2 ;; V1.typedChecks T f1 f2))
    by (apply local_bind; [apply V1_local_crossCheck|intro; apply V1_local_typedChecks]).
  rewrite (outcome_bind_ok _ _ tt (V1_overlapCheck_returns T f1 f2) L).
  rewrite (written_bind_ok _ _ tt (V1_overlapCheck_returns T f1 f2) L).
  rewrite (outcome_bind_ok _ _ tt (V1_crossCheck_returns T f1 f2)
             (V1_local_typedChecks T f1 f2)).
  rewrite (written_bind_ok _ _ tt (V1_crossCheck_returns T f1 f2)
             (V1_local_typedChecks T f1 f2)).
  split; reflexivity.
Qed.

(** The crossing entry of two lines. *)
Lemma V1_crossCheck_lines (f1 f2 : TurfFeature) :
  type f1 = TLineString -> type f2 = TLineString ->
  errors (written (V1.crossCheck T f1 f2))
  = match turf.booleanCrosses T (geometry f1) (geometry f2) with
    | Ok true => [LinesCross (index f1) (index f2)]
    | _ => []
    end.
Proof.
  intros H1 H2. unfold V1.crossCheck. rewrite H1, H2.
  unfold written, try_catch, bind, call, when, report, push, add, ret.
  destruct (turf.booleanCrosses T (geometry f1) (geometry f2)) as [[|]|e]; reflexivity.
Qed.

(** The endpoint distances are computed twice, and each time the first
    one that throws ends the check. *)
Lemma V1_connectionPoints_outcome (ps : list (option coord * option coord)) :
  match outcome (V1.connectionPoints T ps) with
  | Ok found =>
      Forall (fun r => is_Ok r = true)
             (map (fun ep => outcome (V1.pointDistance T (fst ep) (snd ep))) ps)
      /\ List.length found
         = V1.coinciding (map (fun ep => outcome (V1.pointDistance T (fst ep) (snd ep))) ps)
  | Throw _ => True
  end.
Proof.
  induction ps as [|[ep1 ep2] ps IH]; simpl.
  - split; [constructor|reflexivity].
  - rewrite outcome_bind by locality.
    destruct (outcome (V1.pointDistance T ep1 ep2)) as [d|e] eqn:Ed; [|exact I].
    rewrite outcome_bind by locality.
    destruct (outcome (V1.connectionPoints T ps)) as [found|e] eqn:Ef; [|exact I].
    destruct IH as [F L]. rewrite outcome_ret. split.
    + constructor; [reflexivity|exact F].
    + unfold V1.coinciding in *. simpl.
      destruct (lt d 0.1%float); simpl; rewrite L; reflexivity.
Qed.

Lemma V1_minEndpointDistance_outcome (ps : list (option coord * option coord)) (m : number) :
  Forall (fun r => is_Ok r = true)
         (map (fun ep => outcome (V1.pointDistance T (fst ep) (snd ep))) ps) ->
  outcome (V1.minEndpointDistance T ps m)
  = Ok (fold_left (fun m r => match r with
                              | Ok d => Math_min m d
                              | Throw _ => m
                              end)
                  (map (fun ep => outcome (V1.pointDistance T (fst ep) (snd ep))) ps) m).
Proof.
  revert m. induction ps as [|[ep1 ep2] ps IH]; intros m; simpl; intros F.
  - reflexivity.
  - inversion F as [|? ? H1 H2]; subst.
    rewrite outcome_bind by locality.
    simpl in H1.
    destruct (outcome (V1.pointDistance T ep1 ep2)) as [d|e]; [|discriminate].
    apply IH, H2.
Qed.

(** What the dangling-end check of two lines pushes when it runs to its
    end. *)
Lemma V1_danglingCheck_completes (f1 f2 : TurfFeature) :
  outcome (V1.danglingCheck T f1 f2) = Ok tt ->
  errors (written (V1.danglingCheck T f1 f2))
  = if V1.coinciding (V1.endpointDistances T f1 f2) =? 0
    then (if lt (V1.minimumDistance (V1.endpointDistances T f1 f2)) 1.0%float
          then [DanglingEndpoint (index f1) (index f2)
                  (V1.minimumDistance (V1.endpointDistances T f1 f2))]
          else [])
    else (if V1.coinciding (V1.endpointDistances T f1 f2) =? 1
          then [SingleEndpointConnection (index f1) (index f2)]
          else []).
Proof.
  unfold V1.danglingCheck, V1.endpointDistances, V1.minimumDistance. cbv zeta.
  pose proof (V1_connectionPoints_outcome (V1.endpointPairs f1 f2)) as C.
  assert (Lrest : forall connections : list (option coord * number),
             local (if List.length connections =? 0
                    then minDistance <- V1.minEndpointDistance T (V1.endpointPairs f1 f2)
                                          Infinity ;;
                         when (lt minDistance 1.0%float)
                           (report (DanglingEndpoint (index f1) (index f2) minDistance)
                                   f1 f2)
                    else when (List.length connections =? 1)
                           (report (SingleEndpointConnection (index f1) (index f2))
                                   f1 f2)))
    by (intro; solve_local).
  rewrite (outcome_bind _ _ (V1_local_connectionPoints T _) Lrest).
  rewrite (written_bind _ _ (V1_local_connectionPoints T _) Lrest).
  destruct (outcome (V1.connectionPoints T (V1.endpointPairs f1 f2))) as [found|e];
    [|discriminate].
  destruct C as [F L]. rewrite (pure_written _ (V1_pure_connectionPoints T _)).
  rewrite extend_initial_errors, <- L.
  destruct (List.length found =? 0).
  - rewrite outcome_bind, written_bind by locality.
    rewrite (V1_minEndpointDistance_outcome _ Infinity F).
    rewrite (pure_written _ (V1_pure_minEndpointDistance T _ _)).
    intros _. rewrite extend_initial_errors.
    destruct (lt _ 1.0%float); reflexivity.
  - intros _. destruct (List.length found =? 1); reflexivity.
Qed.

(** The overlap and crossing checks push no dangling-end entry. *)
Lemma V1_overlap_cross_no_dangling (f1 f2 : TurfFeature) (i j : nat) :
  count (isDangling i j) (errors (written (V1.overlapCheck T f1 f2))) = 0
  /\ count (isDangling i j) (errors (written (V1.crossCheck T f1 f2))) = 0.
Proof.
  assert (Q1 : entriesAll (fun m => isDangling i j m = false)
                          (written (V1.overlapCheck T f1 f2))).
  { unfold V1.overlapCheck. solve_entries ltac:(try reflexivity). }
  assert (Q2 : entriesAll (fun m => isDangling i j m = false)
                          (written (V1.crossCheck T f1 f2))).
  { unfold V1.crossCheck. solve_entries ltac:(try reflexivity). }
  unfold entriesAll in Q1, Q2. rewrite Forall_forall in Q1, Q2.
  split; apply count_none; assumption.
Qed.

Lemma isDangling_located (i j : nat) (m : Message) :
  isDangling i j m = true ->
  isSelfCheck m = false
  /\ (forall a b d, m <> PointsTooClose a b d)
  /\ (forall a b n, m <> SharedBoundaryPoints a b n)
  /\ involved m = [i; j].
Proof.
  destruct m; simpl; try discriminate. intros H.
  apply andb_true_iff in H as [H1 H2]. apply Nat.eqb_eq in H1, H2. subst.
  repeat split; intros; discriminate.
Qed.

(** The entries of a pair of lines whose check runs to its end. *)
Lemma V1_lines_entries (f1 f2 : TurfFeature) :
  type f1 = TLineString -> type f2 = TLineString ->
  outcome (V1.pairCheck T f1 f2) = Ok tt ->
  V1.pairEntries T (f1, f2)
  = errors (written (V1.overlapCheck T f1 f2))
    ++ match turf.booleanCrosses T (geometry f1) (geometry f2) with
       | Ok true => [LinesCross (index f1) (index f2)]
       | _ => []
       end
    ++ (if V1.coinciding (V1.endpointDistances T f1 f2) =? 0
        then (if lt (V1.minimumDistance (V1.endpointDistances T f1 f2)) 1.0%float
              then [DanglingEndpoint (index f1) (index f2)
                      (V1.minimumDistance (V1.endpointDistances T f1 f2))]
              else [])
        else (if V1.coinciding (V1.endpointDistances T f1 f2) =? 1
              then [SingleEndpointConnection (index f1) (index f2)]
              else [])).
Proof.
  intros H1 H2 Ho. destruct (V1_pairCheck_run f1 f2) as [Eo Ee].
  rewrite Ee, <- (V1_crossCheck_lines f1 f2 H1 H2).
  rewrite Eo in Ho. unfold V1.typedChecks in *. rewrite H1, H2 in *.
  rewrite (V1_danglingCheck_completes f1 f2 Ho). reflexivity.
Qed.

End Lines.

(* ------------------------------------------------------------------ *)
(** ** Lines: the four distances between their ends *)
(* ------------------------------------------------------------------ *)

Section LineEndpoints.

Variable T : turf.lib.

(** The distance of two endpoints: the two [turf.point] calls, then
    [turf.distance]. *)
Lemma V1_pointDistance_outcome (ep1 ep2 : option coord) :
  outcome (V1.pointDistance T ep1 ep2)
  = match turf.point T ep1 with
    | Throw e => Throw e
    | Ok p1 => match turf.point T ep2 with
               | Throw e => Throw e
               | Ok p2 => turf.distance T p1 p2
               end
    end.
Proof.
  unfold V1.pointDistance, outcome, bind, call.
  destruct (turf.point T ep1) as [p1|e]; [|reflexivity].
  destruct (turf.point T ep2) as [p2|e]; [|reflexivity].
  destruct (turf.distance T p1 p2); reflexivity.
Qed.

Lemma V1_pointDistance_returns (ep1 ep2 : option coord) :
  is_Ok (outcome (V1.pointDistance T ep1 ep2)) = true ->
  outcome (V1.pointDistance T ep1 ep2)
  = turf.distance T (turf.Point ep1) (turf.Point ep2).
Proof.
  rewrite V1_pointDistance_outcome. unfold turf.point.
  destruct (turf.point_throws T ep1); [discriminate|].
  destruct (turf.point_throws T ep2); [discriminate|]. reflexivity.
Qed.

Lemma lastPoint_last (coords : list coord) (a : coord) :
  hd_error coords = Some a -> lastPoint coords = Some (last coords a).
Proof.
  destruct coords as [|c rest]; simpl; [discriminate|].
  intros E. inversion E; subst. destruct rest; reflexivity.
Qed.

(** When the dangling-end check runs to its end, none of the four distance
    computations threw. *)
Lemma V1_danglingCheck_distances (f1 f2 : TurfFeature) :
  outcome (V1.danglingCheck T f1 f2) = Ok tt ->
  Forall (fun r => is_Ok r = true) (V1.endpointDistances T f1 f2).
Proof.
  unfold V1.danglingCheck, V1.endpointDistances. cbv zeta.
  pose proof (V1_connectionPoints_outcome T (V1.endpointPairs f1 f2)) as C.
  assert (Lrest : forall connections : list (option coord * number),
             local (if List.length connections =? 0
                    then minDistance <- V1.minEndpointDistance T (V1.endpointPairs f1 f2)
                                          Infinity ;;
                         when (lt minDistance 1.0%float)
                           (report (DanglingEndpoint (index f1) (index f2) minDistance)
                                   f1 f2)
                    else when (List.length connections =? 1)
                           (report (SingleEndpointConnection (index f1) (index f2))
                                   f1 f2)))
    by (intro; solve_local).
  rewrite (outcome_bind _ _ (V1_local_connectionPoints T _) Lrest).
  destruct (outcome (V1.connectionPoints T (V1.endpointPairs f1 f2))) as [found|e];
    [|discriminate].
  intros _. exact (proj1 C).
Qed.

(** The four endpoint distances of two lines, first and last vertex of one
    against first and last vertex of the other, in the order of the loops. *)
Lemma V1_endpointDistances_lines (f1 f2 : TurfFeature)
    (coords1 coords2 : list coord) (a1 a2 : coord) (d_aa d_ab d_ba d_bb : number) :
  outcome (V1.danglingCheck T f1 f2) = Ok tt ->
  geometry f1 = turf.LineString coords1 -> geometry f2 = turf.LineString coords2 ->
  hd_error coords1 = Some a1 -> hd_error coords2 = Some a2 ->
  turf.distance T (turf.Point (Some a1)) (turf.Point (Some a2)) = Ok d_aa ->
  turf.distance T (turf.Point (Some a1)) (turf.Point (Some (last coords2 a2))) = Ok d_ab ->
  turf.distance T (turf.Point (Some (last coords1 a1))) (turf.Point (Some a2)) = Ok d_ba ->
  turf.distance T (turf.Point (Some (last coords1 a1)))
                  (turf.Point (Some (last coords2 a2))) = Ok d_bb ->
  V1.endpointDistances T f1 f2 = [Ok d_aa; Ok d_ab; Ok d_ba; Ok d_bb].
Proof.
  intros Ho G1 G2 A1 A2 Daa Dab Dba Dbb.
  pose proof (V1_danglingCheck_distances f1 f2 Ho) as F.
  unfold V1.endpointDistances, V1.endpointPairs, V1.lineCoordinates in *.
  rewrite G1, G2 in *. unfold firstPoint in *.
  rewrite A1, A2, (lastPoint_last coords1 a1 A1), (lastPoint_last coords2 a2 A2) in *.
  simpl in *.
  inversion F as [|? ? F1 F']; subst. inversion F' as [|? ? F2 F'']; subst.
  inversion F'' as [|? ? F3 F''']; subst. inversion F''' as [|? ? F4 _]; subst.
  rewrite (V1_pointDistance_returns _ _ F1), (V1_pointDistance_returns _ _ F2),
    (V1_pointDistance_returns _ _ F3), (V1_pointDistance_returns _ _ F4).
  rewrite Daa, Dab, Dba, Dbb. reflexivity.
Qed.

Lemma V1_coinciding_numbers (ds : list number) :
  V1.coinciding (map Ok ds) = List.length (filter (fun d => lt d 0.1%float) ds).
Proof.
  unfold V1.coinciding. induction ds as [|d ds IH]; simpl; [reflexivity|].
  destruct (lt d 0.1%float); simpl; rewrite IH; reflexivity.
Qed.

Lemma V1_minimumDistance_numbers (ds : list number) :
  V1.minimumDistance (map Ok ds) = fold_left Math_min ds Infinity.
Proof.
  unfold V1.minimumDistance. generalize Infinity.
  induction ds as [|d ds IH]; simpl; intros m; [reflexivity|]. apply IH.
Qed.

Lemma filter_none {A : Type} (p : A -> bool) (l : list A) :
  (forall x, In x l -> p x = false) -> filter p l = [].
Proof.
  induction l as [|x l IH]; simpl; intros H; [reflexivity|].
  rewrite (H x (or_introl eq_refl)). apply IH. intros y Hy. apply H. right. exact Hy.
Qed.

(** The minimum that [Math.min] folds from [Infinity] over distances none
    of which is below 0.1: the least of them. *)
Lemma V1_minimumDistance_least (ds : list number) (m : number) :
  (forall d, In d ds -> lt d 0.1%float = false) ->
  In m ds -> (forall d, In d ds -> le m d = true) ->
  V1.minimumDistance (map Ok ds) = m.
Proof.
  intros Hfar Hm Hleast. rewrite V1_minimumDistance_numbers.
  assert (Hn : forall d, In d ds -> isNaN d = false)
    by (intros d Hd; apply (le_true_numbers m d), Hleast, Hd).
  destruct (fold_Math_min_least ds Infinity eq_refl Hn) as (I & _ & F).
  destruct I as [I|I].
  - destruct ds as [|d ds]; [destruct Hm|]. simpl in I |- *.
    rewrite (Math_min_Infinity d (Hn d (or_introl eq_refl))) in I |- *.
    destruct (fold_Math_min_least ds d (Hn d (or_introl eq_refl))
                (fun x Hx => Hn x (or_intror Hx))) as (I' & L' & F').
    apply le_antisym.
    + destruct Hm as [<-|Hm]; [exact L'|apply F', Hm].
    + destruct I' as [->|I']; [apply Hleast; left; reflexivity|].
      apply Hleast. right. exact I'.
    + apply Hfar, Hm.
  - apply le_antisym; [apply F, Hm|apply Hleast, I|apply Hfar, Hm].
Qed.

End LineEndpoints.

(* ------------------------------------------------------------------ *)
(** ** Polygons: the gap between two of them *)
(* ------------------------------------------------------------------ *)

Section Polygons.

Variable T : turf.lib.

(** What the gap check pushes. *)
Lemma V1_gapCheck_entries (f1 f2 : TurfFeature) :
  errors (written (V1.gapCheck T f1 f2))
  = match V1.gapArea T f1 f2 with
    | Some gapArea =>
        if gt gapArea 0.0001%float
        then [GapBetweenPolygons (index f1) (index f2) gapArea]
        else []
    | None => []
    end.
Proof.
  unfold V1.gapCheck, V1.gapArea, written, try_catch, bind, call, when, report, push,
    add, ret.
  destruct (turf.union T (geometry f1) (geometry f2)) as [[region|]|e]; simpl;
    try reflexivity.
  destruct (turf.area T region) as [ua|e]; simpl; try reflexivity.
  destruct (turf.area T (geometry f1)) as [a1|e]; simpl; try reflexivity.
  destruct (turf.area T (geometry f2)) as [a2|e]; simpl; try reflexivity.
  destruct (gt (ua - a1 - a2)%float 0.0001%float); reflexivity.
Qed.

Lemma V1_containmentCheck_returns (f1 f2 : TurfFeature) :
  outcome (V1.containmentCheck T f1 f2) = Ok tt.
Proof. unfold V1.containmentCheck. apply guarded_returns. solve_local. Qed.

Lemma V1_adjacencyCheck_returns (f1 f2 : TurfFeature) :
  outcome (V1.adjacencyCheck T f1 f2) = Ok tt.
Proof. unfold V1.adjacencyCheck. apply guarded_returns. solve_local. Qed.

(** The entries of a pair of polygons whose check runs to its end. *)
Lemma V1_polygons_entries (f1 f2 : TurfFeature) :
  type f1 = TPolygon -> type f2 = TPolygon ->
  outcome (V1.pairCheck T f1 f2) = Ok tt ->
  V1.pairEntries T (f1, f2)
  = errors (written (V1.overlapCheck T f1 f2))
    ++ errors (written (V1.crossCheck T f1 f2))
    ++ errors (written (V1.intersectionCheck T f1 f2))
    ++ errors (written (V1.containmentCheck T f1 f2))
    ++ errors (written (V1.adjacencyCheck T f1 f2))
    ++ errors (written (V1.gapCheck T f1 f2)).
Proof.
  intros H1 H2 Ho. destruct (V1_pairCheck_run T f1 f2) as [Eo Ee].
  rewrite Ee. rewrite Eo in Ho. unfold V1.typedChecks in *. rewrite H1, H2 in *.
  assert (L3 : local (V1.adjacencyCheck T f1 f2 ;; V1.gapCheck T f1 f2))
    by (apply local_bind; [apply V1_local_adjacencyCheck|intro; apply V1_local_gapCheck]).
  assert (L2 : local (V1.containmentCheck T f1 f2 ;; V1.adjacencyCheck T f1 f2 ;;
                      V1.gapCheck T f1 f2))
    by (apply local_bind; [apply V1_local_containmentCheck|intro; exact L3]).
  rewrite (outcome_bind _ _ (V1_local_intersectionCheck T f1 f2) (fun _ => L2)) in Ho.
  destruct (outcome (V1.intersectionCheck T f1 f2)) as [[]|e] eqn:Ei; [|discriminate].
  rewrite (written_bind_ok _ _ tt Ei L2).
  rewrite (written_bind_ok _ _ tt (V1_containmentCheck_returns f1 f2) L3).
  rewrite (written_bind_ok _ _ tt (V1_adjacencyCheck_returns f1 f2)
             (V1_local_gapCheck T f1 f2)).
  rewrite !errors_extend. reflexivity.
Qed.

(** No other check of the pair pushes a gap entry. *)
Lemma V1_gap_only_from_gapCheck (f1 f2 : TurfFeature) (m : Message) :
  (exists i j g, m = GapBetweenPolygons i j g) ->
  ~ In m (errors (written (V1.overlapCheck T f1 f2))
          ++ errors (written (V1.crossCheck T f1 f2))
          ++ errors (written (V1.intersectionCheck T f1 f2))
          ++ errors (written (V1.containmentCheck T f1 f2))
          ++ errors (written (V1.adjacencyCheck T f1 f2))).
Proof.
  intros (i & j & g & ->).
  set (Q := fun m : Message => forall i j g, m <> GapBetweenPolygons i j g).
  assert (Q1 : entriesAll Q (written (V1.overlapCheck T f1 f2)))
    by (unfold V1.overlapCheck; solve_entries ltac:(try (intros ? ? ?; discriminate))).
  assert (Q2 : entriesAll Q (written (V1.crossCheck T f1 f2)))
    by (unfold V1.crossCheck; solve_entries ltac:(try (intros ? ? ?; discriminate))).
  assert (Q3 : entriesAll Q (written (V1.intersectionCheck T f1 f2)))
    by (unfold V1.intersectionCheck;
        solve_entries ltac:(try (intros ? ? ?; discriminate))).
  assert (Q4 : entriesAll Q (written (V1.containmentCheck T f1 f2)))
    by (unfold V1.containmentCheck;
        solve_entries ltac:(try (intros ? ? ?; discriminate))).
  assert (Q5 : entriesAll Q (written (V1.adjacencyCheck T f1 f2)))
    by (unfold V1.adjacencyCheck;
        solve_entries ltac:(try (intros ? ? ?; discriminate))).
  unfold entriesAll in *. rewrite Forall_forall in Q1, Q2, Q3, Q4, Q5.
  rewrite !in_app_iff.
  intros [H|[H|[H|[H|H]]]];
    [apply (Q1 _ H i j g)|apply (Q2 _ H i j g)|apply (Q3 _ H i j g)
    |apply (Q4 _ H i j g)|apply (Q5 _ H i j g)]; reflexivity.
Qed.

End Polygons.

(* ------------------------------------------------------------------ *)
(** ** The order of the entries and the highlights *)
(* ------------------------------------------------------------------ *)

(** Reduces a property [extensible] by [E] of what a statement writes to
    its pushes and adds. *)
Ltac writes_step E :=
  first
    [ apply (writes_ret _ _ E) | apply (writes_throw _ _ E) | apply (writes_call _ _ E)
    | apply (writes_pure _ _ E);
      solve [apply V1_pure_connectionPoints | apply V1_pure_minEndpointDistance]
    | apply (writes_when _ _ _ E)
    | apply (writes_bind _ _ _ E); [ | intro | | intro]
    | apply (writes_try_catch _ _ _ E); [ | intro | | intro] ].

Section Order.

Variable T : turf.lib.

Lemma flagsPair_extensible (f1 f2 : TurfFeature) : extensible (flagsPair f1 f2).
Proof.
  split; [intros m []|].
  intros s d Hs Hd m Hm Hn. rewrite errors_extend in Hm. rewrite !indices_extend.
  apply in_app_or in Hm as [Hm|Hm];
    [destruct (Hs m Hm Hn)|destruct (Hd m Hm Hn)]; auto.
Qed.

Lemma flags_report (msg : Message) (f1 f2 : TurfFeature) :
  flagsPair f1 f2 (written (report msg f1 f2)).
Proof.
  intros m _ _. unfold report, written, bind, push, add; simpl.
  rewrite !Set_add_In. simpl. auto.
Qed.

Lemma flags_note (msg : Message) (f1 f2 : TurfFeature) :
  isNote msg = true -> flagsPair f1 f2 (written (push msg)).
Proof. intros H m [<-|[]] Hn. congruence. Qed.

Lemma V1_pairCheck_flags (f1 f2 : TurfFeature) :
  flagsPair f1 f2 (written (V1.pairCheck T f1 f2)).
Proof.
  pose proof (flagsPair_extensible f1 f2) as E.
  unfold V1.pairCheck, V1.overlapCheck, V1.crossCheck, V1.typedChecks,
    V1.intersectionCheck, V1.containmentCheck, V1.adjacencyCheck, V1.gapCheck,
    V1.linePolygonChecks, V1.danglingCheck.
  repeat first
    [ apply flags_report
    | apply flags_note; reflexivity
    | writes_step E
    | match goal with
      | |- local _ => solve [solve_local]
      | |- flagsPair _ _ (written (match ?x with _ => _ end)) => destruct x
      | |- flagsPair _ _ (written (if ?b then _ else _)) => destruct b
      | |- flagsPair _ _ (written (let _ := _ in _)) => cbv zeta
      end ].
Qed.


Lemma sorted_app {A} (R : A -> A -> Prop) (l1 l2 : list A) :
  StronglySorted R l1 -> StronglySorted R l2 ->
  (forall a b, In a l1 -> In b l2 -> R a b) ->
  StronglySorted R (l1 ++ l2).
Proof.
  intros H1 H2 H. induction H1 as [|a l1 S1 IH F1]; simpl; [exact H2|].
  constructor.
  - apply IH. intros x y Hx Hy. apply H; [right; exact Hx|exact Hy].
  - apply Forall_app. split; [exact F1|].
    apply Forall_forall. intros y Hy. apply H; [left; reflexivity|exact Hy].
Qed.

Lemma seq_sorted (a n : nat) : StronglySorted Nat.lt (seq a n).
Proof.
  revert a. induction n as [|n IH]; intros a; simpl; constructor; [apply IH|].
  apply Forall_forall. intros x Hx. apply in_seq in Hx. unfold Nat.lt. lia.
Qed.

Lemma positions_from (l : list TurfFeature) (a : nat) :
  (forall p f, nth_error l p = Some f -> index f = p + a) ->
  map index l = seq a (List.length l).
Proof.
  revert a. induction l as [|x rest IH]; intros a H; simpl; [reflexivity|].
  f_equal; [exact (H 0 x eq_refl)|].
  apply IH. intros p f Hp. rewrite (H (S p) f Hp). lia.
Qed.

Lemma wellIndexed_positions (tfs : list TurfFeature) :
  wellIndexed tfs -> map index tfs = seq 1 (List.length tfs).
Proof. intros W. apply positions_from. intros p f Hp. exact (proj1 (W p f Hp)). Qed.

Lemma row_sorted (a : nat) (rest : list TurfFeature) :
  StronglySorted Nat.lt (map index rest) ->
  StronglySorted pairBefore (map (fun y => (a, index y)) rest).
Proof.
  induction rest as [|y rest IH]; simpl; intros H; [constructor|].
  inversion H as [|? ? S F]; subst. constructor; [apply IH, S|].
  rewrite Forall_map in F |- *. revert F. apply Forall_impl. intros z Hz.
  right. simpl. unfold Nat.lt in Hz. lia.
Qed.

Lemma pairs_sorted (l : list TurfFeature) :
  StronglySorted Nat.lt (map index l) ->
  StronglySorted pairBefore
    (map (fun ff => (index (fst ff), index (snd ff))) (pairs l)).
Proof.
  induction l as [|x rest IH]; simpl; intros H; [constructor|].
  inversion H as [|? ? S F]; subst.
  rewrite map_app, map_map. simpl. apply sorted_app.
  - apply row_sorted, S.
  - apply IH, S.
  - intros a b Ha Hb. apply in_map_iff in Ha as (y & <- & Hy).
    apply in_map_iff in Hb as ([g1 g2] & <- & Hg). simpl.
    apply pairs_In in Hg as (p & q & _ & Hp & _). apply nth_error_In in Hp.
    rewrite Forall_map, Forall_forall in F. left. simpl. exact (F g1 Hp).
Qed.

Lemma highlights_In (features : list ol.Feature) (indices : list nat) (p : nat)
    (feature : ol.Feature) :
  In p indices -> nth_error features p = Some feature ->
  In (ol.getGeometry feature) (highlights features indices).
Proof.
  intros Hp Hf. unfold highlights. apply in_flat_map. exists p. split; [exact Hp|].
  rewrite Hf. left. reflexivity.
Qed.

Lemma flagged_featureEntry (f : TurfFeature) (m : Message) :
  featureEntry f m -> flagged m = [index f].
Proof.
  intros [[Hs Hi]|(j & d & ->)]; [|reflexivity].
  destruct m; try discriminate; exact Hi.
Qed.

Lemma flagged_pairEntry (f1 f2 : TurfFeature) (m : Message) (i : nat) :
  pairEntry f1 f2 m -> In i (flagged m) ->
  isNote m = false /\ (i = index f1 \/ i = index f2).
Proof.
  intros (_ & Hp & _ & Hi) H.
  destruct m; simpl in *; try (exfalso; exact (Hp _ _ _ eq_refl)); try destruct H;
    (split; [reflexivity|]);
    destruct Hi as [Hi|Hi]; inversion Hi; subst; simpl in *; intuition.
Qed.

Lemma flagged_groupEntry (m : Message) : groupEntry m -> flagged m = [].
Proof. intros (i & j & n & ->). reflexivity. Qed.

End Order.

(* ------------------------------------------------------------------ *)
(** ** The range constraint *)
(* ------------------------------------------------------------------ *)

Section RangeFacts.

Import SpecFloat RangeConstraint.

Variable parseFloat : string -> number.
Variable fromLonLat : coord -> coord.
Variable formValid : RangeForm -> bool.

Lemma finite_180 : SFfinite (Prim2SF 180%float).
Proof. vm_compute. exact I. Qed.

Lemma finite_neg_180 : SFfinite (Prim2SF (-180)%float).
Proof. vm_compute. exact I. Qed.

Lemma finite_90 : SFfinite (Prim2SF 90%float).
Proof. vm_compute. exact I. Qed.

Lemma finite_neg_90 : SFfinite (Prim2SF (-90)%float).
Proof. vm_compute. exact I. Qed.

(** The tests of lines 1581-1609, taken together, are the negation of the
    rules. *)
Lemma V2_tests_pass_rules (minX minY maxX maxY : number) :
  isNaN minX || isNaN minY || isNaN maxX || isNaN maxY = false ->
  V2.longitudeOutOfDomain minX maxX = false ->
  V2.latitudeOutOfDomain minY maxY = false ->
  ge minX maxX || ge minY maxY = false ->
  lt (maxX - minX)%float 0.001%float || lt (maxY - minY)%float 0.001%float = false ->
  rules minX minY maxX maxY = true.
Proof.
  unfold V2.longitudeOutOfDomain, V2.latitudeOutOfDomain.
  intros Hn Hlon Hlat Hord Hspan.
  repeat (apply orb_false_iff in Hn; destruct Hn as [Hn ?]).
  repeat (apply orb_false_iff in Hlon; destruct Hlon as [Hlon ?]).
  repeat (apply orb_false_iff in Hlat; destruct Hlat as [Hlat ?]).
  apply orb_false_iff in Hord; destruct Hord as [Hord1 Hord2].
  apply orb_false_iff in Hspan; destruct Hspan as [Hspan1 Hspan2].
  assert (N180 : isNaN 180%float = false) by reflexivity.
  assert (M180 : isNaN (-180)%float = false) by reflexivity.
  assert (N90 : isNaN 90%float = false) by reflexivity.
  assert (M90 : isNaN (-90)%float = false) by reflexivity.
  assert (D1 : le (-180)%float minX = true).
  { change (ge minX (-180)%float = true).
    rewrite (lt_not_ge _ _ Hn M180) in Hlon. apply negb_false_iff in Hlon; exact Hlon. }
  assert (D2 : le minX 180%float = true).
  { rewrite (gt_not_le _ _ Hn N180) in H4. apply negb_false_iff in H4; exact H4. }
  assert (D3 : le (-180)%float maxX = true).
  { change (ge maxX (-180)%float = true).
    rewrite (lt_not_ge _ _ H0 M180) in H3. apply negb_false_iff in H3; exact H3. }
  assert (D4 : le maxX 180%float = true).
  { rewrite (gt_not_le _ _ H0 N180) in H2. apply negb_false_iff in H2; exact H2. }
  assert (D5 : le (-90)%float minY = true).
  { change (ge minY (-90)%float = true).
    rewrite (lt_not_ge _ _ H1 M90) in Hlat. apply negb_false_iff in Hlat; exact Hlat. }
  assert (D6 : le minY 90%float = true).
  { rewrite (gt_not_le _ _ H1 N90) in H7. apply negb_false_iff in H7; exact H7. }
  assert (D7 : le (-90)%float maxY = true).
  { change (ge maxY (-90)%float = true).
    rewrite (lt_not_ge _ _ H M90) in H6. apply negb_false_iff in H6; exact H6. }
  assert (D8 : le maxY 90%float = true).
  { rewrite (gt_not_le _ _ H N90) in H5. apply negb_false_iff in H5; exact H5. }
  assert (FX : isNaN (maxX - minX)%float = false).
  { apply sub_finite_number.
    - exact (between_finite _ _ _ finite_neg_180 finite_180 D3 D4).
    - exact (between_finite _ _ _ finite_neg_180 finite_180 D1 D2). }
  assert (FY : isNaN (maxY - minY)%float = false).
  { apply sub_finite_number.
    - exact (between_finite _ _ _ finite_neg_90 finite_90 D7 D8).
    - exact (between_finite _ _ _ finite_neg_90 finite_90 D5 D6). }
  assert (N001 : isNaN 0.001%float = false) by reflexivity.
  unfold rules, ordering, domain, span.
  rewrite D1, D2, D3, D4, D5, D6, D7, D8.
  rewrite (lt_not_ge _ _ Hn H0), Hord1, (lt_not_ge _ _ H1 H), Hord2.
  rewrite (lt_not_ge _ _ FX N001) in Hspan1. apply negb_false_iff in Hspan1.
  rewrite (lt_not_ge _ _ FY N001) in Hspan2. apply negb_false_iff in Hspan2.
  rewrite Hspan1, Hspan2. reflexivity.
Qed.


Lemma V2_rules_tests_pass (minX minY maxX maxY : number) :
  rules minX minY maxX maxY = true ->
  isNaN minX || isNaN minY || isNaN maxX || isNaN maxY = false
  /\ V2.longitudeOutOfDomain minX maxX = false
  /\ V2.latitudeOutOfDomain minY maxY = false
  /\ ge minX maxX || ge minY maxY = false
  /\ lt (maxX - minX)%float 0.001%float || lt (maxY - minY)%float 0.001%float = false.
Proof.
  unfold rules, V2.longitudeOutOfDomain, V2.latitudeOutOfDomain.
  intros H.
  apply andb_true_iff in H as [H Hspan].
  apply andb_true_iff in H as [Hord Hdom].
  unfold domain in Hdom.
  apply andb_true_iff in Hdom as [Hdom D8].
  apply andb_true_iff in Hdom as [Hdom D7].
  apply andb_true_iff in Hdom as [Hdom D6].
  apply andb_true_iff in Hdom as [Hdom D5].
  apply andb_true_iff in Hdom as [Hdom D4].
  apply andb_true_iff in Hdom as [Hdom D3].
  apply andb_true_iff in Hdom as [D1 D2].
  apply andb_true_iff in Hord as [Hx Hy].
  apply andb_true_iff in Hspan as [Sx Sy].
  destruct (le_true_numbers _ _ D1) as [M180 NminX].
  destruct (le_true_numbers _ _ D4) as [NmaxX N180].
  destruct (le_true_numbers _ _ D5) as [M90 NminY].
  destruct (le_true_numbers _ _ D8) as [NmaxY N90].
  destruct (le_true_numbers _ _ Sx) as [N001 NspanX].
  destruct (le_true_numbers _ _ Sy) as [_ NspanY].
  repeat split.
  - rewrite NminX, NminY, NmaxX, NmaxY. reflexivity.
  - rewrite (lt_not_ge _ _ NminX M180), (gt_not_le _ _ NminX N180),
      (lt_not_ge _ _ NmaxX M180), (gt_not_le _ _ NmaxX N180).
    unfold ge, le in *. rewrite D1, D2, D3, D4. reflexivity.
  - rewrite (lt_not_ge _ _ NminY M90), (gt_not_le _ _ NminY N90),
      (lt_not_ge _ _ NmaxY M90), (gt_not_le _ _ NmaxY N90).
    unfold ge, le in *. rewrite D5, D6, D7, D8. reflexivity.
  - rewrite (lt_not_ge _ _ NminX NmaxX) in Hx. apply negb_true_iff in Hx.
    rewrite (lt_not_ge _ _ NminY NmaxY) in Hy. apply negb_true_iff in Hy.
    rewrite Hx, Hy. reflexivity.
  - rewrite (lt_not_ge _ _ NspanX N001), (lt_not_ge _ _ NspanY N001).
    rewrite Sx, Sy. reflexivity.
Qed.

(** Annotated variant: a failing rule leaves the whole state as it was and
    shows an error. *)
Lemma V2_confirmRange_rejects (w : World) :
  rulesOf parseFloat (rangeForm w) = false ->
  snd (V2.confirmRange parseFloat fromLonLat formValid w) = w
  /\ (formValid (rangeForm w) = true ->
      exists m, fst (V2.confirmRange parseFloat fromLonLat formValid w) = Some m
                /\ isError m = true).
Proof.
  unfold rulesOf, scalars, V2.confirmRange. intros H.
  destruct (formValid (rangeForm w)); [|split; [reflexivity|discriminate]].
  destruct (isNaN _ || isNaN _ || isNaN _ || isNaN _) eqn:E1;
    [split; [reflexivity|intros _; eexists; split; reflexivity]|].
  destruct (V2.longitudeOutOfDomain _ _) eqn:E2;
    [split; [reflexivity|intros _; eexists; split; reflexivity]|].
  destruct (V2.latitudeOutOfDomain _ _) eqn:E3;
    [split; [reflexivity|intros _; eexists; split; reflexivity]|].
  destruct (ge _ _ || ge _ _) eqn:E4;
    [split; [reflexivity|intros _; eexists; split; reflexivity]|].
  destruct (lt _ _ || lt _ _) eqn:E5;
    [split; [reflexivity|intros _; eexists; split; reflexivity]|].
  rewrite (V2_tests_pass_rules _ _ _ _ E1 E2 E3 E4 E5) in H. discriminate H.
Qed.

(** Annotated variant: when the form validates and every rule holds, the
    extent is installed. *)
Lemma V2_confirmRange_installs (w : World) :
  formValid (rangeForm w) = true ->
  rulesOf parseFloat (rangeForm w) = true ->
  exists extent,
    fst (V2.confirmRange parseFloat fromLonLat formValid w) = Some (RangeInstalled extent)
    /\ rangeExtent (snd (V2.confirmRange parseFloat fromLonLat formValid w)) = Some extent
    /\ (ol.minX extent, ol.minY extent, ol.maxX extent, ol.maxY extent)
       = scalars parseFloat (rangeForm w).
Proof.
  unfold rulesOf, scalars, V2.confirmRange. intros Hv H.
  rewrite Hv.
  destruct (V2_rules_tests_pass _ _ _ _ H) as (E1 & E2 & E3 & E4 & E5).
  rewrite E1, E2, E3, E4, E5.
  eexists. repeat split.
Qed.

(** First variant: the only test is [minX >= maxX || minY >= maxY]. *)
Lemma V1_confirmRange_rejects (w : World) :
  let '(minX, minY, maxX, maxY) := scalars parseFloat (rangeForm w) in
  ge minX maxX || ge minY maxY = true ->
  snd (V1.confirmRange parseFloat formValid w) = w
  /\ (formValid (rangeForm w) = true ->
      fst (V1.confirmRange parseFloat formValid w) = Some MinNotBelowMax).
Proof.
  unfold scalars, V1.confirmRange. intros H.
  destruct (formValid (rangeForm w)); [|split; [reflexivity|discriminate]].
  rewrite H. split; reflexivity.
Qed.

Lemma V1_confirmRange_installs (w : World) :
  let '(minX, minY, maxX, maxY) := scalars parseFloat (rangeForm w) in
  formValid (rangeForm w) = true ->
  ge minX maxX || ge minY maxY = false ->
  rangeExtent (snd (V1.confirmRange parseFloat formValid w))
  = Some {| ol.minX := minX; ol.minY := minY; ol.maxX := maxX; ol.maxY := maxY |}.
Proof.
  unfold scalars, V1.confirmRange. intros Hv H.
  rewrite Hv, H. reflexivity.
Qed.

End RangeFacts.

(* ------------------------------------------------------------------ *)
(** ** The admission check of the [drawend] handler *)
(* ------------------------------------------------------------------ *)

Section AdmissionFacts.

Import RangeConstraint.

Variable toLonLat : coord -> coord.







Lemma removeFeature_absent (f g : ol.Feature) (source : ol.VectorSource) :
  In g (ol.removeFeature f source) -> ol.ol_uid g <> ol.ol_uid f /\ In g source.
Proof.
  unfold ol.removeFeature. intros H. apply filter_In in H as [Hin Hne].
  split; [|exact Hin].
  apply negb_true_iff, Nat.eqb_neq in Hne. exact Hne.
Qed.

End AdmissionFacts.

(* ------------------------------------------------------------------ *)
(** ** What [checkTopology] leaves of the state *)
(* ------------------------------------------------------------------ *)

Section FrameFacts.

Variable T : turf.lib.
Variable toLonLat : coord -> coord.

Lemma highlights_are_clones (features : list ol.Feature) (indices : list nat) (g : ol.Geometry) :
  In g (highlights features indices) ->
  exists f, In f features /\ g = ol.getGeometry f.
Proof.
  unfold highlights. intros H. apply in_flat_map in H as (i & _ & Hi).
  destruct (nth_error features i) as [f|] eqn:E; [|contradiction].
  destruct Hi as [<-|[]]. exists f. split; [|reflexivity].
  eapply nth_error_In, E.
Qed.

(** Only [highlightSource] is written, and with one list per drawing
    source. *)
Lemma V1_checkTopology_writes_highlight (w : World) :
  exists h, snd (V1.checkTopology T toLonLat w) = set_highlightSource w h
            /\ (drawSource w = [] -> h = highlightSource w)
            /\ (drawSource w <> [] ->
                forall g, In g h -> exists f, In f (drawSource w) /\ g = ol.getGeometry f).
Proof.
  unfold V1.checkTopology, ol.getFeatures, ol.clear.
  destruct (drawSource w) as [|f fs] eqn:E; simpl.
  - exists (highlightSource w). destruct w; simpl in *. subst. repeat split. congruence.
  - destruct (bind _ _ initial) as [[u|e] s]; simpl.
    + eexists. repeat split; try congruence.
      intros _ g Hg. exact (highlights_are_clones (f :: fs) _ g Hg).
    + exists []. repeat split; try congruence. intros _ g [].
Qed.

Lemma V2_checkTopology_writes_highlight (w : World) :
  exists h, snd (V2.checkTopology T toLonLat w) = set_highlightSource w h
            /\ (drawSource w = [] -> h = highlightSource w)
            /\ (drawSource w <> [] ->
                forall g, In g h -> exists f, In f (drawSource w) /\ g = ol.getGeometry f).
Proof.
  unfold V2.checkTopology, ol.getFeatures, ol.clear.
  destruct (drawSource w) as [|f fs] eqn:E; simpl.
  - exists (highlightSource w). destruct w; simpl in *. subst. repeat split. congruence.
  - destruct (bind _ _ initial) as [[u|e] s]; simpl.
    + eexists. repeat split; try congruence.
      intros _ g Hg. exact (highlights_are_clones (f :: fs) _ g Hg).
    + exists []. repeat split; try congruence. intros _ g [].
Qed.

(** A second run on the state the first one left shows the same and leaves
    the same. *)
Lemma V1_checkTopology_again (w : World) :
  V1.checkTopology T toLonLat (snd (V1.checkTopology T toLonLat w))
  = V1.checkTopology T toLonLat w.
Proof.
  unfold V1.checkTopology, ol.getFeatures, ol.clear.
  destruct (drawSource w) as [|f fs] eqn:E; simpl.
  - rewrite E. reflexivity.
  - destruct (bind _ _ initial) as [[u|e] s] eqn:R; simpl; rewrite E; simpl;
      rewrite R; reflexivity.
Qed.

Lemma V2_checkTopology_again (w : World) :
  V2.checkTopology T toLonLat (snd (V2.checkTopology T toLonLat w))
  = V2.checkTopology T toLonLat w.
Proof.
  unfold V2.checkTopology, ol.getFeatures, ol.clear.
  destruct (drawSource w) as [|f fs] eqn:E; simpl.
  - rewrite E. reflexivity.
  - destruct (bind _ _ initial) as [[u|e] s] eqn:R; simpl; rewrite E; simpl;
      rewrite R; reflexivity.
Qed.

End FrameFacts.

(** ** C1 *)

(** C1.  In both variants, [checkTopology] run a second time on the state
    the first run left, the feature collection untouched in between, shows
    the same notification (so the same entries in the same order, or the
    same escaped exception) and leaves the same state, the same highlighted
    geometries in particular. *)
Theorem C1_checkTopology_repeatable
    (T : turf.lib) (toLonLat : coord -> coord) (w : World) :
  (let first := V1.checkTopology T toLonLat w in
   let second := V1.checkTopology T toLonLat (snd first) in
   fst second = fst first
   /\ highlightSource (snd second) = highlightSource (snd first)
   /\ snd second = snd first)
  /\ (let first := V2.checkTopology T toLonLat w in
      let second := V2.checkTopology T toLonLat (snd first) in
      fst second = fst first
      /\ highlightSource (snd second) = highlightSource (snd first)
      /\ snd second = snd first).
Proof.
  split; cbv zeta.
  - rewrite V1_checkTopology_again. repeat split.
  - rewrite V2_checkTopology_again. repeat split.
Qed.

(** ** C2 *)

(** C2, as stated, fails on the first variant of [confirmRange]
    (lines 657-685): the bounds (200, 0, 300, 10) break the WGS84 domain
    rule, and yet they are installed over the absent constraint. *)
Lemma C2_first_variant_installs_out_of_domain :
  let w := Sample.withForm Sample.loaded (Sample.form "200" "0" "300" "10") in
  RangeConstraint.rulesOf Sample.parseFloat (rangeForm w) = false
  /\ rangeExtent w = None
  /\ rangeExtent (snd (V1.confirmRange Sample.parseFloat (fun _ => true) w))
     = Some {| ol.minX := 200%float; ol.minY := 0%float;
               ol.maxX := 300%float; ol.maxY := 10%float |}.
Proof. vm_compute. repeat split. Qed.

(** C2, amended.  In the annotated variant (lines 1572-1678), whenever one
    of the rules (ordering, WGS84 domain, 0.001-degree span) fails on the
    four parsed scalars, [confirmRange] leaves the whole state unchanged,
    so the installed [rangeExtent] or its absence too, and shows an error
    once the form itself validated; when all rules hold and the form
    validated, it installs exactly these bounds.  The first variant
    (lines 657-685) tests [minX >= maxX || minY >= maxY] only: it rejects
    with an error and no change when the test holds, and installs the
    bounds otherwise. *)
Theorem C2_confirmRange_atomic
    (parseFloat : string -> number) (fromLonLat : coord -> coord)
    (formValid : RangeForm -> bool) (w : World) :
  (RangeConstraint.rulesOf parseFloat (rangeForm w) = false ->
   snd (V2.confirmRange parseFloat fromLonLat formValid w) = w
   /\ (formValid (rangeForm w) = true ->
       exists m, fst (V2.confirmRange parseFloat fromLonLat formValid w) = Some m
                 /\ isError m = true))
  /\ (formValid (rangeForm w) = true ->
      RangeConstraint.rulesOf parseFloat (rangeForm w) = true ->
      exists extent,
        fst (V2.confirmRange parseFloat fromLonLat formValid w)
        = Some (RangeInstalled extent)
        /\ rangeExtent (snd (V2.confirmRange parseFloat fromLonLat formValid w))
           = Some extent
        /\ (ol.minX extent, ol.minY extent, ol.maxX extent, ol.maxY extent)
           = RangeConstraint.scalars parseFloat (rangeForm w))
  /\ (let '(minX, minY, maxX, maxY) := RangeConstraint.scalars parseFloat (rangeForm w) in
      (ge minX maxX || ge minY maxY = true ->
       snd (V1.confirmRange parseFloat formValid w) = w
       /\ (formValid (rangeForm w) = true ->
           fst (V1.confirmRange parseFloat formValid w) = Some MinNotBelowMax))
      /\ (formValid (rangeForm w) = true ->
          ge minX maxX || ge minY maxY = false ->
          rangeExtent (snd (V1.confirmRange parseFloat formValid w))
          = Some {| ol.minX := minX; ol.minY := minY;
                    ol.maxX := maxX; ol.maxY := maxY |})).
Proof.
  split; [apply V2_confirmRange_rejects|].
  split; [apply V2_confirmRange_installs|].
  pose proof (V1_confirmRange_rejects parseFloat formValid w) as R.
  pose proof (V1_confirmRange_installs parseFloat formValid w) as I.
  destruct (RangeConstraint.scalars parseFloat (rangeForm w)) as [[[minX minY] maxX] maxY].
  split; assumption.
Qed.

(** The inverted bounds of [set(10, 0, 0, 10)] are rejected by the annotated
    variant, over an installed constraint that stays as it was. *)
Lemma C2_confirmRange_atomic_witness :
  let w := Sample.withForm (Sample.withExtent Sample.loaded Sample.extent_0_0_10_10)
                           (Sample.form "10" "0" "0" "10") in
  snd (V2.confirmRange Sample.parseFloat Sample.geographic (fun _ => true) w) = w
  /\ (exists m, fst (V2.confirmRange Sample.parseFloat Sample.geographic (fun _ => true) w)
                = Some m /\ isError m = true).
Proof.
  intros w.
  destruct (proj1 (C2_confirmRange_atomic Sample.parseFloat Sample.geographic
                     (fun _ => true) w)) as [U E].
  - vm_compute. reflexivity.
  - split; [exact U|apply E; reflexivity].
Defined.

(** ** C3 *)



(** ** C4 *)

(** C4, on the code.  The conversion of the features (lines 225-244) stands
    outside every [try]: when [turf.polygon] rejects the ring of a drawn
    polygon, as it does for a ring of three positions that is not closed,
    the exception escapes [checkTopology] in both variants.  Nothing is
    reported or highlighted, no "not closed" entry either, and the
    features that follow are never checked. *)
Theorem C4_rejected_ring_escapes
    (T : turf.lib) (toLonLat : coord -> coord) (w : World)
    (feature : ol.Feature) (rest : list ol.Feature)
    (ring : list coord) (rings : list (list coord)) (e : string) :
  drawSource w = feature :: rest ->
  ol.getGeometry feature = ol.Polygon (ring :: rings) ->
  turf.polygon_throws T [map toLonLat ring] = Some e ->
  V1.checkTopology T toLonLat w = (Throw e, set_highlightSource w [])
  /\ V2.checkTopology T toLonLat w = (Throw e, set_highlightSource w []).
Proof.
  intros Hw Hg Hp.
  assert (Hne : drawSource w <> []) by congruence.
  rewrite (V1_checkTopology_run T toLonLat w Hne), (V2_checkTopology_run T toLonLat w Hne).
  rewrite Hw, (turfFeatures_polygon_rejected T toLonLat feature rest ring rings e Hg Hp).
  split; reflexivity.
Qed.

(** The collection holding the single ring [(0,0), (0,1), (1,0)]. *)
Lemma C4_rejected_ring_escapes_witness :
  let w := Sample.drawn [ol.Polygon [Sample.unclosedRing]] in
  let e := "Each LinearRing of a Polygon must have 4 or more Positions."%string in
  V1.checkTopology Sample.turf Sample.geographic w = (Throw e, set_highlightSource w [])
  /\ V2.checkTopology Sample.turf Sample.geographic w = (Throw e, set_highlightSource w []).
Proof.
  intros w e.
  apply (C4_rejected_ring_escapes Sample.turf Sample.geographic w
           {| ol.ol_uid := 1; ol.getGeometry := ol.Polygon [Sample.unclosedRing] |}
           [] Sample.unclosedRing []); reflexivity.
Defined.

(** ** C5 *)

(** C5, as stated, fails on the duplicate points of the specification:
    the points at (10.0, 20.0) and (10.0000001, 20.0000001) yield two
    entries, one per ordering, not one. *)
Lemma C5_duplicate_points_reported_twice :
  exists d,
    fst (V1.checkTopology Sample.turf Sample.geographic
           (Sample.drawn [Sample.point_a; Sample.point_b]))
    = Ok (TopologyErrors [PointsTooClose 1 2 d; PointsTooClose 2 1 d])
    /\ lt d 0.1%float = true
    /\ count (isCoincidence 1 2) [PointsTooClose 1 2 d; PointsTooClose 2 1 d] <> 1.
Proof.
  eexists. split; [vm_compute; reflexivity|]. split; [reflexivity|].
  vm_compute. discriminate.
Qed.

(** C5, amended.  When [checkTopology] (first variant) completes, the
    entries "points too close" naming two Point features of the collection
    are one for each ordering of the pair that [turf.distance] puts below
    0.1 m: two when both orderings are below 0.1 m, as for a symmetric
    distance, and none when neither is. *)
Theorem C5_one_entry_per_ordering
    (T : turf.lib) (toLonLat : coord -> coord) (w : World) (n : Notification)
    (tfs : list TurfFeature) (f1 f2 : TurfFeature) (d12 d21 : number) :
  fst (V1.checkTopology T toLonLat w) = Ok n ->
  turfFeatures T toLonLat (drawSource w) = Ok tfs ->
  In (f1, f2) (pairs tfs) ->
  type f1 = TPoint -> type f2 = TPoint ->
  turf.distance T (geometry f1) (geometry f2) = Ok d12 ->
  turf.distance T (geometry f2) (geometry f1) = Ok d21 ->
  count (isCoincidence (index f1) (index f2)) (reported n)
  = (if lt d12 0.1%float then 1 else 0) + (if lt d21 0.1%float then 1 else 0)
  /\ (lt d12 0.1%float = true -> lt d21 0.1%float = true ->
      count (isCoincidence (index f1) (index f2)) (reported n) = 2)
  /\ (lt d12 0.1%float = false -> lt d21 0.1%float = false ->
      count (isCoincidence (index f1) (index f2)) (reported n) = 0).
Proof.
  intros Hn Ht Hin Ht1 Ht2 Hd12 Hd21.
  assert (Hne : drawSource w <> []).
  { intros E. rewrite E, turfFeatures_nil in Ht. inversion Ht; subst. destruct Hin. }
  destruct (V1_checkTopology_completes T toLonLat w n Hne Hn) as (tfs' & Ht' & Hv & -> & _).
  rewrite Ht in Ht'. inversion Ht'; subst tfs'.
  destruct (turfFeatures_wellIndexed T toLonLat _ _ Ht) as [W _].
  rewrite reported_notification.
  rewrite (V1_coincidence_count T tfs W f1 f2 d12 d21 Hv Hin Ht1 Ht2 Hd12 Hd21).
  split; [reflexivity|]. split; intros -> ->; reflexivity.
Qed.

(** The duplicate points of the specification, and the second point moved
    10 m away. *)
Lemma C5_one_entry_per_ordering_witness :
  (exists n, fst (V1.checkTopology Sample.turf Sample.geographic
                    (Sample.drawn [Sample.point_a; Sample.point_b])) = Ok n
             /\ count (isCoincidence 1 2) (reported n) = 2)
  /\ (exists n, fst (V1.checkTopology Sample.turf Sample.geographic
                       (Sample.drawn [Sample.point_a; Sample.point_b_moved])) = Ok n
                /\ count (isCoincidence 1 2) (reported n) = 0).
Proof.
  split; eexists; (split; [vm_compute; reflexivity|]).
  - refine (proj1 (proj2
      (C5_one_entry_per_ordering Sample.turf Sample.geographic
         (Sample.drawn [Sample.point_a; Sample.point_b]) _
         [ {| geometry := turf.Point (Some (10.0, 20.0)%float);
              index := 1; originalIndex := 0 |};
           {| geometry := turf.Point (Some (10.0000001, 20.0000001)%float);
              index := 2; originalIndex := 1 |} ]
         {| geometry := turf.Point (Some (10.0, 20.0)%float);
            index := 1; originalIndex := 0 |}
         {| geometry := turf.Point (Some (10.0000001, 20.0000001)%float);
            index := 2; originalIndex := 1 |}
         _ _ _ _ _ _ _ _ _)) _ _);
      try (vm_compute; reflexivity); try (left; reflexivity).
  - refine (proj2 (proj2
      (C5_one_entry_per_ordering Sample.turf Sample.geographic
         (Sample.drawn [Sample.point_a; Sample.point_b_moved]) _
         [ {| geometry := turf.Point (Some (10.0, 20.0)%float);
              index := 1; originalIndex := 0 |};
           {| geometry := turf.Point (Some (10.0000001, 20.00009)%float);
              index := 2; originalIndex := 1 |} ]
         {| geometry := turf.Point (Some (10.0, 20.0)%float);
            index := 1; originalIndex := 0 |}
         {| geometry := turf.Point (Some (10.0000001, 20.00009)%float);
            index := 2; originalIndex := 1 |}
         _ _ _ _ _ _ _ _ _)) _ _);
      try (vm_compute; reflexivity); try (left; reflexivity).
Defined.

(** ** C6 *)

(** C6.  For two LineString features of a collection on which
    [checkTopology] (first variant) completes, take the first and the last
    vertex of each line and the four distances that [turf.distance]
    returns between a point at an end of the one and a point at an end of
    the other.  When [booleanCrosses] holds, the crossing entry is
    reported.  When none of the four distances is below the 0.1 m
    coincidence threshold and the least of them is below 1 m, exactly one
    "potential dangling endpoint" entry is reported for the pair, and it
    carries that least distance (whether or not the lines cross, so when
    they do not cross in particular).  When exactly one of the four
    distances is below 0.1 m, the "single endpoint connection" entry is
    reported. *)
Theorem C6_lines_crossing_and_dangling
    (T : turf.lib) (toLonLat : coord -> coord) (w : World) (n : Notification)
    (tfs : list TurfFeature) (f1 f2 : TurfFeature)
    (coords1 coords2 : list coord) (a1 b1 a2 b2 : coord)
    (d_aa d_ab d_ba d_bb : number) :
  fst (V1.checkTopology T toLonLat w) = Ok n ->
  turfFeatures T toLonLat (drawSource w) = Ok tfs ->
  In (f1, f2) (pairs tfs) ->
  geometry f1 = turf.LineString coords1 -> geometry f2 = turf.LineString coords2 ->
  hd_error coords1 = Some a1 -> last coords1 a1 = b1 ->
  hd_error coords2 = Some a2 -> last coords2 a2 = b2 ->
  turf.distance T (turf.Point (Some a1)) (turf.Point (Some a2)) = Ok d_aa ->
  turf.distance T (turf.Point (Some a1)) (turf.Point (Some b2)) = Ok d_ab ->
  turf.distance T (turf.Point (Some b1)) (turf.Point (Some a2)) = Ok d_ba ->
  turf.distance T (turf.Point (Some b1)) (turf.Point (Some b2)) = Ok d_bb ->
  (turf.booleanCrosses T (geometry f1) (geometry f2) = Ok true ->
   In (LinesCross (index f1) (index f2)) (reported n))
  /\ (forall m,
        (forall d, In d [d_aa; d_ab; d_ba; d_bb] -> lt d 0.1%float = false) ->
        In m [d_aa; d_ab; d_ba; d_bb] ->
        (forall d, In d [d_aa; d_ab; d_ba; d_bb] -> le m d = true) ->
        lt m 1.0%float = true ->
        count (isDangling (index f1) (index f2)) (reported n) = 1
        /\ In (DanglingEndpoint (index f1) (index f2) m) (reported n))
  /\ (List.length (filter (fun d => lt d 0.1%float) [d_aa; d_ab; d_ba; d_bb]) = 1 ->
      In (SingleEndpointConnection (index f1) (index f2)) (reported n)).
Proof.
  intros Hn Ht Hin G1 G2 A1 B1 A2 B2 Daa Dab Dba Dbb. subst b1 b2.
  assert (H1 : type f1 = TLineString) by (unfold type; rewrite G1; reflexivity).
  assert (H2 : type f2 = TLineString) by (unfold type; rewrite G2; reflexivity).
  assert (Hne : drawSource w <> []).
  { intros E. rewrite E, turfFeatures_nil in Ht. inversion Ht; subst. destruct Hin. }
  destruct (V1_checkTopology_completes T toLonLat w n Hne Hn) as (tfs' & Ht' & Hv & -> & _).
  rewrite Ht in Ht'. inversion Ht'; subst tfs'.
  destruct (turfFeatures_wellIndexed T toLonLat _ _ Ht) as [W _].
  rewrite reported_notification.
  destruct (V1_validate_completes T tfs Hv) as (_ & Fp & _).
  rewrite Forall_forall in Fp. pose proof (Fp (f1, f2) Hin) as Ho. simpl in Ho.
  pose proof (V1_lines_entries T f1 f2 H1 H2 Ho) as E.
  assert (Hd : outcome (V1.danglingCheck T f1 f2) = Ok tt).
  { destruct (V1_pairCheck_run T f1 f2) as [Eo _]. rewrite Eo in Ho.
    unfold V1.typedChecks in Ho. rewrite H1, H2 in Ho. exact Ho. }
  rewrite (V1_endpointDistances_lines T f1 f2 coords1 coords2 a1 a2 d_aa d_ab d_ba d_bb
             Hd G1 G2 A1 A2 Daa Dab Dba Dbb) in E.
  change [Ok d_aa; Ok d_ab; Ok d_ba; Ok d_bb]
    with (map (@Ok number) [d_aa; d_ab; d_ba; d_bb]) in E.
  rewrite V1_coinciding_numbers in E.
  split; [|split].
  - intros Hc. apply (V1_entries_of_pair T tfs f1 f2 _ Hv Hin).
    rewrite E, Hc. apply in_or_app. right. left. reflexivity.
  - intros m Hfar Hm Hleast Hlt.
    rewrite (filter_none _ _ Hfar), (V1_minimumDistance_least _ m Hfar Hm Hleast), Hlt in E.
    simpl in E. split.
    + rewrite (V1_count_located T tfs W (isDangling (index f1) (index f2)) f1 f2
                 (isDangling_located _ _) Hv Hin).
      rewrite E, !count_app.
      destruct (V1_overlap_cross_no_dangling T f1 f2 (index f1) (index f2)) as [C1 _].
      rewrite C1.
      assert (C2 : count (isDangling (index f1) (index f2))
                     match turf.booleanCrosses T (geometry f1) (geometry f2) with
                     | Ok true => [LinesCross (index f1) (index f2)]
                     | _ => []
                     end = 0)
        by (destruct (turf.booleanCrosses T _ _) as [[|]|]; reflexivity).
      rewrite C2. unfold count. simpl. rewrite !Nat.eqb_refl. reflexivity.
    + apply (V1_entries_of_pair T tfs f1 f2 _ Hv Hin).
      rewrite E. apply in_or_app. right. apply in_or_app. right.
      left. reflexivity.
  - intros Hone. apply (V1_entries_of_pair T tfs f1 f2 _ Hv Hin).
    rewrite E, Hone. apply in_or_app. right. apply in_or_app. right.
    left. reflexivity.
Qed.

(** Two lines that end half a metre from each other, the other three
    distances being of kilometres: one dangling-end entry with the distance
    of the two last vertices.  And two lines of which the second ends where
    the first begins: the single-endpoint entry. *)
Lemma C6_lines_crossing_and_dangling_witness :
  let d := 0.50037750002056125%float in
  (exists n,
     fst (V1.checkTopology Sample.turf Sample.geographic
            (Sample.drawn [ol.LineString [(5, 6); (5, 5)]%float;
                           ol.LineString [(6, 5); (5.0000045, 5)]%float])) = Ok n
     /\ lt 0.1%float d = true /\ lt d 1.0%float = true
     /\ count (isDangling 1 2) (reported n) = 1
     /\ In (DanglingEndpoint 1 2 d) (reported n))
  /\ (exists n,
        fst (V1.checkTopology Sample.turf Sample.geographic
               (Sample.drawn [ol.LineString [(5, 5); (5, 6)]%float;
                              ol.LineString [(7, 7); (5, 5)]%float])) = Ok n
        /\ In (SingleEndpointConnection 1 2) (reported n)).
Proof.
  intros d. split.
  - eexists. split; [vm_compute; reflexivity|].
    split; [reflexivity|]. split; [reflexivity|].
    refine (proj1 (proj2
      (C6_lines_crossing_and_dangling Sample.turf Sample.geographic
         (Sample.drawn [ol.LineString [(5, 6); (5, 5)]%float;
                        ol.LineString [(6, 5); (5.0000045, 5)]%float]) _
         [ {| geometry := turf.LineString [(5, 6); (5, 5)]%float;
              index := 1; originalIndex := 0 |};
           {| geometry := turf.LineString [(6, 5); (5.0000045, 5)]%float;
              index := 2; originalIndex := 1 |} ]
         {| geometry := turf.LineString [(5, 6); (5, 5)]%float;
            index := 1; originalIndex := 0 |}
         {| geometry := turf.LineString [(6, 5); (5.0000045, 5)]%float;
            index := 2; originalIndex := 1 |}
         _ _ (5, 6)%float (5, 5)%float (6, 5)%float (5.0000045, 5)%float
         _ _ _ _
         _ eq_refl (or_introl eq_refl) eq_refl eq_refl eq_refl eq_refl eq_refl eq_refl
         eq_refl eq_refl eq_refl eq_refl)) d _ _ _ _).
    + vm_compute; reflexivity.
    + intros x [<-|[<-|[<-|[<-|[]]]]]; vm_compute; reflexivity.
    + right. right. right. left. vm_compute. reflexivity.
    + intros x [<-|[<-|[<-|[<-|[]]]]]; vm_compute; reflexivity.
    + reflexivity.
  - eexists. split; [vm_compute; reflexivity|].
    refine (proj2 (proj2
      (C6_lines_crossing_and_dangling Sample.turf Sample.geographic
         (Sample.drawn [ol.LineString [(5, 5); (5, 6)]%float;
                        ol.LineString [(7, 7); (5, 5)]%float]) _
         [ {| geometry := turf.LineString [(5, 5); (5, 6)]%float;
              index := 1; originalIndex := 0 |};
           {| geometry := turf.LineString [(7, 7); (5, 5)]%float;
              index := 2; originalIndex := 1 |} ]
         {| geometry := turf.LineString [(5, 5); (5, 6)]%float;
            index := 1; originalIndex := 0 |}
         {| geometry := turf.LineString [(7, 7); (5, 5)]%float;
            index := 2; originalIndex := 1 |}
         _ _ (5, 5)%float (5, 6)%float (7, 7)%float (5, 5)%float
         _ _ _ _
         _ eq_refl (or_introl eq_refl) eq_refl eq_refl eq_refl eq_refl eq_refl eq_refl
         eq_refl eq_refl eq_refl eq_refl)) _); vm_compute; reflexivity.
Defined.

(** ** C7 *)

(** C7, on the code.  For two polygon features of a collection on which
    [checkTopology] (first variant) completes, the gap area is
    [area(union) - area(A) - area(B)], defined when [union] returns a
    region and the three areas are returned.  Line 457 compares it with
    0.0001, not with the square metre its comment and the claim name: a
    gap entry for the pair is reported exactly when the gap area is defined
    and strictly greater than 0.0001, it carries that value, and there is
    at most one.  The areas are square metres, so every gap area between
    0.0001 and 1 is reported. *)
Theorem C7_gap_reported_above_threshold
    (T : turf.lib) (toLonLat : coord -> coord) (w : World) (n : Notification)
    (tfs : list TurfFeature) (f1 f2 : TurfFeature) :
  fst (V1.checkTopology T toLonLat w) = Ok n ->
  turfFeatures T toLonLat (drawSource w) = Ok tfs ->
  In (f1, f2) (pairs tfs) ->
  type f1 = TPolygon -> type f2 = TPolygon ->
  (forall g, In (GapBetweenPolygons (index f1) (index f2) g) (reported n)
             <-> V1.gapArea T f1 f2 = Some g /\ gt g 0.0001%float = true)
  /\ count (isGap (index f1) (index f2)) (reported n)
     = match V1.gapArea T f1 f2 with
       | Some g => if gt g 0.0001%float then 1 else 0
       | None => 0
       end.
Proof.
  intros Hn Ht Hin H1 H2.
  assert (Hne : drawSource w <> []).
  { intros E. rewrite E, turfFeatures_nil in Ht. inversion Ht; subst. destruct Hin. }
  destruct (V1_checkTopology_completes T toLonLat w n Hne Hn) as (tfs' & Ht' & Hv & -> & _).
  rewrite Ht in Ht'. inversion Ht'; subst tfs'.
  destruct (turfFeatures_wellIndexed T toLonLat _ _ Ht) as [W _].
  rewrite reported_notification.
  destruct (V1_validate_completes T tfs Hv) as (_ & Fp & _).
  rewrite Forall_forall in Fp. pose proof (Fp (f1, f2) Hin) as Ho. simpl in Ho.
  pose proof (V1_polygons_entries T f1 f2 H1 H2 Ho) as E.
  split.
  - intros g.
    rewrite (V1_entry_located T tfs W f1 f2 (GapBetweenPolygons (index f1) (index f2) g));
      try reflexivity; try (intros; discriminate); try assumption.
    rewrite E, !app_assoc, in_app_iff, <- !app_assoc.
    rewrite V1_gapCheck_entries. split.
    + intros [H|H].
      * exfalso. eapply (V1_gap_only_from_gapCheck T f1 f2); [eauto|exact H].
      * destruct (V1.gapArea T f1 f2) as [g'|]; [|destruct H].
        destruct (gt g' 0.0001%float) eqn:Eg; [|destruct H].
        destruct H as [H|[]]. inversion H; subst. auto.
    + intros [Eg Hg]. right. rewrite Eg, Hg. left. reflexivity.
  - rewrite (V1_count_located T tfs W (isGap (index f1) (index f2)) f1 f2); auto.
    + rewrite E, !app_assoc, count_app, <- !app_assoc.
      rewrite (count_none (isGap (index f1) (index f2))).
      * rewrite V1_gapCheck_entries.
        destruct (V1.gapArea T f1 f2) as [g|]; [|reflexivity].
        destruct (gt g 0.0001%float); [|reflexivity].
        unfold count. simpl. rewrite !Nat.eqb_refl. reflexivity.
      * intros m Hm. destruct (isGap (index f1) (index f2) m) eqn:Em; [|reflexivity].
        exfalso. eapply (V1_gap_only_from_gapCheck T f1 f2 m); [|exact Hm].
        destruct m; try discriminate. eauto.
    + intros m Hm. destruct m; try discriminate. simpl in Hm.
      apply andb_true_iff in Hm as [E1 E2]. apply Nat.eqb_eq in E1, E2. subst.
      repeat split; intros; discriminate.
Qed.

(** Two adjacent ten-degree squares, each measured at 1236432802500
    square metres, whose union is measured one unit in the last place
    above the sum, as rounding in the area computation can leave it: the
    gap area is about 0.0005 square metres, far below one, and one gap
    entry is reported. *)
Lemma C7_gap_reported_above_threshold_witness :
  let T := Sample.turf_with_areas 2472865605000.00048828125%float 1236432802500%float in
  let square_1 := [[(0, 0); (0, 10); (10, 10); (10, 0); (0, 0)]%float] in
  let square_2 := [[(10, 0); (10, 10); (20, 10); (20, 0); (10, 0)]%float] in
  let w := Sample.drawn [ol.Polygon square_1; ol.Polygon square_2] in
  let g := (2472865605000.00048828125 - 1236432802500 - 1236432802500)%float in
  exists n,
    fst (V1.checkTopology T Sample.geographic w) = Ok n
    /\ g = 0.00048828125%float /\ lt g 1%float = true
    /\ In (GapBetweenPolygons 1 2 g) (reported n)
    /\ count (isGap 1 2) (reported n) = 1.
Proof.
  intros T square_1 square_2 w g. eexists. split; [vm_compute; reflexivity|].
  split; [vm_compute; reflexivity|]. split; [vm_compute; reflexivity|].
  pose proof (C7_gap_reported_above_threshold T Sample.geographic w _
    [ {| geometry := turf.Polygon square_1; index := 1; originalIndex := 0 |};
      {| geometry := turf.Polygon square_2; index := 2; originalIndex := 1 |} ]
    {| geometry := turf.Polygon square_1; index := 1; originalIndex := 0 |}
    {| geometry := turf.Polygon square_2; index := 2; originalIndex := 1 |}
    eq_refl eq_refl (or_introl eq_refl) eq_refl eq_refl) as [H1 H2].
  split.
  - apply (H1 g). split; vm_compute; reflexivity.
  - exact H2.
Defined.

(** ** C8 *)

(** C8, on the code.  [booleanIntersects] is called outside the [try] of
    lines 400-414: when it throws on some pair of polygons of the
    collection, the exception escapes the pair loops and [checkTopology]
    itself, so no pair after it is checked and nothing is reported. *)
Theorem C8_failing_predicate_escapes
    (T : turf.lib) (toLonLat : coord -> coord) (w : World)
    (tfs : list TurfFeature) (f1 f2 : TurfFeature) (e : string) :
  turfFeatures T toLonLat (drawSource w) = Ok tfs ->
  In (f1, f2) (pairs tfs) ->
  type f1 = TPolygon -> type f2 = TPolygon ->
  turf.booleanIntersects T (geometry f1) (geometry f2) = Throw e ->
  exists e', fst (V1.checkTopology T toLonLat w) = Throw e'.
Proof.
  intros Ht Hin H1 H2 He.
  assert (Hne : drawSource w <> []).
  { intros E. rewrite E, turfFeatures_nil in Ht. inversion Ht; subst. destruct Hin. }
  rewrite (V1_checkTopology_run T toLonLat w Hne), Ht.
  destruct (outcome (V1.validate T tfs)) as [[]|e'] eqn:Ev; [|exists e'; reflexivity].
  destruct (V1_validate_completes T tfs Ev) as (_ & F & _).
  rewrite Forall_forall in F. specialize (F (f1, f2) Hin). simpl in F.
  rewrite (V1_pairCheck_intersects_throws T f1 f2 e H1 H2 He) in F. discriminate F.
Qed.

(** Two squares, then two lines whose nearest endpoints are half a metre
    apart: with a [booleanIntersects] that throws, the dangling endpoint is
    never reported. *)
Lemma C8_failing_predicate_escapes_witness :
  let w := Sample.drawn [Sample.square_1; Sample.square_2; Sample.line_1; Sample.line_2] in
  (exists e', fst (V1.checkTopology Sample.turf_intersects_fails Sample.geographic w)
              = Throw e')
  /\ fst (V1.checkTopology Sample.turf Sample.geographic w)
     = Ok (TopologyErrors [DanglingEndpoint 3 4 0.50037750002056125%float]).
Proof.
  intros w. split; [|vm_compute; reflexivity].
  assert (Ht : exists tfs f1 f2 rest,
             turfFeatures Sample.turf_intersects_fails Sample.geographic (drawSource w)
             = Ok (f1 :: f2 :: rest)
             /\ tfs = f1 :: f2 :: rest
             /\ type f1 = TPolygon /\ type f2 = TPolygon).
  { vm_compute. do 4 eexists. repeat split. }
  destruct Ht as (tfs & f1 & f2 & rest & Ht & -> & H1 & H2).
  apply (C8_failing_predicate_escapes Sample.turf_intersects_fails Sample.geographic w
           (f1 :: f2 :: rest) f1 f2 "booleanIntersects failed" Ht).
  - left. reflexivity.
  - exact H1.
  - exact H2.
  - reflexivity.
Defined.

(** ** C9 *)

(** C9, as stated, fails: with a point, a small polygon and a second point
    on the first, the coincidence of the points is pushed by the callback
    of each point, so once before the polygon's own violation and once
    after it, the second time naming the later point first. *)
Lemma C9_point_entries_out_of_order :
  let w := Sample.drawn [Sample.point_a; Sample.speck; Sample.point_b] in
  exists n d,
    fst (V1.checkTopology Sample.turf Sample.geographic w) = Ok n
    /\ reported n = [PointsTooClose 1 3 d; PolygonAreaTooSmall 2; PointsTooClose 3 1 d]
    /\ ~ claimedOrder (reported n).
Proof.
  eexists. eexists. split; [vm_compute; reflexivity|].
  split; [reflexivity|].
  intros (selfChecks & pairwise & E & Hs & _ & Hp & _). simpl in E.
  destruct selfChecks as [|m rest]; simpl in E.
  - subst pairwise. inversion Hp as [|? ? _ Hp']; subst.
    inversion Hp' as [|? ? [H _] _]; subst. discriminate H.
  - inversion E; subst. inversion Hs as [|? ? H _]; subst. discriminate H.
Qed.

(** C9, amended.  When [checkTopology] (first variant) completes, the
    entries shown are, in this order: those of the callback of each
    feature, by ascending position (the self-check violations of a line or
    a polygon, and for a point its coincidences with every other point,
    named after the point itself); then those of each pair, in scan order
    with the earlier feature first in the scan (no coincidence of points
    among them); then the shared-boundary notes of the polygon group.  The
    highlight source then holds the geometry of every feature an entry
    marks: the feature of a callback entry, both features of a pair entry,
    none for a note. *)
Theorem C9_entries_in_pass_order
    (T : turf.lib) (toLonLat : coord -> coord) (w : World) (n : Notification)
    (tfs : list TurfFeature) :
  fst (V1.checkTopology T toLonLat w) = Ok n ->
  turfFeatures T toLonLat (drawSource w) = Ok tfs ->
  reported n
  = flat_map (featureEntries T tfs) (indexed tfs 0)
    ++ flat_map (V1.pairEntries T) (pairs tfs)
    ++ V1.groupEntries T tfs
  /\ map (fun fk => index (fst fk)) (indexed tfs 0) = seq 1 (List.length (drawSource w))
  /\ (forall f k, In (f, k) (indexed tfs 0) ->
        Forall (featureEntry f) (featureEntries T tfs (f, k)))
  /\ StronglySorted pairBefore
       (map (fun ff => (index (fst ff), index (snd ff))) (pairs tfs))
  /\ (forall f1 f2, In (f1, f2) (pairs tfs) ->
        index f1 < index f2 /\ Forall (pairEntry f1 f2) (V1.pairEntries T (f1, f2)))
  /\ Forall groupEntry (V1.groupEntries T tfs)
  /\ (forall m p feature,
        In m (reported n) -> In (S p) (flagged m) ->
        nth_error (drawSource w) p = Some feature ->
        In (ol.getGeometry feature)
           (highlightSource (snd (V1.checkTopology T toLonLat w)))).
Proof.
  intros Hn Ht.
  destruct (turfFeatures_wellIndexed T toLonLat _ _ Ht) as [W Hlen].
  assert (Hrest :
    map (fun fk => index (fst fk)) (indexed tfs 0) = seq 1 (List.length (drawSource w))
    /\ (forall f k, In (f, k) (indexed tfs 0) ->
          Forall (featureEntry f) (featureEntries T tfs (f, k)))
    /\ StronglySorted pairBefore
         (map (fun ff => (index (fst ff), index (snd ff))) (pairs tfs))
    /\ (forall f1 f2, In (f1, f2) (pairs tfs) ->
          index f1 < index f2 /\ Forall (pairEntry f1 f2) (V1.pairEntries T (f1, f2)))
    /\ Forall groupEntry (V1.groupEntries T tfs)).
  { split; [|split; [|split; [|split]]].
    - rewrite indexed_const_map, <- Hlen. apply wellIndexed_positions, W.
    - intros f k _. apply selfCheck_entries.
    - apply pairs_sorted. rewrite (wellIndexed_positions tfs W). apply seq_sorted.
    - intros f1 f2 H. split; [|apply V1_pairCheck_entries].
      destruct (wellIndexed_pairs tfs W f1 f2 H) as (p & q & Hpq & _ & _ & E1 & E2 & _).
      lia.
    - apply V1_polygonGroupCheck_entries. }
  destruct Hrest as (R1 & R2 & R3 & R4 & R5).
  destruct (drawSource w) as [|feature0 features] eqn:Ed.
  { unfold V1.checkTopology in Hn |- *. rewrite Ed in Hn |- *. simpl in Hn |- *.
    inversion Hn; subst n. rewrite turfFeatures_nil in Ht. inversion Ht; subst tfs.
    refine (conj eq_refl (conj R1 (conj R2 (conj R3 (conj R4 (conj R5 _)))))).
    intros m p feature []. }
  assert (Hne : drawSource w <> []) by (rewrite Ed; discriminate).
  rewrite <- Ed in *.
  destruct (V1_checkTopology_completes T toLonLat w n Hne Hn) as (tfs' & Ht' & Hv & -> & Hh).
  rewrite Ht in Ht'. inversion Ht'; subst tfs'.
  rewrite reported_notification, (V1_validate_entries T tfs Hv).
  refine (conj eq_refl (conj R1 (conj R2 (conj R3 (conj R4 (conj R5 _)))))).
  intros m p feature Hm Hf Hp. rewrite Hh. apply (highlights_In _ _ p); [|exact Hp].
  destruct (V1_validate_completes T tfs Hv) as (Fs & Fp & ->).
  rewrite !indices_extend, !indices_gather.
  rewrite !in_app_iff, !in_flat_map in Hm.
  destruct Hm as [([f k] & Hfk & Hm)|[([f1 f2] & Hff & Hm)|Hm]].
  - left. exists (written (selfCheck T tfs f k)). split.
    + apply in_map_iff. exists (f, k). auto.
    + pose proof (R2 f k Hfk) as Q. rewrite Forall_forall in Q.
      rewrite (flagged_featureEntry f m (Q m Hm)) in Hf. destruct Hf as [Hf|[]].
      destruct (wellIndexed_In tfs W f k Hfk) as [E1 E2].
      assert (p = originalIndex f) as -> by lia.
      rewrite Forall_forall in Fs.
      apply (selfCheck_highlights T tfs f k (Fs (f, k) Hfk)).
      intros E. rewrite E in Hm. destruct Hm.
  - right. left. exists (written (V1.pairCheck T f1 f2)). split.
    + apply in_map_iff. exists (f1, f2). auto.
    + destruct (R4 f1 f2 Hff) as [_ Q]. rewrite Forall_forall in Q.
      destruct (flagged_pairEntry f1 f2 m (S p) (Q m Hm) Hf) as [Hnote Hi].
      destruct (V1_pairCheck_flags T f1 f2 m Hm Hnote) as [H1 H2].
      destruct (wellIndexed_pairs tfs W f1 f2 Hff) as (a & b & _ & _ & _ & E1 & E2 & O1 & O2).
      destruct Hi as [Hi|Hi]; [assert (p = originalIndex f1) as -> by lia
                              |assert (p = originalIndex f2) as -> by lia]; assumption.
  - rewrite Forall_forall in R5. rewrite (flagged_groupEntry m (R5 m Hm)) in Hf.
    destruct Hf.
Qed.

(** The second of two coinciding points, drawn third, is highlighted. *)
Lemma C9_entries_in_pass_order_witness :
  let w := Sample.drawn [Sample.point_a; Sample.speck; Sample.point_b] in
  exists n,
    fst (V1.checkTopology Sample.turf Sample.geographic w) = Ok n
    /\ In Sample.point_b
          (highlightSource (snd (V1.checkTopology Sample.turf Sample.geographic w))).
Proof.
  intros w. eexists. split; [vm_compute; reflexivity|].
  eapply (proj2 (proj2 (proj2 (proj2 (proj2 (proj2
            (C9_entries_in_pass_order Sample.turf Sample.geographic w _ _
               eq_refl eq_refl)))))))
    with (p := 2) (feature := {| ol.ol_uid := 3; ol.getGeometry := Sample.point_b |}).
  - right. right. left. reflexivity.
  - left. reflexivity.
  - reflexivity.
Defined.

(** ** C10 *)

(** C10.  In both variants [checkTopology] writes [highlightSource] only:
    the drawing source, so every feature, its geometry and the order, and
    the rest of the state are the same after the run as before, whether the
    run completes or an exception escapes it.  On an empty collection it
    only warns: nothing is checked, reported or written.  Otherwise the
    highlight source is cleared and then holds nothing but clones of
    geometries of drawn features. *)
Theorem C10_checkTopology_frame
    (T : turf.lib) (toLonLat : coord -> coord) (w : World) :
  (drawSource (snd (V1.checkTopology T toLonLat w)) = drawSource w
   /\ snd (V1.checkTopology T toLonLat w)
      = set_highlightSource w (highlightSource (snd (V1.checkTopology T toLonLat w)))
   /\ (drawSource w = [] -> V1.checkTopology T toLonLat w = (Ok NothingToCheck, w))
   /\ (drawSource w <> [] ->
       forall g, In g (highlightSource (snd (V1.checkTopology T toLonLat w))) ->
                 exists f, In f (drawSource w) /\ g = ol.getGeometry f))
  /\ (drawSource (snd (V2.checkTopology T toLonLat w)) = drawSource w
      /\ snd (V2.checkTopology T toLonLat w)
         = set_highlightSource w (highlightSource (snd (V2.checkTopology T toLonLat w)))
      /\ (drawSource w = [] -> V2.checkTopology T toLonLat w = (Ok NothingToCheck, w))
      /\ (drawSource w <> [] ->
          forall g, In g (highlightSource (snd (V2.checkTopology T toLonLat w))) ->
                    exists f, In f (drawSource w) /\ g = ol.getGeometry f)).
Proof.
  split.
  - destruct (V1_checkTopology_writes_highlight T toLonLat w) as (h & E & _ & Hc).
    rewrite E. simpl. repeat split.
    + intros H. unfold V1.checkTopology, ol.getFeatures. rewrite H. reflexivity.
    + exact Hc.
  - destruct (V2_checkTopology_writes_highlight T toLonLat w) as (h & E & _ & Hc).
    rewrite E. simpl. repeat split.
    + intros H. unfold V2.checkTopology, ol.getFeatures. rewrite H. reflexivity.
    + exact Hc.
Qed.

(** A run on two drawn points leaves them in place, and a run on an empty
    drawing source changes nothing. *)
Lemma C10_checkTopology_frame_witness :
  let w := Sample.drawn [Sample.point_a; Sample.point_b] in
  drawSource (snd (V1.checkTopology Sample.turf Sample.geographic w)) = drawSource w
  /\ V1.checkTopology Sample.turf Sample.geographic Sample.loaded
     = (Ok NothingToCheck, Sample.loaded).
Proof.
  intros w. split.
  - exact (proj1 (proj1 (C10_checkTopology_frame Sample.turf Sample.geographic w))).
  - exact (proj1 (proj2 (proj2 (proj1
             (C10_checkTopology_frame Sample.turf Sample.geographic Sample.loaded))))
             eq_refl).
Defined.

(* ================================================================== *)
(** * Further lemmas *)
(* ================================================================== *)

(* ------------------------------------------------------------------ *)
(** ** The annotated variant of the passes *)
(* ------------------------------------------------------------------ *)

Section SecondVariant.

Variable T : turf.lib.
Variable toLonLat : coord -> coord.

Lemma V2_local_pairCheck (f1 f2 : TurfFeature) : local (V2.pairCheck T f1 f2).
Proof.
  unfold V2.pairCheck, V2.overlapCheck, V2.crossCheck, V2.typedChecks,
    V2.intersectionCheck, V2.containmentCheck.
  solve_local.
Qed.

Lemma V2_local_validate (tfs : list TurfFeature) : local (V2.validate T tfs).
Proof.
  unfold V2.validate.
  apply local_bind; [apply local_forEach; intros; apply local_selfCheck|intro].
  apply local_forPairs; intros; apply V2_local_pairCheck.
Qed.

Lemma V2_validate_completes (tfs : list TurfFeature) :
  outcome (V2.validate T tfs) = Ok tt ->
  Forall (fun fk => outcome (selfCheck T tfs (fst fk) (snd fk)) = Ok tt) (indexed tfs 0)
  /\ Forall (fun ff => outcome (V2.pairCheck T (fst ff) (snd ff)) = Ok tt) (pairs tfs)
  /\ written (V2.validate T tfs)
     = extend (gather (map (fun fk => written (selfCheck T tfs (fst fk) (snd fk)))
                          (indexed tfs 0)))
              (gather (map (fun ff => written (V2.pairCheck T (fst ff) (snd ff)))
                           (pairs tfs))).
Proof.
  unfold V2.validate.
  assert (L1 : local (forEach (selfCheck T tfs) tfs 0))
    by (apply local_forEach; intros; apply local_selfCheck).
  assert (L2 : forall u : unit, local (forPairs (V2.pairCheck T) tfs))
    by (intros _; apply local_forPairs; intros; apply V2_local_pairCheck).
  rewrite (outcome_bind _ _ L1 L2), (written_bind _ _ L1 L2).
  destruct (outcome (forEach (selfCheck T tfs) tfs 0)) as [[]|e] eqn:E1; [|discriminate].
  intros E2.
  destruct (forEach_completes _ tfs 0 (local_selfCheck T tfs) E1) as [F1 W1].
  destruct (forPairs_completes _ tfs V2_local_pairCheck E2) as [F2 W2].
  rewrite W1, W2. repeat split; assumption.
Qed.

Lemma V2_checkTopology_completes (w : World) (n : Notification) :
  drawSource w <> [] ->
  fst (V2.checkTopology T toLonLat w) = Ok n ->
  exists tfs,
    turfFeatures T toLonLat (drawSource w) = Ok tfs
    /\ outcome (V2.validate T tfs) = Ok tt
    /\ n = notification (errors (written (V2.validate T tfs)))
    /\ highlightSource (snd (V2.checkTopology T toLonLat w))
       = highlights (drawSource w) (errorFeatureIndices (written (V2.validate T tfs))).
Proof.
  intros Hne. rewrite (V2_checkTopology_run T toLonLat w Hne).
  destruct (turfFeatures T toLonLat (drawSource w)) as [tfs|e]; [|discriminate].
  destruct (outcome (V2.validate T tfs)) as [[]|e] eqn:E; [|discriminate].
  simpl. intros H. inversion H; subst. exists tfs. repeat split. exact E.
Qed.

Lemma V2_validate_entries (tfs : list TurfFeature) :
  outcome (V2.validate T tfs) = Ok tt ->
  errors (written (V2.validate T tfs))
  = flat_map (featureEntries T tfs) (indexed tfs 0)
    ++ flat_map (fun ff => errors (written (V2.pairCheck T (fst ff) (snd ff)))) (pairs tfs).
Proof.
  intros H. destruct (V2_validate_completes tfs H) as (_ & _ & W).
  rewrite W, !errors_extend, !errors_gather, !flat_map_concat_map, !map_map.
  reflexivity.
Qed.

Lemma V2_pairCheck_entries (f1 f2 : TurfFeature) :
  entriesAll (pairEntry f1 f2) (written (V2.pairCheck T f1 f2)).
Proof.
  unfold V2.pairCheck, V2.overlapCheck, V2.crossCheck, V2.typedChecks,
    V2.intersectionCheck, V2.containmentCheck.
  solve_entries
    ltac:(try (unfold pairEntry; simpl; repeat split; try (intros; discriminate);
               first [left; reflexivity|right; reflexivity])).
Qed.

Lemma V2_pairCheck_flags (f1 f2 : TurfFeature) :
  flagsPair f1 f2 (written (V2.pairCheck T f1 f2)).
Proof.
  pose proof (flagsPair_extensible f1 f2) as E.
  unfold V2.pairCheck, V2.overlapCheck, V2.crossCheck, V2.typedChecks,
    V2.intersectionCheck, V2.containmentCheck.
  repeat first
    [ apply flags_report
    | writes_step E
    | match goal with
      | |- local _ => solve [solve_local]
      | |- flagsPair _ _ (written (match ?x with _ => _ end)) => destruct x
      | |- flagsPair _ _ (written (if ?b then _ else _)) => destruct b
      | |- flagsPair _ _ (written (let _ := _ in _)) => cbv zeta
      end ].
Qed.

End SecondVariant.




(* ------------------------------------------------------------------ *)
(** ** What is highlighted *)
(* ------------------------------------------------------------------ *)

Section Highlights.

Variable T : turf.lib.

Lemma flaggedBy_extensible (f1 f2 : TurfFeature) : extensible (flaggedBy f1 f2).
Proof.
  split; [intros i []|].
  intros s d Hs Hd i Hi. apply indices_extend in Hi. rewrite errors_extend.
  destruct Hi as [Hi|Hi]; [destruct (Hs i Hi) as (O & m & Hm & Hn)
                          |destruct (Hd i Hi) as (O & m & Hm & Hn)];
    (split; [exact O|]); exists m; rewrite in_app_iff; auto.
Qed.

Lemma flaggedBy_report (msg : Message) (f1 f2 : TurfFeature) :
  isNote msg = false -> flaggedBy f1 f2 (written (report msg f1 f2)).
Proof.
  intros Hn i Hi. unfold report, written, bind, push, add in *; simpl in *.
  rewrite !Set_add_In in Hi. simpl in Hi. split; [intuition|].
  exists msg. split; [left; reflexivity|exact Hn].
Qed.

Lemma flaggedBy_push (msg : Message) (f1 f2 : TurfFeature) :
  flaggedBy f1 f2 (written (push msg)).
Proof. intros i []. Qed.

Ltac solve_flaggedBy E :=
  repeat first
    [ apply flaggedBy_report; reflexivity
    | apply flaggedBy_push
    | writes_step E
    | match goal with
      | |- local _ => solve [solve_local]
      | |- flaggedBy _ _ (written (match ?x with _ => _ end)) => destruct x
      | |- flaggedBy _ _ (written (if ?b then _ else _)) => destruct b
      | |- flaggedBy _ _ (written (let _ := _ in _)) => cbv zeta
      end ].

Lemma V1_pairCheck_flaggedBy (f1 f2 : TurfFeature) :
  flaggedBy f1 f2 (written (V1.pairCheck T f1 f2)).
Proof.
  pose proof (flaggedBy_extensible f1 f2) as E.
  unfold V1.pairCheck, V1.overlapCheck, V1.crossCheck, V1.typedChecks,
    V1.intersectionCheck, V1.containmentCheck, V1.adjacencyCheck, V1.gapCheck,
    V1.linePolygonChecks, V1.danglingCheck.
  solve_flaggedBy E.
Qed.

Lemma V2_pairCheck_flaggedBy (f1 f2 : TurfFeature) :
  flaggedBy f1 f2 (written (V2.pairCheck T f1 f2)).
Proof.
  pose proof (flaggedBy_extensible f1 f2) as E.
  unfold V2.pairCheck, V2.overlapCheck, V2.crossCheck, V2.typedChecks,
    V2.intersectionCheck, V2.containmentCheck.
  solve_flaggedBy E.
Qed.

Lemma noHighlight_extensible : extensible noHighlight.
Proof.
  split; [reflexivity|].
  unfold noHighlight. intros s d Hs Hd. unfold extend; simpl. rewrite Hd. exact Hs.
Qed.

Lemma V1_polygonGroupCheck_noHighlight (tfs : list TurfFeature) :
  noHighlight (written (V1.polygonGroupCheck T tfs)).
Proof.
  pose proof noHighlight_extensible as E.
  unfold V1.polygonGroupCheck. cbv zeta.
  apply (writes_when _ _ _ E).
  apply (writes_try_catch _ _ _ E);
    [apply local_forPairs; intros; apply V1_local_boundaryCheck
    |intro; apply local_ret| |intro; reflexivity].
  apply (writes_forPairs _ _ _ E); [intros; apply V1_local_boundaryCheck|].
  intros p1 p2. unfold V1.boundaryCheck.
  repeat first
    [ writes_step E
    | apply (writes_pure _ _ E); apply V1_pure_sharedCoords
    | reflexivity
    | match goal with
      | |- local _ => solve [solve_local]
      | |- noHighlight (written (match ?x with _ => _ end)) => destruct x
      end ].
Qed.

End Highlights.

Section Flags.

Variable T : turf.lib.

Lemma flag_or (m1 m2 : M bool) :
  local m1 -> local m2 ->
  (outcome m1 = Ok true -> errors (written m1) <> []) ->
  (outcome m2 = Ok true -> errors (written m2) <> []) ->
  outcome (h1 <- m1 ;; h2 <- m2 ;; ret (h1 || h2)) = Ok true ->
  errors (written (h1 <- m1 ;; h2 <- m2 ;; ret (h1 || h2))) <> [].
Proof.
  intros L1 L2 F1 F2.
  assert (L : forall h1 : bool, local (h2 <- m2 ;; ret (h1 || h2)))
    by (intro; apply local_bind; [exact L2|intro; apply local_ret]).
  rewrite (outcome_bind _ _ L1 L), (written_bind _ _ L1 L).
  destruct (outcome m1) as [h1|e]; [|discriminate].
  rewrite (outcome_bind _ _ L2 (fun h2 => local_ret (h1 || h2))).
  rewrite (written_bind _ _ L2 (fun h2 => local_ret (h1 || h2))).
  destruct (outcome m2) as [h2|e]; [|discriminate].
  rewrite outcome_ret, written_ret, !errors_extend. simpl. rewrite app_nil_r.
  intros H. inversion H as [H']. apply orb_true_iff in H' as [->| ->].
  - intros E. apply app_eq_nil in E as [E _]. exact (F1 eq_refl E).
  - intros E. apply app_eq_nil in E as [_ E]. exact (F2 eq_refl E).
Qed.

Lemma check_flag (cond : bool) (msg : Message) :
  outcome (check cond msg) = Ok true -> errors (written (check cond msg)) <> [].
Proof. destruct cond; [discriminate|discriminate]. Qed.

Lemma duplicatePoints_flag_true (i : nat) (coords : list coord) :
  outcome (duplicatePoints i coords) = Ok true ->
  errors (written (duplicatePoints i coords)) <> [].
Proof.
  induction coords as [|c rest IH]; [discriminate|].
  simpl. apply flag_or; [apply local_check|apply local_duplicatePoints|apply check_flag|exact IH].
Qed.

Lemma pointChecks_flag_true (f : TurfFeature) (i : nat) (others : list TurfFeature)
    (k : nat) :
  outcome (pointChecks T f i others k) = Ok true ->
  errors (written (pointChecks T f i others k)) <> [].
Proof.
  revert k. induction others as [|o rest IH]; intros k; [discriminate|].
  simpl. apply flag_or; [solve_local|apply local_pointChecks| |apply IH].
  destruct (negb (i =? k) && TypeName_eqb (type o) TPoint); [|discriminate].
  unfold outcome, written, bind, call, check.
  destruct (turf.distance T (geometry f) (geometry o)) as [d|e]; simpl; [|discriminate].
  destruct (lt d 0.1%float); discriminate.
Qed.

Lemma lineChecks_flag_true (f : TurfFeature) (coords : list coord) :
  outcome (lineChecks T f coords) = Ok true ->
  errors (written (lineChecks T f coords)) <> [].
Proof.
  pose proof (duplicatePoints_flag_true (index f) coords) as F3.
  unfold lineChecks. cbv zeta.
  bind_step. bind_step.
  destruct (turf.length T (geometry f)) as [len|e]; [|discriminate].
  bind_step. bind_step.
  destruct (outcome (duplicatePoints (index f) coords)) as [h3|e]; [|discriminate].
  rewrite outcome_ret, written_ret, !errors_extend, !errors_check. simpl.
  rewrite app_nil_r.
  intros H. inversion H as [H'].
  destruct (List.length coords <? 2); [discriminate|].
  destruct (lt len 0.1%float); [discriminate|].
  simpl in H'. subst h3. exact (F3 eq_refl).
Qed.

Lemma polygonChecks_flag_true (f : TurfFeature) (rings : list (list coord)) :
  let m := try_catch (polygonChecks T f rings)
                     (fun message => push (PolygonInvalid (index f) message) ;; ret true) in
  outcome m = Ok true -> errors (written m) <> [].
Proof.
  unfold polygonChecks, outcome, written, try_catch, bind, call, check, push, ret, throw,
    firstPoint, lastPoint.
  destruct (turf.booleanValid T (geometry f)) as [[|]|e]; simpl;
    try discriminate;
    (destruct rings as [|coords rings]; simpl; [discriminate|]);
    destruct (List.length coords <? 3); simpl;
    (destruct coords as [|c coords]; simpl; [discriminate|]);
    destruct (apart c (last coords c)); simpl;
    (destruct (turf.area T (geometry f)) as [a|e]; simpl; [|discriminate]);
    destruct (lt a 0.0001%float); simpl; discriminate.
Qed.

Lemma typeChecks_flag_true (tfs : list TurfFeature) (f : TurfFeature) (k : nat) :
  outcome (typeChecks T tfs f k) = Ok true ->
  errors (written (typeChecks T tfs f k)) <> [].
Proof.
  unfold typeChecks. destruct (geometry f) as [c|coords|rings|regions].
  - apply pointChecks_flag_true.
  - apply lineChecks_flag_true.
  - apply polygonChecks_flag_true.
  - discriminate.
Qed.

(** A highlight added by the callback of a feature is the feature itself,
    and comes with an entry. *)
Lemma selfCheck_highlight_entry (tfs : list TurfFeature) (f : TurfFeature) (k i : nat) :
  outcome (selfCheck T tfs f k) = Ok tt ->
  In i (errorFeatureIndices (written (selfCheck T tfs f k))) ->
  i = originalIndex f /\ exists m, In m (featureEntries T tfs (f, k)).
Proof.
  intros Ho Hi. split; [exact (proj2 (selfCheck_highlights T tfs f k Ho) i Hi)|].
  revert Ho Hi. unfold featureEntries, selfCheck. simpl fst. simpl snd.
  rewrite outcome_bind, written_bind by (try apply local_typeChecks; locality).
  destruct (outcome (typeChecks T tfs f k)) as [h|e] eqn:E; [|discriminate].
  destruct (typeChecks_flag T tfs f k h E) as [_ I]. intros _.
  destruct h; simpl.
  - intros _. pose proof (typeChecks_flag_true tfs f k E) as N.
    rewrite app_nil_r.
    destruct (errors (written (typeChecks T tfs f k))) as [|m l]; [contradiction N; reflexivity|].
    exists m. left. reflexivity.
  - unfold extend; simpl. rewrite I. intros [].
Qed.

End Flags.

Section HighlightedFeatures.

Variable T : turf.lib.
Variable toLonLat : coord -> coord.

Lemma flagged_pair (f1 f2 : TurfFeature) (m : Message) :
  pairEntry f1 f2 m -> isNote m = false ->
  In (index f1) (flagged m) /\ In (index f2) (flagged m).
Proof.
  intros (_ & Hp & _ & Hi) Hn.
  destruct m; simpl in *; try discriminate;
    try (exfalso; exact (Hp _ _ _ eq_refl));
    destruct Hi as [Hi|Hi]; inversion Hi; subst; auto.
Qed.

Lemma flagged_note (m : Message) : isNote m = true -> flagged m = [].
Proof. destruct m; try discriminate; reflexivity. Qed.

(** An index added by one of the passes is the position of a feature
    that an entry of the pass marks. *)
Lemma passes_highlight_entry (tfs : list TurfFeature)
    (pairCheck : TurfFeature -> TurfFeature -> M unit) (i : nat) :
  wellIndexed tfs ->
  (forall f1 f2, entriesAll (pairEntry f1 f2) (written (pairCheck f1 f2))) ->
  (forall f1 f2, flaggedBy f1 f2 (written (pairCheck f1 f2))) ->
  Forall (fun fk => outcome (selfCheck T tfs (fst fk) (snd fk)) = Ok tt) (indexed tfs 0) ->
  In i (errorFeatureIndices
          (extend (gather (map (fun fk => written (selfCheck T tfs (fst fk) (snd fk)))
                               (indexed tfs 0)))
                  (gather (map (fun ff => written (pairCheck (fst ff) (snd ff)))
                               (pairs tfs))))) ->
  exists m,
    In m (flat_map (featureEntries T tfs) (indexed tfs 0)
          ++ flat_map (fun ff => errors (written (pairCheck (fst ff) (snd ff)))) (pairs tfs))
    /\ In (S i) (flagged m).
Proof.
  intros W Qp Fp Fs Hi.
  rewrite indices_extend, !indices_gather in Hi.
  destruct Hi as [(d & Hd & Hi)|(d & Hd & Hi)]; apply in_map_iff in Hd.
  - destruct Hd as ([f k] & <- & Hfk). simpl in Hi.
    rewrite Forall_forall in Fs.
    destruct (selfCheck_highlight_entry T tfs f k i (Fs (f, k) Hfk) Hi) as (-> & m & Hm).
    exists m. split.
    + apply in_or_app. left. apply in_flat_map. exists (f, k). auto.
    + pose proof (selfCheck_entries T tfs f k) as Q. unfold entriesAll in Q.
      rewrite Forall_forall in Q.
      rewrite (flagged_featureEntry f m (Q m Hm)).
      destruct (wellIndexed_In tfs W f k Hfk) as [E1 E2]. left. lia.
  - destruct Hd as ([f1 f2] & <- & Hff). simpl in Hi.
    destruct (Fp f1 f2 i Hi) as (O & m & Hm & Hn).
    exists m. split.
    + apply in_or_app. right. apply in_flat_map. exists (f1, f2). auto.
    + pose proof (Qp f1 f2) as Q. unfold entriesAll in Q. rewrite Forall_forall in Q.
      destruct (flagged_pair f1 f2 m (Q m Hm) Hn) as [H1 H2].
      destruct (wellIndexed_pairs tfs W f1 f2 Hff)
        as (a & b & _ & _ & _ & E1 & E2 & O1 & O2).
      destruct O as [-> | ->].
      * replace (S (originalIndex f1)) with (index f1) by lia. exact H1.
      * replace (S (originalIndex f2)) with (index f2) by lia. exact H2.
Qed.

Lemma highlights_inv (features : list ol.Feature) (indices : list nat) (g : ol.Geometry) :
  In g (highlights features indices) ->
  exists p feature, In p indices /\ nth_error features p = Some feature
                    /\ g = ol.getGeometry feature.
Proof.
  unfold highlights. intros H. apply in_flat_map in H as (p & Hp & Hg).
  destruct (nth_error features p) as [feature|] eqn:E; [|destruct Hg].
  destruct Hg as [<-|[]]. exists p, feature. auto.
Qed.

Lemma V1_highlight_entry (w : World) (n : Notification) (g : ol.Geometry) :
  drawSource w <> [] ->
  fst (V1.checkTopology T toLonLat w) = Ok n ->
  In g (highlightSource (snd (V1.checkTopology T toLonLat w))) ->
  exists p feature m,
    nth_error (drawSource w) p = Some feature /\ g = ol.getGeometry feature
    /\ In m (reported n) /\ In (S p) (flagged m).
Proof.
  intros Hne Hn Hg.
  destruct (V1_checkTopology_completes T toLonLat w n Hne Hn) as (tfs & Ht & Hv & -> & Hh).
  destruct (turfFeatures_wellIndexed T toLonLat _ _ Ht) as [W _].
  rewrite Hh in Hg. apply highlights_inv in Hg as (p & feature & Hp & Hf & ->).
  exists p, feature.
  rewrite reported_notification, (V1_validate_entries T tfs Hv).
  destruct (V1_validate_completes T tfs Hv) as (Fs & _ & Wr).
  rewrite Wr, <- extend_assoc in Hp. apply indices_extend in Hp as [Hp|Hp].
  - destruct (passes_highlight_entry tfs (V1.pairCheck T) p W
                (V1_pairCheck_entries T) (V1_pairCheck_flaggedBy T) Fs Hp) as (m & Hm & Hi).
    exists m. repeat split; auto.
    rewrite app_assoc. apply in_or_app. left. exact Hm.
  - rewrite (V1_polygonGroupCheck_noHighlight T tfs) in Hp. destruct Hp.
Qed.

Lemma V2_highlight_entry (w : World) (n : Notification) (g : ol.Geometry) :
  drawSource w <> [] ->
  fst (V2.checkTopology T toLonLat w) = Ok n ->
  In g (highlightSource (snd (V2.checkTopology T toLonLat w))) ->
  exists p feature m,
    nth_error (drawSource w) p = Some feature /\ g = ol.getGeometry feature
    /\ In m (reported n) /\ In (S p) (flagged m).
Proof.
  intros Hne Hn Hg.
  destruct (V2_checkTopology_completes T toLonLat w n Hne Hn) as (tfs & Ht & Hv & -> & Hh).
  destruct (turfFeatures_wellIndexed T toLonLat _ _ Ht) as [W _].
  rewrite Hh in Hg. apply highlights_inv in Hg as (p & feature & Hp & Hf & ->).
  exists p, feature.
  rewrite reported_notification, (V2_validate_entries T tfs Hv).
  destruct (V2_validate_completes T tfs Hv) as (Fs & _ & Wr).
  rewrite Wr in Hp.
  destruct (passes_highlight_entry tfs (V2.pairCheck T) p W
              (V2_pairCheck_entries T) (V2_pairCheck_flaggedBy T) Fs Hp) as (m & Hm & Hi).
  exists m. repeat split; auto.
Qed.

End HighlightedFeatures.

Section OneHighlightEach.

Variable T : turf.lib.
Variable toLonLat : coord -> coord.

Lemma Set_add_NoDup (s : list nat) (x : nat) : NoDup s -> NoDup (Set_add s x).
Proof.
  intros H. unfold Set_add. destruct (Set_has s x) eqn:E; [exact H|].
  apply NoDup_app; [exact H|constructor; [intros []|constructor]|].
  intros y Hy [<-|[]]. apply Set_has_In in Hy. congruence.
Qed.

Lemma addAll_NoDup (d s : list nat) : NoDup s -> NoDup (fold_left Set_add d s).
Proof.
  revert s. induction d as [|x d IH]; intros s H; simpl; [exact H|].
  apply IH, Set_add_NoDup, H.
Qed.

(** The Set holds every index once. *)
Lemma written_NoDup {A} (m : M A) : local m -> NoDup (errorFeatureIndices (written m)).
Proof.
  intros L. rewrite <- (written_normal m L). unfold extend; simpl.
  apply addAll_NoDup. constructor.
Qed.

Lemma highlights_length (features : list ol.Feature) (indices : list nat) :
  NoDup indices -> List.length (highlights features indices) <= List.length features.
Proof.
  intros H.
  assert (E : List.length (highlights features indices)
              = List.length (filter (fun i => i <? List.length features) indices)).
  { unfold highlights. clear H. induction indices as [|i l IH]; [reflexivity|].
    simpl. rewrite length_app, IH.
    destruct (nth_error features i) as [f|] eqn:Ef.
    - assert (i < List.length features) as Hi by (apply nth_error_Some; congruence).
      apply Nat.ltb_lt in Hi. rewrite Hi. reflexivity.
    - apply nth_error_None in Ef. apply Nat.ltb_ge in Ef. rewrite Ef. reflexivity. }
  rewrite E.
  apply Nat.le_trans with (List.length (seq 0 (List.length features)));
    [|rewrite length_seq; apply Nat.le_refl].
  apply NoDup_incl_length; [apply NoDup_filter, H|].
  intros i Hi. apply filter_In in Hi as [_ Hi]. apply Nat.ltb_lt in Hi.
  apply in_seq. lia.
Qed.

End OneHighlightEach.

(* ------------------------------------------------------------------ *)
(** ** The entries of one feature in the report *)
(* ------------------------------------------------------------------ *)

Section FeatureEntries.

Variable T : turf.lib.
Variable toLonLat : coord -> coord.

Lemma forEach_throws {A} (body : A -> nat -> M unit) (array : list A) (i : nat)
    (x : A) (k : nat) (e : string) :
  (forall y j, local (body y j)) ->
  In (x, k) (indexed array i) -> outcome (body x k) = Throw e ->
  exists e', outcome (forEach body array i) = Throw e'.
Proof.
  intros L Hin He.
  destruct (outcome (forEach body array i)) as [[]|e'] eqn:E; [|eauto].
  destruct (forEach_completes body array i L E) as [F _].
  rewrite Forall_forall in F. specialize (F (x, k) Hin). simpl in F. congruence.
Qed.

Lemma selfCheck_throws_escapes (w : World) (tfs : list TurfFeature)
    (f : TurfFeature) (k : nat) (e : string) :
  turfFeatures T toLonLat (drawSource w) = Ok tfs ->
  In (f, k) (indexed tfs 0) ->
  outcome (selfCheck T tfs f k) = Throw e ->
  (exists e', V1.checkTopology T toLonLat w = (Throw e', set_highlightSource w []))
  /\ (exists e', V2.checkTopology T toLonLat w = (Throw e', set_highlightSource w [])).
Proof.
  intros Ht Hin He.
  assert (Hne : drawSource w <> []).
  { intros E. rewrite E, turfFeatures_nil in Ht. inversion Ht; subst. destruct Hin. }
  destruct (forEach_throws (selfCheck T tfs) tfs 0 f k e (local_selfCheck T tfs) Hin He)
    as [e' He'].
  assert (L1 : local (forEach (selfCheck T tfs) tfs 0))
    by (apply local_forEach; intros; apply local_selfCheck).
  split.
  - rewrite (V1_checkTopology_run T toLonLat w Hne), Ht.
    unfold V1.validate.
    rewrite (outcome_bind_throw _ _ e' He'). eauto.
  - rewrite (V2_checkTopology_run T toLonLat w Hne), Ht.
    unfold V2.validate.
    rewrite (outcome_bind_throw _ _ e' He'). eauto.
Qed.

Lemma feature_entry_located (tfs : list TurfFeature) (f : TurfFeature) (k : nat)
    (m : Message) :
  wellIndexed tfs -> In (f, k) (indexed tfs 0) ->
  isSelfCheck m = true -> involved m = [index f] ->
  In m (flat_map (featureEntries T tfs) (indexed tfs 0)) ->
  In m (featureEntries T tfs (f, k)).
Proof.
  intros W Hfk Hs Hi Hm. apply in_flat_map in Hm as ([g j] & Hgj & Hm).
  pose proof (selfCheck_entries T tfs g j) as Q. unfold entriesAll in Q.
  rewrite Forall_forall in Q.
  destruct (Q m Hm) as [[_ Hg]|(b & d & ->)]; [|discriminate].
  destruct (wellIndexed_In tfs W f k Hfk) as [E1 _].
  destruct (wellIndexed_In tfs W g j Hgj) as [E2 _].
  assert (j = k) by (rewrite Hi in Hg; inversion Hg; lia). subst j.
  rewrite (indexed_functional tfs 0 g f k Hgj Hfk) in Hm. exact Hm.
Qed.

(** What a completed run of either variant reports: the entries of the
    callbacks, then entries that are not self-check violations. *)
Lemma completed_run (w : World) (n : Notification) (tfs : list TurfFeature) :
  fst (V1.checkTopology T toLonLat w) = Ok n
  \/ fst (V2.checkTopology T toLonLat w) = Ok n ->
  turfFeatures T toLonLat (drawSource w) = Ok tfs ->
  tfs <> [] ->
  wellIndexed tfs
  /\ Forall (fun fk => outcome (selfCheck T tfs (fst fk) (snd fk)) = Ok tt) (indexed tfs 0)
  /\ exists others,
       reported n = flat_map (featureEntries T tfs) (indexed tfs 0) ++ others
       /\ Forall (fun m => isSelfCheck m = false
                           /\ forall i j d, m <> PointsTooClose i j d) others.
Proof.
  intros Hn Ht Hnil.
  destruct (turfFeatures_wellIndexed T toLonLat _ _ Ht) as [W Hlen].
  assert (Hne : drawSource w <> []).
  { intros E. rewrite E in Hlen. destruct tfs; [congruence|discriminate]. }
  split; [exact W|].
  destruct Hn as [Hn|Hn].
  - destruct (V1_checkTopology_completes T toLonLat w n Hne Hn) as (tfs' & Ht' & Hv & -> & _).
    rewrite Ht in Ht'. inversion Ht'; subst tfs'.
    destruct (V1_validate_completes T tfs Hv) as (Fs & _ & _).
    split; [exact Fs|].
    rewrite reported_notification, (V1_validate_entries T tfs Hv).
    eexists. split; [reflexivity|].
    apply Forall_app. split.
    + apply Forall_forall. intros m Hm. apply in_flat_map in Hm as ([f1 f2] & _ & Hm).
      pose proof (V1_pairCheck_entries T f1 f2) as Q. unfold entriesAll in Q.
      rewrite Forall_forall in Q. destruct (Q m Hm) as (H1 & H2 & _). auto.
    + pose proof (V1_polygonGroupCheck_entries T tfs) as Q. unfold entriesAll in Q.
      revert Q. apply Forall_impl. intros m (i & j & c & ->).
      split; [reflexivity|intros; discriminate].
  - destruct (V2_checkTopology_completes T toLonLat w n Hne Hn) as (tfs' & Ht' & Hv & -> & _).
    rewrite Ht in Ht'. inversion Ht'; subst tfs'.
    destruct (V2_validate_completes T tfs Hv) as (Fs & _ & _).
    split; [exact Fs|].
    rewrite reported_notification, (V2_validate_entries T tfs Hv).
    eexists. split; [reflexivity|].
    apply Forall_forall. intros m Hm. apply in_flat_map in Hm as ([f1 f2] & _ & Hm).
    pose proof (V2_pairCheck_entries T f1 f2) as Q. unfold entriesAll in Q.
    rewrite Forall_forall in Q. destruct (Q m Hm) as (H1 & H2 & _). auto.
Qed.

Lemma selfCheck_located (w : World) (n : Notification) (tfs : list TurfFeature)
    (f : TurfFeature) (k : nat) (m : Message) :
  fst (V1.checkTopology T toLonLat w) = Ok n
  \/ fst (V2.checkTopology T toLonLat w) = Ok n ->
  turfFeatures T toLonLat (drawSource w) = Ok tfs ->
  In (f, k) (indexed tfs 0) ->
  isSelfCheck m = true -> involved m = [index f] ->
  (In m (reported n) <-> In m (featureEntries T tfs (f, k))).
Proof.
  intros Hn Ht Hfk Hs Hi.
  assert (Hnil : tfs <> []) by (intros ->; destruct Hfk).
  destruct (completed_run w n tfs Hn Ht Hnil) as (W & _ & others & -> & Fo).
  rewrite in_app_iff. split.
  - intros [Hm|Hm]; [exact (feature_entry_located tfs f k m W Hfk Hs Hi Hm)|].
    rewrite Forall_forall in Fo. destruct (Fo m Hm) as [Hs' _]. congruence.
  - intros Hm. left. apply in_flat_map. exists (f, k). auto.
Qed.

End FeatureEntries.

Section Polygons2.

Variable T : turf.lib.
Variable toLonLat : coord -> coord.

Lemma feature_highlighted (w : World) (n : Notification) (tfs : list TurfFeature)
    (f : TurfFeature) (k : nat) (feature : ol.Feature) :
  turfFeatures T toLonLat (drawSource w) = Ok tfs ->
  In (f, k) (indexed tfs 0) ->
  featureEntries T tfs (f, k) <> [] ->
  nth_error (drawSource w) k = Some feature ->
  (fst (V1.checkTopology T toLonLat w) = Ok n ->
   In (ol.getGeometry feature) (highlightSource (snd (V1.checkTopology T toLonLat w))))
  /\ (fst (V2.checkTopology T toLonLat w) = Ok n ->
      In (ol.getGeometry feature) (highlightSource (snd (V2.checkTopology T toLonLat w)))).
Proof.
  intros Ht Hfk Hne' Hf.
  destruct (turfFeatures_wellIndexed T toLonLat _ _ Ht) as [W _].
  destruct (wellIndexed_In tfs W f k Hfk) as [_ Eo].
  assert (Hne : drawSource w <> []) by (intros E; rewrite E in Hf; destruct k; discriminate).
  split; intros Hn.
  - destruct (V1_checkTopology_completes T toLonLat w n Hne Hn) as (tfs' & Ht' & Hv & _ & ->).
    rewrite Ht in Ht'. inversion Ht'; subst tfs'.
    apply (highlights_In _ _ k); [|exact Hf].
    destruct (V1_validate_completes T tfs Hv) as (Fs & _ & ->).
    rewrite indices_extend, indices_gather. left.
    exists (written (selfCheck T tfs f k)). split.
    + apply in_map_iff. exists (f, k). auto.
    + rewrite Forall_forall in Fs.
      pose proof (proj1 (selfCheck_highlights T tfs f k (Fs (f, k) Hfk)) Hne') as H.
      rewrite Eo in H. exact H.
  - destruct (V2_checkTopology_completes T toLonLat w n Hne Hn) as (tfs' & Ht' & Hv & _ & ->).
    rewrite Ht in Ht'. inversion Ht'; subst tfs'.
    apply (highlights_In _ _ k); [|exact Hf].
    destruct (V2_validate_completes T tfs Hv) as (Fs & _ & ->).
    rewrite indices_extend, indices_gather. left.
    exists (written (selfCheck T tfs f k)). split.
    + apply in_map_iff. exists (f, k). auto.
    + rewrite Forall_forall in Fs.
      pose proof (proj1 (selfCheck_highlights T tfs f k (Fs (f, k) Hfk)) Hne') as H.
      rewrite Eo in H. exact H.
Qed.

Lemma polygon_selfCheck_returns (tfs : list TurfFeature) (f : TurfFeature) (k : nat)
    (rings : list (list coord)) :
  geometry f = turf.Polygon rings -> outcome (selfCheck T tfs f k) = Ok tt.
Proof.
  intros Hg. unfold selfCheck.
  rewrite outcome_bind by (try apply local_typeChecks; locality).
  unfold typeChecks. rewrite Hg.
  destruct (polygonChecks_flag T f rings) as (h & E & _). cbv zeta in E. rewrite E.
  destruct h; reflexivity.
Qed.

Lemma polygonChecks_throws (f : TurfFeature) (rings : list (list coord)) (e : string) :
  turf.booleanValid T (geometry f) = Throw e
  \/ (exists valid c coords rest,
        turf.booleanValid T (geometry f) = Ok valid
        /\ rings = (c :: coords) :: rest
        /\ turf.area T (geometry f) = Throw e) ->
  outcome (polygonChecks T f rings) = Throw e.
Proof.
  intros H. unfold polygonChecks. cbv zeta.
  destruct H as [He|(valid & c & coords & rest & Hv & -> & Ha)].
  - rewrite outcome_bind by locality. rewrite outcome_call, He. reflexivity.
  - rewrite outcome_bind by locality. rewrite outcome_call, Hv. cbv beta iota.
    rewrite outcome_bind by locality. rewrite outcome_check. cbv beta iota.
    rewrite outcome_bind by locality. rewrite outcome_check. cbv beta iota.
    unfold firstPoint, lastPoint. cbn [hd_error].
    rewrite outcome_bind by locality. rewrite outcome_check. cbv beta iota.
    rewrite outcome_bind by locality. rewrite outcome_call, Ha. reflexivity.
Qed.

Lemma polygon_failure_entry (tfs : list TurfFeature) (f : TurfFeature) (k : nat)
    (rings : list (list coord)) (e : string) :
  geometry f = turf.Polygon rings ->
  turf.booleanValid T (geometry f) = Throw e
  \/ (exists valid c coords rest,
        turf.booleanValid T (geometry f) = Ok valid
        /\ rings = (c :: coords) :: rest
        /\ turf.area T (geometry f) = Throw e) ->
  exists before, featureEntries T tfs (f, k) = before ++ [PolygonInvalid (index f) e].
Proof.
  intros Hg H. pose proof (polygonChecks_throws f rings e H) as Ho.
  unfold featureEntries, selfCheck. simpl fst. simpl snd.
  rewrite written_bind by (try apply local_typeChecks; locality).
  unfold typeChecks. rewrite Hg.
  assert (Lh : forall message : string,
             local (push (PolygonInvalid (index f) message) ;; ret true))
    by (intro; solve_local).
  rewrite (outcome_try_catch _ _ (local_polygonChecks T f rings) Lh).
  rewrite (written_try_catch _ _ (local_polygonChecks T f rings) Lh).
  rewrite Ho.
  exists (errors (written (polygonChecks T f rings))).
  change (outcome (push (PolygonInvalid (index f) e) ;; ret true)) with (@Ok bool true).
  cbv iota. rewrite !errors_extend. simpl. rewrite app_nil_r. reflexivity.
Qed.

Lemma polygon_clean (tfs : list TurfFeature) (f : TurfFeature) (k : nat)
    (rings : list (list coord)) :
  geometry f = turf.Polygon rings ->
  (featureEntries T tfs (f, k) = []
   <-> exists coords rest first last area,
         rings = coords :: rest
         /\ turf.booleanValid T (geometry f) = Ok true
         /\ (List.length coords <? 3) = false
         /\ firstPoint coords = Some first /\ lastPoint coords = Some last
         /\ apart first last = false
         /\ turf.area T (geometry f) = Ok area
         /\ lt area 0.0001%float = false).
Proof.
  intros Hg.
  assert (E : featureEntries T tfs (f, k)
              = errors (written
                  (hasError <- try_catch (polygonChecks T f rings)
                                 (fun message =>
                                    push (PolygonInvalid (index f) message) ;; ret true) ;;
                   when hasError (add (originalIndex f))))).
  { unfold featureEntries, selfCheck, typeChecks. simpl fst. simpl snd.
    rewrite Hg. reflexivity. }
  rewrite E. clear E Hg.
  unfold polygonChecks, written, try_catch, bind, call, check, push, ret, throw, when, add.
  destruct (turf.booleanValid T (geometry f)) as [[|]|e]; simpl;
    try (split; [discriminate|intros (? & ? & ? & ? & ? & ? & ? & ?); congruence]);
    (destruct rings as [|coords rings]; simpl;
     [split; [discriminate|intros (? & ? & ? & ? & ? & ? & ?); congruence]|]);
    destruct (List.length coords <? 3) eqn:El; simpl;
    (destruct (firstPoint coords) as [first|] eqn:Ef; simpl;
     [|split; [discriminate|intros (? & ? & ? & ? & ? & ? & ? & ? & ? & ?); congruence]]);
    (destruct (lastPoint coords) as [last|] eqn:Ela; simpl;
     [|split; [discriminate|intros (? & ? & ? & ? & ? & ? & ? & ? & ? & ? & ?); congruence]]);
    destruct (apart first last) eqn:Ea; simpl;
    (destruct (turf.area T (geometry f)) as [a|e] eqn:Ear; simpl;
     [|split; [discriminate
              |intros (? & ? & ? & ? & ? & ? & ? & ? & ? & ? & ? & ? & ?); congruence]]);
    destruct (lt a 0.0001%float) eqn:Elt; simpl;
    (split;
     [try discriminate; intros _; exists coords, rings, first, last, a; repeat split; assumption
     |intros (coords' & rest' & first' & last' & a' & R & V & L & F & La & A & Ar & Lt);
      inversion R; subst; congruence]).
Qed.

End Polygons2.

Section LinesAndPoints.

Variable T : turf.lib.
Variable toLonLat : coord -> coord.

Lemma duplicatePoints_selfCheck (f : TurfFeature) (coords : list coord) :
  entriesAll (fun m => m = LineDuplicatePoint (index f))
             (written (duplicatePoints (index f) coords)).
Proof.
  induction coords as [|c rest IH]; simpl.
  - constructor.
  - apply writes_bind; [apply entriesAll_extensible|solve_local|intro|..].
    + apply local_bind; [apply local_duplicatePoints|intro; apply local_ret].
    + apply entries_check. reflexivity.
    + intro. apply writes_bind;
        [apply entriesAll_extensible|apply local_duplicatePoints|intro; apply local_ret
        |exact IH|intro; constructor].
Qed.

(** The entries of a line or a polygon are self-check violations naming
    it. *)
Lemma selfCheck_entries_own (tfs : list TurfFeature) (f : TurfFeature) (k : nat) :
  (forall c, geometry f <> turf.Point c) ->
  entriesAll (fun m => isSelfCheck m = true /\ involved m = [index f])
             (written (selfCheck T tfs f k)).
Proof.
  intros Hp. unfold selfCheck.
  apply writes_bind;
    [apply entriesAll_extensible|apply local_typeChecks|intro; solve_local| |intro].
  - unfold typeChecks. destruct (geometry f) as [c|coords|rings|regions].
    + contradiction (Hp c). reflexivity.
    + unfold lineChecks. cbv zeta.
      apply writes_bind; [apply entriesAll_extensible|solve_local|intro; solve_local|..].
      { apply entries_check. split; reflexivity. }
      intro. apply writes_bind;
        [apply entriesAll_extensible|solve_local|intro; solve_local|constructor|].
      intro. apply writes_bind;
        [apply entriesAll_extensible|solve_local|intro; solve_local|..].
      { apply entries_check. split; reflexivity. }
      intro. apply writes_bind;
        [apply entriesAll_extensible|solve_local|intro; solve_local| |intro; constructor].
      pose proof (duplicatePoints_selfCheck f coords) as Q. unfold entriesAll in *.
      revert Q. apply Forall_impl. intros m ->. split; reflexivity.
    + apply writes_try_catch;
        [apply entriesAll_extensible|apply local_polygonChecks|intro; solve_local|..].
      * unfold polygonChecks.
        solve_entries ltac:(try (split; reflexivity)).
      * intro e. solve_entries ltac:(try (split; reflexivity)).
    + constructor.
  - destruct a; constructor.
Qed.

Lemma duplicatePoints_In (i : nat) (coords : list coord) :
  In (LineDuplicatePoint i) (errors (written (duplicatePoints i coords)))
  <-> exists p q a b, p < q /\ nth_error coords p = Some a /\ nth_error coords q = Some b
                      /\ samePoint a b = true.
Proof.
  induction coords as [|c rest IH]; simpl.
  - split; [intros []|]. intros (p & q & a & b & _ & Hp & _). destruct p; discriminate.
  - assert (L2 : forall h1 : bool, local (h' <- duplicatePoints i rest ;; ret (h1 || h')))
      by (intro; solve_local).
    rewrite (written_bind _ _ (local_check _ _) L2), outcome_check.
    rewrite (written_bind _ _ (local_duplicatePoints i rest)
               (fun h' => local_ret (existsb (samePoint c) rest || h'))).
    assert (E : errors (extend (written (check (existsb (samePoint c) rest)
                                              (LineDuplicatePoint i)))
                          match outcome (duplicatePoints i rest) with
                          | Ok a =>
                              extend (written (duplicatePoints i rest))
                                (written (ret (existsb (samePoint c) rest || a)))
                          | Throw _ => written (duplicatePoints i rest)
                          end)
                = (if existsb (samePoint c) rest then [LineDuplicatePoint i] else [])
                  ++ errors (written (duplicatePoints i rest))).
    { rewrite errors_extend, errors_check. f_equal.
      destruct (outcome (duplicatePoints i rest)); [|reflexivity].
      rewrite errors_extend. apply app_nil_r. }
    rewrite E, in_app_iff, IH. clear E. split.
    + intros [H|(p & q & a & b & Hpq & Hp & Hq & Hs)].
      * destruct (existsb (samePoint c) rest) eqn:Ex; [|destruct H].
        apply existsb_exists in Ex as (b & Hb & Hs).
        apply In_nth_error in Hb as [q Hq].
        exists 0, (S q), c, b. repeat split; auto. lia.
      * exists (S p), (S q), a, b. repeat split; auto. lia.
    + intros (p & q & a & b & Hpq & Hp & Hq & Hs).
      destruct q as [|q]; [lia|]. destruct p as [|p]; simpl in Hp, Hq.
      * left. inversion Hp; subst a.
        assert (Ex : existsb (samePoint c) rest = true).
        { apply existsb_exists. exists b. split; [eapply nth_error_In; eauto|exact Hs]. }
        rewrite Ex. left. reflexivity.
      * right. exists p, q, a, b. repeat split; auto. lia.
Qed.

Lemma line_entries_duplicate (tfs : list TurfFeature) (f : TurfFeature) (k : nat)
    (coords : list coord) :
  geometry f = turf.LineString coords ->
  outcome (selfCheck T tfs f k) = Ok tt ->
  (In (LineDuplicatePoint (index f)) (featureEntries T tfs (f, k))
   <-> In (LineDuplicatePoint (index f))
          (errors (written (duplicatePoints (index f) coords)))).
Proof.
  intros Hg. unfold featureEntries, selfCheck. simpl fst. simpl snd.
  rewrite outcome_bind, written_bind by (try apply local_typeChecks; locality).
  unfold typeChecks. rewrite Hg. unfold lineChecks. cbv zeta.
  bind_step. bind_step.
  destruct (turf.length T (geometry f)) as [len|e]; [|discriminate].
  bind_step. bind_step.
  destruct (duplicatePoints_flag (index f) coords) as (h3 & E3 & _).
  rewrite E3. cbv beta iota. rewrite outcome_ret, written_ret. intros _.
  rewrite !errors_extend, !errors_check. simpl.
  match goal with
  | |- context [when ?h _] => destruct h; simpl
  end;
    rewrite ?app_nil_r;
    destruct (List.length coords <? 2); destruct (lt len 0.1%float); simpl;
    split; intros H; auto;
    repeat (destruct H as [H|H]; [discriminate H|]); exact H.
Qed.

End LinesAndPoints.

Section Coincidences.

Variable T : turf.lib.
Variable toLonLat : coord -> coord.

Lemma coincidence_origin (w : World) (n : Notification) (tfs : list TurfFeature)
    (i j : nat) (d : number) :
  fst (V1.checkTopology T toLonLat w) = Ok n
  \/ fst (V2.checkTopology T toLonLat w) = Ok n ->
  turfFeatures T toLonLat (drawSource w) = Ok tfs ->
  In (PointsTooClose i j d) (reported n) ->
  exists f o p q,
    In (f, p) (indexed tfs 0) /\ In (o, q) (indexed tfs 0)
    /\ i = p + 1 /\ j = q + 1 /\ p <> q
    /\ type f = TPoint /\ type o = TPoint
    /\ turf.distance T (geometry f) (geometry o) = Ok d
    /\ lt d 0.1%float = true.
Proof.
  intros Hn Ht Hm.
  assert (Hnil : tfs <> []).
  { intros ->.
    destruct (drawSource w) as [|x l] eqn:Ed.
    - destruct Hn as [Hn|Hn]; [unfold V1.checkTopology in Hn|unfold V2.checkTopology in Hn];
        rewrite Ed in Hn; simpl in Hn; inversion Hn; subst n; destruct Hm.
    - pose proof (turfFeatures_wellIndexed T toLonLat (x :: l) [] Ht) as [_ Hl].
      discriminate Hl. }
  destruct (completed_run T toLonLat w n tfs Hn Ht Hnil) as (W & Fs & others & E & Fo).
  rewrite E in Hm. apply in_app_or in Hm as [Hm|Hm].
  - apply in_flat_map in Hm as ([f p] & Hfp & Hm).
    rewrite Forall_forall in Fs. pose proof (Fs (f, p) Hfp) as Ho. simpl in Ho.
    destruct (geometry f) as [c|coords|rings|regions] eqn:Eg.
    + assert (Tf : type f = TPoint) by (unfold type; rewrite Eg; reflexivity).
      rewrite (selfCheck_point_entries T tfs f p Tf Ho) in Hm.
      unfold pointEntries in Hm. apply in_flat_map in Hm as ([o q] & Hoq & Hm).
      simpl in Hm.
      destruct (negb (p =? q)) eqn:Epq; [|destruct Hm].
      destruct (TypeName_eqb (type o) TPoint) eqn:To; [|destruct Hm].
      simpl in Hm. unfold tooClose in Hm.
      destruct (turf.distance T (geometry f) (geometry o)) as [d'|e] eqn:Ed; [|destruct Hm].
      destruct (lt d' 0.1%float) eqn:El; [|destruct Hm].
      destruct Hm as [Hm|[]]. inversion Hm; subst.
      destruct (wellIndexed_In tfs W f p Hfp) as [E1 _].
      destruct (wellIndexed_In tfs W o q Hoq) as [E2 _].
      exists f, o, p, q. repeat split; auto.
      * apply negb_true_iff, Nat.eqb_neq in Epq. exact Epq.
      * destruct (type o); try discriminate; reflexivity.
    + exfalso.
      assert (Hp : forall c, geometry f <> turf.Point c) by (rewrite Eg; discriminate).
      pose proof (selfCheck_entries_own T tfs f p Hp) as Q. unfold entriesAll in Q.
      rewrite Forall_forall in Q. destruct (Q _ Hm) as [Hs _]. discriminate Hs.
    + exfalso.
      assert (Hp : forall c, geometry f <> turf.Point c) by (rewrite Eg; discriminate).
      pose proof (selfCheck_entries_own T tfs f p Hp) as Q. unfold entriesAll in Q.
      rewrite Forall_forall in Q. destruct (Q _ Hm) as [Hs _]. discriminate Hs.
    + exfalso.
      assert (Hp : forall c, geometry f <> turf.Point c) by (rewrite Eg; discriminate).
      pose proof (selfCheck_entries_own T tfs f p Hp) as Q. unfold entriesAll in Q.
      rewrite Forall_forall in Q. destruct (Q _ Hm) as [Hs _]. discriminate Hs.
  - exfalso. rewrite Forall_forall in Fo. destruct (Fo _ Hm) as [_ Hp].
    exact (Hp i j d eq_refl).
Qed.

End Coincidences.

(* ------------------------------------------------------------------ *)
(** ** The two variants side by side *)
(* ------------------------------------------------------------------ *)

Section SideBySide.

Variable T : turf.lib.
Variable toLonLat : coord -> coord.

Lemma forEach_returns {A} (body : A -> nat -> M unit) (array : list A) (i : nat) :
  (forall x k, local (body x k)) ->
  Forall (fun xk => outcome (body (fst xk) (snd xk)) = Ok tt) (indexed array i) ->
  outcome (forEach body array i) = Ok tt.
Proof.
  intros L. revert i. unfold indexed.
  induction array as [|x rest IH]; intros i F; simpl in *; [reflexivity|].
  inversion F as [|? ? Hx Hr]; subst. simpl in Hx.
  rewrite (outcome_bind _ _ (L x i) (fun _ => local_forEach body rest (S i) L)), Hx.
  apply IH, Hr.
Qed.

Lemma forPairs_returns {A} (body : A -> A -> M unit) (a : list A) :
  (forall x y, local (body x y)) ->
  Forall (fun xy => outcome (body (fst xy) (snd xy)) = Ok tt) (pairs a) ->
  outcome (forPairs body a) = Ok tt.
Proof.
  intros L. induction a as [|x rest IH]; simpl; intros F; [reflexivity|].
  apply Forall_app in F as [F1 F2].
  assert (Hi : local (forEach (fun y (_ : nat) => body x y) rest 0))
    by (apply local_forEach; intros; apply L).
  rewrite (outcome_bind _ _ Hi (fun _ => local_forPairs body rest L)).
  rewrite (forEach_returns (fun y (_ : nat) => body x y) rest 0 (fun y k => L x y)).
  - apply IH, F2.
  - rewrite Forall_map in F1. simpl in F1.
    apply Forall_forall. intros [y k] Hy. simpl.
    rewrite Forall_forall in F1. apply F1.
    unfold indexed in Hy. apply in_combine_l in Hy. exact Hy.
Qed.

Lemma written_seq {A B} (m : M A) (k : A -> M B) :
  local m -> (forall a, local (k a)) ->
  exists dx, written (bind m k) = extend (written m) dx.
Proof.
  intros Lm Lk. rewrite (written_bind m k Lm Lk).
  destruct (outcome m) as [a|e]; [eauto|].
  exists initial. rewrite extend_initial. reflexivity.
Qed.

Lemma written_guarded (m : M unit) :
  local m -> written (try_catch m (fun _ => ret tt)) = written m.
Proof.
  intros L. rewrite (written_try_catch m _ L (fun _ => local_ret tt)).
  destruct (outcome m); [reflexivity|]. rewrite written_ret. apply extend_initial.
Qed.

Lemma V2_containmentCheck_returns (f1 f2 : TurfFeature) :
  outcome (V2.containmentCheck T f1 f2) = Ok tt.
Proof. unfold V2.containmentCheck. apply guarded_returns. solve_local. Qed.

Lemma V2_overlapCheck_returns (f1 f2 : TurfFeature) :
  outcome (V2.overlapCheck T f1 f2) = Ok tt.
Proof. unfold V2.overlapCheck. apply guarded_returns. solve_local. Qed.

Lemma V2_crossCheck_returns (f1 f2 : TurfFeature) :
  outcome (V2.crossCheck T f1 f2) = Ok tt.
Proof.
  unfold V2.crossCheck.
  destruct (type f1), (type f2); try reflexivity.
  apply guarded_returns. solve_local.
Qed.

(** The containment check of the first variant starts as that of the
    annotated variant. *)
Lemma containment_extends (f1 f2 : TurfFeature) :
  exists dx, written (V1.containmentCheck T f1 f2)
             = extend (written (V2.containmentCheck T f1 f2)) dx.
Proof.
  unfold V1.containmentCheck, V2.containmentCheck.
  rewrite !written_guarded by solve_local.
  rewrite !written_bind by locality. rewrite !outcome_call, !written_call.
  destruct (turf.booleanContains T (geometry f1) (geometry f2)) as [contains12|e].
  - match goal with
    | |- context [written (bind ?m ?k)] =>
        destruct (written_seq m k) as [dx E]; [solve_local|intro; solve_local|]
    end.
    rewrite E. exists dx. rewrite extend_assoc. reflexivity.
  - exists initial. reflexivity.
Qed.

Lemma V2_local_crossCheck (f1 f2 : TurfFeature) : local (V2.crossCheck T f1 f2).
Proof. unfold V2.crossCheck. solve_local. Qed.

Lemma V2_local_typedChecks (f1 f2 : TurfFeature) : local (V2.typedChecks T f1 f2).
Proof.
  unfold V2.typedChecks, V2.intersectionCheck, V2.containmentCheck. solve_local.
Qed.

Lemma extends_initial {A} (m : M A) :
  local m -> exists dx, written m = extend initial dx.
Proof. intros L. exists (written m). symmetry. apply (written_normal m L). Qed.

(** What the first variant writes for a pair starts with what the annotated
    variant writes for it. *)
Lemma pair_extends (f1 f2 : TurfFeature) :
  exists dx, written (V1.pairCheck T f1 f2) = extend (written (V2.pairCheck T f1 f2)) dx.
Proof.
  assert (L1 : local (V1.crossCheck T f1 f2 ;; V1.typedChecks T f1 f2))
    by (apply local_bind; [apply V1_local_crossCheck|intro; apply V1_local_typedChecks]).
  assert (L2 : local (V2.crossCheck T f1 f2 ;; V2.typedChecks T f1 f2))
    by (apply local_bind; [apply V2_local_crossCheck|intro; apply V2_local_typedChecks]).
  unfold V1.pairCheck, V2.pairCheck.
  rewrite (written_bind_ok _ _ tt (V1_overlapCheck_returns T f1 f2) L1).
  rewrite (written_bind_ok _ _ tt (V2_overlapCheck_returns f1 f2) L2).
  change (V2.overlapCheck T f1 f2) with (V1.overlapCheck T f1 f2).
  enough (exists dx, written (V1.crossCheck T f1 f2 ;; V1.typedChecks T f1 f2)
                     = extend (written (V2.crossCheck T f1 f2 ;; V2.typedChecks T f1 f2)) dx)
    as [dx E] by (exists dx; rewrite E, extend_assoc; reflexivity).
  clear L2. revert L1.
  unfold V1.crossCheck, V2.crossCheck, V1.typedChecks, V2.typedChecks.
  destruct (type f1), (type f2); cbv beta iota; intros L1;
    try (match goal with
         | |- exists dx, written ?m1 = extend (written (ret tt ;; ret tt)) dx =>
             exists (written m1); symmetry; exact (written_normal m1 L1)
         end).
  - (* two lines *)
    match goal with
    | |- context [written (bind ?m (fun _ => V1.danglingCheck T f1 f2))] =>
        destruct (written_seq m (fun _ => V1.danglingCheck T f1 f2)) as [dx E];
          [solve_local|intro; apply V1_local_danglingCheck|];
        rewrite E; exists dx; f_equal;
        assert (Lm : local m) by solve_local;
        assert (Om : outcome m = Ok tt) by (apply guarded_returns; solve_local);
        rewrite (written_bind_ok m (fun _ => ret tt) tt Om (local_ret tt))
    end.
    rewrite written_ret, extend_initial. reflexivity.
  - (* two polygons *)
    change (written (ret tt ;; (V1.intersectionCheck T f1 f2 ;;
                                V1.containmentCheck T f1 f2 ;;
                                V1.adjacencyCheck T f1 f2 ;; V1.gapCheck T f1 f2)))
      with (written (V1.intersectionCheck T f1 f2 ;;
                     V1.containmentCheck T f1 f2 ;;
                     V1.adjacencyCheck T f1 f2 ;; V1.gapCheck T f1 f2)).
    change (written (ret tt ;; (V2.intersectionCheck T f1 f2 ;;
                                V2.containmentCheck T f1 f2)))
      with (written (V1.intersectionCheck T f1 f2 ;; V2.containmentCheck T f1 f2)).
    assert (La : local (V1.adjacencyCheck T f1 f2 ;; V1.gapCheck T f1 f2))
      by (apply local_bind; [apply V1_local_adjacencyCheck|intro; apply V1_local_gapCheck]).
    assert (Lk : local (V1.containmentCheck T f1 f2 ;;
                        V1.adjacencyCheck T f1 f2 ;; V1.gapCheck T f1 f2))
      by (apply local_bind; [apply V1_local_containmentCheck|intro; exact La]).
    assert (Lk2 : local (V2.containmentCheck T f1 f2))
      by (unfold V2.containmentCheck; solve_local).
    rewrite (written_bind _ _ (V1_local_intersectionCheck T f1 f2) (fun _ => Lk)).
    rewrite (written_bind _ _ (V1_local_intersectionCheck T f1 f2) (fun _ => Lk2)).
    destruct (outcome (V1.intersectionCheck T f1 f2)) as [[]|e].
    + destruct (written_seq (V1.containmentCheck T f1 f2)
                  (fun _ => V1.adjacencyCheck T f1 f2 ;; V1.gapCheck T f1 f2)
                  (V1_local_containmentCheck T f1 f2) (fun _ => La)) as [d1 E1].
      destruct (containment_extends f1 f2) as [dk Ek].
      rewrite E1, Ek. exists (extend dk d1). rewrite !extend_assoc. reflexivity.
    + exists initial. rewrite extend_initial. reflexivity.
Qed.

Lemma pair_returns (f1 f2 : TurfFeature) :
  outcome (V1.pairCheck T f1 f2) = Ok tt -> outcome (V2.pairCheck T f1 f2) = Ok tt.
Proof.
  rewrite (proj1 (V1_pairCheck_run T f1 f2)).
  unfold V2.pairCheck.
  assert (L2 : local (V2.crossCheck T f1 f2 ;; V2.typedChecks T f1 f2))
    by (apply local_bind; [apply V2_local_crossCheck|intro; apply V2_local_typedChecks]).
  rewrite (outcome_bind_ok _ _ tt (V2_overlapCheck_returns f1 f2) L2).
  rewrite (outcome_bind_ok _ _ tt (V2_crossCheck_returns f1 f2)
             (V2_local_typedChecks f1 f2)).
  unfold V1.typedChecks, V2.typedChecks.
  destruct (type f1), (type f2); cbv beta iota; try reflexivity.
  assert (La : local (V1.adjacencyCheck T f1 f2 ;; V1.gapCheck T f1 f2))
    by (apply local_bind; [apply V1_local_adjacencyCheck|intro; apply V1_local_gapCheck]).
  assert (Lk : local (V1.containmentCheck T f1 f2 ;;
                      V1.adjacencyCheck T f1 f2 ;; V1.gapCheck T f1 f2))
    by (apply local_bind; [apply V1_local_containmentCheck|intro; exact La]).
  assert (Lk2 : local (V2.containmentCheck T f1 f2))
    by (unfold V2.containmentCheck; solve_local).
  change (V2.intersectionCheck T f1 f2) with (V1.intersectionCheck T f1 f2).
  rewrite (outcome_bind _ _ (V1_local_intersectionCheck T f1 f2) (fun _ => Lk)).
  rewrite (outcome_bind _ _ (V1_local_intersectionCheck T f1 f2) (fun _ => Lk2)).
  destruct (outcome (V1.intersectionCheck T f1 f2)) as [[]|e]; [|discriminate].
  intros _. apply V2_containmentCheck_returns.
Qed.

Lemma highlights_incl (features : list ol.Feature) (l1 l2 : list nat) :
  incl l1 l2 -> incl (highlights features l1) (highlights features l2).
Proof.
  intros H g Hg. apply highlights_inv in Hg as (p & feature & Hp & Hf & ->).
  apply (highlights_In _ _ p); [apply H, Hp|exact Hf].
Qed.

Lemma V2_validate_follows (tfs : list TurfFeature) :
  outcome (V1.validate T tfs) = Ok tt ->
  outcome (V2.validate T tfs) = Ok tt
  /\ incl (errors (written (V2.validate T tfs))) (errors (written (V1.validate T tfs)))
  /\ incl (errorFeatureIndices (written (V2.validate T tfs)))
          (errorFeatureIndices (written (V1.validate T tfs))).
Proof.
  intros Hv. destruct (V1_validate_completes T tfs Hv) as (Fs & Fp & W1).
  assert (Hv2 : outcome (V2.validate T tfs) = Ok tt).
  { unfold V2.validate.
    assert (L1 : local (forEach (selfCheck T tfs) tfs 0))
      by (apply local_forEach; intros; apply local_selfCheck).
    assert (L2 : forall u : unit, local (forPairs (V2.pairCheck T) tfs))
      by (intros _; apply local_forPairs; intros; apply V2_local_pairCheck).
    rewrite (outcome_bind _ _ L1 L2).
    rewrite (forEach_returns _ tfs 0 (local_selfCheck T tfs) Fs).
    apply forPairs_returns; [intros; apply V2_local_pairCheck|].
    revert Fp. apply Forall_impl. intros [f1 f2]. apply pair_returns. }
  split; [exact Hv2|].
  destruct (V2_validate_completes T tfs Hv2) as (_ & _ & W2).
  split.
  - rewrite (V1_validate_entries T tfs Hv), (V2_validate_entries T tfs Hv2).
    intros m Hm. apply in_app_or in Hm as [Hm|Hm]; apply in_or_app; [left; exact Hm|right].
    apply in_or_app. left.
    apply in_flat_map in Hm as ([f1 f2] & Hff & Hm). apply in_flat_map.
    exists (f1, f2). split; [exact Hff|].
    unfold V1.pairEntries. simpl in *.
    destruct (pair_extends f1 f2) as [dx E]. rewrite E, errors_extend.
    apply in_or_app. left. exact Hm.
  - rewrite W1, W2. intros i Hi.
    apply indices_extend in Hi as [Hi|Hi]; apply indices_extend; [left; exact Hi|right].
    apply indices_extend. left.
    apply indices_gather in Hi as (d & Hd & Hi). apply indices_gather.
    apply in_map_iff in Hd as ([f1 f2] & <- & Hff). simpl in Hi.
    exists (written (V1.pairCheck T f1 f2)). split.
    + apply in_map_iff. exists (f1, f2). auto.
    + destruct (pair_extends f1 f2) as [dx E]. rewrite E. apply indices_extend. auto.
Qed.

Lemma V2_run_follows (w : World) (n1 : Notification) :
  fst (V1.checkTopology T toLonLat w) = Ok n1 ->
  exists n2,
    fst (V2.checkTopology T toLonLat w) = Ok n2
    /\ incl (reported n2) (reported n1)
    /\ incl (highlightSource (snd (V2.checkTopology T toLonLat w)))
            (highlightSource (snd (V1.checkTopology T toLonLat w))).
Proof.
  intros Hn.
  assert (D : drawSource w = [] \/ drawSource w <> [])
    by (destruct (drawSource w); [left; reflexivity|right; discriminate]).
  destruct D as [Ed|Hne].
  - unfold V1.checkTopology, V2.checkTopology in *. rewrite Ed in *. simpl in *.
    inversion Hn; subst. exists NothingToCheck. repeat split; apply incl_refl.
  - destruct (V1_checkTopology_completes T toLonLat w n1 Hne Hn)
      as (tfs & Ht & Hv & -> & Hh).
    destruct (V2_validate_follows tfs Hv) as (Hv2 & Ie & Ii).
    rewrite Hh. rewrite (V2_checkTopology_run T toLonLat w Hne), Ht, Hv2. simpl.
    eexists. split; [reflexivity|].
    rewrite !reported_notification. split; [exact Ie|].
    apply highlights_incl, Ii.
Qed.

End SideBySide.

(* ------------------------------------------------------------------ *)
(** ** The toolbar *)
(* ------------------------------------------------------------------ *)

Section ToolbarFacts.

Variable T : turf.lib.
Variable toLonLat : coord -> coord.
Variable fromLonLat : coord -> coord.
Variable parseFloat : string -> number.
Variable formValid : RangeForm -> bool.

Lemma withoutDrawInteraction_single (t : Tool) :
  singleInteraction t -> withoutDrawInteraction t = [].
Proof.
  unfold withoutDrawInteraction.
  intros [E|(d & Ed & _ & Ei)].
  - rewrite E. destruct (drawInteraction t); reflexivity.
  - rewrite Ed, Ei. simpl. rewrite Nat.eqb_refl. reflexivity.
Qed.

Lemma fold_invariant {X S : Type} (P : S -> Prop) (f : S -> X -> S) (l : list X) (s : S) :
  P s -> (forall x s', P s' -> P (f s' x)) -> P (fold_left f l s).
Proof.
  intros H0 Hs. revert s H0. induction l as [|x l IH]; intros s H0; simpl; [exact H0|].
  apply IH, Hs, H0.
Qed.

Lemma clearAllDrawings_single (t : Tool) :
  singleInteraction t -> interactions (clearAllDrawings t) = [].
Proof.
  intros H. pose proof (withoutDrawInteraction_single t H) as E.
  unfold clearAllDrawings, withoutDrawInteraction in *.
  destruct (drawInteraction t); exact E.
Qed.

Lemma V1_startDrawing_single (type_ : TypeName) (t : Tool) :
  singleInteraction t -> singleInteraction (V1Tool.startDrawing type_ t).
Proof.
  intros H. pose proof (withoutDrawInteraction_single t H) as E.
  right. exists {| draw_uid := created t; draw_type := type_ |}.
  unfold V1Tool.startDrawing. cbn [drawInteraction drawingMode interactions draw_type].
  rewrite E. repeat split.
Qed.

Lemma V2_startDrawing_single (type_ : TypeName) (t : Tool) :
  singleInteraction t -> singleInteraction (snd (V2Tool.startDrawing type_ t)).
Proof.
  intros H. pose proof (withoutDrawInteraction_single t H) as E.
  unfold V2Tool.startDrawing. destruct (rangeExtent (world t)).
  - right. exists {| draw_uid := created t; draw_type := type_ |}.
    cbn [snd drawInteraction drawingMode interactions draw_type].
    rewrite E. repeat split.
  - left. exact E.
Qed.

Lemma V1_step_single (a : Action) (t : Tool) :
  singleInteraction t ->
  singleInteraction (snd (V1Tool.step T toLonLat parseFloat formValid a t)).
Proof.
  intros H. pose proof (withoutDrawInteraction_single t H) as E.
  destruct a as [toolId|form| | |source]; simpl.
  - unfold V1Tool.handleToolClick.
    repeat match goal with
           | |- context [if ?b then _ else _] => destruct b
           end; cbn [snd];
      try (apply V1_startDrawing_single, H);
      try exact H.
    left. apply clearAllDrawings_single, H.
  - exact H.
  - exact H.
  - exact H.
  - unfold sketch. destruct (interactions t); exact H.
Qed.

Lemma V2_step_single (a : Action) (t : Tool) :
  singleInteraction t ->
  singleInteraction (snd (V2Tool.step T toLonLat fromLonLat parseFloat formValid a t)).
Proof.
  intros H. pose proof (withoutDrawInteraction_single t H) as E.
  destruct a as [toolId|form| | |source]; simpl.
  - unfold V2Tool.handleToolClick.
    repeat match goal with
           | |- context [if ?b then _ else _] => destruct b
           end; cbn [snd];
      try (apply V2_startDrawing_single, H);
      try exact H.
    left. apply clearAllDrawings_single, H.
  - exact H.
  - exact H.
  - exact H.
  - unfold sketch. destruct (interactions t); exact H.
Qed.

Lemma loadedTool_single : singleInteraction loadedTool.
Proof. left. reflexivity. Qed.

Lemma V2_confirmRange_cases (w : World) :
  snd (V2.confirmRange parseFloat fromLonLat formValid w) = w
  \/ exists extent,
       RangeConstraint.rules (ol.minX extent) (ol.minY extent)
                             (ol.maxX extent) (ol.maxY extent) = true
       /\ snd (V2.confirmRange parseFloat fromLonLat formValid w)
          = {| drawSource := drawSource w; highlightSource := highlightSource w;
               rangeExtent := Some extent;
               rangeLayer := [V2.rangeFeature fromLonLat (ol.minX extent) (ol.minY extent)
                                              (ol.maxX extent) (ol.maxY extent)];
               dialogVisible := false; rangeForm := emptyForm |}.
Proof.
  unfold V2.confirmRange.
  destruct (formValid (rangeForm w)); [|left; reflexivity].
  cbv zeta.
  destruct (isNaN _ || isNaN _ || isNaN _ || isNaN _) eqn:E1; [left; reflexivity|].
  destruct (V2.longitudeOutOfDomain _ _) eqn:E2; [left; reflexivity|].
  destruct (V2.latitudeOutOfDomain _ _) eqn:E3; [left; reflexivity|].
  destruct (ge _ _ || ge _ _) eqn:E4; [left; reflexivity|].
  destruct (lt _ _ || lt _ _) eqn:E5; [left; reflexivity|].
  right.
  exists {| ol.minX := parseFloat (form_minX (rangeForm w));
            ol.minY := parseFloat (form_minY (rangeForm w));
            ol.maxX := parseFloat (form_maxX (rangeForm w));
            ol.maxY := parseFloat (form_maxY (rangeForm w)) |}.
  split; [|reflexivity].
  apply V2_tests_pass_rules; assumption.
Qed.

Lemma V2_step_rangeShown (a : Action) (t : Tool) :
  rangeShown fromLonLat t ->
  rangeShown fromLonLat (snd (V2Tool.step T toLonLat fromLonLat parseFloat formValid a t)).
Proof.
  intros H. destruct a as [toolId|form| | |source]; cbn [V2Tool.step snd].
  - unfold V2Tool.handleToolClick.
    repeat match goal with
           | |- context [if ?b then _ else _] => destruct b
           end; cbn [snd]; try exact H.
    + unfold V2Tool.startDrawing, rangeShown in *.
      destruct (rangeExtent (world t)) eqn:E; cbn [snd world]; rewrite E; [exact H|].
      cbn [interactions drawInteraction]. unfold withoutDrawInteraction.
      destruct H as (H1 & H2 & H3 & H4). rewrite H3. auto.
    + unfold V2Tool.startDrawing, rangeShown in *.
      destruct (rangeExtent (world t)) eqn:E; cbn [snd world]; rewrite E; [exact H|].
      cbn [interactions drawInteraction]. unfold withoutDrawInteraction.
      destruct H as (H1 & H2 & H3 & H4). rewrite H3. auto.
    + unfold V2Tool.startDrawing, rangeShown in *.
      destruct (rangeExtent (world t)) eqn:E; cbn [snd world]; rewrite E; [exact H|].
      cbn [interactions drawInteraction]. unfold withoutDrawInteraction.
      destruct H as (H1 & H2 & H3 & H4). rewrite H3. auto.
    + unfold clearAllDrawings, rangeShown in *.
      destruct (drawInteraction t) eqn:Ed; simpl;
        destruct (rangeExtent (world t)); try exact H;
        destruct H as (H1 & H2 & H3 & H4); try discriminate; auto.
    + unfold V2Tool.checkTopology, rangeShown in *. cbn [snd].
      destruct (V2_checkTopology_writes_highlight T toLonLat (world t)) as (h & E & _).
      rewrite E. simpl. exact H.
  - exact H.
  - unfold V2Tool.confirmRange, rangeShown in *. cbn [snd].
    destruct (V2_confirmRange_cases (world t)) as [E|(extent & R & E)]; rewrite E.
    + exact H.
    + simpl. split; [exact R|reflexivity].
  - exact H.
  - unfold sketch. destruct (interactions t) eqn:Ei; [exact H|].
    unfold rangeShown in *. simpl.
    destruct (rangeExtent (world t)); [exact H|].
    destruct H as (_ & H & _). rewrite Ei in H. discriminate H.
Qed.

Lemma loadedTool_rangeShown : rangeShown fromLonLat loadedTool.
Proof. repeat split. Qed.

Lemma V1_run_single (actions : list Action) :
  singleInteraction (V1Tool.run T toLonLat parseFloat formValid actions loadedTool).
Proof.
  unfold V1Tool.run.
  apply (fold_invariant singleInteraction); [apply loadedTool_single|].
  intros a t. apply V1_step_single.
Qed.

Lemma V2_run_single (actions : list Action) :
  singleInteraction (V2Tool.run T toLonLat fromLonLat parseFloat formValid actions loadedTool).
Proof.
  unfold V2Tool.run.
  apply (fold_invariant singleInteraction); [apply loadedTool_single|].
  intros a t. apply V2_step_single.
Qed.

Lemma V2_run_rangeShown (actions : list Action) :
  rangeShown fromLonLat
    (V2Tool.run T toLonLat fromLonLat parseFloat formValid actions loadedTool).
Proof.
  unfold V2Tool.run.
  apply (fold_invariant (rangeShown fromLonLat)); [apply loadedTool_rangeShown|].
  intros a t. apply V2_step_rangeShown.
Qed.

End ToolbarFacts.

(* ------------------------------------------------------------------ *)
(** ** The fields of the range dialog *)
(* ------------------------------------------------------------------ *)

Section DialogFacts.

Variable parseFloat : string -> number.

Lemma outside_not_inside (lo hi v : number) :
  isNaN lo = false -> isNaN hi = false ->
  (isNaN v || (lt v lo || gt v hi)) = negb (le lo v && le v hi).
Proof.
  intros Hlo Hhi. destruct (isNaN v) eqn:Ev; simpl.
  - destruct (le lo v) eqn:E; [|reflexivity].
    apply le_true_numbers in E as [_ E]. congruence.
  - rewrite (lt_not_ge v lo Ev Hlo), (gt_not_le v hi Ev Hhi).
    unfold ge, le. destruct (PrimFloat.leb lo v), (PrimFloat.leb v hi); reflexivity.
Qed.

Lemma validateNumber_run (field : Field) (w : World) :
  V2Tool.validateNumber parseFloat field w
  = if String.eqb (getField (rangeForm w) field) EmptyString then (None, w)
    else if inFieldDomain field (parseFloat (getField (rangeForm w) field)) then (None, w)
    else (Some (if isNaN (parseFloat (getField (rangeForm w) field)) then NotANumber
                else match field with
                     | Field_minX | Field_maxX => LongitudeOutOfDomain
                     | Field_minY | Field_maxY => LatitudeOutOfDomain
                     end),
          set_rangeForm w (setField (rangeForm w) field EmptyString)).
Proof.
  unfold V2Tool.validateNumber. cbv zeta.
  destruct (String.eqb (getField (rangeForm w) field) EmptyString); [reflexivity|].
  set (v := parseFloat (getField (rangeForm w) field)).
  assert (X : (isNaN v || (lt v (-180)%float || gt v 180%float))
              = negb (le (-180)%float v && le v 180%float))
    by (apply outside_not_inside; reflexivity).
  assert (Y : (isNaN v || (lt v (-90)%float || gt v 90%float))
              = negb (le (-90)%float v && le v 90%float))
    by (apply outside_not_inside; reflexivity).
  destruct field; cbn [inFieldDomain].
  - change (includes (fieldName Field_minX) "X") with true. cbv iota.
    destruct (isNaN v); simpl in X;
      destruct (le (-180)%float v && le v 180%float); simpl in X;
      try discriminate X; try rewrite X; reflexivity.
  - change (includes (fieldName Field_minY) "X") with false.
    change (includes (fieldName Field_minY) "Y") with true. cbv iota.
    destruct (isNaN v); simpl in Y;
      destruct (le (-90)%float v && le v 90%float); simpl in Y;
      try discriminate Y; try rewrite Y; reflexivity.
  - change (includes (fieldName Field_maxX) "X") with true. cbv iota.
    destruct (isNaN v); simpl in X;
      destruct (le (-180)%float v && le v 180%float); simpl in X;
      try discriminate X; try rewrite X; reflexivity.
  - change (includes (fieldName Field_maxY) "X") with false.
    change (includes (fieldName Field_maxY) "Y") with true. cbv iota.
    destruct (isNaN v); simpl in Y;
      destruct (le (-90)%float v && le v 90%float); simpl in Y;
      try discriminate Y; try rewrite Y; reflexivity.
Qed.

End DialogFacts.

Section MoreToolbarFacts.

Variable T : turf.lib.
Variable toLonLat : coord -> coord.
Variable fromLonLat : coord -> coord.
Variable parseFloat : string -> number.
Variable formValid : RangeForm -> bool.

Lemma clearAllDrawings_world (t : Tool) :
  world (clearAllDrawings t)
  = set_highlightSource (set_drawSource (world t) []) [].
Proof. unfold clearAllDrawings. destruct (drawInteraction t); reflexivity. Qed.

Lemma V1_step_keeps_range (a : Action) (t : Tool) :
  rangeExtent (world t) <> None ->
  rangeExtent (world (snd (V1Tool.step T toLonLat parseFloat formValid a t))) <> None.
Proof.
  intros H. destruct a as [toolId|form| | |source]; cbn [V1Tool.step snd].
  - unfold V1Tool.handleToolClick.
    repeat match goal with
           | |- context [if ?b then _ else _] => destruct b
           end; cbn [snd]; try exact H.
    + rewrite clearAllDrawings_world. exact H.
    + unfold V1Tool.checkTopology. cbn [snd world set_world].
      destruct (V1_checkTopology_writes_highlight T toLonLat (world t)) as (h & E & _).
      rewrite E. exact H.
  - exact H.
  - unfold V1Tool.confirmRange, V1.confirmRange. cbn [snd world set_world].
    destruct (formValid (rangeForm (world t))); [|exact H]. cbv zeta.
    destruct (ge _ _ || ge _ _); [exact H|]. simpl. discriminate.
  - exact H.
  - unfold sketch. destruct (interactions t); exact H.
Qed.

Lemma V2_step_keeps_range (a : Action) (t : Tool) :
  rangeExtent (world t) <> None ->
  rangeExtent (world (snd (V2Tool.step T toLonLat fromLonLat parseFloat formValid a t)))
  <> None.
Proof.
  intros H. destruct a as [toolId|form| | |source]; cbn [V2Tool.step snd].
  - unfold V2Tool.handleToolClick.
    repeat match goal with
           | |- context [if ?b then _ else _] => destruct b
           end; cbn [snd]; try exact H;
      try (unfold V2Tool.startDrawing; destruct (rangeExtent (world t)) eqn:E;
           cbn [snd world]; rewrite E; congruence).
    + rewrite clearAllDrawings_world. exact H.
    + unfold V2Tool.checkTopology. cbn [snd world set_world].
      destruct (V2_checkTopology_writes_highlight T toLonLat (world t)) as (h & E & _).
      rewrite E. exact H.
  - exact H.
  - unfold V2Tool.confirmRange. cbn [snd world set_world].
    destruct (V2_confirmRange_cases fromLonLat parseFloat formValid (world t))
      as [E|(extent & _ & E)]; rewrite E; [exact H|]. simpl. discriminate.
  - exact H.
  - unfold sketch. destruct (interactions t); exact H.
Qed.

Lemma Tool_eta (t : Tool) :
  {| world := world t; drawInteraction := drawInteraction t; drawingMode := drawingMode t;
     interactions := interactions t; created := created t |} = t.
Proof. destruct t; reflexivity. Qed.

Lemma validated_value (field : Field) (w : World) :
  getField (rangeForm w) field <> EmptyString ->
  fst (V2Tool.validateNumber parseFloat field w) = None ->
  inFieldDomain field (parseFloat (getField (rangeForm w) field)) = true.
Proof.
  intros Hne. rewrite validateNumber_run.
  destruct (String.eqb_spec (getField (rangeForm w) field) EmptyString); [contradiction|].
  destruct (inFieldDomain field _); [reflexivity|discriminate].
Qed.

Lemma inside_tests (lo hi v : number) :
  isNaN lo = false -> isNaN hi = false ->
  le lo v && le v hi = true ->
  isNaN v = false /\ lt v lo = false /\ gt v hi = false.
Proof.
  intros Hlo Hhi H. pose proof (outside_not_inside lo hi v Hlo Hhi) as E.
  rewrite H in E. simpl in E. apply orb_false_iff in E as [E1 E2].
  apply orb_false_iff in E2 as [E2 E3]. auto.
Qed.

End MoreToolbarFacts.

Section NaNFacts.

Import SpecFloat.

Lemma isNaN_true_Prim2SF (x : number) : isNaN x = true -> Prim2SF x = S754_nan.
Proof.
  intros H. destruct (Prim2SF x) as [s|s| |s m e] eqn:E; try reflexivity; exfalso;
    assert (N : Prim2SF x <> S754_nan) by (rewrite E; discriminate);
    apply Prim2SF_isNaN_false in N; congruence.
Qed.

Lemma lt_NaN (x a : number) : isNaN x = true -> lt x a = false /\ lt a x = false.
Proof.
  intros H. apply isNaN_true_Prim2SF in H.
  unfold lt. rewrite !FloatAxioms.ltb_spec, H. unfold SFltb, SFcompare.
  split; [reflexivity|].
  destruct (Prim2SF a) as [s|s| |s m e]; try reflexivity; destruct s; reflexivity.
Qed.

End NaNFacts.

Section GroupFacts.

Variable T : turf.lib.
Variable toLonLat : coord -> coord.

Lemma V1_few_polygons_no_group (tfs : list TurfFeature) :
  List.length (filter (fun f => TypeName_eqb (type f) TPolygon) tfs) <= 2 ->
  V1.groupEntries T tfs = [].
Proof.
  intros H. unfold V1.groupEntries, V1.polygonGroupCheck. cbv zeta.
  apply Nat.ltb_ge in H. rewrite H. reflexivity.
Qed.

End GroupFacts.

(* ================================================================== *)
(** * Further properties of the script *)
(* ================================================================== *)

(** ** The checks of one feature *)

(** A failure of the library on a polygon is caught.  When [booleanValid]
    throws on a polygon of the collection, or returns and [area] throws,
    the callback of the polygon still returns; every run that completes
    (either variant) reports the polygon as invalid with the message of
    the exception and highlights it. *)
Theorem polygon_failure_is_reported
    (T : turf.lib) (toLonLat : coord -> coord) (w : World) (tfs : list TurfFeature)
    (f : TurfFeature) (k : nat) (rings : list (list coord)) (e : string) :
  turfFeatures T toLonLat (drawSource w) = Ok tfs ->
  In (f, k) (indexed tfs 0) ->
  geometry f = turf.Polygon rings ->
  turf.booleanValid T (geometry f) = Throw e
  \/ (exists valid c coords rest,
        turf.booleanValid T (geometry f) = Ok valid
        /\ rings = (c :: coords) :: rest
        /\ turf.area T (geometry f) = Throw e) ->
  outcome (selfCheck T tfs f k) = Ok tt
  /\ forall n,
       fst (V1.checkTopology T toLonLat w) = Ok n
       \/ fst (V2.checkTopology T toLonLat w) = Ok n ->
       In (PolygonInvalid (k + 1) e) (reported n)
       /\ forall feature,
            nth_error (drawSource w) k = Some feature ->
            (fst (V1.checkTopology T toLonLat w) = Ok n ->
             In (ol.getGeometry feature)
                (highlightSource (snd (V1.checkTopology T toLonLat w))))
            /\ (fst (V2.checkTopology T toLonLat w) = Ok n ->
                In (ol.getGeometry feature)
                   (highlightSource (snd (V2.checkTopology T toLonLat w)))).
Proof.
  intros Ht Hfk Hg He.
  split; [exact (polygon_selfCheck_returns T tfs f k rings Hg)|].
  destruct (turfFeatures_wellIndexed T toLonLat _ _ Ht) as [W _].
  destruct (wellIndexed_In tfs W f k Hfk) as [Ei _].
  destruct (polygon_failure_entry T tfs f k rings e Hg He) as [before Eb].
  assert (Hin : In (PolygonInvalid (k + 1) e) (featureEntries T tfs (f, k)))
    by (rewrite Eb, <- Ei; apply in_or_app; right; left; reflexivity).
  intros n Hn. split.
  - apply (selfCheck_located T toLonLat w n tfs f k _ Hn Ht Hfk); [reflexivity| |exact Hin].
    simpl. rewrite Ei. reflexivity.
  - intros feature Hf.
    apply (feature_highlighted T toLonLat w n tfs f k feature Ht Hfk); [|exact Hf].
    intros E. rewrite E in Hin. destruct Hin.
Qed.

(** A triangle on which [booleanValid] fails, followed by a point. *)
Lemma polygon_failure_is_reported_witness :
  let T := Demo.turf_with true false false in
  let w := Sample.drawn [Sample.square_1; Sample.point_a] in
  exists n,
    fst (V2.checkTopology T Sample.geographic w) = Ok n
    /\ In (PolygonInvalid 1 "booleanValid failed") (reported n)
    /\ In Sample.square_1 (highlightSource (snd (V2.checkTopology T Sample.geographic w))).
Proof.
  intros T w. eexists. split; [vm_compute; reflexivity|].
  destruct (polygon_failure_is_reported T Sample.geographic w _
              {| geometry := turf.Polygon [[(0, 0); (0, 1); (1, 1); (1, 0); (0, 0)]%float];
                 index := 1; originalIndex := 0 |}
              0 _ "booleanValid failed" eq_refl (or_introl eq_refl) eq_refl
              (or_introl eq_refl)) as [_ H].
  destruct (H _ (or_intror eq_refl)) as [H1 H2]. split; [exact H1|].
  exact (proj2 (H2 {| ol.ol_uid := 1; ol.getGeometry := Sample.square_1 |} eq_refl) eq_refl).
Defined.

(** [turf.length] is called outside every [try]: when it throws on a line
    of the collection, the exception leaves [checkTopology] in both
    variants, nothing is reported and the highlight source is left
    cleared. *)
Theorem length_failure_escapes
    (T : turf.lib) (toLonLat : coord -> coord) (w : World) (tfs : list TurfFeature)
    (f : TurfFeature) (k : nat) (coords : list coord) (e : string) :
  turfFeatures T toLonLat (drawSource w) = Ok tfs ->
  In (f, k) (indexed tfs 0) ->
  geometry f = turf.LineString coords ->
  turf.length T (geometry f) = Throw e ->
  (exists e', V1.checkTopology T toLonLat w = (Throw e', set_highlightSource w []))
  /\ (exists e', V2.checkTopology T toLonLat w = (Throw e', set_highlightSource w [])).
Proof.
  intros Ht Hfk Hg He.
  apply (selfCheck_throws_escapes T toLonLat w tfs f k e Ht Hfk).
  unfold selfCheck. rewrite outcome_bind by (try apply local_typeChecks; locality).
  unfold typeChecks. rewrite Hg. unfold lineChecks. cbv zeta.
  rewrite outcome_bind by locality. rewrite outcome_check. cbv beta iota.
  rewrite outcome_bind by locality. rewrite outcome_call, He. reflexivity.
Qed.

Lemma length_failure_escapes_witness :
  let T := Demo.turf_with false true false in
  let w := Sample.drawn [Sample.point_a; Sample.line_1] in
  (exists e', V1.checkTopology T Sample.geographic w = (Throw e', set_highlightSource w []))
  /\ (exists e', V2.checkTopology T Sample.geographic w = (Throw e', set_highlightSource w [])).
Proof.
  intros T w.
  apply (length_failure_escapes T Sample.geographic w
           [ {| geometry := turf.Point (Some (10.0, 20.0)%float);
                index := 1; originalIndex := 0 |};
             {| geometry := turf.LineString [(5, 5); (5, 6)]%float;
                index := 2; originalIndex := 1 |} ]
           {| geometry := turf.LineString [(5, 5); (5, 6)]%float;
              index := 2; originalIndex := 1 |}
           1 [(5, 5); (5, 6)]%float "length failed").
  - reflexivity.
  - right. left. reflexivity.
  - reflexivity.
  - reflexivity.
Defined.

(** Duplicate vertices of a line.  In a run that completes (either
    variant), the entry "duplicate coordinate" of a line is reported
    exactly when two of its vertices, at different positions, are closer
    than 0.000001 on both axes; so a line that returns to one of its
    vertices is always reported. *)
Theorem duplicate_vertices_reported
    (T : turf.lib) (toLonLat : coord -> coord) (w : World) (n : Notification)
    (tfs : list TurfFeature) (f : TurfFeature) (k : nat) (coords : list coord) :
  fst (V1.checkTopology T toLonLat w) = Ok n
  \/ fst (V2.checkTopology T toLonLat w) = Ok n ->
  turfFeatures T toLonLat (drawSource w) = Ok tfs ->
  In (f, k) (indexed tfs 0) ->
  geometry f = turf.LineString coords ->
  (In (LineDuplicatePoint (k + 1)) (reported n)
   <-> exists p q a b,
         p < q /\ nth_error coords p = Some a /\ nth_error coords q = Some b
         /\ samePoint a b = true).
Proof.
  intros Hn Ht Hfk Hg.
  destruct (turfFeatures_wellIndexed T toLonLat _ _ Ht) as [W _].
  destruct (wellIndexed_In tfs W f k Hfk) as [Ei _].
  assert (Hnil : tfs <> []) by (intros ->; destruct Hfk).
  destruct (completed_run T toLonLat w n tfs Hn Ht Hnil) as (_ & Fs & _).
  rewrite Forall_forall in Fs. pose proof (Fs (f, k) Hfk) as Ho. simpl in Ho.
  rewrite <- Ei.
  rewrite (selfCheck_located T toLonLat w n tfs f k (LineDuplicatePoint (index f))
             Hn Ht Hfk eq_refl eq_refl).
  rewrite (line_entries_duplicate T tfs f k coords Hg Ho).
  apply duplicatePoints_In.
Qed.

Lemma duplicate_vertices_reported_witness :
  let w := Sample.drawn [Sample.line_1; Demo.loop] in
  exists n,
    fst (V1.checkTopology Sample.turf Sample.geographic w) = Ok n
    /\ In (LineDuplicatePoint 2) (reported n)
    /\ ~ In (LineDuplicatePoint 1) (reported n).
Proof.
  intros w. eexists. split; [vm_compute; reflexivity|]. split.
  - apply (duplicate_vertices_reported Sample.turf Sample.geographic w _
             [ {| geometry := turf.LineString [(5, 5); (5, 6)]%float;
                  index := 1; originalIndex := 0 |};
               {| geometry := turf.LineString [(5, 5); (5, 6); (5, 5)]%float;
                  index := 2; originalIndex := 1 |} ]
             {| geometry := turf.LineString [(5, 5); (5, 6); (5, 5)]%float;
                index := 2; originalIndex := 1 |}
             1 [(5, 5); (5, 6); (5, 5)]%float (or_introl eq_refl) eq_refl
             (or_intror (or_introl eq_refl)) eq_refl).
    exists 0, 2, (5, 5)%float, (5, 5)%float.
    split; [lia|]. split; [reflexivity|]. split; [reflexivity|]. vm_compute. reflexivity.
  - intros H.
    apply (duplicate_vertices_reported Sample.turf Sample.geographic w _
             [ {| geometry := turf.LineString [(5, 5); (5, 6)]%float;
                  index := 1; originalIndex := 0 |};
               {| geometry := turf.LineString [(5, 5); (5, 6); (5, 5)]%float;
                  index := 2; originalIndex := 1 |} ]
             {| geometry := turf.LineString [(5, 5); (5, 6)]%float;
                index := 1; originalIndex := 0 |}
             0 [(5, 5); (5, 6)]%float (or_introl eq_refl) eq_refl
             (or_introl eq_refl) eq_refl) in H.
    destruct H as (p & q & a & b & Hpq & Hp & Hq & Hs).
    destruct p as [|[|p]], q as [|[|q]]; simpl in Hp, Hq; try lia;
      try discriminate; try (destruct q; discriminate).
    inversion Hp; inversion Hq; subst. vm_compute in Hs. discriminate Hs.
Defined.

(** A polygon without self-check violation.  In a run that completes
    (either variant), no self-check violation names a polygon exactly when
    [booleanValid] returns true, its ring has at least three positions
    whose first and last are within 0.000001 on both axes, and [area]
    returns a value that is not below 0.0001; any failure of the library
    on the polygon gives an entry. *)
Theorem clean_polygon_iff
    (T : turf.lib) (toLonLat : coord -> coord) (w : World) (n : Notification)
    (tfs : list TurfFeature) (f : TurfFeature) (k : nat) (rings : list (list coord)) :
  fst (V1.checkTopology T toLonLat w) = Ok n
  \/ fst (V2.checkTopology T toLonLat w) = Ok n ->
  turfFeatures T toLonLat (drawSource w) = Ok tfs ->
  In (f, k) (indexed tfs 0) ->
  geometry f = turf.Polygon rings ->
  ((forall m, In m (reported n) -> isSelfCheck m = true -> involved m <> [k + 1])
   <-> exists coords rest first last area,
         rings = coords :: rest
         /\ turf.booleanValid T (geometry f) = Ok true
         /\ (List.length coords <? 3) = false
         /\ firstPoint coords = Some first /\ lastPoint coords = Some last
         /\ apart first last = false
         /\ turf.area T (geometry f) = Ok area
         /\ lt area 0.0001%float = false).
Proof.
  intros Hn Ht Hfk Hg.
  destruct (turfFeatures_wellIndexed T toLonLat _ _ Ht) as [W _].
  destruct (wellIndexed_In tfs W f k Hfk) as [Ei _].
  rewrite <- (polygon_clean T tfs f k rings Hg), <- Ei. split.
  - intros H.
    destruct (featureEntries T tfs (f, k)) as [|m l] eqn:E; [reflexivity|exfalso].
    assert (Hp : forall c, geometry f <> turf.Point c) by (rewrite Hg; discriminate).
    pose proof (selfCheck_entries_own T tfs f k Hp) as Q. unfold entriesAll in Q.
    change (errors (written (selfCheck T tfs f k))) with (featureEntries T tfs (f, k)) in Q.
    rewrite E in Q. inversion Q as [|? ? [Hs Hi] _]; subst.
    apply (H m); [|exact Hs|exact Hi].
    apply (selfCheck_located T toLonLat w n tfs f k m Hn Ht Hfk Hs Hi).
    rewrite E. left. reflexivity.
  - intros E m Hm Hs Hi.
    apply (selfCheck_located T toLonLat w n tfs f k m Hn Ht Hfk Hs Hi) in Hm.
    rewrite E in Hm. destruct Hm.
Qed.

Lemma clean_polygon_iff_witness :
  let w := Sample.drawn [Sample.square_1; Sample.speck] in
  exists n,
    fst (V1.checkTopology Sample.turf Sample.geographic w) = Ok n
    /\ (forall m, In m (reported n) -> isSelfCheck m = true -> involved m <> [1])
    /\ In (PolygonAreaTooSmall 2) (reported n).
Proof.
  intros w. eexists. split; [vm_compute; reflexivity|]. split; [|left; reflexivity].
  apply (clean_polygon_iff Sample.turf Sample.geographic w _
           [ {| geometry := turf.Polygon [[(0, 0); (0, 1); (1, 1); (1, 0); (0, 0)]%float];
                index := 1; originalIndex := 0 |};
             {| geometry :=
                  turf.Polygon [[(0, 0); (0, 0.0000001); (0.0000001, 0); (0, 0)]%float];
                index := 2; originalIndex := 1 |} ]
           {| geometry := turf.Polygon [[(0, 0); (0, 1); (1, 1); (1, 0); (0, 0)]%float];
              index := 1; originalIndex := 0 |}
           0 [[(0, 0); (0, 1); (1, 1); (1, 0); (0, 0)]%float]
           (or_introl eq_refl) eq_refl (or_introl eq_refl) eq_refl).
  do 5 eexists. repeat split; try reflexivity; vm_compute; reflexivity.
Defined.

(** Soundness of the coincidence entries.  In a run that completes
    (either variant), an entry "points i and j too close (d m)" names two
    different features, both points, for which [turf.distance] returned
    [d], and [d] is below 0.1: no point is compared with itself. *)
Theorem coincidence_entries_sound
    (T : turf.lib) (toLonLat : coord -> coord) (w : World) (n : Notification)
    (tfs : list TurfFeature) (i j : nat) (d : number) :
  fst (V1.checkTopology T toLonLat w) = Ok n
  \/ fst (V2.checkTopology T toLonLat w) = Ok n ->
  turfFeatures T toLonLat (drawSource w) = Ok tfs ->
  In (PointsTooClose i j d) (reported n) ->
  i <> j
  /\ exists f o,
       nth_error tfs (i - 1) = Some f /\ nth_error tfs (j - 1) = Some o
       /\ 1 <= i /\ 1 <= j
       /\ type f = TPoint /\ type o = TPoint
       /\ turf.distance T (geometry f) (geometry o) = Ok d
       /\ lt d 0.1%float = true.
Proof.
  intros Hn Ht Hm.
  destruct (coincidence_origin T toLonLat w n tfs i j d Hn Ht Hm)
    as (f & o & p & q & Hf & Ho & -> & -> & Hpq & Tf & To & Hd & Hl).
  split; [lia|]. exists f, o.
  apply indexed_In in Hf as [_ Hf]. apply indexed_In in Ho as [_ Ho].
  rewrite Nat.sub_0_r in Hf, Ho.
  replace (p + 1 - 1) with p by lia. replace (q + 1 - 1) with q by lia.
  repeat split; auto; lia.
Qed.

Lemma coincidence_entries_sound_witness :
  let w := Sample.drawn [Sample.point_a; Sample.point_b] in
  exists n d,
    fst (V2.checkTopology Sample.turf Sample.geographic w) = Ok n
    /\ In (PointsTooClose 2 1 d) (reported n)
    /\ lt d 0.1%float = true.
Proof.
  intros w. eexists. eexists. split; [vm_compute; reflexivity|].
  assert (H : In (PointsTooClose 2 1 0.015725347750906431%float)
                 (reported (TopologyErrors
                    [PointsTooClose 1 2 0.015725347750906431%float;
                     PointsTooClose 2 1 0.015725347750906431%float])))
    by (right; left; reflexivity).
  split; [exact H|].
  destruct (coincidence_entries_sound Sample.turf Sample.geographic w _
              [ {| geometry := turf.Point (Some (10.0, 20.0)%float);
                   index := 1; originalIndex := 0 |};
                {| geometry := turf.Point (Some (10.0000001, 20.0000001)%float);
                   index := 2; originalIndex := 1 |} ]
              2 1 _ (or_intror eq_refl) eq_refl H)
    as (_ & f & o & _ & _ & _ & _ & _ & _ & _ & Hl).
  exact Hl.
Defined.

(** ** What is highlighted *)

(** Nothing is highlighted without an entry.  After a run on a collection
    that is not empty and completes (either variant), every geometry of
    the highlight source is that of a drawn feature which some reported
    entry marks: the first feature of an entry of the callbacks, one of
    the two features of an entry of a pair that is not a note. *)
Theorem highlighted_only_with_entry
    (T : turf.lib) (toLonLat : coord -> coord) (w : World) (n : Notification)
    (g : ol.Geometry) :
  drawSource w <> [] ->
  (fst (V1.checkTopology T toLonLat w) = Ok n ->
   In g (highlightSource (snd (V1.checkTopology T toLonLat w))) ->
   exists p feature m,
     nth_error (drawSource w) p = Some feature /\ g = ol.getGeometry feature
     /\ In m (reported n) /\ In (S p) (flagged m))
  /\ (fst (V2.checkTopology T toLonLat w) = Ok n ->
      In g (highlightSource (snd (V2.checkTopology T toLonLat w))) ->
      exists p feature m,
        nth_error (drawSource w) p = Some feature /\ g = ol.getGeometry feature
        /\ In m (reported n) /\ In (S p) (flagged m)).
Proof.
  intros Hne. split; intros Hn Hg.
  - exact (V1_highlight_entry T toLonLat w n g Hne Hn Hg).
  - exact (V2_highlight_entry T toLonLat w n g Hne Hn Hg).
Qed.

Lemma highlighted_only_with_entry_witness :
  let w := Sample.drawn [Sample.point_a; Sample.speck; Sample.point_b] in
  exists p feature m,
    nth_error (drawSource w) p = Some feature /\ Sample.speck = ol.getGeometry feature
    /\ In (S p) (flagged m).
Proof.
  intros w.
  destruct (proj1 (highlighted_only_with_entry Sample.turf Sample.geographic w _
                     Sample.speck ltac:(discriminate)) eq_refl)
    as (p & feature & m & H1 & H2 & _ & H3).
  - vm_compute. right. left. reflexivity.
  - exists p, feature, m. auto.
Defined.

(** One highlight for each feature.  [errorFeatureIndices] is a Set:
    after a run on a collection that is not empty (either variant,
    completed or not) the highlight source holds the clones of features
    at pairwise different positions, so never more geometries than there
    are drawn features, however many entries name a feature. *)
Theorem one_highlight_per_feature
    (T : turf.lib) (toLonLat : coord -> coord) (w : World) :
  drawSource w <> [] ->
  (exists indices,
     NoDup indices
     /\ highlightSource (snd (V1.checkTopology T toLonLat w))
        = highlights (drawSource w) indices
     /\ List.length (highlightSource (snd (V1.checkTopology T toLonLat w)))
        <= List.length (drawSource w))
  /\ (exists indices,
        NoDup indices
        /\ highlightSource (snd (V2.checkTopology T toLonLat w))
           = highlights (drawSource w) indices
        /\ List.length (highlightSource (snd (V2.checkTopology T toLonLat w)))
           <= List.length (drawSource w)).
Proof.
  intros Hne. split.
  - rewrite (V1_checkTopology_run T toLonLat w Hne).
    destruct (turfFeatures T toLonLat (drawSource w)) as [tfs|e];
      [|exists []; repeat split; [constructor|apply Nat.le_0_l]].
    destruct (outcome (V1.validate T tfs)) as [[]|e];
      [|exists []; repeat split; [constructor|apply Nat.le_0_l]].
    pose proof (written_NoDup (V1.validate T tfs) (V1_local_validate T tfs)) as N.
    exists (errorFeatureIndices (written (V1.validate T tfs))).
    repeat split; [exact N|]. simpl. apply highlights_length, N.
  - rewrite (V2_checkTopology_run T toLonLat w Hne).
    destruct (turfFeatures T toLonLat (drawSource w)) as [tfs|e];
      [|exists []; repeat split; [constructor|apply Nat.le_0_l]].
    destruct (outcome (V2.validate T tfs)) as [[]|e];
      [|exists []; repeat split; [constructor|apply Nat.le_0_l]].
    pose proof (written_NoDup (V2.validate T tfs) (V2_local_validate T tfs)) as N.
    exists (errorFeatureIndices (written (V2.validate T tfs))).
    repeat split; [exact N|]. simpl. apply highlights_length, N.
Qed.

(** Three points on one spot: six entries, three highlights. *)
Lemma one_highlight_per_feature_witness :
  let w := Sample.drawn [Sample.point_a; Sample.point_b; Sample.point_a] in
  (exists n, fst (V1.checkTopology Sample.turf Sample.geographic w) = Ok n
             /\ List.length (reported n) = 6)
  /\ List.length (highlightSource (snd (V1.checkTopology Sample.turf Sample.geographic w)))
     <= 3.
Proof.
  intros w. split; [eexists; split; vm_compute; reflexivity|].
  destruct (proj1 (one_highlight_per_feature Sample.turf Sample.geographic w
                     ltac:(discriminate))) as (indices & _ & _ & H).
  exact H.
Defined.

(** Notes are listed as errors and highlight nothing.  When a run of the
    first variant on a collection that is not empty completes and reports
    notes only (adjacent polygons, a line inside a polygon, shared
    boundary points), the highlight source is left empty, although the
    entries are shown as topology errors. *)
Theorem notes_highlight_nothing
    (T : turf.lib) (toLonLat : coord -> coord) (w : World) (n : Notification) :
  drawSource w <> [] ->
  fst (V1.checkTopology T toLonLat w) = Ok n ->
  (forall m, In m (reported n) -> isNote m = true) ->
  highlightSource (snd (V1.checkTopology T toLonLat w)) = []
  /\ (reported n <> [] -> n = TopologyErrors (reported n)).
Proof.
  intros Hne Hn Hnotes. split.
  - destruct (highlightSource (snd (V1.checkTopology T toLonLat w))) as [|g l] eqn:E;
      [reflexivity|exfalso].
    destruct (V1_highlight_entry T toLonLat w n g Hne Hn) as (p & feature & m & _ & _ & Hm & Hf).
    + rewrite E. left. reflexivity.
    + rewrite (flagged_note m (Hnotes m Hm)) in Hf. destruct Hf.
  - destruct (V1_checkTopology_completes T toLonLat w n Hne Hn) as (tfs & _ & _ & -> & _).
    rewrite reported_notification. unfold notification.
    destruct (errors (written (V1.validate T tfs))); [congruence|reflexivity].
Qed.

(** Two squares that the library finds adjacent. *)
Lemma notes_highlight_nothing_witness :
  let T := Demo.turf_with false false true in
  let w := Sample.drawn [Sample.square_1; Sample.square_2] in
  fst (V1.checkTopology T Sample.geographic w) = Ok (TopologyErrors [PolygonsAdjacent 1 2])
  /\ highlightSource (snd (V1.checkTopology T Sample.geographic w)) = [].
Proof.
  intros T w. split; [vm_compute; reflexivity|].
  apply (notes_highlight_nothing T Sample.geographic w
           (TopologyErrors [PolygonsAdjacent 1 2]) ltac:(discriminate) eq_refl).
  intros m [<-|[]]. reflexivity.
Defined.

(** ** The two variants side by side *)

(** The annotated variant checks less.  On the same collection and with
    the same library, whenever the first variant completes so does the
    annotated one, and every entry it reports and every geometry it
    highlights is reported and highlighted by the first variant too. *)
Theorem annotated_variant_reports_less
    (T : turf.lib) (toLonLat : coord -> coord) (w : World) (n1 : Notification) :
  fst (V1.checkTopology T toLonLat w) = Ok n1 ->
  exists n2,
    fst (V2.checkTopology T toLonLat w) = Ok n2
    /\ incl (reported n2) (reported n1)
    /\ incl (highlightSource (snd (V2.checkTopology T toLonLat w)))
            (highlightSource (snd (V1.checkTopology T toLonLat w))).
Proof. apply V2_run_follows. Qed.

(** Two lines with a dangling end: an entry in the first variant, none in
    the annotated one. *)
Lemma annotated_variant_reports_less_witness :
  let w := Sample.drawn [Sample.line_1; Sample.line_2] in
  fst (V1.checkTopology Sample.turf Sample.geographic w)
  = Ok (TopologyErrors [DanglingEndpoint 1 2 0.50037750002056125%float])
  /\ exists n2,
       fst (V2.checkTopology Sample.turf Sample.geographic w) = Ok n2
       /\ incl (reported n2) [DanglingEndpoint 1 2 0.50037750002056125%float].
Proof.
  intros w. split; [vm_compute; reflexivity|].
  destruct (annotated_variant_reports_less Sample.turf Sample.geographic w
              (TopologyErrors [DanglingEndpoint 1 2 0.50037750002056125%float]) eq_refl)
    as (n2 & H1 & H2 & _).
  exists n2. split; [exact H1|exact H2].
Defined.

(** The report of the annotated variant.  When [checkTopology] of the
    annotated variant completes, the entries shown are those of the
    callback of each feature, by ascending position, then those of each
    pair in scan order with the earlier feature first in the scan; and the
    highlight source holds the geometry of every feature an entry marks. *)
Theorem V2_entries_in_pass_order
    (T : turf.lib) (toLonLat : coord -> coord) (w : World) (n : Notification)
    (tfs : list TurfFeature) :
  fst (V2.checkTopology T toLonLat w) = Ok n ->
  turfFeatures T toLonLat (drawSource w) = Ok tfs ->
  reported n
  = flat_map (featureEntries T tfs) (indexed tfs 0)
    ++ flat_map (fun ff => errors (written (V2.pairCheck T (fst ff) (snd ff)))) (pairs tfs)
  /\ map (fun fk => index (fst fk)) (indexed tfs 0) = seq 1 (List.length (drawSource w))
  /\ (forall f k, In (f, k) (indexed tfs 0) ->
        Forall (featureEntry f) (featureEntries T tfs (f, k)))
  /\ StronglySorted pairBefore
       (map (fun ff => (index (fst ff), index (snd ff))) (pairs tfs))
  /\ (forall f1 f2, In (f1, f2) (pairs tfs) ->
        index f1 < index f2
        /\ Forall (pairEntry f1 f2) (errors (written (V2.pairCheck T f1 f2))))
  /\ (forall m p feature,
        In m (reported n) -> In (S p) (flagged m) ->
        nth_error (drawSource w) p = Some feature ->
        In (ol.getGeometry feature)
           (highlightSource (snd (V2.checkTopology T toLonLat w)))).
Proof.
  intros Hn Ht.
  destruct (turfFeatures_wellIndexed T toLonLat _ _ Ht) as [W Hlen].
  assert (R1 : map (fun fk => index (fst fk)) (indexed tfs 0)
               = seq 1 (List.length (drawSource w)))
    by (rewrite indexed_const_map, <- Hlen; apply wellIndexed_positions, W).
  assert (R2 : forall f k, In (f, k) (indexed tfs 0) ->
                 Forall (featureEntry f) (featureEntries T tfs (f, k)))
    by (intros f k _; apply selfCheck_entries).
  assert (R3 : StronglySorted pairBefore
                 (map (fun ff => (index (fst ff), index (snd ff))) (pairs tfs)))
    by (apply pairs_sorted; rewrite (wellIndexed_positions tfs W); apply seq_sorted).
  assert (R4 : forall f1 f2, In (f1, f2) (pairs tfs) ->
                 index f1 < index f2
                 /\ Forall (pairEntry f1 f2) (errors (written (V2.pairCheck T f1 f2)))).
  { intros f1 f2 H. split; [|apply V2_pairCheck_entries].
    destruct (wellIndexed_pairs tfs W f1 f2 H) as (p & q & Hpq & _ & _ & E1 & E2 & _).
    lia. }
  assert (D : drawSource w = [] \/ drawSource w <> [])
    by (destruct (drawSource w); [left; reflexivity|right; discriminate]).
  destruct D as [Ed|Hne].
  { unfold V2.checkTopology in Hn |- *. rewrite Ed in Hn, R1, Ht |- *. simpl in Hn |- *.
    inversion Hn; subst n. rewrite turfFeatures_nil in Ht. inversion Ht; subst tfs.
    refine (conj eq_refl (conj R1 (conj R2 (conj R3 (conj R4 _))))).
    intros m p feature []. }
  destruct (V2_checkTopology_completes T toLonLat w n Hne Hn) as (tfs' & Ht' & Hv & -> & Hh).
  rewrite Ht in Ht'. inversion Ht'; subst tfs'.
  rewrite reported_notification, (V2_validate_entries T tfs Hv).
  refine (conj eq_refl (conj R1 (conj R2 (conj R3 (conj R4 _))))).
  intros m p feature Hm Hf Hp. rewrite Hh. apply (highlights_In _ _ p); [|exact Hp].
  destruct (V2_validate_completes T tfs Hv) as (Fs & Fp & ->).
  rewrite !indices_extend, !indices_gather.
  rewrite !in_app_iff, !in_flat_map in Hm.
  destruct Hm as [([f k] & Hfk & Hm)|([f1 f2] & Hff & Hm)].
  - left. exists (written (selfCheck T tfs f k)). split.
    + apply in_map_iff. exists (f, k). auto.
    + pose proof (R2 f k Hfk) as Q. rewrite Forall_forall in Q.
      rewrite (flagged_featureEntry f m (Q m Hm)) in Hf. destruct Hf as [Hf|[]].
      destruct (wellIndexed_In tfs W f k Hfk) as [E1 E2].
      assert (p = originalIndex f) as -> by lia.
      rewrite Forall_forall in Fs.
      apply (selfCheck_highlights T tfs f k (Fs (f, k) Hfk)).
      intros E. rewrite E in Hm. destruct Hm.
  - right. exists (written (V2.pairCheck T f1 f2)). split.
    + apply in_map_iff. exists (f1, f2). auto.
    + destruct (R4 f1 f2 Hff) as [_ Q]. rewrite Forall_forall in Q. simpl in Hm.
      destruct (flagged_pairEntry f1 f2 m (S p) (Q m Hm) Hf) as [Hnote Hi].
      destruct (V2_pairCheck_flags T f1 f2 m Hm Hnote) as [H1 H2].
      destruct (wellIndexed_pairs tfs W f1 f2 Hff) as (a & b & _ & _ & _ & E1 & E2 & O1 & O2).
      destruct Hi as [Hi|Hi]; [assert (p = originalIndex f1) as -> by lia
                              |assert (p = originalIndex f2) as -> by lia]; assumption.
Qed.

Lemma V2_entries_in_pass_order_witness :
  let w := Sample.drawn [Sample.point_a; Sample.speck; Sample.point_b] in
  exists n,
    fst (V2.checkTopology Sample.turf Sample.geographic w) = Ok n
    /\ In Sample.speck
          (highlightSource (snd (V2.checkTopology Sample.turf Sample.geographic w))).
Proof.
  intros w. eexists. split; [vm_compute; reflexivity|].
  eapply (proj2 (proj2 (proj2 (proj2 (proj2
            (V2_entries_in_pass_order Sample.turf Sample.geographic w _ _
               eq_refl eq_refl))))))
    with (p := 1) (feature := {| ol.ol_uid := 2; ol.getGeometry := Sample.speck |}).
  - right. left. reflexivity.
  - left. reflexivity.
  - reflexivity.
Defined.

(** ** The range dialog *)

(** [validateNumber] keeps a field that is empty or holds a number in the
    domain of the field (longitudes for [minX] and [maxX], latitudes for
    [minY] and [maxY]) and shows nothing; any other value is emptied with
    one error message.  Only that field of the form changes, and a second
    call changes and shows nothing. *)
Theorem validateNumber_keeps_numbers_in_domain
    (parseFloat : string -> number) (field : Field) (w : World) :
  let value := getField (rangeForm w) field in
  let r := V2Tool.validateNumber parseFloat field w in
  (value = EmptyString \/ inFieldDomain field (parseFloat value) = true -> r = (None, w))
  /\ (value <> EmptyString -> inFieldDomain field (parseFloat value) = false ->
      exists m, fst r = Some m /\ isError m = true
                /\ snd r = set_rangeForm w (setField (rangeForm w) field EmptyString))
  /\ (forall other, other <> field ->
        getField (rangeForm (snd r)) other = getField (rangeForm w) other)
  /\ set_rangeForm (snd r) (rangeForm w) = w
  /\ V2Tool.validateNumber parseFloat field (snd r) = (None, snd r).
Proof.
  cbv zeta. rewrite validateNumber_run.
  destruct (String.eqb_spec (getField (rangeForm w) field) EmptyString) as [E|E].
  - repeat split; try reflexivity.
    + intros He _. contradiction.
    + destruct w; reflexivity.
    + simpl. rewrite validateNumber_run, E. reflexivity.
  - destruct (inFieldDomain field (parseFloat (getField (rangeForm w) field))) eqn:D.
    + repeat split; try reflexivity.
      * intros _ H. discriminate H.
      * destruct w; reflexivity.
      * simpl. rewrite validateNumber_run, D.
        destruct (String.eqb _ _); reflexivity.
    + split; [intros [H|H]; [contradiction|discriminate]|].
      split.
      { intros _ _. eexists. split; [reflexivity|]. split; [|reflexivity].
        destruct (isNaN _); [reflexivity|]. destruct field; reflexivity. }
      split; [intros other Ho; destruct field, other; try reflexivity; contradiction Ho;
              reflexivity|].
      split; [destruct w; reflexivity|].
      simpl. rewrite validateNumber_run.
      assert (Em : getField (setField (rangeForm w) field EmptyString) field = EmptyString)
        by (destruct field; reflexivity).
      simpl. rewrite Em. reflexivity.
Qed.

Lemma validateNumber_keeps_numbers_in_domain_witness :
  let w := Sample.withForm Sample.loaded (Sample.form "200" "0" "10" "10") in
  V2Tool.validateNumber Sample.parseFloat Field_minY w = (None, w)
  /\ exists m, fst (V2Tool.validateNumber Sample.parseFloat Field_minX w) = Some m
               /\ isError m = true
               /\ rangeForm (snd (V2Tool.validateNumber Sample.parseFloat Field_minX w))
                  = Sample.form EmptyString "0" "10" "10".
Proof.
  intros w.
  destruct (validateNumber_keeps_numbers_in_domain Sample.parseFloat Field_minY w)
    as (H1 & _).
  destruct (validateNumber_keeps_numbers_in_domain Sample.parseFloat Field_minX w)
    as (_ & H2 & _).
  split; [apply H1; right; reflexivity|].
  destruct (H2 ltac:(discriminate) eq_refl) as (m & Hm & He & Hs).
  exists m. split; [exact Hm|]. split; [exact He|]. rewrite Hs. reflexivity.
Defined.

(** A form whose four fields are filled and pass [validateNumber] passes
    the number and domain tests of [confirmRange] (annotated variant):
    once the form validated, the outcome is decided by the ordering and
    the span only. *)
Theorem validated_fields_pass_domain_tests
    (parseFloat : string -> number) (fromLonLat : coord -> coord)
    (formValid : RangeForm -> bool) (w : World) :
  formValid (rangeForm w) = true ->
  (forall field,
     getField (rangeForm w) field <> EmptyString
     /\ fst (V2Tool.validateNumber parseFloat field w) = None) ->
  fst (V2.confirmRange parseFloat fromLonLat formValid w) = Some MinNotBelowMax
  \/ fst (V2.confirmRange parseFloat fromLonLat formValid w) = Some RangeTooSmall
  \/ exists extent,
       fst (V2.confirmRange parseFloat fromLonLat formValid w) = Some (RangeInstalled extent)
       /\ rangeExtent (snd (V2.confirmRange parseFloat fromLonLat formValid w)) = Some extent.
Proof.
  intros Hv H.
  assert (D : forall field,
             inFieldDomain field (parseFloat (getField (rangeForm w) field)) = true)
    by (intro field; destruct (H field); apply validated_value; assumption).
  destruct (inside_tests (-180)%float 180%float _ eq_refl eq_refl (D Field_minX))
    as (N1 & A1 & B1).
  destruct (inside_tests (-90)%float 90%float _ eq_refl eq_refl (D Field_minY))
    as (N2 & A2 & B2).
  destruct (inside_tests (-180)%float 180%float _ eq_refl eq_refl (D Field_maxX))
    as (N3 & A3 & B3).
  destruct (inside_tests (-90)%float 90%float _ eq_refl eq_refl (D Field_maxY))
    as (N4 & A4 & B4).
  cbn [getField] in *.
  unfold V2.confirmRange, V2.longitudeOutOfDomain, V2.latitudeOutOfDomain.
  rewrite Hv. cbv zeta.
  rewrite N1, N2, N3, N4, A1, A2, A3, A4, B1, B2, B3, B4. cbn [orb].
  destruct (ge _ _ || ge _ _); [left; reflexivity|].
  destruct (lt _ _ || lt _ _); [right; left; reflexivity|].
  right. right. eexists. split; reflexivity.
Qed.

Lemma validated_fields_pass_domain_tests_witness :
  let w := Sample.withForm Sample.loaded (Sample.form "10" "0" "0" "10") in
  fst (V2.confirmRange Sample.parseFloat Sample.geographic (fun _ => true) w)
  = Some MinNotBelowMax.
Proof.
  intros w.
  destruct (validated_fields_pass_domain_tests Sample.parseFloat Sample.geographic
              (fun _ => true) w eq_refl) as [H|[H|(extent & H & _)]].
  - intros field. destruct field; split; try discriminate; reflexivity.
  - exact H.
  - discriminate H.
  - discriminate H.
Defined.

(** ** The toolbar *)

(** At most one Draw interaction is on the map.  Whatever the user does
    after the script has loaded, in either variant, the map holds no Draw
    interaction or exactly one, which is the one [drawInteraction] holds
    and was created for the current [drawingMode]: choosing a tool again
    and again never stacks interactions. *)
Theorem toolbar_single_draw_interaction
    (T : turf.lib) (toLonLat fromLonLat : coord -> coord)
    (parseFloat : string -> number) (formValid : RangeForm -> bool)
    (actions : list Action) :
  (let t := V1Tool.run T toLonLat parseFloat formValid actions loadedTool in
   List.length (interactions t) <= 1
   /\ forall interaction,
        In interaction (interactions t) ->
        drawInteraction t = Some interaction
        /\ drawingMode t = Some (draw_type interaction))
  /\ (let t := V2Tool.run T toLonLat fromLonLat parseFloat formValid actions loadedTool in
      List.length (interactions t) <= 1
      /\ forall interaction,
           In interaction (interactions t) ->
           drawInteraction t = Some interaction
           /\ drawingMode t = Some (draw_type interaction)).
Proof.
  assert (S : forall t, singleInteraction t ->
                List.length (interactions t) <= 1
                /\ forall interaction,
                     In interaction (interactions t) ->
                     drawInteraction t = Some interaction
                     /\ drawingMode t = Some (draw_type interaction)).
  { intros t [E|(d & Ed & Em & Ei)].
    - rewrite E. split; [apply Nat.le_0_l|intros ? []].
    - rewrite Ei. split; [apply Nat.le_refl|].
      intros ? [<-|[]]. split; assumption. }
  split; cbv zeta; apply S.
  - apply V1_run_single.
  - apply V2_run_single.
Qed.

(** Three tools chosen in turn in the first variant. *)
Lemma toolbar_single_draw_interaction_witness :
  interactions (V1Tool.run Sample.turf Sample.geographic Sample.parseFloat (fun _ => true)
                  [Click "point"; Click "line"; Click "polygon"]%string loadedTool)
  = [ {| draw_uid := 2; draw_type := TPolygon |} ]
  /\ List.length
       (interactions (V1Tool.run Sample.turf Sample.geographic Sample.parseFloat
                        (fun _ => true)
                        [Click "point"; Click "line"; Click "polygon"]%string loadedTool))
     <= 1.
Proof.
  split; [reflexivity|].
  exact (proj1 (proj1 (toolbar_single_draw_interaction Sample.turf Sample.geographic
                         Sample.geographic Sample.parseFloat (fun _ => true)
                         [Click "point"; Click "line"; Click "polygon"]%string))).
Defined.

(** No drawing before a range (annotated variant).  Whatever the user
    does after the script has loaded, as long as no range is installed no
    Draw interaction is on the map and nothing is drawn: every drawing
    tool only warns, the topology check finds nothing to check, and the
    zoom warns. *)
Theorem no_drawing_before_range
    (T : turf.lib) (toLonLat fromLonLat : coord -> coord)
    (parseFloat : string -> number) (formValid : RangeForm -> bool)
    (actions : list Action) :
  let t := V2Tool.run T toLonLat fromLonLat parseFloat formValid actions loadedTool in
  rangeExtent (world t) = None ->
  interactions t = [] /\ drawSource (world t) = [] /\ rangeLayer (world t) = []
  /\ (forall type_, V2Tool.startDrawing type_ t = (Some RangeNotSet, t))
  /\ fst (V2Tool.checkTopology T toLonLat t) = Some (Checked NothingToCheck)
  /\ V2Tool.zoomToRange fromLonLat t = NoRangeToZoom.
Proof.
  cbv zeta. intros E.
  pose proof (V2_run_rangeShown T toLonLat fromLonLat parseFloat formValid actions) as R.
  unfold rangeShown in R. rewrite E in R. destruct R as (R1 & R2 & R3 & R4).
  set (t := V2Tool.run T toLonLat fromLonLat parseFloat formValid actions loadedTool) in *.
  repeat split; try assumption.
  - intros type_. unfold V2Tool.startDrawing. rewrite E.
    assert (Ew : withoutDrawInteraction t = interactions t)
      by (unfold withoutDrawInteraction; rewrite R3; reflexivity).
    rewrite Ew. f_equal. apply Tool_eta.
  - unfold V2Tool.checkTopology, V2.checkTopology, ol.getFeatures. cbn [fst].
    rewrite R4. reflexivity.
  - unfold V2Tool.zoomToRange. rewrite R1, E. reflexivity.
Qed.

(** Choosing tools and sketching without a range. *)
Lemma no_drawing_before_range_witness :
  let t := V2Tool.run Sample.turf Sample.geographic Sample.geographic Sample.parseFloat
             (fun _ => true)
             [Click "polygon";
              Sketch [ {| ol.ol_uid := 1; ol.getGeometry := Sample.square_1 |} ];
              Click "range"; Confirm]%string loadedTool in
  interactions t = [] /\ drawSource (world t) = [].
Proof.
  intros t.
  destruct (no_drawing_before_range Sample.turf Sample.geographic Sample.geographic
              Sample.parseFloat (fun _ => true)
              [Click "polygon";
               Sketch [ {| ol.ol_uid := 1; ol.getGeometry := Sample.square_1 |} ];
               Click "range"; Confirm]%string eq_refl) as (H1 & H2 & _).
  split; assumption.
Defined.

(** An installed range stays valid and shown (annotated variant).
    Whatever the user does after the script has loaded, an installed
    range satisfies the ordering, domain and span rules, the range layer
    holds its rectangle and nothing else, and [zoomToRange] fits the view
    to that layer: its branch for a range without rectangle is never
    taken. *)
Theorem installed_range_valid_and_shown
    (T : turf.lib) (toLonLat fromLonLat : coord -> coord)
    (parseFloat : string -> number) (formValid : RangeForm -> bool)
    (actions : list Action) (extent : ol.Extent) :
  let t := V2Tool.run T toLonLat fromLonLat parseFloat formValid actions loadedTool in
  rangeExtent (world t) = Some extent ->
  RangeConstraint.rules (ol.minX extent) (ol.minY extent)
                        (ol.maxX extent) (ol.maxY extent) = true
  /\ rangeLayer (world t)
     = [V2.rangeFeature fromLonLat (ol.minX extent) (ol.minY extent)
                        (ol.maxX extent) (ol.maxY extent)]
  /\ V2Tool.zoomToRange fromLonLat t
     = FitRangeLayer [V2.rangeFeature fromLonLat (ol.minX extent) (ol.minY extent)
                                      (ol.maxX extent) (ol.maxY extent)].
Proof.
  cbv zeta. intros E.
  pose proof (V2_run_rangeShown T toLonLat fromLonLat parseFloat formValid actions) as R.
  unfold rangeShown in R. rewrite E in R. destruct R as (R1 & R2).
  repeat split; try assumption.
  unfold V2Tool.zoomToRange. rewrite R2. reflexivity.
Qed.

Lemma installed_range_valid_and_shown_witness :
  let t := V2Tool.run Sample.turf Sample.geographic Sample.geographic Sample.parseFloat
             (fun _ => true) (Demo.session ++ [Click "clear"; Click "zoom"]%string)
             loadedTool in
  rangeExtent (world t) = Some Sample.extent_0_0_10_10
  /\ V2Tool.zoomToRange Sample.geographic t
     = FitRangeLayer [ol.Polygon [[(0, 0); (10, 0); (10, 10); (0, 10); (0, 0)]%float]].
Proof.
  intros t. split; [reflexivity|].
  exact (proj2 (proj2 (installed_range_valid_and_shown Sample.turf Sample.geographic
                         Sample.geographic Sample.parseFloat (fun _ => true)
                         (Demo.session ++ [Click "clear"; Click "zoom"]%string)
                         Sample.extent_0_0_10_10 eq_refl))).
Defined.

(** A range is never removed.  In either variant, once a range is
    installed no action of the user takes it away again: a later
    confirmation can only replace it, and clearing the drawings leaves
    it. *)
Theorem range_never_removed
    (T : turf.lib) (toLonLat fromLonLat : coord -> coord)
    (parseFloat : string -> number) (formValid : RangeForm -> bool)
    (actions : list Action) (t : Tool) :
  rangeExtent (world t) <> None ->
  rangeExtent (world (V1Tool.run T toLonLat parseFloat formValid actions t)) <> None
  /\ rangeExtent (world (V2Tool.run T toLonLat fromLonLat parseFloat formValid actions t))
     <> None.
Proof.
  intros H. split.
  - unfold V1Tool.run.
    apply (fold_invariant (fun t => rangeExtent (world t) <> None)); [exact H|].
    intros a t'. apply V1_step_keeps_range.
  - unfold V2Tool.run.
    apply (fold_invariant (fun t => rangeExtent (world t) <> None)); [exact H|].
    intros a t'. apply V2_step_keeps_range.
Qed.

Lemma range_never_removed_witness :
  let t := V2Tool.run Sample.turf Sample.geographic Sample.geographic Sample.parseFloat
             (fun _ => true) Demo.session loadedTool in
  rangeExtent (world (V2Tool.run Sample.turf Sample.geographic Sample.geographic
                        Sample.parseFloat (fun _ => true)
                        [Click "clear"; Click "range"; Confirm]%string t))
  <> None.
Proof.
  intros t.
  apply (range_never_removed Sample.turf Sample.geographic Sample.geographic
           Sample.parseFloat (fun _ => true) [Click "clear"; Click "range"; Confirm]%string t).
  discriminate.
Defined.

(** Clearing, then checking.  After [clearAllDrawings] the drawing and
    highlight sources are empty and the drawing mode is reset, while the
    range, its rectangle and the dialog are as before; the topology check
    that follows, in either variant, finds nothing to check and changes
    nothing.  When at most one Draw interaction was on the map, none is
    left. *)
Theorem clear_then_check
    (T : turf.lib) (toLonLat : coord -> coord) (t : Tool) :
  let t' := clearAllDrawings t in
  world t' = set_highlightSource (set_drawSource (world t) []) []
  /\ drawInteraction t' = None /\ drawingMode t' = None
  /\ (singleInteraction t -> interactions t' = [])
  /\ V1Tool.checkTopology T toLonLat t' = (Some (Checked NothingToCheck), t')
  /\ V2Tool.checkTopology T toLonLat t' = (Some (Checked NothingToCheck), t').
Proof.
  cbv zeta. split; [apply clearAllDrawings_world|].
  split; [unfold clearAllDrawings; destruct (drawInteraction t); reflexivity|].
  split; [unfold clearAllDrawings; destruct (drawInteraction t); reflexivity|].
  split; [apply clearAllDrawings_single|].
  unfold V1Tool.checkTopology, V2Tool.checkTopology, V1.checkTopology, V2.checkTopology,
    ol.getFeatures.
  rewrite clearAllDrawings_world. cbn [drawSource set_highlightSource set_drawSource
                                        List.length Nat.eqb fst snd shownCheck].
  rewrite <- clearAllDrawings_world.
  assert (E : set_world (clearAllDrawings t) (world (clearAllDrawings t))
              = clearAllDrawings t) by (destruct (clearAllDrawings t); reflexivity).
  rewrite E. split; reflexivity.
Qed.

Lemma clear_then_check_witness :
  let t := V2Tool.run Sample.turf Sample.geographic Sample.geographic Sample.parseFloat
             (fun _ => true) Demo.session loadedTool in
  drawSource (world t) <> []
  /\ interactions (clearAllDrawings t) = []
  /\ fst (V2Tool.checkTopology Sample.turf Sample.geographic (clearAllDrawings t))
     = Some (Checked NothingToCheck).
Proof.
  intros t. split; [discriminate|].
  destruct (clear_then_check Sample.turf Sample.geographic t) as (_ & _ & _ & H1 & _ & H2).
  split.
  - apply H1. right. eexists. repeat split.
  - rewrite H2. reflexivity.
Defined.

(** ** Edge cases *)

(** Shared-boundary notes need three polygons.  The polygon group check
    of the first variant runs only when the collection holds more than two
    polygons: a completed run on a collection with at most two polygons
    reports no shared-boundary note, however their rings lie. *)
Theorem shared_boundary_needs_three_polygons
    (T : turf.lib) (toLonLat : coord -> coord) (w : World) (n : Notification)
    (tfs : list TurfFeature) :
  fst (V1.checkTopology T toLonLat w) = Ok n ->
  turfFeatures T toLonLat (drawSource w) = Ok tfs ->
  List.length (filter (fun f => TypeName_eqb (type f) TPolygon) tfs) <= 2 ->
  forall i j shared, ~ In (SharedBoundaryPoints i j shared) (reported n).
Proof.
  intros Hn Ht Hp i j shared Hm.
  assert (D : drawSource w = [] \/ drawSource w <> [])
    by (destruct (drawSource w); [left; reflexivity|right; discriminate]).
  destruct D as [Ed|Hne].
  { unfold V1.checkTopology in Hn. rewrite Ed in Hn. simpl in Hn.
    inversion Hn; subst n. destruct Hm. }
  destruct (V1_checkTopology_completes T toLonLat w n Hne Hn) as (tfs' & Ht' & Hv & -> & _).
  rewrite Ht in Ht'. inversion Ht'; subst tfs'.
  rewrite reported_notification, (V1_validate_entries T tfs Hv) in Hm.
  rewrite (V1_few_polygons_no_group T tfs Hp), app_nil_r in Hm.
  apply in_app_or in Hm as [Hm|Hm]; apply in_flat_map in Hm as (x & _ & Hm).
  - destruct x as [f k].
    pose proof (selfCheck_entries T tfs f k) as Q. unfold entriesAll in Q.
    rewrite Forall_forall in Q.
    destruct (Q _ Hm) as [[Hs _]|(b & d & E)]; discriminate.
  - destruct x as [f1 f2].
    pose proof (V1_pairCheck_entries T f1 f2) as Q. unfold entriesAll in Q.
    rewrite Forall_forall in Q. destruct (Q _ Hm) as (_ & _ & Hg & _).
    exact (Hg i j shared eq_refl).
Qed.

(** Two squares with a common edge. *)
Lemma shared_boundary_needs_three_polygons_witness :
  let w := Sample.drawn [Sample.square_1; Sample.square_2] in
  exists n,
    fst (V1.checkTopology Sample.turf Sample.geographic w) = Ok n
    /\ forall i j shared, ~ In (SharedBoundaryPoints i j shared) (reported n).
Proof.
  intros w. eexists. split; [vm_compute; reflexivity|].
  apply (shared_boundary_needs_three_polygons Sample.turf Sample.geographic w _
           [ {| geometry := turf.Polygon [[(0, 0); (0, 1); (1, 1); (1, 0); (0, 0)]%float];
                index := 1; originalIndex := 0 |};
             {| geometry := turf.Polygon [[(1, 0); (1, 1); (2, 1); (2, 0); (1, 0)]%float];
                index := 2; originalIndex := 1 |} ] eq_refl eq_refl).
  simpl. lia.
Defined.

(** The range test lets NaN through.  With a range installed, the
    [drawend] handler of the annotated variant keeps a point whose
    longitude and latitude are both NaN, whatever the range: each of the
    four comparisons with NaN is false. *)
Theorem point_with_NaN_is_admitted
    (toLonLat : coord -> coord) (getExtent : ol.Geometry -> ol.Extent)
    (w : World) (feature : ol.Feature) (extent : ol.Extent) (c : coord) :
  rangeExtent w = Some extent ->
  ol.getGeometry feature = ol.Point c ->
  isNaN (fst (toLonLat c)) = true -> isNaN (snd (toLonLat c)) = true ->
  V2.drawend toLonLat getExtent w feature = (Ok None, w).
Proof.
  intros He Hg Hx Hy. unfold V2.drawend, V2.isWithinRange, V2.inside.
  rewrite He, Hg.
  destruct (lt_NaN (fst (toLonLat c)) (ol.minX extent) Hx) as [A1 _].
  destruct (lt_NaN (fst (toLonLat c)) (ol.maxX extent) Hx) as [_ A2].
  destruct (lt_NaN (snd (toLonLat c)) (ol.minY extent) Hy) as [A3 _].
  destruct (lt_NaN (snd (toLonLat c)) (ol.maxY extent) Hy) as [_ A4].
  unfold gt, lt in *. rewrite A1, A2, A3, A4. reflexivity.
Qed.

Lemma point_with_NaN_is_admitted_witness :
  let feature := {| ol.ol_uid := 1;
                    ol.getGeometry := ol.Point (PrimFloat.nan, PrimFloat.nan) |} in
  let w := set_drawSource (Sample.withExtent Sample.loaded Sample.extent_0_0_10_10)
                          [feature] in
  V2.drawend Sample.geographic Sample.getExtent w feature = (Ok None, w).
Proof.
  intros feature w.
  apply (point_with_NaN_is_admitted Sample.geographic Sample.getExtent w feature
           Sample.extent_0_0_10_10
           (PrimFloat.nan, PrimFloat.nan)); reflexivity.
Defined.
